(** * koi: the QOI decoder (koi_image.h) and encoder (koi_image_write.h)

    A shallow embedding of the two single-header libraries and the
    properties of the codec that are stated about them.

    Conventions of the embedding.
    - A C integer is a [Z]; every conversion the C code performs to a
      narrower or unsigned type is written out ([u8], [s8], [u32], [i32]).
      Arithmetic in [int] is the arithmetic of [Z]: the theorems that
      depend on it carry the bound that keeps the C computation in range.
    - A byte buffer is a [list Z]; [buf !!! n] reads and [<[n:=v]> buf]
      writes.  A write outside an allocated buffer is not defined in C:
      [poke] reports it and the decoder answers [Undef].
    - A function that returns NULL (or 0) after [koi__err] answers
      [Fail reason], with the brief failure tag of the default build.
    - [malloc] is an oracle [alloc : Z -> bool] telling whether a request
      of that size is granted; every request is logged. *)

From Stdlib Require Import Ascii String.
From stdpp Require Import base numbers list strings.

Local Open Scope Z_scope.

(** ** Integer types of the C code *)

(** [koi_uc], [koiw_uc]: unsigned char. *)
Definition u8 (z : Z) : Z := z mod 256.

(** [koiw_sc]: signed char (two's complement conversion). *)
Definition s8 (z : Z) : Z := (z + 128) mod 256 - 128.

(** [koi__uint32]. *)
Definition u32 (z : Z) : Z := z mod 2 ^ 32.

(** [int], converted from an unsigned 32-bit value (two's complement). *)
Definition i32 (z : Z) : Z := (z + 2 ^ 31) mod 2 ^ 32 - 2 ^ 31.

Definition INT_MAX : Z := 2 ^ 31 - 1.

(** [#define KOI_MAX_DIMENSIONS (1 << 24)] *)
Definition KOI_MAX_DIMENSIONS : Z := Z.shiftl 1 24.

(** A value that fits an unsigned char. *)
Definition is_byte (z : Z) : Prop := 0 <= z < 256.

(** Character constants of the magic. *)
Definition ch_q : Z := 113.
Definition ch_o : Z := 111.
Definition ch_i : Z := 105.
Definition ch_f : Z := 102.

(** ** Results *)

Inductive outcome (A : Type) : Type :=
| Ok (a : A)
| Fail (reason : string)
| Undef.
Arguments Ok {A} a.
Arguments Fail {A} reason.
Arguments Undef {A}.

(** [buf[pos] = v] on a buffer of [length buf] bytes. *)
Definition poke (buf : list Z) (pos v : Z) : option (list Z) :=
  if (0 <=? pos) && (pos <? Z.of_nat (length buf))
  then Some (<[Z.to_nat pos := v]> buf)
  else None.

(** ** koi__context and the pull input *)

(** The object a stream pointer points into: the caller's memory span or
    the 128-byte [buffer_start] of the context. *)
Inductive region : Type := UserMem | RefillBuf.

Record ptr : Type := { base : region; off : Z }.

Definition ptr_add (p : ptr) (n : Z) : ptr :=
  {| base := base p; off := off p + n |}.

(** [p < q] and [p - q] for two pointers into the same object. *)
Definition ptr_lt (p q : ptr) : bool := off p <? off q.
Definition ptr_diff (p q : ptr) : Z := off p - off q.

Section Stream.

(** The state behind the user's callbacks ([void* user]). *)
Context {U : Type}.

(** [koi_io_callbacks].  [read user size] answers the bytes it stored
    into [data] (their number is the value the C callback returns) and
    the state of the source afterwards. *)
Record koi_io_callbacks : Type := {
  read : U -> Z -> list Z * U;
  skip : U -> Z -> U
}.

Record koi__context : Type := {
  img_x : Z;
  img_y : Z;
  img_n : Z;
  img_out_n : Z;
  io : option koi_io_callbacks;
  io_user_data : U;
  read_from_callbacks : bool;
  buflen : Z;
  buffer_start : list Z;
  callback_already_read : Z;
  img_buffer : ptr;
  img_buffer_end : ptr;
  img_buffer_original : ptr;
  img_buffer_original_end : ptr;
  (** the memory span the context borrows from the caller *)
  user_mem : list Z
}.

(** [*p] *)
Definition deref (s : koi__context) (p : ptr) : Z :=
  match base p with
  | UserMem => user_mem s !!! Z.to_nat (off p)
  | RefillBuf => buffer_start s !!! Z.to_nat (off p)
  end.

Definition buffer_ptr (n : Z) : ptr := {| base := RefillBuf; off := n |}.
Definition mem_ptr (n : Z) : ptr := {| base := UserMem; off := n |}.

Definition set_cursor (s : koi__context) (p : ptr) : koi__context :=
  {| img_x := img_x s; img_y := img_y s; img_n := img_n s;
     img_out_n := img_out_n s; io := io s; io_user_data := io_user_data s;
     read_from_callbacks := read_from_callbacks s; buflen := buflen s;
     buffer_start := buffer_start s;
     callback_already_read := callback_already_read s;
     img_buffer := p; img_buffer_end := img_buffer_end s;
     img_buffer_original := img_buffer_original s;
     img_buffer_original_end := img_buffer_original_end s;
     user_mem := user_mem s |}.

(** [koi__start_mem]: the context [s] is the caller's uninitialised
    local, [buffer] the borrowed span and [len] its length. *)
Definition koi__start_mem (s : koi__context) (buffer : list Z) (len : Z)
  : koi__context :=
  {| img_x := img_x s; img_y := img_y s; img_n := img_n s;
     img_out_n := img_out_n s;
     io := None;
     io_user_data := io_user_data s;
     read_from_callbacks := false;
     buflen := buflen s;
     buffer_start := buffer_start s;
     callback_already_read := 0;
     img_buffer := mem_ptr 0;
     img_buffer_end := mem_ptr len;
     img_buffer_original := mem_ptr 0;
     img_buffer_original_end := mem_ptr len;
     user_mem := buffer |}.

(** [koi__refill_buffer].  The callback stores its bytes at the start of
    [buffer_start]; a return of 0 turns the stream into a memory stream
    over one zero byte.  [io.read] is a null pointer in a memory stream;
    the function is only called when [read_from_callbacks] is set. *)
Definition koi__refill_buffer (s : koi__context) : koi__context :=
  match io s with
  | None => s
  | Some cb =>
    let '(data, user) := read cb (io_user_data s) (buflen s) in
    let n := Z.of_nat (length data) in
    let filled := data ++ drop (length data) (buffer_start s) in
    let already :=
      callback_already_read s
      + ptr_diff (img_buffer s) (img_buffer_original s) in
    if n =? 0 then
      {| img_x := img_x s; img_y := img_y s; img_n := img_n s;
         img_out_n := img_out_n s; io := io s; io_user_data := user;
         read_from_callbacks := false;
         buflen := buflen s;
         buffer_start := <[0%nat := 0]> filled;
         callback_already_read := already;
         img_buffer := buffer_ptr 0;
         img_buffer_end := buffer_ptr 1;
         img_buffer_original := img_buffer_original s;
         img_buffer_original_end := img_buffer_original_end s;
         user_mem := user_mem s |}
    else
      {| img_x := img_x s; img_y := img_y s; img_n := img_n s;
         img_out_n := img_out_n s; io := io s; io_user_data := user;
         read_from_callbacks := read_from_callbacks s;
         buflen := buflen s;
         buffer_start := filled;
         callback_already_read := already;
         img_buffer := buffer_ptr 0;
         img_buffer_end := buffer_ptr n;
         img_buffer_original := img_buffer_original s;
         img_buffer_original_end := img_buffer_original_end s;
         user_mem := user_mem s |}
  end.

(** [koi__start_callbacks] *)
Definition koi__start_callbacks (s : koi__context) (c : koi_io_callbacks)
    (user : U) : koi__context :=
  let s1 :=
    {| img_x := img_x s; img_y := img_y s; img_n := img_n s;
       img_out_n := img_out_n s;
       io := Some c;
       io_user_data := user;
       read_from_callbacks := true;
       buflen := 128;
       buffer_start := buffer_start s;
       callback_already_read := 0;
       img_buffer := buffer_ptr 0;
       img_buffer_end := img_buffer_end s;
       img_buffer_original := buffer_ptr 0;
       img_buffer_original_end := img_buffer_original_end s;
       user_mem := user_mem s |} in
  let s2 := koi__refill_buffer s1 in
  {| img_x := img_x s2; img_y := img_y s2; img_n := img_n s2;
     img_out_n := img_out_n s2; io := io s2;
     io_user_data := io_user_data s2;
     read_from_callbacks := read_from_callbacks s2;
     buflen := buflen s2;
     buffer_start := buffer_start s2;
     callback_already_read := callback_already_read s2;
     img_buffer := img_buffer s2;
     img_buffer_end := img_buffer_end s2;
     img_buffer_original := img_buffer_original s2;
     img_buffer_original_end := img_buffer_end s2;
     user_mem := user_mem s2 |}.

(** [koi__rewind] *)
Definition koi__rewind (s : koi__context) : koi__context :=
  {| img_x := img_x s; img_y := img_y s; img_n := img_n s;
     img_out_n := img_out_n s; io := io s; io_user_data := io_user_data s;
     read_from_callbacks := read_from_callbacks s; buflen := buflen s;
     buffer_start := buffer_start s;
     callback_already_read := callback_already_read s;
     img_buffer := img_buffer_original s;
     img_buffer_end := img_buffer_original_end s;
     img_buffer_original := img_buffer_original s;
     img_buffer_original_end := img_buffer_original_end s;
     user_mem := user_mem s |}.

(** [koi__get8] *)
Definition koi__get8 (s : koi__context) : Z * koi__context :=
  if ptr_lt (img_buffer s) (img_buffer_end s) then
    (deref s (img_buffer s), set_cursor s (ptr_add (img_buffer s) 1))
  else if read_from_callbacks s then
    let s1 := koi__refill_buffer s in
    (deref s1 (img_buffer s1), set_cursor s1 (ptr_add (img_buffer s1) 1))
  else (0, s).

(** [koi__get16be] *)
Definition koi__get16be (s : koi__context) : Z * koi__context :=
  let '(hi, s1) := koi__get8 s in
  let z := Z.shiftl hi 8 in
  let '(lo, s2) := koi__get8 s1 in
  (z + lo, s2).

(** [koi__get32be]: the sum is formed in [koi__uint32]. *)
Definition koi__get32be (s : koi__context) : Z * koi__context :=
  let '(hi, s1) := koi__get16be s in
  let z := u32 (Z.shiftl hi 16) in
  let '(lo, s2) := koi__get16be s1 in
  (u32 (z + u32 lo), s2).

End Stream.

Arguments koi_io_callbacks U : clear implicits.
Arguments koi__context U : clear implicits.

(** ** Size arithmetic *)

(** [koi__addsizes_valid] *)
Definition koi__addsizes_valid (a b : Z) : bool :=
  if b <? 0 then false else a <=? INT_MAX - b.

(** [koi__mul2sizes_valid]: [/] is C division of non-negative ints. *)
Definition koi__mul2sizes_valid (a b : Z) : bool :=
  if (a <? 0) || (b <? 0) then false
  else if b =? 0 then true
  else a <=? INT_MAX `quot` b.

(** [koi__mad3sizes_valid] *)
Definition koi__mad3sizes_valid (a b c add : Z) : bool :=
  koi__mul2sizes_valid a b && koi__mul2sizes_valid (a * b) c
  && koi__addsizes_valid (a * b * c) add.

(** ** The QOI decoder *)

(** [koi__qoi_pixel] (and [koiw__qoi_pixel], whose [color[0..3]] are
    [r], [g], [b], [a] and whose [v] is the four bytes read as one word). *)
Record koi__qoi_pixel : Type := { r : Z; g : Z; b : Z; a : Z }.

Global Instance koi__qoi_pixel_inhabited : Inhabited koi__qoi_pixel :=
  populate {| r := 0; g := 0; b := 0; a := 0 |}.

(** [memset(index, 0, sizeof(index))] *)
Definition zero_px : koi__qoi_pixel := {| r := 0; g := 0; b := 0; a := 0 |}.
Definition index_zero : list koi__qoi_pixel := replicate 64 zero_px.

(** [prev_px] at the start of both loops. *)
Definition start_px : koi__qoi_pixel := {| r := 0; g := 0; b := 0; a := 255 |}.

(** [KOI_QOI_COLOR_HASH], [KOIW_QOI_COLOR_HASH] *)
Definition KOI_QOI_COLOR_HASH (px : koi__qoi_pixel) : Z :=
  r px * 3 + g px * 5 + b px * 7 + a px * 11.

(** [koi__qoi_data] *)
Record koi__qoi_data : Type := { ch_n : Z; cspace : Z }.

(** [koi__result_info] *)
Record koi__result_info : Type := { bits_per_channel : Z; num_channels : Z }.

(** The three locations [x], [y], [comp] a caller passes; [None] is a
    null pointer, [Some v] a location that holds [v]. *)
Record out_ptrs : Type := {
  x_loc : option Z;
  y_loc : option Z;
  comp_loc : option Z
}.

(** [if (p) *p = v] *)
Definition store_if (p : option Z) (v : Z) : option Z :=
  match p with Some _ => Some v | None => None end.

(** [target] of [koi__qoi_load]: 3 or 4 are decoded directly, anything
    else is converted afterwards. *)
Definition qoi_target (req_comp channels : Z) : Z :=
  if negb (req_comp =? 0) && (req_comp >=? 3)
  then u8 req_comp else u8 channels.

Section Decoder.

Context {U : Type}.

(** The allocator: whether [malloc] grants a request of that many bytes. *)
Variable alloc : Z -> bool.

(** [koi__vertically_flip_on_load], the setting in force for the call. *)
Variable koi__vertically_flip_on_load : bool.

Definition set_img_x (s : koi__context U) (v : Z) : koi__context U :=
  {| img_x := v; img_y := img_y s; img_n := img_n s;
     img_out_n := img_out_n s; io := io s; io_user_data := io_user_data s;
     read_from_callbacks := read_from_callbacks s; buflen := buflen s;
     buffer_start := buffer_start s;
     callback_already_read := callback_already_read s;
     img_buffer := img_buffer s; img_buffer_end := img_buffer_end s;
     img_buffer_original := img_buffer_original s;
     img_buffer_original_end := img_buffer_original_end s;
     user_mem := user_mem s |}.

Definition set_img_y (s : koi__context U) (v : Z) : koi__context U :=
  {| img_x := img_x s; img_y := v; img_n := img_n s;
     img_out_n := img_out_n s; io := io s; io_user_data := io_user_data s;
     read_from_callbacks := read_from_callbacks s; buflen := buflen s;
     buffer_start := buffer_start s;
     callback_already_read := callback_already_read s;
     img_buffer := img_buffer s; img_buffer_end := img_buffer_end s;
     img_buffer_original := img_buffer_original s;
     img_buffer_original_end := img_buffer_original_end s;
     user_mem := user_mem s |}.

Definition set_img_n (s : koi__context U) (v : Z) : koi__context U :=
  {| img_x := img_x s; img_y := img_y s; img_n := v;
     img_out_n := img_out_n s; io := io s; io_user_data := io_user_data s;
     read_from_callbacks := read_from_callbacks s; buflen := buflen s;
     buffer_start := buffer_start s;
     callback_already_read := callback_already_read s;
     img_buffer := img_buffer s; img_buffer_end := img_buffer_end s;
     img_buffer_original := img_buffer_original s;
     img_buffer_original_end := img_buffer_original_end s;
     user_mem := user_mem s |}.

(** [koi__qoi_test_raw] *)
Definition koi__qoi_test_raw (s : koi__context U) : bool * koi__context U :=
  let size := ptr_diff (img_buffer_original_end s) (img_buffer_original s) in
  if size <? 14 + 8 then (false, s) else
  let '(c0, s0) := koi__get8 s in
  if negb (c0 =? ch_q) then (false, s0) else
  let '(c1, s1) := koi__get8 s0 in
  if negb (c1 =? ch_o) then (false, s1) else
  let '(c2, s2) := koi__get8 s1 in
  if negb (c2 =? ch_i) then (false, s2) else
  let '(c3, s3) := koi__get8 s2 in
  if negb (c3 =? ch_f) then (false, s3) else
  (true, s3).

(** [koi__qoi_test] *)
Definition koi__qoi_test (s : koi__context U) : bool * koi__context U :=
  let '(r, s1) := koi__qoi_test_raw s in
  (r, koi__rewind s1).

(** [koi__qoi_parse_header]: the four comparisons of the magic are joined
    by [||], so reading stops at the first byte that differs. *)
Definition koi__qoi_parse_header (s : koi__context U)
  : outcome koi__qoi_data * koi__context U :=
  let '(c0, s0) := koi__get8 s in
  if negb (c0 =? ch_q) then (Fail "not QOI", s0) else
  let '(c1, s1) := koi__get8 s0 in
  if negb (c1 =? ch_o) then (Fail "not QOI", s1) else
  let '(c2, s2) := koi__get8 s1 in
  if negb (c2 =? ch_i) then (Fail "not QOI", s2) else
  let '(c3, s3) := koi__get8 s2 in
  if negb (c3 =? ch_f) then (Fail "not QOI", s3) else
  let '(w, s4) := koi__get32be s3 in
  let s4 := set_img_x s4 w in
  let '(h, s5) := koi__get32be s4 in
  let s5 := set_img_y s5 h in
  let '(n, s6) := koi__get8 s5 in
  if negb (n =? 3) && negb (n =? 4) then (Fail "QOI CHANNELS", s6) else
  let '(cs, s7) := koi__get8 s6 in
  if negb (cs =? 0) && negb (cs =? 1) then (Fail "QOI COLORSPACE", s7) else
  (Ok {| ch_n := n; cspace := cs |}, s7).

(** The three or four stores of one decoded pixel:
    [out[pos++] = r; out[pos++] = g; out[pos] = b;
     if (target == 4) out[++pos] = a;].  Answers the buffer and [pos]. *)
Definition qoi_put_pixel (target : Z) (px : koi__qoi_pixel) (out : list Z)
    (pos : Z) : option (list Z * Z) :=
  out1 ← poke out pos (r px);
  let pos := u32 (pos + 1) in
  out2 ← poke out1 pos (g px);
  let pos := u32 (pos + 1) in
  out3 ← poke out2 pos (b px);
  if target =? 4 then
    let pos := u32 (pos + 1) in
    out4 ← poke out3 pos (a px);
    Some (out4, pos)
  else Some (out3, pos).

(** [while (run--) { ... if (run > 0) { ++i; ++pos; } }]: the argument is
    the value [run--] tests. *)
Fixpoint qoi_run_loop (run : nat) (target : Z) (px : koi__qoi_pixel)
    (out : list Z) (i pos : Z) : option (list Z * Z) :=
  match run with
  | O => Some (out, i)
  | S run' =>
    '(out1, pos1) ← qoi_put_pixel target px out pos;
    if (0 <? Z.of_nat run')
    then qoi_run_loop run' target px out1 (u32 (i + 1)) (u32 (pos1 + 1))
    else qoi_run_loop run' target px out1 i pos1
  end.

(** How the pixel loop ends. *)
Inductive loop_end : Type :=
| Done (out : list Z) (s : koi__context U)
| Wild
| Starved.

(** [for (i = 0; i < len; ++i) { ... }] of [koi__qoi_load].  Every turn
    advances [i], so [len] turns of [fuel] are enough
    ([qoi_decode_loop_fuel]). *)
Fixpoint qoi_decode_loop (fuel : nat) (target len : Z) (s : koi__context U)
    (prev_px : koi__qoi_pixel) (index : list koi__qoi_pixel)
    (out : list Z) (i : Z) : loop_end :=
  if i <? len then
    match fuel with
    | O => Starved
    | S fuel' =>
      let pos := u32 (i * target) in
      let '(tag, s) := koi__get8 s in
      let finish (s : koi__context U) (px : koi__qoi_pixel) :=
        let index :=
          <[Z.to_nat (KOI_QOI_COLOR_HASH px `mod` 64) := px]> index in
        match qoi_put_pixel target px out pos with
        | None => Wild
        | Some (out, _) =>
          qoi_decode_loop fuel' target len s px index out (u32 (i + 1))
        end in
      if tag =? 254 then
        let '(vr, s) := koi__get8 s in
        let '(vg, s) := koi__get8 s in
        let '(vb, s) := koi__get8 s in
        finish s {| r := vr; g := vg; b := vb; a := a prev_px |}
      else if tag =? 255 then
        let '(vr, s) := koi__get8 s in
        let '(vg, s) := koi__get8 s in
        let '(vb, s) := koi__get8 s in
        let '(va, s) := koi__get8 s in
        finish s {| r := vr; g := vg; b := vb; a := va |}
      else
        let t := u8 (Z.land tag 192) in
        if t =? 0 then
          finish s (index !!! Z.to_nat tag)
        else if t =? 64 then
          let d := u8 (Z.lxor tag 64) in
          finish s
            {| r := u8 (r prev_px + (Z.land (Z.shiftr d 4) 3 - 2));
               g := u8 (g prev_px + (Z.land (Z.shiftr d 2) 3 - 2));
               b := u8 (b prev_px + (Z.land d 3 - 2));
               a := a prev_px |}
        else if t =? 128 then
          let dg := u8 (Z.lxor tag 128 - 32) in
          let '(d2, s) := koi__get8 s in
          finish s
            {| r := u8 (r prev_px + (dg - 8 + Z.land (Z.shiftr d2 4) 15));
               g := u8 (g prev_px + dg);
               b := u8 (b prev_px + (dg - 8 + Z.land d2 15));
               a := a prev_px |}
        else if t =? 192 then
          let run := u8 (Z.lxor tag 192 + 1) in
          let index :=
            <[Z.to_nat (Z.land (KOI_QOI_COLOR_HASH prev_px) (64 - 1))
              := prev_px]> index in
          match qoi_run_loop (Z.to_nat run) target prev_px out i pos with
          | None => Wild
          | Some (out, i) =>
            qoi_decode_loop fuel' target len s prev_px index out (u32 (i + 1))
          end
        else finish s prev_px
    end
  else Done out s.

(** What a load works on: the stream, the caller's three locations and
    the requests made to [malloc] so far. *)
Record machine : Type := {
  ctx : koi__context U;
  outs : out_ptrs;
  mallocs : list Z
}.

Definition set_ctx (m : machine) (s : koi__context U) : machine :=
  {| ctx := s; outs := outs m; mallocs := mallocs m |}.

Definition set_outs (m : machine) (o : out_ptrs) : machine :=
  {| ctx := ctx m; outs := o; mallocs := mallocs m |}.

(** [koi__malloc]: the fresh block is modelled as zero bytes (its
    contents are indeterminate in C). *)
Definition koi__malloc (m : machine) (size : Z) : option (list Z) * machine :=
  (if alloc size then Some (replicate (Z.to_nat size) 0) else None,
   {| ctx := ctx m; outs := outs m; mallocs := mallocs m ++ [size] |}).

(** [koi__malloc_mad3] *)
Definition koi__malloc_mad3 (m : machine) (a b c add : Z)
  : option (list Z) * machine :=
  if negb (koi__mad3sizes_valid a b c add) then (None, m)
  else koi__malloc m (a * b * c + add).

(** [koi__compute_y] *)
Definition koi__compute_y (r g b : Z) : Z :=
  u8 (Z.shiftr (r * 77 + g * 150 + 29 * b) 8).

(** The bodies of the [KOI__CASE] labels of [koi__convert_format] for
    one pixel whose components are [src 0], [src 1], ...; [None] is the
    [default] label. *)
Definition convert_pixel (img_n req_comp : Z) (src : Z -> Z)
  : option (list Z) :=
  match img_n, req_comp with
  | 1, 2 => Some [src 0; 255]
  | 1, 3 => Some [src 0; src 0; src 0]
  | 1, 4 => Some [src 0; src 0; src 0; 255]
  | 2, 1 => Some [src 0]
  | 2, 3 => Some [src 0; src 0; src 0]
  | 2, 4 => Some [src 0; src 0; src 0; src 1]
  | 3, 4 => Some [src 0; src 1; src 2; 255]
  | 3, 1 => Some [koi__compute_y (src 0) (src 1) (src 2)]
  | 3, 2 => Some [koi__compute_y (src 0) (src 1) (src 2); 255]
  | 4, 1 => Some [koi__compute_y (src 0) (src 1) (src 2)]
  | 4, 2 => Some [koi__compute_y (src 0) (src 1) (src 2); src 3]
  | 4, 3 => Some [src 0; src 1; src 2]
  | _, _ => None
  end.

(** One scanline [j] of [koi__convert_format]: the bytes stored from
    [dest] on, pixel after pixel. *)
Definition convert_row (data : list Z) (img_n req_comp x j : Z)
  : option (list Z) :=
  match convert_pixel img_n req_comp (fun _ => 0) with
  | None => None
  | Some _ =>
    Some (concat
      ((fun k =>
          default []
            (convert_pixel img_n req_comp
               (fun c => data !!! Z.to_nat (j * x * img_n + k * img_n + c))))
       <$> seqZ 0 x))
  end.

(** [koi__convert_format], as built by default: [KOI_ASSERT] is [assert]
    and stops the program ([Undef]), so the ["unsupported"] return that
    follows [KOI_ASSERT(0)] is not reached.  A conversion from 3 or 4
    components to 1..4 reaches neither assertion
    ([convert_format_in_range]). *)
Definition koi__convert_format (m : machine) (data : list Z)
    (img_n req_comp x y : Z) : outcome (list Z) * machine :=
  if req_comp =? img_n then (Ok data, m) else
  if negb ((1 <=? req_comp) && (req_comp <=? 4)) then (Undef, m) else
  let '(good, m) := koi__malloc_mad3 m req_comp (i32 x) (i32 y) 0 in
  match good with
  | None => (Fail "outofmem", m)
  | Some _ =>
    match mapM (convert_row data img_n req_comp x) (seqZ 0 (i32 y)) with
    | None => (Undef, m)
    | Some rows => (Ok (concat rows), m)
    end
  end.

(** [koi__qoi_load] *)
Definition koi__qoi_load (m : machine) (req_comp : Z)
  : outcome (list Z) * machine :=
  let '(hdr, s) := koi__qoi_parse_header (ctx m) in
  let m := set_ctx m s in
  match hdr with
  | Fail e => (Fail e, m)
  | Undef => (Undef, m)
  | Ok info =>
    if img_y s >? KOI_MAX_DIMENSIONS then (Fail "too large", m) else
    if img_x s >? KOI_MAX_DIMENSIONS then (Fail "too large", m) else
    let s := set_img_n s (ch_n info) in
    let m := set_ctx m s in
    let target := qoi_target req_comp (img_n s) in
    if negb (koi__mad3sizes_valid target (i32 (img_x s)) (i32 (img_y s)) 0)
    then (Fail "too large", m) else
    let '(out, m) :=
      koi__malloc_mad3 m target (i32 (img_x s)) (i32 (img_y s)) 0 in
    match out with
    | None => (Fail "outofmem", m)
    | Some out =>
      let len := u32 (img_y s * img_x s) in
      match qoi_decode_loop (Z.to_nat len) target len s start_px index_zero
              out 0 with
      | Wild => (Undef, m)
      | Starved => (Undef, m)
      | Done out s =>
        let m := set_ctx m s in
        let '(conv, m) :=
          if negb (req_comp =? 0) && negb (req_comp =? target)
          then koi__convert_format m out target req_comp (img_x s) (img_y s)
          else (Ok out, m) in
        match conv with
        | Fail e => (Fail e, m)
        | Undef => (Undef, m)
        | Ok out =>
          match x_loc (outs m), y_loc (outs m) with
          | Some _, Some _ =>
            (Ok out,
             set_outs m
               {| x_loc := Some (i32 (img_x s));
                  y_loc := Some (i32 (img_y s));
                  comp_loc := store_if (comp_loc (outs m)) (img_n s) |})
          | _, _ => (Undef, m)
          end
        end
      end
    end
  end.

(** [koi__load_main] *)
Definition koi__load_main (m : machine) (req_comp : Z)
  : outcome (list Z * koi__result_info) * machine :=
  let ri := {| bits_per_channel := 8; num_channels := 0 |} in
  let '(is_qoi, s) := koi__qoi_test (ctx m) in
  let m := set_ctx m s in
  if is_qoi then
    let '(res, m) := koi__qoi_load m req_comp in
    match res with
    | Ok out => (Ok (out, ri), m)
    | Fail e => (Fail e, m)
    | Undef => (Undef, m)
    end
  else (Fail "unknown image type", m).

(** [koi__convert_8_to_16] *)
Definition koi__convert_8_to_16 (m : machine) (orig : list Z)
    (w h channels : Z) : outcome (list Z) * machine :=
  let img_len := w * h * channels in
  let '(enlarged, m) := koi__malloc m (img_len * 2) in
  match enlarged with
  | None => (Fail "outofmem", m)
  | Some _ =>
    (Ok ((fun i =>
            (Z.shiftl (orig !!! Z.to_nat i) 8 + orig !!! Z.to_nat i)
              `mod` 2 ^ 16) <$> seqZ 0 img_len), m)
  end.

(** [memcpy(buf + dst, bytes, length bytes)] inside one buffer. *)
Definition memcpy_at {A} (buf : list A) (dst : Z) (bytes : list A) : list A :=
  take (Z.to_nat dst) buf ++ bytes
  ++ drop (Z.to_nat dst + length bytes) buf.

Definition slice {A} (buf : list A) (from n : Z) : list A :=
  take (Z.to_nat n) (drop (Z.to_nat from) buf).

(** [while (bytes_left) { ... }] of [koi__vertical_flip]: [row0] and
    [row1] are offsets into the image, [chunk] is [sizeof(temp)]. *)
Fixpoint flip_chunks {A} (fuel : nat) (chunk : Z) (image : list A)
    (row0 row1 bytes_left : Z) : list A :=
  if bytes_left =? 0 then image else
  match fuel with
  | O => image
  | S fuel' =>
    let bytes_copy := if bytes_left <? chunk then bytes_left else chunk in
    let temp := slice image row0 bytes_copy in
    let image := memcpy_at image row0 (slice image row1 bytes_copy) in
    let image := memcpy_at image row1 temp in
    flip_chunks fuel' chunk image (row0 + bytes_copy) (row1 + bytes_copy)
      (bytes_left - bytes_copy)
  end.

(** [koi__vertical_flip].  Sizes are counted in elements of the buffer:
    bytes for an 8-bit image ([chunk] is 2048), 16-bit words for a
    promoted one ([chunk] is 1024). *)
Definition koi__vertical_flip {A} (chunk : Z) (image : list A)
    (w h per_pixel : Z) : list A :=
  let bytes_per_row := w * per_pixel in
  foldl (fun image row =>
           flip_chunks (Z.to_nat bytes_per_row) chunk image
             (row * bytes_per_row) ((h - row - 1) * bytes_per_row)
             bytes_per_row)
        image (seqZ 0 (Z.shiftr h 1)).

(** [channels = req_comp ? req_comp : *comp] *)
Definition result_channels (m : machine) (req_comp : Z) : option Z :=
  if negb (req_comp =? 0) then Some req_comp else comp_loc (outs m).

(** [koi__load_and_postprocess_8bit] *)
Definition koi__load_and_postprocess_8bit (m : machine) (req_comp : Z)
  : outcome (list Z) * machine :=
  let '(res, m) := koi__load_main m req_comp in
  match res with
  | Fail e => (Fail e, m)
  | Undef => (Undef, m)
  | Ok (result, ri) =>
    if negb (bits_per_channel ri =? 8) then (Undef, m) else
    if koi__vertically_flip_on_load then
      match result_channels m req_comp, x_loc (outs m), y_loc (outs m) with
      | Some channels, Some x, Some y =>
        (Ok (koi__vertical_flip 2048 result x y channels), m)
      | _, _, _ => (Undef, m)
      end
    else (Ok result, m)
  end.

(** [koi__load_and_postprocess_16bit].  When the promotion fails the
    flip is handed a null pointer. *)
Definition koi__load_and_postprocess_16bit (m : machine) (req_comp : Z)
  : outcome (list Z) * machine :=
  let '(res, m) := koi__load_main m req_comp in
  match res with
  | Fail e => (Fail e, m)
  | Undef => (Undef, m)
  | Ok (result, ri) =>
    if negb ((bits_per_channel ri =? 8) || (bits_per_channel ri =? 16))
    then (Undef, m) else
    match result_channels m req_comp, x_loc (outs m), y_loc (outs m) with
    | Some channels, Some x, Some y =>
      let '(res16, m) :=
        if negb (bits_per_channel ri =? 16)
        then koi__convert_8_to_16 m result x y channels
        else (Ok result, m) in
      match res16 with
      | Undef => (Undef, m)
      | Fail e =>
        if koi__vertically_flip_on_load && (0 <? Z.shiftr y 1)
           && negb (x * (channels * 2) =? 0)
        then (Undef, m) else (Fail e, m)
      | Ok result =>
        if koi__vertically_flip_on_load
        then (Ok (koi__vertical_flip 1024 result x y channels), m)
        else (Ok result, m)
      end
    | _, _, _ => (Undef, m)
    end
  end.

(** [koi_load_from_memory]; [s] is the uninitialised local context, and
    the machine at the end holds what the caller's locations contain. *)
Definition koi_load_from_memory (s : koi__context U) (buffer : list Z)
    (len : Z) (xyc : out_ptrs) (req_comp : Z) : outcome (list Z) * machine :=
  let s := koi__start_mem s buffer len in
  koi__load_and_postprocess_8bit
    {| ctx := s; outs := xyc; mallocs := [] |} req_comp.

(** [koi_load_16_from_memory] *)
Definition koi_load_16_from_memory (s : koi__context U) (buffer : list Z)
    (len : Z) (xyc : out_ptrs) (req_comp : Z) : outcome (list Z) * machine :=
  let s := koi__start_mem s buffer len in
  koi__load_and_postprocess_16bit
    {| ctx := s; outs := xyc; mallocs := [] |} req_comp.

(** [koi_load_from_callbacks] *)
Definition koi_load_from_callbacks (s : koi__context U)
    (clbk : koi_io_callbacks U) (user : U) (xyc : out_ptrs) (req_comp : Z)
  : outcome (list Z) * machine :=
  let s := koi__start_callbacks s clbk user in
  koi__load_and_postprocess_8bit
    {| ctx := s; outs := xyc; mallocs := [] |} req_comp.

(** [koi__qoi_info] *)
Definition koi__qoi_info (m : machine) : bool * machine :=
  let '(p, s) := koi__qoi_parse_header (ctx m) in
  match p with
  | Ok info =>
    (true,
     {| ctx := s;
        outs := {| x_loc := store_if (x_loc (outs m)) (i32 (img_x s));
                   y_loc := store_if (y_loc (outs m)) (i32 (img_y s));
                   comp_loc := store_if (comp_loc (outs m)) (ch_n info) |};
        mallocs := mallocs m |})
  | _ => (false, set_ctx m (koi__rewind s))
  end.

(** [koi__info_main] *)
Definition koi__info_main (m : machine) : outcome Z * machine :=
  let '(ok, m) := koi__qoi_info m in
  if ok then (Ok 1, m) else (Fail "unknown image type", m).

(** [koi_info_from_memory] *)
Definition koi_info_from_memory (s : koi__context U) (buffer : list Z)
    (len : Z) (xyc : out_ptrs) : outcome Z * machine :=
  let s := koi__start_mem s buffer len in
  koi__info_main {| ctx := s; outs := xyc; mallocs := [] |}.

End Decoder.

Arguments machine U : clear implicits.

(** ** The QOI encoder (koi_image_write.h) *)

(** [KOIW_UCHAR] *)
Definition KOIW_UCHAR (x : Z) : Z := u8 (Z.land x 255).

(** [koi__write_context].  [func_calls] is the user's sink: the blocks
    handed to [func], in order.  The bytes of the file are their
    concatenation. *)
Record koi__write_context : Type := {
  func_calls : list (list Z);
  buffer : list Z;
  buf_used : Z
}.

(** [koi__write_context s = { 0 }] *)
Definition write_context_zero : koi__write_context :=
  {| func_calls := []; buffer := replicate 64 0; buf_used := 0 |}.

(** [s->func(s->context, data, size)] *)
Definition call_func (s : koi__write_context) (data : list Z)
  : koi__write_context :=
  {| func_calls := func_calls s ++ [data];
     buffer := buffer s; buf_used := buf_used s |}.

(** [koiw__put8] *)
Definition koiw__put8 (s : koi__write_context) (c : Z) : koi__write_context :=
  call_func s [c].

(** [koiw__put16le], [koiw__put16be] *)
Definition koiw__put16le (s : koi__write_context) (x : Z)
  : koi__write_context :=
  call_func s [KOIW_UCHAR x; KOIW_UCHAR (Z.shiftr x 8)].

Definition koiw__put16be (s : koi__write_context) (x : Z)
  : koi__write_context :=
  call_func s [KOIW_UCHAR (Z.shiftr x 8); KOIW_UCHAR x].

(** [koiw__put32le], [koiw__put32be] *)
Definition koiw__put32le (s : koi__write_context) (x : Z)
  : koi__write_context :=
  call_func s [KOIW_UCHAR x; KOIW_UCHAR (Z.shiftr x 8);
               KOIW_UCHAR (Z.shiftr x 16); KOIW_UCHAR (Z.shiftr x 24)].

Definition koiw__put32be (s : koi__write_context) (x : Z)
  : koi__write_context :=
  call_func s [KOIW_UCHAR (Z.shiftr x 24); KOIW_UCHAR (Z.shiftr x 16);
               KOIW_UCHAR (Z.shiftr x 8); KOIW_UCHAR x].

(** [koiw__writefv] (and [koiw__writef]): [v] are the variadic
    arguments still to be taken. *)
Fixpoint koiw__writefv (s : koi__write_context) (big_endian : bool)
    (fmt : string) (v : list Z) : koi__write_context :=
  match fmt with
  | EmptyString => s
  | String c fmt' =>
    match c, v with
    | " "%char, _ => koiw__writefv s big_endian fmt' v
    | "1"%char, x :: v' =>
      koiw__writefv (koiw__put8 s (KOIW_UCHAR x)) big_endian fmt' v'
    | "2"%char, x :: v' =>
      koiw__writefv
        (if big_endian then koiw__put16be s x else koiw__put16le s x)
        big_endian fmt' v'
    | "4"%char, x :: v' =>
      let x := u32 x in
      koiw__writefv
        (if big_endian then koiw__put32be s x else koiw__put32le s x)
        big_endian fmt' v'
    | _, _ => s
    end
  end.

(** [koiw__write_flush] *)
Definition koiw__write_flush (s : koi__write_context) : koi__write_context :=
  if negb (buf_used s =? 0) then
    {| func_calls := func_calls s ++ [take (Z.to_nat (buf_used s)) (buffer s)];
       buffer := buffer s; buf_used := 0 |}
  else s.

(** [koiw__write1] *)
Definition koiw__write1 (s : koi__write_context) (a : Z)
  : koi__write_context :=
  let s := if buf_used s + 1 >? 64 then koiw__write_flush s else s in
  {| func_calls := func_calls s;
     buffer := <[Z.to_nat (buf_used s) := a]> (buffer s);
     buf_used := buf_used s + 1 |}.

(** [koiw__write3] *)
Definition koiw__write3 (s : koi__write_context) (a b c : Z)
  : koi__write_context :=
  let s := if buf_used s + 3 >? 64 then koiw__write_flush s else s in
  let n := buf_used s in
  {| func_calls := func_calls s;
     buffer := <[Z.to_nat (n + 2) := c]>
                 (<[Z.to_nat (n + 1) := b]>
                    (<[Z.to_nat (n + 0) := a]> (buffer s)));
     buf_used := n + 3 |}.

(** [px[k] = bg[k] + ((d[k] - bg[k]) * d[3]) / 255], stored in a byte. *)
Definition composite (bg dk d3 : Z) : Z := u8 (bg + ((dk - bg) * d3) `quot` 255).

(** [koiw__write_pixel]; [d] reads the components of the pixel. *)
Definition koiw__write_pixel (s : koi__write_context)
    (rgb_dir comp write_alpha : Z) (expand_mono : bool) (d : Z -> Z)
  : koi__write_context :=
  let s := if write_alpha <? 0 then koiw__write1 s (d (comp - 1)) else s in
  let rgb (s : koi__write_context) :=
    koiw__write3 s (d (1 - rgb_dir)) (d 1) (d (1 + rgb_dir)) in
  let s :=
    match comp with
    | 2 | 1 =>
      if expand_mono then koiw__write3 s (d 0) (d 0) (d 0)
      else koiw__write1 s (d 0)
    | 4 =>
      if write_alpha =? 0 then
        let px k :=
          match k with
          | 0 => composite 255 (d 0) (d 3)
          | 1 => composite 0 (d 1) (d 3)
          | _ => composite 255 (d 2) (d 3)
          end in
        koiw__write3 s (px (1 - rgb_dir)) (px 1) (px (1 + rgb_dir))
      else rgb s
    | 3 => rgb s
    | _ => s
    end in
  if write_alpha >? 0 then koiw__write1 s (d (comp - 1)) else s.

(** [koi_read_qoi_pixel]; [d] reads the caller's bytes from the start of
    the pixel.  For a [comp] outside 1..4 the colour bytes are not set by
    the C code (here 0). *)
Definition koi_read_qoi_pixel (comp : Z) (has_alpha : bool) (d : Z -> Z)
  : koi__qoi_pixel :=
  let alpha := if has_alpha then d (comp - 1) else 255 in
  match comp with
  | 2 | 1 => {| r := d 0; g := d 0; b := d 0; a := alpha |}
  | 4 =>
    if negb has_alpha then
      {| r := composite 255 (d 0) (d 3);
         g := composite 0 (d 1) (d 3);
         b := composite 255 (d 2) (d 3);
         a := alpha |}
    else {| r := d 0; g := d 1; b := d 2; a := alpha |}
  | 3 => {| r := d 0; g := d 1; b := d 2; a := alpha |}
  | _ => {| r := 0; g := 0; b := 0; a := alpha |}
  end.

(** [px.v == prev_px.v]: the four bytes of the union agree. *)
Definition px_eqb (p q : koi__qoi_pixel) : bool :=
  (r p =? r q) && (g p =? g q) && (b p =? b q) && (a p =? a q).

(** [px.color[k]] *)
Definition color (p : koi__qoi_pixel) (k : Z) : Z :=
  match k with
  | 0 => r p
  | 1 => g p
  | 2 => b p
  | _ => a p
  end.

(** The ops of the format, as the comments of [koi_write_qoi_core] name
    them.  [QOI_OP_RUN] carries the value of [run] when it is written,
    the other ops the bytes written. *)
Inductive qoi_op : Type :=
| QOI_OP_RUN (run : Z)
| QOI_OP_INDEX (index_pos : Z)
| QOI_OP_DIFF (header : Z)
| QOI_OP_LUMA (first header : Z)
| QOI_OP_RGB (vr vg vb : Z)
| QOI_OP_RGBA (vr vg vb va : Z).

(** The local variables of [koi_write_qoi_core] that live across the
    turns of its loop.  [enc_ops] is not a variable of the C function: it
    records each op at the place where the source writes it. *)
Record enc_state : Type := {
  enc_s : koi__write_context;
  enc_run : Z;
  enc_prev_px : koi__qoi_pixel;
  enc_index : list koi__qoi_pixel;
  enc_ops : list qoi_op
}.

Section Encoder.

(** [koi__vertically_flip_on_write] and [koi__qoi_color_space_on_write],
    the settings in force for the call. *)
Variable koi__vertically_flip_on_write : bool.
Variable koi__qoi_color_space_on_write : Z.

(** [koiw__write1(s, KOIW_UCHAR(0xc0) | (run - 1)); run = 0;] *)
Definition qoi_write_run (st : enc_state) (run : Z) : enc_state :=
  {| enc_s := koiw__write1 (enc_s st) (u8 (Z.lor (KOIW_UCHAR 192) (run - 1)));
     enc_run := 0;
     enc_prev_px := enc_prev_px st;
     enc_index := enc_index st;
     enc_ops := enc_ops st ++ [QOI_OP_RUN run] |}.

(** The body of the loop of [koi_write_qoi_core] for the pixel [px] read
    at [pxi]. *)
Definition qoi_encode_pixel (len : Z) (st : enc_state) (pxi : Z)
    (px : koi__qoi_pixel) : enc_state :=
  let prev_px := enc_prev_px st in
  let st :=
    if px_eqb px prev_px then
      let run := u8 (enc_run st + 1) in
      if (run =? 62) || (pxi =? u32 (len - 1)) then qoi_write_run st run
      else {| enc_s := enc_s st; enc_run := run;
              enc_prev_px := enc_prev_px st; enc_index := enc_index st;
              enc_ops := enc_ops st |}
    else
      let st := if enc_run st >? 0 then qoi_write_run st (enc_run st) else st in
      let s := enc_s st in
      let index := enc_index st in
      let index_pos := Z.land (KOI_QOI_COLOR_HASH px) (64 - 1) in
      if px_eqb (index !!! Z.to_nat index_pos) px then
        {| enc_s := koiw__write1 s (KOIW_UCHAR index_pos);
           enc_run := enc_run st; enc_prev_px := enc_prev_px st;
           enc_index := index;
           enc_ops := enc_ops st ++ [QOI_OP_INDEX (KOIW_UCHAR index_pos)] |}
      else
        let index := <[Z.to_nat index_pos := px]> index in
        let '(s, header, ch, op) :=
          if a px =? a prev_px then
            let dr := s8 (r px - r prev_px) in
            let dg := s8 (g px - g prev_px) in
            let db := s8 (b px - b prev_px) in
            if (dr >? -3) && (dr <? 2) && (dg >? -3) && (dg <? 2)
               && (db >? -3) && (db <? 2) then
              let header :=
                u8 (Z.lor (Z.lor (Z.lor (KOIW_UCHAR 64) (Z.shiftl (dr + 2) 4))
                                 (Z.shiftl (dg + 2) 2))
                          (db + 2)) in
              (s, header, 0, QOI_OP_DIFF header)
            else
              let dr_dg := s8 (dr - dg) in
              let db_dg := s8 (db - dg) in
              if (dr_dg >? -9) && (dr_dg <? 8) && (dg >? -33) && (dg <? 32)
                 && (db_dg >? -9) && (db_dg <? 8) then
                let first := u8 (Z.lor (KOIW_UCHAR 128) (dg + 32)) in
                let s := koiw__write1 s first in
                let header :=
                  u8 (Z.lor (Z.shiftl (dr_dg + 8) 4) (db_dg + 8)) in
                (s, header, 0, QOI_OP_LUMA first header)
              else
                (s, KOIW_UCHAR 254, 3, QOI_OP_RGB (r px) (g px) (b px))
          else
            (s, KOIW_UCHAR 255, 4, QOI_OP_RGBA (r px) (g px) (b px) (a px)) in
        let s := koiw__write1 s header in
        let s :=
          koiw__write_pixel s 1 ch (if ch =? 4 then 1 else 0) true (color px) in
        {| enc_s := s; enc_run := enc_run st; enc_prev_px := enc_prev_px st;
           enc_index := index; enc_ops := enc_ops st ++ [op] |} in
  {| enc_s := enc_s st; enc_run := enc_run st; enc_prev_px := px;
     enc_index := enc_index st; enc_ops := enc_ops st |}.

(** The pixel the loop reads at [pxi]:
    [j = jstart + (pxi / x) * jdir; i = pxi % x;
     row = data + j * x * comp; begin = row + i * comp;].
    The products [j * x * comp] and [i * comp] are formed in [int] by
    the C code; here they are exact, which is the same as long as
    [comp * x * y] fits an [int] ([source_offset_fits]). *)
Definition qoi_source_pixel (x comp : Z) (has_alpha : bool)
    (jstart jdir : Z) (data : list Z) (pxi : Z) : koi__qoi_pixel :=
  let j := i32 (u32 (u32 jstart + u32 (pxi `div` u32 x * u32 jdir))) in
  let i := i32 (pxi `mod` u32 x) in
  let row := j * x * comp in
  let begin := row + i * comp in
  koi_read_qoi_pixel comp has_alpha
    (fun k => data !!! Z.to_nat (begin + k)).

(** [for (pxi = 0; pxi < len; ++pxi) { ... }]: [n] counts the turns
    left, at most [len]. *)
Fixpoint qoi_encode_loop (n : nat) (x comp : Z) (has_alpha : bool)
    (jstart jdir : Z) (data : list Z) (len : Z) (st : enc_state) (pxi : Z)
  : enc_state :=
  match n with
  | O => st
  | S n' =>
    if pxi <? len then
      let px := qoi_source_pixel x comp has_alpha jstart jdir data pxi in
      qoi_encode_loop n' x comp has_alpha jstart jdir data len
        (qoi_encode_pixel len st pxi px) (u32 (pxi + 1))
    else st
  end.

(** [koi_write_qoi_core].  The second component is the write context at
    the end, the third the ops written. *)
Definition koi_write_qoi_core (s : koi__write_context) (x y comp : Z)
    (data : list Z) : outcome Z * koi__write_context * list qoi_op :=
  let has_alpha := (comp =? 2) || (comp =? 4) in
  if (y <? 0) || (x <? 0) then (Fail "bad dimmensions", s, []) else
  let s :=
    koiw__writefv s true "1111 44 11"
      [ch_q; ch_o; ch_i; ch_f; x; y; if has_alpha then 4 else 3;
       if negb (koi__qoi_color_space_on_write =? 0) then 1 else 0] in
  let '(jstart, jdir) :=
    if koi__vertically_flip_on_write then (y - 1, -1) else (0, 1) in
  let len := u32 (x * y) in
  let st :=
    qoi_encode_loop (Z.to_nat len) x comp has_alpha jstart jdir data len
      {| enc_s := s; enc_run := 0; enc_prev_px := start_px;
         enc_index := index_zero; enc_ops := [] |} 0 in
  let s := koiw__write_flush (enc_s st) in
  let s := koiw__writefv s true "11111111" [0; 0; 0; 0; 0; 0; 0; 1] in
  (Ok 1, s, enc_ops st).

(** [koi_write_qoi_to_func] *)
Definition koi_write_qoi_to_func (x y comp : Z) (data : list Z)
  : outcome Z * koi__write_context * list qoi_op :=
  koi_write_qoi_core write_context_zero x y comp data.

(** The byte stream the sink has received. *)
Definition qoi_file (x y comp : Z) (data : list Z) : list Z :=
  concat (func_calls (koi_write_qoi_to_func x y comp data).1.2).

End Encoder.

(** ** Predicates on streams *)

Section StreamProps.

Context {U : Type}.

(** [cursor <= end], both pointing into the same object. *)
Definition cursor_le_end (s : koi__context U) : Prop :=
  base (img_buffer s) = base (img_buffer_end s)
  /\ off (img_buffer s) <= off (img_buffer_end s).

(** The streams the library builds: started over a memory span or over
    callbacks, then read with [koi__get8], whose refill is also a step
    of its own. *)
Inductive reachable : koi__context U -> Prop :=
| reach_mem s buffer len :
    0 <= len -> reachable (koi__start_mem s buffer len)
| reach_callbacks s c user :
    length (buffer_start s) = 128%nat ->
    reachable (koi__start_callbacks s c user)
| reach_get8 s :
    reachable s -> reachable (koi__get8 s).2
| reach_refill s :
    reachable s -> read_from_callbacks s = true ->
    reachable (koi__refill_buffer s).

(** No more input: the stream no longer refills and its cursor is at the
    end, or it stands before the single zero byte a refill leaves when
    the read callback returns 0. *)
Definition at_eof (s : koi__context U) : Prop :=
  read_from_callbacks s = false
  /\ (img_buffer s = img_buffer_end s
      \/ (img_buffer s = buffer_ptr 0 /\ img_buffer_end s = buffer_ptr 1
          /\ buffer_start s !!! 0%nat = 0)).

(** What a reader of the stream can observe besides the cursor. *)
Definition same_contents (s s' : koi__context U) : Prop :=
  user_mem s' = user_mem s
  /\ buffer_start s' = buffer_start s
  /\ io_user_data s' = io_user_data s
  /\ callback_already_read s' = callback_already_read s
  /\ img_buffer_end s' = img_buffer_end s.

(** [n] calls of [koi__get8] in a row. *)
Fixpoint get8_times (n : nat) (s : koi__context U) : list Z * koi__context U :=
  match n with
  | O => ([], s)
  | S n' =>
    let '(c, s1) := koi__get8 s in
    let '(cs, s2) := get8_times n' s1 in
    (c :: cs, s2)
  end.

(** A memory stream whose unread bytes are [bytes]. *)
Definition reads (s : koi__context U) (bytes : list Z) : Prop :=
  read_from_callbacks s = false
  /\ img_buffer_original s = mem_ptr 0
  /\ img_buffer_original_end s = img_buffer_end s
  /\ img_buffer_end s = mem_ptr (Z.of_nat (length (user_mem s)))
  /\ exists p : nat,
       img_buffer s = mem_ptr (Z.of_nat p) /\ drop p (user_mem s) = bytes.

(** [s->img_buffer++] *)
Definition advance (s : koi__context U) : koi__context U :=
  set_cursor s (ptr_add (img_buffer s) 1).

End StreamProps.

(** ** The wire format *)

(** A 32-bit value, most significant byte first ([koiw__put32be]). *)
Definition be32 (x : Z) : list Z :=
  [KOIW_UCHAR (Z.shiftr x 24); KOIW_UCHAR (Z.shiftr x 16);
   KOIW_UCHAR (Z.shiftr x 8); KOIW_UCHAR x].

(** The 14 bytes of a header. *)
Definition qoi_header (width height channels colorspace : Z) : list Z :=
  [ch_q; ch_o; ch_i; ch_f] ++ be32 width ++ be32 height
  ++ [channels; colorspace].

(** The end marker. *)
Definition qoi_trailer : list Z := [0; 0; 0; 0; 0; 0; 0; 1].

(** The bytes of one op. *)
Definition op_bytes (op : qoi_op) : list Z :=
  match op with
  | QOI_OP_RUN run => [u8 (Z.lor (KOIW_UCHAR 192) (run - 1))]
  | QOI_OP_INDEX index_pos => [index_pos]
  | QOI_OP_DIFF header => [header]
  | QOI_OP_LUMA first header => [first; header]
  | QOI_OP_RGB vr vg vb => [254; vr; vg; vb]
  | QOI_OP_RGBA vr vg vb va => [255; vr; vg; vb; va]
  end.

(** What [koi__qoi_parse_header] answers on a header with the right magic. *)
Definition header_verdict (channels colorspace : Z) : outcome koi__qoi_data :=
  if negb (channels =? 3) && negb (channels =? 4) then Fail "QOI CHANNELS"
  else if negb (colorspace =? 0) && negb (colorspace =? 1)
       then Fail "QOI COLORSPACE"
       else Ok {| ch_n := channels; cspace := colorspace |}.

(** A context whose fields are all zero, for the examples. *)
Definition blank_context : koi__context unit :=
  {| img_x := 0; img_y := 0; img_n := 0; img_out_n := 0; io := None;
     io_user_data := tt; read_from_callbacks := false; buflen := 0;
     buffer_start := replicate 128 0; callback_already_read := 0;
     img_buffer := mem_ptr 0; img_buffer_end := mem_ptr 0;
     img_buffer_original := mem_ptr 0; img_buffer_original_end := mem_ptr 0;
     user_mem := [] |}.

(** Three locations the caller has set to [x0], [y0], [c0]. *)
Definition locations (x0 y0 c0 : Z) : out_ptrs :=
  {| x_loc := Some x0; y_loc := Some y0; comp_loc := Some c0 |}.

(** ** The encoder loop without its write context *)

(** The op written for a pixel that is neither a repeat of [prev_px] nor
    in the index: the cascade DIFF, LUMA, RGB, RGBA of
    [koi_write_qoi_core]. *)
Definition pixel_op (prev_px px : koi__qoi_pixel) : qoi_op :=
  if a px =? a prev_px then
    let dr := s8 (r px - r prev_px) in
    let dg := s8 (g px - g prev_px) in
    let db := s8 (b px - b prev_px) in
    if (dr >? -3) && (dr <? 2) && (dg >? -3) && (dg <? 2)
       && (db >? -3) && (db <? 2) then
      QOI_OP_DIFF
        (u8 (Z.lor (Z.lor (Z.lor (KOIW_UCHAR 64) (Z.shiftl (dr + 2) 4))
                          (Z.shiftl (dg + 2) 2))
                   (db + 2)))
    else
      let dr_dg := s8 (dr - dg) in
      let db_dg := s8 (db - dg) in
      if (dr_dg >? -9) && (dr_dg <? 8) && (dg >? -33) && (dg <? 32)
         && (db_dg >? -9) && (db_dg <? 8) then
        QOI_OP_LUMA (u8 (Z.lor (KOIW_UCHAR 128) (dg + 32)))
                    (u8 (Z.lor (Z.shiftl (dr_dg + 8) 4) (db_dg + 8)))
      else QOI_OP_RGB (r px) (g px) (b px)
  else QOI_OP_RGBA (r px) (g px) (b px) (a px).

(** One turn of the loop on [run], [prev_px] and [index] alone: the new
    [run], the new [index] and the ops written. *)
Definition step_ops (len run : Z) (prev_px : koi__qoi_pixel)
    (index : list koi__qoi_pixel) (pxi : Z) (px : koi__qoi_pixel)
  : Z * list koi__qoi_pixel * list qoi_op :=
  if px_eqb px prev_px then
    let run := u8 (run + 1) in
    if (run =? 62) || (pxi =? u32 (len - 1))
    then (0, index, [QOI_OP_RUN run])
    else (run, index, [])
  else
    let pre := if run >? 0 then [QOI_OP_RUN run] else [] in
    let run := if run >? 0 then 0 else run in
    let index_pos := Z.land (KOI_QOI_COLOR_HASH px) (64 - 1) in
    if px_eqb (index !!! Z.to_nat index_pos) px
    then (run, index, pre ++ [QOI_OP_INDEX (KOIW_UCHAR index_pos)])
    else (run, <[Z.to_nat index_pos := px]> index,
          pre ++ [pixel_op prev_px px]).

(** The ops written for the pixels [pxs], the first of which is read at
    [pxi]. *)
Fixpoint encode_ops (len run : Z) (prev_px : koi__qoi_pixel)
    (index : list koi__qoi_pixel) (pxi : Z) (pxs : list koi__qoi_pixel)
  : list qoi_op :=
  match pxs with
  | [] => []
  | px :: pxs' =>
    let '(run', index', ops) := step_ops len run prev_px index pxi px in
    ops ++ encode_ops len run' px index' (pxi + 1) pxs'
  end.

(** The bytes of a list of ops. *)
Definition ops_bytes (ops : list qoi_op) : list Z := concat (op_bytes <$> ops).

(** The write context is in order: the staging buffer has its 64 bytes
    and [buf_used] counts some of them. *)
Definition wctx_ok (s : koi__write_context) : Prop :=
  0 <= buf_used s <= 64 /\ length (buffer s) = 64%nat.

(** All bytes written so far: those the sink has received and those
    still staged. *)
Definition written (s : koi__write_context) : list Z :=
  concat (func_calls s) ++ take (Z.to_nat (buf_used s)) (buffer s).

(** Every RUN op of a list carries a run of 1 to 62 pixels. *)
Definition runs_capped (ops : list qoi_op) : Prop :=
  forall n, QOI_OP_RUN n ∈ ops -> 1 <= n <= 62.

(** A pixel all of whose components fit a byte. *)
Definition byte_px (px : koi__qoi_pixel) : Prop :=
  is_byte (r px) /\ is_byte (g px) /\ is_byte (b px) /\ is_byte (a px).

(** The bytes the decoder stores for one pixel. *)
Definition px_bytes (target : Z) (px : koi__qoi_pixel) : list Z :=
  if target =? 4 then [r px; g px; b px; a px] else [r px; g px; b px].

(** The slot of a pixel in the index. *)
Definition index_slot (px : koi__qoi_pixel) : nat :=
  Z.to_nat (Z.land (KOI_QOI_COLOR_HASH px) (64 - 1)).

(** The index of the decoder follows the index of the encoder: slot by
    slot they agree, except that a run decoded before any other op has
    put the starting pixel into its slot, which the encoder still holds
    as zero. *)
Definition index_sync (enc dec : list koi__qoi_pixel) : Prop :=
  length enc = 64%nat /\ length dec = 64%nat
  /\ forall k, (k < 64)%nat ->
       dec !!! k = enc !!! k
       \/ (k = index_slot start_px /\ enc !!! k = zero_px
           /\ dec !!! k = start_px).

(** The previous pixel is in the encoder's index, unless it is still the
    starting pixel. *)
Definition prev_indexed (enc : list koi__qoi_pixel)
    (prev_px : koi__qoi_pixel) : Prop :=
  enc !!! index_slot prev_px = prev_px
  \/ (prev_px = start_px /\ enc !!! index_slot start_px = zero_px).

(** The pixel of an unflipped 3- or 4-channel buffer at [pxi]. *)
Definition pixel_at (comp : Z) (data : list Z) (pxi : Z) : koi__qoi_pixel :=
  koi_read_qoi_pixel comp ((comp =? 2) || (comp =? 4))
    (fun k => data !!! Z.to_nat (pxi * comp + k)).

(** Reading leaves the image fields of the context alone. *)
Definition same_image {U : Type} (s s' : koi__context U) : Prop :=
  img_x s' = img_x s /\ img_y s' = img_y s /\ img_n s' = img_n s.

(** A memory stream over a span of bytes. *)
Definition byte_stream {U : Type} (s : koi__context U) : Prop :=
  read_from_callbacks s = false /\ base (img_buffer s) = UserMem
  /\ base (img_buffer_original s) = UserMem
  /\ Forall is_byte (user_mem s).

(** ** Further functions of koi_image.h *)

(** [koi__mad4sizes_valid] *)
Definition koi__mad4sizes_valid (a b c d add : Z) : bool :=
  koi__mul2sizes_valid a b && koi__mul2sizes_valid (a * b) c
  && koi__mul2sizes_valid (a * b * c) d
  && koi__addsizes_valid (a * b * c * d) add.

(** [koi__malloc_mad4] *)
Definition koi__malloc_mad4 {U : Type} (alloc : Z -> bool) (m : machine U)
    (a b c d add : Z) : option (list Z) * machine U :=
  if negb (koi__mad4sizes_valid a b c d add) then (None, m)
  else koi__malloc alloc m (a * b * c * d + add).

(** Every block the sink has been handed holds 1 to 64 bytes, and the
    write context is in order. *)
Definition sink_ok (s : koi__write_context) : Prop :=
  wctx_ok s /\ Forall (fun blk => (1 <= length blk <= 64)%nat) (func_calls s).

(** Two streams that deliver the same bytes from now on and hold the
    same image fields. *)
Definition twin {U V : Type} (s1 : koi__context U) (s2 : koi__context V)
  : Prop :=
  (forall n, (get8_times n s1).1 = (get8_times n s2).1)
  /\ img_x s1 = img_x s2 /\ img_y s1 = img_y s2 /\ img_n s1 = img_n s2.

(** The reader [cb], from the state [u] on, delivers [bytes] and then
    reports the end of its input: asked for 128 bytes, each call stores
    between 1 and 128 of them, and 0 when none is left. *)
Inductive serves {U : Type} (cb : koi_io_callbacks U) : U -> list Z -> Prop :=
| serves_end u :
    (read cb u 128).1 = [] -> serves cb u []
| serves_chunk u chunk rest :
    (read cb u 128).1 = chunk -> chunk <> [] -> (length chunk <= 128)%nat ->
    serves cb (read cb u 128).2 rest ->
    serves cb u (chunk ++ rest).

(** How two pixel loops ended the same way. *)
Definition same_end {U V : Type} (e1 : loop_end (U:=U)) (e2 : loop_end (U:=V))
  : Prop :=
  match e1, e2 with
  | Done out1 s1, Done out2 s2 => out1 = out2 /\ twin s1 s2
  | Wild, Wild => True
  | Starved, Starved => True
  | _, _ => False
  end.

(** Two machines whose callers see the same: the same three locations
    and the same requests to [malloc]. *)
Definition alike {U V : Type} (m1 : machine U) (m2 : machine V) : Prop :=
  outs m1 = outs m2 /\ mallocs m1 = mallocs m2.

(** The first [n] bytes a stream over [bytes] answers: its bytes, then
    zeros. *)
Definition feed (bytes : list Z) (n : nat) : list Z :=
  take n (bytes ++ replicate n 0).

(** A stream over the reader [cb]: [pending] are the unread bytes of
    [buffer_start], [rest] those the reader has still to deliver. *)
Definition pulls {U : Type} (cb : koi_io_callbacks U) (s : koi__context U)
    (pending rest : list Z) : Prop :=
  length (buffer_start s) = 128%nat
  /\ 0 <= off (img_buffer s)
  /\ off (img_buffer_end s) = off (img_buffer s) + Z.of_nat (length pending)
  /\ base (img_buffer s) = RefillBuf
  /\ take (length pending)
          (drop (Z.to_nat (off (img_buffer s))) (buffer_start s)) = pending
  /\ if read_from_callbacks s
     then io s = Some cb /\ buflen s = 128
          /\ serves cb (io_user_data s) rest
     else rest = [].

(** [koi_info_from_callbacks] *)
Definition koi_info_from_callbacks {U : Type} (s : koi__context U)
    (c : koi_io_callbacks U) (user : U) (xyc : out_ptrs)
  : outcome Z * machine U :=
  let s := koi__start_callbacks s c user in
  koi__info_main {| ctx := s; outs := xyc; mallocs := [] |}.

(** A reader over the bytes it has left, which stores at most [k] of
    them per call, and an uninitialised local context for it. *)
Definition list_reader (k : nat) : koi_io_callbacks (list Z) :=
  {| read := fun u size =>
       (take (min k (Z.to_nat size)) u, drop (min k (Z.to_nat size)) u);
     skip := fun u n => drop (Z.to_nat n) u |}.

Definition blank_reader_context : koi__context (list Z) :=
  {| img_x := 0; img_y := 0; img_n := 0; img_out_n := 0; io := None;
     io_user_data := []; read_from_callbacks := false; buflen := 0;
     buffer_start := replicate 128 0; callback_already_read := 0;
     img_buffer := mem_ptr 0; img_buffer_end := mem_ptr 0;
     img_buffer_original := mem_ptr 0; img_buffer_original_end := mem_ptr 0;
     user_mem := [] |}.

(** The offset [begin - data] of the pixel the encoder reads at [pxi]:
    [j * x * comp + i * comp] of [qoi_source_pixel]. *)
Definition qoi_source_offset (x comp jstart jdir pxi : Z) : Z :=
  let j := i32 (u32 (u32 jstart + u32 (pxi `div` u32 x * u32 jdir))) in
  let i := i32 (pxi `mod` u32 x) in
  j * x * comp + i * comp.

(** ** The pull input: cursor and end of input *)

Section StreamFacts.

Context {U : Type}.
Implicit Types s : koi__context U.

Lemma refill_cursor_le_end s :
  read_from_callbacks s = true ->
  (read_from_callbacks s = true -> is_Some (io s)) ->
  cursor_le_end (koi__refill_buffer s).
Proof.
  intros Hrd Hio. destruct (Hio Hrd) as [cb Hcb].
  unfold koi__refill_buffer. rewrite Hcb.
  destruct (read cb (io_user_data s) (buflen s)) as [data user].
  destruct (Z.eqb_spec (Z.of_nat (length data)) 0); split; cbn; (done || lia).
Qed.

Lemma refill_keeps_callbacks s :
  (read_from_callbacks s = true -> is_Some (io s) /\ buffer_start s <> []) ->
  read_from_callbacks (koi__refill_buffer s) = true ->
  is_Some (io (koi__refill_buffer s))
  /\ buffer_start (koi__refill_buffer s) <> [].
Proof.
  unfold koi__refill_buffer.
  destruct (io s) as [cb|] eqn:Hcb;
    [|intros H1 H2; by destruct (H1 H2) as [[] _]].
  destruct (read cb (io_user_data s) (buflen s)) as [data user].
  destruct (Z.of_nat (length data) =? 0); cbn; [done|].
  intros H1 H2. destruct (H1 H2) as [_ Hne]. split; [by eexists|].
  intros Hnil. apply (f_equal length) in Hnil.
  rewrite length_app, length_drop in Hnil. cbn in Hnil.
  destruct (buffer_start s); [done|]. cbn in Hnil. lia.
Qed.

Lemma refill_eof s cb :
  io s = Some cb ->
  buffer_start s <> [] ->
  (read cb (io_user_data s) (buflen s)).1 = [] ->
  at_eof (koi__refill_buffer s).
Proof.
  intros Hcb Hne Hnil. unfold koi__refill_buffer. rewrite Hcb.
  destruct (read cb (io_user_data s) (buflen s)) as [data user].
  cbn in Hnil. subst data.
  change (Z.of_nat (length (@nil Z)) =? 0) with true. cbn.
  split; [done|]. right.
  split; [done|]. split; [done|].
  cbn. rewrite drop_0. by destruct (buffer_start s).
Qed.

(** The invariant behind [cursor <= end]: a stream that still refills
    has its callbacks and its buffer. *)
Lemma reachable_inv s :
  reachable s ->
  cursor_le_end s
  /\ (read_from_callbacks s = true -> is_Some (io s) /\ buffer_start s <> []).
Proof.
  induction 1
    as [s buffer len Hlen|s c user Hbuf|s Hs [IH1 IH2]|s Hs [IH1 IH2] Hrd].
  - split; [split; cbn; (done || lia)|]. cbn. discriminate.
  - assert (Hne : buffer_start s <> []) by (by destruct (buffer_start s)).
    unfold koi__start_callbacks.
    match goal with
    | |- context [koi__refill_buffer ?s1] =>
        pose proof (refill_cursor_le_end s1 eq_refl ltac:(cbn; eauto)) as Hc;
        pose proof (refill_keeps_callbacks s1 ltac:(cbn; eauto)) as Hk
    end.
    split; [exact Hc|exact Hk].
  - unfold koi__get8.
    destruct (ptr_lt (img_buffer s) (img_buffer_end s)) eqn:Hlt.
    + unfold ptr_lt in Hlt. apply Z.ltb_lt in Hlt. destruct IH1 as [Hb Ho].
      split; [split; cbn; [done|lia]|cbn; exact IH2].
    + destruct (read_from_callbacks s) eqn:Hrd;
        [|cbn; split; [done|]; rewrite Hrd; discriminate].
      destruct (IH2 eq_refl) as [[cb Hcb] Hne].
      assert (IH2' : read_from_callbacks s = true ->
                     is_Some (io s) /\ buffer_start s <> [])
        by (intros _; split; [by eexists|done]).
      pose proof (refill_keeps_callbacks s IH2') as Hk.
      pose proof (refill_cursor_le_end s Hrd (fun H => proj1 (IH2' H)))
        as [Hb Ho].
      split; [|exact Hk].
      revert Hb Ho. unfold koi__refill_buffer. rewrite Hcb.
      destruct (read cb (io_user_data s) (buflen s)) as [data user].
      destruct (Z.eqb_spec (Z.of_nat (length data)) 0); cbn; intros;
        split; cbn; [done|lia|done|lia].
  - split; [apply refill_cursor_le_end; [done|]; intros H; apply IH2, H
           |by apply refill_keeps_callbacks].
Qed.

Lemma get8_at_eof s :
  at_eof s ->
  (koi__get8 s).1 = 0 /\ at_eof (koi__get8 s).2
  /\ same_contents s (koi__get8 s).2.
Proof.
  intros [Hrd [Heq|(Hc & He & Hz)]]; unfold koi__get8, ptr_lt.
  - rewrite Heq, Z.ltb_irrefl, Hrd. cbn.
    split; [done|]. split; [split; [done|by left]|done].
  - rewrite Hc, He. cbn. split; [exact Hz|].
    split; [split; [done|left; cbn; by rewrite He]|done].
Qed.

Lemma get8_times_at_eof n s :
  at_eof s ->
  (get8_times n s).1 = replicate n 0
  /\ at_eof (get8_times n s).2
  /\ same_contents s (get8_times n s).2.
Proof.
  revert s. induction n as [|n IH]; intros s Heof; [done|].
  cbn [get8_times].
  destruct (get8_at_eof s Heof) as (H0 & Heof1 & Hsame1).
  destruct (koi__get8 s) as [c s1]. cbn in H0, Heof1, Hsame1. subst c.
  destruct (IH s1 Heof1) as (Hz & Heof2 & Hsame2).
  destruct (get8_times n s1) as [cs s2]. cbn in *. subst cs.
  split; [done|]. split; [done|].
  destruct Hsame1 as (?&?&?&?&?), Hsame2 as (?&?&?&?&?).
  repeat split; congruence.
Qed.

End StreamFacts.

(** ** Reading a memory stream *)

Section MemoryStream.

Context {U : Type}.
Implicit Types s : koi__context U.

Lemma reads_start_mem s buffer :
  reads (koi__start_mem s buffer (Z.of_nat (length buffer))) buffer.
Proof.
  unfold reads. cbn. repeat split. exists 0%nat. by rewrite drop_0.
Qed.

Lemma get8_reads_cons s c tl :
  reads s (c :: tl) ->
  koi__get8 s = (c, advance s) /\ reads (advance s) tl.
Proof.
  intros (Hrd & Ho & Hoe & He & p & Hc & Hdrop).
  assert (Hlook : user_mem s !! p = Some c).
  { rewrite <- (Nat.add_0_r p), <- lookup_drop, Hdrop. done. }
  pose proof (lookup_lt_Some _ _ _ Hlook) as Hlt.
  split.
  - unfold koi__get8, ptr_lt. rewrite Hc, He. cbn.
    rewrite (proj2 (Z.ltb_lt _ _)) by lia.
    unfold advance, deref. rewrite Hc. cbn.
    rewrite Nat2Z.id. by rewrite (list_lookup_total_correct _ _ _ Hlook).
  - unfold reads, advance. cbn. repeat split; try done.
    exists (S p). rewrite Hc. split.
    + unfold ptr_add, mem_ptr. cbn. f_equal. lia.
    + replace (S p) with (p + 1)%nat by lia.
      by rewrite <- drop_drop, Hdrop.
Qed.

Lemma get8_reads_nil s : reads s [] -> koi__get8 s = (0, s).
Proof.
  intros (Hrd & Ho & Hoe & He & p & Hc & Hdrop).
  assert (length (user_mem s) <= p)%nat.
  { apply (f_equal length) in Hdrop. rewrite length_drop in Hdrop.
    cbn in Hdrop. lia. }
  unfold koi__get8, ptr_lt. rewrite Hc, He, Hrd. cbn.
  by rewrite (proj2 (Z.ltb_ge _ _)) by lia.
Qed.

Lemma reads_set_img_x s v bytes : reads s bytes -> reads (set_img_x s v) bytes.
Proof. done. Qed.

Lemma reads_set_img_y s v bytes : reads s bytes -> reads (set_img_y s v) bytes.
Proof. done. Qed.

Lemma reads_set_img_n s v bytes : reads s bytes -> reads (set_img_n s v) bytes.
Proof. done. Qed.

(** Rewinding a memory stream makes the whole span unread again. *)
Lemma reads_rewind s bytes : reads s bytes -> reads (koi__rewind s) (user_mem s).
Proof.
  intros (Hrd & Ho & Hoe & He & p & Hc & Hdrop).
  unfold reads. cbn. repeat split; try done.
  - congruence.
  - exists 0%nat. by rewrite Ho, drop_0.
Qed.

Lemma reads_unread_length s bytes :
  reads s bytes ->
  ptr_diff (img_buffer_original_end s) (img_buffer_original s)
  = Z.of_nat (length (user_mem s)).
Proof.
  intros (Hrd & Ho & Hoe & He & _). rewrite Hoe, He, Ho.
  unfold ptr_diff. cbn. lia.
Qed.

End MemoryStream.

(** One more byte taken from a stream known to read [c :: tl]. *)
Ltac read_byte H :=
  match type of H with
  | reads ?s (?c :: ?tl) =>
    let E := fresh "E" in
    let R := fresh "R" in
    destruct (get8_reads_cons s c tl H) as [E R];
    rewrite E; clear E
  end.

(** ** The header *)

Lemma KOIW_UCHAR_byte x : is_byte (KOIW_UCHAR x).
Proof. unfold is_byte, KOIW_UCHAR, u8. apply Z.mod_pos_bound. lia. Qed.

Lemma KOIW_UCHAR_mod x : KOIW_UCHAR x = x `mod` 256.
Proof.
  unfold KOIW_UCHAR, u8. change 255 with (Z.ones 8).
  rewrite Z.land_ones by lia. change (2 ^ 8) with 256.
  apply Z.mod_mod. lia.
Qed.

Lemma u8_byte x : is_byte x -> u8 x = x.
Proof. unfold is_byte, u8. intros. apply Z.mod_small. lia. Qed.

Lemma be32_value x :
  0 <= x < 2 ^ 32 ->
  u32 (u32 (Z.shiftl
              (Z.shiftl (KOIW_UCHAR (Z.shiftr x 24)) 8
               + KOIW_UCHAR (Z.shiftr x 16)) 16)
       + u32 (Z.shiftl (KOIW_UCHAR (Z.shiftr x 8)) 8 + KOIW_UCHAR x))
  = x.
Proof.
  intros Hx. rewrite !KOIW_UCHAR_mod. unfold u32.
  rewrite !Z.shiftl_mul_pow2, !Z.shiftr_div_pow2 by lia.
  change (2 ^ 8) with 256. change (2 ^ 16) with 65536.
  change (2 ^ 24) with 16777216. change (2 ^ 32) with 4294967296 in *.
  Z.div_mod_to_equations. lia.
Qed.

Section Header.

Context {U : Type}.
Implicit Types s : koi__context U.

Lemma get32be_reads s x rest :
  0 <= x < 2 ^ 32 ->
  reads s (be32 x ++ rest) ->
  koi__get32be s = (x, Nat.iter 4 advance s)
  /\ reads (Nat.iter 4 advance s) rest.
Proof.
  intros Hx H. unfold koi__get32be, koi__get16be. cbn in H.
  read_byte H. read_byte R. read_byte R0. read_byte R1.
  split; [|exact R2]. f_equal. by apply be32_value.
Qed.

Lemma parse_header_reads s w h c cs rest :
  0 <= w < 2 ^ 32 -> 0 <= h < 2 ^ 32 ->
  reads s (qoi_header w h c cs ++ rest) ->
  exists s',
    koi__qoi_parse_header s = (header_verdict c cs, s')
    /\ img_x s' = w /\ img_y s' = h /\ img_n s' = img_n s
    /\ user_mem s' = user_mem s
    /\ (forall info, header_verdict c cs = Ok info -> reads s' rest).
Proof.
  intros Hw Hh H. unfold koi__qoi_parse_header, header_verdict.
  unfold qoi_header in H. cbn [app] in H.
  read_byte H. change (113 =? ch_q) with true. cbn [negb].
  read_byte R. change (111 =? ch_o) with true. cbn [negb].
  read_byte R0. change (105 =? ch_i) with true. cbn [negb].
  read_byte R1. change (102 =? ch_f) with true. cbn [negb].
  change (KOIW_UCHAR (Z.shiftr w 24) :: KOIW_UCHAR (Z.shiftr w 16)
          :: KOIW_UCHAR (Z.shiftr w 8) :: KOIW_UCHAR w :: ?x)
    with (be32 w ++ x) in R2.
  destruct (get32be_reads _ w _ Hw R2) as [E R3]. rewrite E. clear E.
  apply (reads_set_img_x _ w) in R3.
  change (KOIW_UCHAR (Z.shiftr h 24) :: KOIW_UCHAR (Z.shiftr h 16)
          :: KOIW_UCHAR (Z.shiftr h 8) :: KOIW_UCHAR h :: ?x)
    with (be32 h ++ x) in R3.
  match type of R3 with
  | reads ?s4 _ =>
    destruct (get32be_reads s4 h _ Hh R3) as [E R4]; rewrite E; clear E
  end.
  apply (reads_set_img_y _ h) in R4. cbn [app] in R4.
  read_byte R4.
  destruct (negb (c =? 3) && negb (c =? 4)); [by eexists|].
  read_byte R5.
  destruct (negb (cs =? 0) && negb (cs =? 1)); [by eexists|].
  eexists. do 5 (split; [reflexivity|]). intros _ _. exact R6.
Qed.

End Header.

(** ** Failing loads leave the caller's locations alone *)

Section Frame.

Context {U : Type}.
Variable alloc : Z -> bool.
Variable flip : bool.
Implicit Types (s : koi__context U) (m : machine U).

Lemma koi__malloc_outs m size :
  outs (koi__malloc alloc m size).2 = outs m.
Proof. done. Qed.

Lemma koi__malloc_mad3_outs m a b c add :
  outs (koi__malloc_mad3 alloc m a b c add).2 = outs m.
Proof. unfold koi__malloc_mad3. by case_match. Qed.

Lemma koi__convert_format_outs m data img_n req_comp x y :
  outs (koi__convert_format alloc m data img_n req_comp x y).2 = outs m.
Proof.
  unfold koi__convert_format.
  pose proof (koi__malloc_mad3_outs m req_comp (i32 x) (i32 y) 0) as Hm.
  destruct (koi__malloc_mad3 alloc m req_comp (i32 x) (i32 y) 0) as [good m1].
  repeat case_match; done.
Qed.

Lemma koi__qoi_load_fail_outs m req_comp reason :
  (koi__qoi_load alloc m req_comp).1 = Fail reason ->
  outs (koi__qoi_load alloc m req_comp).2 = outs m.
Proof.
  unfold koi__qoi_load.
  destruct (koi__qoi_parse_header (ctx m)) as [hdr s].
  destruct hdr as [info| |]; [|done|done].
  destruct (img_y s >? KOI_MAX_DIMENSIONS); [done|].
  destruct (img_x s >? KOI_MAX_DIMENSIONS); [done|].
  cbv zeta.
  destruct (negb (koi__mad3sizes_valid _ _ _ _)); [done|].
  match goal with
  | |- context [koi__malloc_mad3 alloc ?m1 ?a ?b ?c ?d] =>
    pose proof (koi__malloc_mad3_outs m1 a b c d) as Hm;
    destruct (koi__malloc_mad3 alloc m1 a b c d) as [out m2]
  end.
  cbn in Hm. destruct out as [out|]; [|done].
  destruct (qoi_decode_loop _ _ _ _ _ _ _ _) as [out' s'| |]; [|done|done].
  match goal with
  | |- context [if ?c then koi__convert_format alloc ?m1 ?d ?a ?b ?x ?y else ?e] =>
    pose proof (koi__convert_format_outs m1 d a b x y) as Hc;
    destruct c;
      [destruct (koi__convert_format alloc m1 d a b x y) as [conv m3]|]
  end.
  - cbn in Hc. destruct conv; [|cbn; intros _; by rewrite Hc, Hm|done].
    repeat case_match; done.
  - cbn. repeat case_match; done.
Qed.

Lemma koi__load_main_fail_outs m req_comp reason :
  (koi__load_main alloc m req_comp).1 = Fail reason ->
  outs (koi__load_main alloc m req_comp).2 = outs m.
Proof.
  unfold koi__load_main.
  destruct (koi__qoi_test (ctx m)) as [is_qoi s].
  destruct is_qoi; [|done].
  pose proof (koi__qoi_load_fail_outs (set_ctx m s) req_comp) as Hl.
  destruct (koi__qoi_load alloc (set_ctx m s) req_comp) as [res m1].
  destruct res; [done| |done].
  intros _. by apply (Hl reason0).
Qed.

End Frame.

(** ** The format test and the checks before the pixel buffer *)

Section Checks.

Context {U : Type}.
Variable alloc : Z -> bool.
Variable flip : bool.
Implicit Types (s : koi__context U) (m : machine U).

Lemma qoi_test_short s bytes :
  reads s bytes ->
  Z.of_nat (length (user_mem s)) < 22 ->
  koi__qoi_test s = (false, koi__rewind s).
Proof.
  intros H Hlen. unfold koi__qoi_test, koi__qoi_test_raw.
  rewrite (reads_unread_length s bytes H).
  by rewrite (proj2 (Z.ltb_lt _ _)) by lia.
Qed.

Lemma qoi_test_magic s rest :
  reads s (ch_q :: ch_o :: ch_i :: ch_f :: rest) ->
  22 <= Z.of_nat (length (user_mem s)) ->
  koi__qoi_test s = (true, koi__rewind (Nat.iter 4 advance s))
  /\ reads (koi__rewind (Nat.iter 4 advance s)) (user_mem s).
Proof.
  intros H Hlen. unfold koi__qoi_test, koi__qoi_test_raw.
  rewrite (reads_unread_length s _ H).
  rewrite (proj2 (Z.ltb_ge _ _)) by lia.
  read_byte H. read_byte R. read_byte R0. read_byte R1.
  split; [done|]. apply (reads_rewind _ _ R2).
Qed.

(** Too many bytes for an [int]: the size check refuses them. *)
Lemma mad3sizes_overflow a b c :
  0 <= a -> 0 <= b -> 0 <= c -> a * b * c > INT_MAX ->
  koi__mad3sizes_valid a b c 0 = false.
Proof.
  intros Ha Hb Hc Hbig.
  unfold koi__mad3sizes_valid, koi__mul2sizes_valid, koi__addsizes_valid.
  rewrite !(proj2 (Z.ltb_ge _ _)) by nia. cbn [orb].
  destruct (Z.eqb_spec b 0) as [->|Hb0]; [unfold INT_MAX in *; lia|].
  destruct (Z.leb_spec a (INT_MAX `quot` b)) as [Hab|]; [|done].
  destruct (Z.eqb_spec c 0) as [->|Hc0]; [unfold INT_MAX in *; lia|].
  destruct (Z.leb_spec (a * b) (INT_MAX `quot` c)) as [Habc|]; [|done].
  exfalso.
  rewrite Z.quot_div_nonneg in Habc by (unfold INT_MAX; lia).
  assert (a * b * c <= INT_MAX); [|lia].
  etransitivity; [apply Z.mul_le_mono_nonneg_r; [lia|exact Habc]|].
  rewrite Z.mul_comm. apply Z.mul_div_le. lia.
Qed.

Lemma i32_small x : 0 <= x < 2 ^ 31 -> i32 x = x.
Proof.
  intros Hx. unfold i32. rewrite Z.mod_small; lia.
Qed.

Lemma qoi_target_nonneg req_comp c : 0 <= qoi_target req_comp c.
Proof.
  unfold qoi_target, u8. case_match; apply Z.mod_pos_bound; lia.
Qed.

(** [koi__load_main] on a file of at least 22 bytes that opens with a
    header: the test passes and the load starts at the first byte. *)
Lemma load_main_on_header s w h c cs rest xyc req_comp :
  22 <= Z.of_nat (length (qoi_header w h c cs ++ rest)) ->
  let buffer := qoi_header w h c cs ++ rest in
  exists s1,
    reads s1 buffer /\ user_mem s1 = buffer
    /\ koi__load_main alloc
         {| ctx := koi__start_mem s buffer (Z.of_nat (length buffer));
            outs := xyc; mallocs := [] |} req_comp
       = let '(res, m) :=
           koi__qoi_load alloc {| ctx := s1; outs := xyc; mallocs := [] |}
             req_comp in
         match res with
         | Ok out =>
           (Ok (out, {| bits_per_channel := 8; num_channels := 0 |}), m)
         | Fail e => (Fail e, m)
         | Undef => (Undef, m)
         end.
Proof.
  intros Hlen buffer.
  pose proof (reads_start_mem s buffer) as H0.
  destruct (qoi_test_magic _ _ H0) as [Et Rt]; [exact Hlen|].
  eexists. split; [exact Rt|]. split; [done|].
  unfold koi__load_main. cbn [ctx]. rewrite Et. done.
Qed.

End Checks.

(** ** Claims about failing loads and header-only queries *)

(** C10.  Whenever [koi_load_from_memory] fails (returns null with a
    failure reason), the locations [*x], [*y] and [*channels_in_file] of
    the caller hold what they held before the call. *)
Theorem load_failure_keeps_outputs {U : Type} (alloc : Z -> bool)
    (flip : bool) (s : koi__context U) (buffer : list Z) (len : Z)
    (xyc : out_ptrs) (req_comp : Z) (reason : string) :
  (koi_load_from_memory alloc flip s buffer len xyc req_comp).1 = Fail reason ->
  outs (koi_load_from_memory alloc flip s buffer len xyc req_comp).2 = xyc.
Proof.
  unfold koi_load_from_memory, koi__load_and_postprocess_8bit.
  set (m := {| ctx := koi__start_mem s buffer len; outs := xyc;
               mallocs := [] |}).
  pose proof (koi__load_main_fail_outs alloc m req_comp) as Hl.
  destruct (koi__load_main alloc m req_comp) as [res m1].
  destruct res as [[result ri]|e|]; [|intros _; by apply (Hl e)|done].
  repeat case_match; done.
Qed.

Lemma load_failure_keeps_outputs_witness :
  (koi_load_from_memory (fun _ => true) false blank_context [1; 2; 3] 3
     (locations 7 8 9) 4).1 = Fail "unknown image type"
  /\ outs (koi_load_from_memory (fun _ => true) false blank_context [1; 2; 3] 3
             (locations 7 8 9) 4).2 = locations 7 8 9.
Proof.
  split; [reflexivity|].
  apply (load_failure_keeps_outputs (fun _ => true) false blank_context
           [1; 2; 3] 3 (locations 7 8 9) 4 "unknown image type").
  reflexivity.
Defined.

(** What the header query and the load do on a buffer that is exactly
    a header: the query stores the width and the height as the [int]
    the [koi__uint32] fields convert to. *)
Lemma info_on_header_bytes {U : Type} (alloc : Z -> bool) (flip : bool)
    (s : koi__context U) (w h c cs x0 y0 c0 req_comp : Z) :
  0 <= w < 2 ^ 32 -> 0 <= h < 2 ^ 32 ->
  c = 3 \/ c = 4 -> cs = 0 \/ cs = 1 ->
  let buffer := qoi_header w h c cs in
  (koi_info_from_memory s buffer 14 (locations x0 y0 c0)).1 = Ok 1
  /\ outs (koi_info_from_memory s buffer 14 (locations x0 y0 c0)).2
     = locations (i32 w) (i32 h) c
  /\ (w < 2 ^ 31 -> i32 w = w) /\ (h < 2 ^ 31 -> i32 h = h)
  /\ (koi_load_from_memory alloc flip s buffer 14 (locations x0 y0 c0)
        req_comp).1 = Fail "unknown image type".
Proof.
  intros Hw Hh Hc Hcs buffer.
  pose proof (reads_start_mem s buffer) as H0.
  change (Z.of_nat (length buffer)) with 14 in H0.
  assert (Hv : header_verdict c cs = Ok {| ch_n := c; cspace := cs |}).
  { unfold header_verdict. by destruct Hc as [->| ->], Hcs as [->| ->]. }
  assert (Hinfo : exists s',
    koi_info_from_memory s buffer 14 (locations x0 y0 c0)
    = (Ok 1, {| ctx := s'; outs := locations (i32 w) (i32 h) c;
                mallocs := [] |})).
  { unfold koi_info_from_memory, koi__info_main, koi__qoi_info. cbn [ctx].
    assert (H1 : reads (koi__start_mem s buffer 14)
                   (qoi_header w h c cs ++ []))
      by (by rewrite app_nil_r).
    destruct (parse_header_reads _ w h c cs [] Hw Hh H1)
      as (s' & E & Hx & Hy & _).
    rewrite E, Hv, Hx, Hy. by eexists. }
  destruct Hinfo as [s' ->].
  split; [done|]. split; [done|].
  split; [intros; apply i32_small; lia|].
  split; [intros; apply i32_small; lia|].
  unfold koi_load_from_memory, koi__load_and_postprocess_8bit, koi__load_main.
  cbn [ctx]. by rewrite (qoi_test_short _ _ H0).
Qed.

(** C7, where the code keeps it.  On a 14-byte buffer that is exactly a
    valid header whose width and height are below 2^31 (so that they fit
    the [int] the caller reads them from), [koi_info_from_memory]
    returns 1 and stores the header's width, height and channels;
    [koi_load_from_memory] returns null on the same buffer, whatever
    the request. *)
Theorem info_on_bare_header {U : Type} (alloc : Z -> bool) (flip : bool)
    (s : koi__context U) (w h c cs x0 y0 c0 req_comp : Z) :
  0 <= w < 2 ^ 31 -> 0 <= h < 2 ^ 31 ->
  c = 3 \/ c = 4 -> cs = 0 \/ cs = 1 ->
  (koi_info_from_memory s (qoi_header w h c cs) 14 (locations x0 y0 c0)).1
  = Ok 1
  /\ outs (koi_info_from_memory s (qoi_header w h c cs) 14
             (locations x0 y0 c0)).2
     = locations w h c
  /\ (koi_load_from_memory alloc flip s (qoi_header w h c cs) 14
        (locations x0 y0 c0) req_comp).1 = Fail "unknown image type".
Proof.
  intros Hw Hh Hc Hcs.
  destruct (info_on_header_bytes alloc flip s w h c cs x0 y0 c0 req_comp)
    as (H1 & H2 & Ew & Eh & H3); try done; try lia.
  rewrite Ew, Eh in H2 by lia. done.
Qed.

Lemma info_on_bare_header_witness :
  (koi_info_from_memory blank_context (qoi_header 640 480 4 0) 14
     (locations 0 0 0)).1 = Ok 1
  /\ outs (koi_info_from_memory blank_context (qoi_header 640 480 4 0) 14
             (locations 0 0 0)).2 = locations 640 480 4
  /\ (koi_load_from_memory (fun _ => true) false blank_context
        (qoi_header 640 480 4 0) 14 (locations 0 0 0) 0).1
     = Fail "unknown image type".
Proof.
  apply (info_on_bare_header (fun _ => true) false blank_context
           640 480 4 0 0 0 0 0).
  - lia.
  - lia.
  - by right.
  - by left.
Defined.

(** C7 fails beyond that: for the valid header whose width field is
    2^31 the query still returns 1, and the width it reports through
    [*x] is not the header's width. *)
Lemma info_reports_negative_width :
  let info :=
    koi_info_from_memory blank_context (qoi_header 2147483648 1 3 0) 14
      (locations 0 0 0) in
  info.1 = Ok 1
  /\ x_loc (outs info.2) = Some (-2147483648)
  /\ x_loc (outs info.2) <> Some 2147483648.
Proof. repeat split; vm_compute; (reflexivity || discriminate). Qed.

Section Limits.

Context {U : Type}.
Variable alloc : Z -> bool.
Variable flip : bool.
Implicit Types (s : koi__context U) (m : machine U).

Lemma mad3sizes_fits a b c :
  0 <= a -> 0 <= b -> 0 <= c -> a * b <= INT_MAX -> a * b * c <= INT_MAX ->
  koi__mad3sizes_valid a b c 0 = true.
Proof.
  intros Ha Hb Hc Hab Habc.
  unfold koi__mad3sizes_valid, koi__mul2sizes_valid, koi__addsizes_valid.
  rewrite !(proj2 (Z.ltb_ge _ _)) by nia. cbn [orb].
  assert (Hq : forall p q, 0 <= p -> 0 < q -> p * q <= INT_MAX ->
                           p <= INT_MAX `quot` q).
  { intros p q Hp Hq Hpq. rewrite Z.quot_div_nonneg by (unfold INT_MAX; lia).
    apply Z.div_le_lower_bound; lia. }
  rewrite (proj2 (Z.leb_le (a * b * c) _)) by lia.
  destruct (Z.eqb_spec b 0) as [->|Hb0];
    destruct (Z.eqb_spec c 0) as [->|Hc0]; cbn [andb];
    rewrite ?(proj2 (Z.leb_le _ _)); try done; apply Hq; lia.
Qed.

(** The outcome of [koi_load_from_memory] on a file that opens with a
    header, up to the checks that precede the pixel buffer. *)
Lemma load_header_rejected s w h c cs rest xyc req_comp :
  0 <= w < 2 ^ 32 -> 0 <= h < 2 ^ 32 ->
  ((c <> 3 /\ c <> 4) \/ (cs <> 0 /\ cs <> 1)
   \/ w > 2 ^ 24 \/ h > 2 ^ 24 \/ qoi_target req_comp c * w * h > INT_MAX) ->
  let buffer := qoi_header w h c cs ++ rest in
  let load :=
    koi_load_from_memory alloc flip s buffer (Z.of_nat (length buffer))
      xyc req_comp in
  (exists reason, load.1 = Fail reason)
  /\ mallocs load.2 = [] /\ outs load.2 = xyc.
Proof.
  intros Hw Hh Hbad buffer load. subst load.
  unfold koi_load_from_memory, koi__load_and_postprocess_8bit.
  destruct (Z.lt_ge_cases (Z.of_nat (length buffer)) 22) as [Hshort|Hlong];
    subst buffer.
  { unfold koi__load_main. cbn [ctx].
    rewrite (qoi_test_short _ _ (reads_start_mem s _)) by done.
    split; [by eexists|done]. }
  destruct (load_main_on_header alloc s w h c cs rest xyc req_comp Hlong)
    as (s1 & R1 & Hmem & ->).
  unfold koi__qoi_load. cbn [ctx].
  destruct (parse_header_reads _ w h c cs rest Hw Hh R1)
    as (s2 & -> & Hx & Hy & Hn & _ & _).
  unfold header_verdict.
  destruct (negb (c =? 3) && negb (c =? 4)) eqn:Hc;
    [split; [by eexists|done]|].
  destruct (negb (cs =? 0) && negb (cs =? 1)) eqn:Hcs;
    [split; [by eexists|done]|].
  rewrite Hx, Hy. unfold KOI_MAX_DIMENSIONS.
  change (Z.shiftl 1 24) with (2 ^ 24).
  destruct (Z.gtb_spec h (2 ^ 24)); [split; [by eexists|done]|].
  destruct (Z.gtb_spec w (2 ^ 24)); [split; [by eexists|done]|].
  cbn [img_n set_img_n img_x img_y ch_n].
  rewrite Hx, Hy, !i32_small by lia.
  rewrite mad3sizes_overflow; [split; [by eexists|done]| | | |].
  - apply qoi_target_nonneg.
  - lia.
  - lia.
  - destruct Hbad as [[]|[[]|[|[|]]]]; lia.
Qed.

(** A load that passes the checks asks [malloc] for
    [target * width * height] bytes and, when that is granted and no
    conversion follows, does not fail. *)
Lemma load_reaches_allocation s w h c cs rest xyc req_comp :
  0 <= w <= 2 ^ 24 -> 0 <= h <= 2 ^ 24 ->
  c = 3 \/ c = 4 -> cs = 0 \/ cs = 1 ->
  req_comp = 0 \/ req_comp = 3 \/ req_comp = 4 ->
  qoi_target req_comp c * w * h <= INT_MAX ->
  alloc (qoi_target req_comp c * w * h + 0) = true ->
  let buffer := qoi_header w h c cs ++ rest in
  22 <= Z.of_nat (length buffer) ->
  let load :=
    koi_load_from_memory alloc flip s buffer (Z.of_nat (length buffer))
      xyc req_comp in
  mallocs load.2 = [qoi_target req_comp c * w * h + 0]
  /\ forall reason, load.1 <> Fail reason.
Proof.
  intros Hw Hh Hc Hcs Hreq Hfit Halloc buffer Hlong load. subst load buffer.
  unfold koi_load_from_memory, koi__load_and_postprocess_8bit.
  destruct (load_main_on_header alloc s w h c cs rest xyc req_comp Hlong)
    as (s1 & R1 & Hmem & ->).
  unfold koi__qoi_load. cbn [ctx].
  destruct (parse_header_reads s1 w h c cs rest)
    as (s2 & -> & Hx & Hy & Hn & _ & _); [lia|lia|exact R1|].
  assert (Hv : header_verdict c cs = Ok {| ch_n := c; cspace := cs |}).
  { unfold header_verdict. by destruct Hc as [->| ->], Hcs as [->| ->]. }
  rewrite Hv, Hx, Hy. unfold KOI_MAX_DIMENSIONS.
  change (Z.shiftl 1 24) with (2 ^ 24).
  rewrite !Z.gtb_ltb, !(proj2 (Z.ltb_ge _ _)) by lia.
  cbn [img_n set_img_n img_x img_y ch_n set_ctx ctx outs mallocs].
  rewrite Hx, Hy, !i32_small by lia.
  assert (Ht : qoi_target req_comp c = 3 \/ qoi_target req_comp c = 4).
  { unfold qoi_target.
    destruct Hreq as [->|[->| ->]], Hc as [->| ->]; cbn; auto. }
  assert (Hvalid : koi__mad3sizes_valid (qoi_target req_comp c) w h 0 = true).
  { apply mad3sizes_fits; [lia|lia|lia| |lia].
    change (2 ^ 24) with 16777216 in *. unfold INT_MAX.
    change (2 ^ 31 - 1) with 2147483647. destruct Ht as [->| ->]; lia. }
  unfold koi__malloc_mad3. rewrite Hvalid. cbn [negb].
  unfold koi__malloc. rewrite Halloc.
  cbn [ctx outs mallocs app].
  destruct (qoi_decode_loop _ _ _ _ _ _ _ _) as [out' s'| |];
    [|done|done].
  assert (Hnc : negb (req_comp =? 0)
                && negb (req_comp =? qoi_target req_comp c) = false).
  { unfold qoi_target.
    destruct Hreq as [->|[->| ->]], Hc as [->| ->]; by cbn. }
  rewrite Hnc. cbn [set_ctx ctx outs mallocs].
  destruct (x_loc xyc), (y_loc xyc); cbn; [|done..].
  destruct flip; [|done].
  destruct (result_channels _ _); done.
Qed.

End Limits.

(** C5, as the code has it.  A load of a file that opens with a header
    fails (null result, reason set), asks [malloc] for nothing and leaves
    the caller's locations alone whenever the channels byte is not 3 or 4,
    the colorspace byte is not 0 or 1, the width or the height exceeds
    2^24, or [target * width * height] does not fit a signed 32-bit
    integer, [target] being the number of channels decoded
    ([qoi_target], a [koi_uc]: the requested count modulo 256 when the
    request is 3 or more, the file's count otherwise); and
    [koi__qoi_parse_header] accepts every header
    whose channels byte is 3 or 4 and whose colorspace byte is 0 or 1. *)
Theorem header_limits {U : Type} (alloc : Z -> bool) (flip : bool)
    (s : koi__context U) (w h c cs : Z) (rest : list Z) (xyc : out_ptrs)
    (req_comp : Z) :
  0 <= w < 2 ^ 32 -> 0 <= h < 2 ^ 32 ->
  let file := qoi_header w h c cs ++ rest in
  let load :=
    koi_load_from_memory alloc flip s file (Z.of_nat (length file))
      xyc req_comp in
  (((c <> 3 /\ c <> 4) \/ (cs <> 0 /\ cs <> 1)
    \/ w > 2 ^ 24 \/ h > 2 ^ 24 \/ qoi_target req_comp c * w * h > INT_MAX) ->
   (exists reason, load.1 = Fail reason)
   /\ mallocs load.2 = [] /\ outs load.2 = xyc)
  /\ (c = 3 \/ c = 4 -> cs = 0 \/ cs = 1 ->
      exists s',
        koi__qoi_parse_header (koi__start_mem s file (Z.of_nat (length file)))
        = (Ok {| ch_n := c; cspace := cs |}, s')
        /\ img_x s' = w /\ img_y s' = h).
Proof.
  intros Hw Hh file load. split.
  - intros Hbad. by apply load_header_rejected.
  - intros Hc Hcs.
    destruct (parse_header_reads _ w h c cs rest Hw Hh
                (reads_start_mem s file)) as (s' & E & Hx & Hy & _).
    exists s'. rewrite E. split; [|done].
    unfold header_verdict. by destruct Hc as [->| ->], Hcs as [->| ->].
Qed.

Lemma header_limits_witness :
  let file := qoi_header 70000 70000 3 0 ++ qoi_trailer in
  let load :=
    koi_load_from_memory (fun _ => true) false blank_context file
      (Z.of_nat (length file)) (locations 0 0 0) 0 in
  (((3 <> 3 /\ 3 <> 4) \/ (0 <> 0 /\ 0 <> 1)
    \/ 70000 > 2 ^ 24 \/ 70000 > 2 ^ 24
    \/ qoi_target 0 3 * 70000 * 70000 > INT_MAX) ->
   (exists reason, load.1 = Fail reason)
   /\ mallocs load.2 = [] /\ outs load.2 = locations 0 0 0)
  /\ (3 = 3 \/ 3 = 4 -> 0 = 0 \/ 0 = 1 ->
      exists s',
        koi__qoi_parse_header
          (koi__start_mem blank_context file (Z.of_nat (length file)))
        = (Ok {| ch_n := 3; cspace := 0 |}, s')
        /\ img_x s' = 70000 /\ img_y s' = 70000).
Proof.
  apply (header_limits (fun _ => true) false blank_context 70000 70000 3 0
           qoi_trailer (locations 0 0 0) 0); lia.
Defined.

(** C5 as stated fails.  A 4-channel file of 2^24 x 42 pixels has
    [channels * width * height] beyond a signed 32-bit integer, yet a
    load that asks for 3 channels passes the checks: it requests a pixel
    buffer of 3 * 2^24 * 42 bytes and, the buffer granted, does not fail. *)
Lemma overflow_by_file_channels_is_accepted :
  let file := qoi_header 16777216 42 4 0 ++ qoi_trailer in
  let load :=
    koi_load_from_memory (fun _ => true) false blank_context file
      (Z.of_nat (length file)) (locations 0 0 0) 3 in
  4 * 16777216 * 42 > INT_MAX
  /\ mallocs load.2 = [2113929216]
  /\ forall reason, load.1 <> Fail reason.
Proof.
  intros file load. split; [done|].
  pose proof (load_reaches_allocation (fun _ => true) false blank_context
                16777216 42 4 0 qoi_trailer (locations 0 0 0) 3) as H.
  change (qoi_target 3 4 * 16777216 * 42 + 0) with 2113929216 in H.
  apply H; try lia; auto; by vm_compute.
Qed.

(** ** Claims about the pull input *)

(** C9.  Every stream the library builds keeps [cursor <= end]: after
    [koi__start_mem] on a span of non-negative length, after
    [koi__start_callbacks], after each [koi__refill_buffer] and each
    [koi__get8].  A refill whose read callback returns 0 leaves the
    stream at its end of input, as does a memory stream whose cursor has
    reached [end]; from then on every [koi__get8] returns 0, the stream
    stays at its end of input and its contents do not change. *)
Theorem stream_cursor_and_eof {U : Type} (s : koi__context U) :
  reachable s ->
  cursor_le_end s
  /\ (forall cb,
        read_from_callbacks s = true -> io s = Some cb ->
        (read cb (io_user_data s) (buflen s)).1 = [] ->
        at_eof (koi__refill_buffer s))
  /\ (read_from_callbacks s = false ->
      ptr_lt (img_buffer s) (img_buffer_end s) = false -> at_eof s)
  /\ (at_eof s ->
      forall n,
        (get8_times n s).1 = replicate n 0
        /\ at_eof (get8_times n s).2
        /\ same_contents s (get8_times n s).2).
Proof.
  intros Hreach. destruct (reachable_inv s Hreach) as [[Hb Ho] Hio].
  split; [by split|]. split; [|split].
  - intros cb Hrd Hcb Hnil. destruct (Hio Hrd) as [_ Hne].
    by apply (refill_eof s cb).
  - intros Hrd Hlt. split; [done|]. left.
    unfold ptr_lt in Hlt. apply Z.ltb_ge in Hlt.
    destruct (img_buffer s) as [b1 o1], (img_buffer_end s) as [b2 o2].
    cbn in *. f_equal; [done|lia].
  - intros Heof n. by apply get8_times_at_eof.
Qed.

Lemma stream_cursor_and_eof_witness :
  let s := (koi__get8 (koi__get8
              (koi__start_mem blank_context [7; 9] 2)).2).2 in
  cursor_le_end s
  /\ (forall cb,
        read_from_callbacks s = true -> io s = Some cb ->
        (read cb (io_user_data s) (buflen s)).1 = [] ->
        at_eof (koi__refill_buffer s))
  /\ (read_from_callbacks s = false ->
      ptr_lt (img_buffer s) (img_buffer_end s) = false -> at_eof s)
  /\ (at_eof s ->
      forall n,
        (get8_times n s).1 = replicate n 0
        /\ at_eof (get8_times n s).2
        /\ same_contents s (get8_times n s).2).
Proof.
  intros s. apply (stream_cursor_and_eof s).
  do 2 apply reach_get8. apply reach_mem. lia.
Defined.

(** ** Literal scenarios *)

(** C6, as the code has it.  The 1x1 RGB image holding (12,34,56) is
    written as 26 bytes: the 14-byte header, the RGB op [FE 0C 22 38] and
    the 8-byte end marker; a load of those 26 bytes gives the pixel
    back. *)
Theorem one_pixel_rgb_file {U : Type} (s : koi__context U) :
  qoi_file false 0 1 1 3 [12; 34; 56]
  = [113; 111; 105; 102; 0; 0; 0; 1; 0; 0; 0; 1; 3; 0;
     254; 12; 34; 56;
     0; 0; 0; 0; 0; 0; 0; 1]
  /\ length (qoi_file false 0 1 1 3 [12; 34; 56]) = 26%nat
  /\ (koi_load_from_memory (fun _ => true) false s
        (qoi_file false 0 1 1 3 [12; 34; 56]) 26 (locations 0 0 0) 3).1
     = Ok [12; 34; 56]
  /\ outs (koi_load_from_memory (fun _ => true) false s
             (qoi_file false 0 1 1 3 [12; 34; 56]) 26 (locations 0 0 0) 3).2
     = locations 1 1 3.
Proof. repeat split; vm_compute; reflexivity. Qed.

(** C6 as stated fails in its count: the bytes written for the 1x1 image
    are 26 (header 14, op 4, end marker 8), not 22. *)
Lemma one_pixel_rgb_file_is_not_22_bytes :
  length (qoi_file false 0 1 1 3 [12; 34; 56]) <> 22%nat.
Proof. vm_compute. discriminate. Qed.

(** C2, as the code has it.  The first pixel (10,20,30,255) of the 2x1
    RGBA image has the alpha of the starting pixel, so it is written as
    the RGB op [FE 0A 14 1E]; the second pixel is the run [C0]. *)
Theorem two_equal_pixels_file :
  qoi_file false 0 2 1 4 [10; 20; 30; 255; 10; 20; 30; 255]
  = qoi_header 2 1 4 0 ++ [254; 10; 20; 30] ++ [192] ++ qoi_trailer
  /\ (koi_write_qoi_to_func false 0 2 1 4
        [10; 20; 30; 255; 10; 20; 30; 255]).2
     = [QOI_OP_RGB 10 20 30; QOI_OP_RUN 1].
Proof. split; vm_compute; reflexivity. Qed.

(** C2 as stated fails: the file does not hold the RGBA op
    [FF 0A 14 1E FF] for the first pixel. *)
Lemma two_equal_pixels_no_rgba_op :
  qoi_file false 0 2 1 4 [10; 20; 30; 255; 10; 20; 30; 255]
  <> qoi_header 2 1 4 0 ++ [255; 10; 20; 30; 255] ++ [192] ++ qoi_trailer.
Proof. vm_compute. discriminate. Qed.

(** ** The bytes the encoder hands to its sink *)

(** A value is among [lo, lo + n) as soon as a boolean test holds on the
    whole range. *)
Lemma range_check (f : Z -> bool) (lo n : Z) :
  forallb f (seqZ lo n) = true ->
  forall z, lo <= z < lo + n -> f z = true.
Proof.
  intros Hall z Hz. rewrite forallb_forall in Hall. apply Hall.
  apply list_elem_of_In, elem_of_seqZ. lia.
Qed.

Lemma flush_written s :
  wctx_ok s ->
  wctx_ok (koiw__write_flush s)
  /\ buf_used (koiw__write_flush s) = 0
  /\ written (koiw__write_flush s) = written s.
Proof.
  intros [Hu Hl]. unfold koiw__write_flush, written, wctx_ok.
  destruct (Z.eqb_spec (buf_used s) 0) as [E|E]; cbn.
  - rewrite E. done.
  - split; [split; [lia|done]|]. split; [done|].
    rewrite concat_app. cbn. by rewrite !app_nil_r.
Qed.

Lemma stage1_written s v :
  wctx_ok s -> buf_used s < 64 ->
  let s' := {| func_calls := func_calls s;
               buffer := <[Z.to_nat (buf_used s) := v]> (buffer s);
               buf_used := buf_used s + 1 |} in
  wctx_ok s' /\ written s' = written s ++ [v].
Proof.
  intros [Hu Hl] Hlt s'. subst s'. unfold wctx_ok, written. cbn.
  split; [split; [lia|by rewrite length_insert]|].
  rewrite <- app_assoc. f_equal.
  replace (Z.to_nat (buf_used s + 1)) with (S (Z.to_nat (buf_used s))) by lia.
  rewrite (take_S_r _ _ v).
  - by rewrite take_insert_ge by lia.
  - apply list_lookup_insert_eq. lia.
Qed.

Lemma write1_written s v :
  wctx_ok s ->
  wctx_ok (koiw__write1 s v) /\ written (koiw__write1 s v) = written s ++ [v].
Proof.
  intros Hok. unfold koiw__write1.
  destruct (Z.gtb_spec (buf_used s + 1) 64) as [Hfull|Hroom].
  - destruct (flush_written s Hok) as (Hok' & Hz & Hw).
    destruct (stage1_written (koiw__write_flush s) v Hok') as [H1 H2];
      [lia|].
    split; [exact H1|]. by rewrite <- Hw.
  - apply stage1_written; [done|lia].
Qed.

Lemma write3_written s v1 v2 v3 :
  wctx_ok s ->
  wctx_ok (koiw__write3 s v1 v2 v3)
  /\ written (koiw__write3 s v1 v2 v3) = written s ++ [v1; v2; v3].
Proof.
  intros Hok.
  assert (Hstage : forall s0, wctx_ok s0 -> buf_used s0 + 3 <= 64 ->
    let s' := {| func_calls := func_calls s0;
                 buffer := <[Z.to_nat (buf_used s0 + 2) := v3]>
                             (<[Z.to_nat (buf_used s0 + 1) := v2]>
                                (<[Z.to_nat (buf_used s0 + 0) := v1]>
                                   (buffer s0)));
                 buf_used := buf_used s0 + 3 |} in
    wctx_ok s' /\ written s' = written s0 ++ [v1; v2; v3]).
  { intros s0 [Hu Hl] Hroom s'. subst s'. unfold wctx_ok, written. cbn.
    split; [split; [lia|by rewrite !length_insert]|].
    rewrite <- app_assoc. f_equal.
    set (n := Z.to_nat (buf_used s0)).
    replace (Z.to_nat (buf_used s0 + 3)) with (S (S (S n))) by lia.
    replace (Z.to_nat (buf_used s0 + 2)) with (S (S n)) by lia.
    replace (Z.to_nat (buf_used s0 + 1)) with (S n) by lia.
    replace (Z.to_nat (buf_used s0 + 0)) with n by lia.
    assert (S (S n) < length (buffer s0))%nat by lia.
    rewrite (take_S_r _ _ v3), (take_S_r _ _ v2), (take_S_r _ _ v1).
    - rewrite !take_insert_ge by lia. by rewrite <- !app_assoc.
    - rewrite !list_lookup_insert_ne by lia.
      apply list_lookup_insert_eq. lia.
    - rewrite list_lookup_insert_ne by lia.
      apply list_lookup_insert_eq. rewrite length_insert. lia.
    - apply list_lookup_insert_eq. rewrite !length_insert. lia. }
  unfold koiw__write3.
  destruct (Z.gtb_spec (buf_used s + 3) 64) as [Hfull|Hroom].
  - destruct (flush_written s Hok) as (Hok' & Hz & Hw).
    destruct (Hstage (koiw__write_flush s) Hok') as [H1 H2]; [lia|].
    split; [exact H1|]. by rewrite <- Hw.
  - by apply Hstage.
Qed.

Lemma call_func_written s data :
  wctx_ok s -> buf_used s = 0 ->
  wctx_ok (call_func s data) /\ buf_used (call_func s data) = 0
  /\ written (call_func s data) = written s ++ data.
Proof.
  intros [Hu Hl] Hz. unfold call_func, written, wctx_ok. cbn.
  rewrite Hz. change (Z.to_nat 0) with 0%nat. rewrite concat_app. cbn.
  rewrite !app_nil_r. split; [split; [lia|done]|done].
Qed.

Lemma call_funcs_written s chunks :
  wctx_ok s -> buf_used s = 0 ->
  wctx_ok (foldl call_func s chunks)
  /\ buf_used (foldl call_func s chunks) = 0
  /\ written (foldl call_func s chunks) = written s ++ concat chunks.
Proof.
  revert s. induction chunks as [|d chunks IH]; intros s Hok Hz; cbn.
  - by rewrite app_nil_r.
  - destruct (call_func_written s d Hok Hz) as (Hok1 & Hz1 & Hw1).
    destruct (IH _ Hok1 Hz1) as (Hok2 & Hz2 & Hw2).
    split; [done|]. split; [done|]. by rewrite Hw2, Hw1, <- app_assoc.
Qed.

Lemma header_written s x y c cs :
  wctx_ok s -> buf_used s = 0 ->
  let s' := koiw__writefv s true "1111 44 11"
              [ch_q; ch_o; ch_i; ch_f; x; y; c; cs] in
  wctx_ok s' /\ buf_used s' = 0
  /\ written s'
     = written s ++ qoi_header (u32 x) (u32 y) (KOIW_UCHAR c) (KOIW_UCHAR cs).
Proof.
  intros Hok Hz s'.
  assert (E : s' = foldl call_func s
                [[ch_q]; [ch_o]; [ch_i]; [ch_f]; be32 (u32 x); be32 (u32 y);
                 [KOIW_UCHAR c]; [KOIW_UCHAR cs]]) by reflexivity.
  rewrite E. destruct (call_funcs_written s
    [[ch_q]; [ch_o]; [ch_i]; [ch_f]; be32 (u32 x); be32 (u32 y);
     [KOIW_UCHAR c]; [KOIW_UCHAR cs]] Hok Hz) as (H1 & H2 & H3).
  split; [done|]. split; [done|]. by rewrite H3.
Qed.

Lemma trailer_written s :
  wctx_ok s -> buf_used s = 0 ->
  let s' := koiw__writefv s true "11111111" [0; 0; 0; 0; 0; 0; 0; 1] in
  written s' = written s ++ qoi_trailer /\ buf_used s' = 0.
Proof.
  intros Hok Hz s'.
  assert (E : s' = foldl call_func s
                [[0]; [0]; [0]; [0]; [0]; [0]; [0]; [1]]) by reflexivity.
  rewrite E. destruct (call_funcs_written s
    [[0]; [0]; [0]; [0]; [0]; [0]; [0]; [1]] Hok Hz) as (H1 & H2 & H3).
  by rewrite H3.
Qed.

(** Once flushed, everything written is with the sink. *)
Lemma written_flushed s :
  buf_used s = 0 -> written s = concat (func_calls s).
Proof.
  intros Hz. unfold written. rewrite Hz. cbn. by rewrite app_nil_r.
Qed.

Lemma write_pixel_written s ch px :
  wctx_ok s ->
  ch = 0 \/ ch = 3 \/ ch = 4 ->
  let s' := koiw__write_pixel s 1 ch (if ch =? 4 then 1 else 0) true
              (color px) in
  wctx_ok s'
  /\ written s'
     = written s
       ++ (if ch =? 0 then []
           else if ch =? 3 then [r px; g px; b px]
           else [r px; g px; b px; a px]).
Proof.
  intros Hok [->|[->| ->]] s'; subst s'.
  - change (koiw__write_pixel s 1 0 _ true (color px)) with s.
    change (0 =? 0) with true. cbv iota. by rewrite app_nil_r.
  - change (koiw__write_pixel s 1 3 _ true (color px))
      with (koiw__write3 s (r px) (g px) (b px)).
    apply write3_written, Hok.
  - change (koiw__write_pixel s 1 4 _ true (color px))
      with (koiw__write1 (koiw__write3 s (r px) (g px) (b px)) (a px)).
    destruct (write3_written s (r px) (g px) (b px) Hok) as [H1 H2].
    destruct (write1_written _ (a px) H1) as [H3 H4].
    split; [done|]. rewrite H4, H2, <- app_assoc. done.
Qed.

Lemma write_run_written st run :
  wctx_ok (enc_s st) ->
  wctx_ok (enc_s (qoi_write_run st run))
  /\ written (enc_s (qoi_write_run st run))
     = written (enc_s st) ++ op_bytes (QOI_OP_RUN run).
Proof. intros Hok. apply write1_written, Hok. Qed.

(** The loop body, told by [step_ops]. *)
Lemma encode_pixel_step len st pxi px :
  wctx_ok (enc_s st) ->
  let st' := qoi_encode_pixel len st pxi px in
  let '(run', index', ops) :=
    step_ops len (enc_run st) (enc_prev_px st) (enc_index st) pxi px in
  wctx_ok (enc_s st')
  /\ enc_run st' = run' /\ enc_prev_px st' = px /\ enc_index st' = index'
  /\ enc_ops st' = enc_ops st ++ ops
  /\ written (enc_s st') = written (enc_s st) ++ ops_bytes ops.
Proof.
  intros Hok. unfold qoi_encode_pixel, step_ops, ops_bytes.
  destruct (px_eqb px (enc_prev_px st)).
  { destruct ((u8 (enc_run st + 1) =? 62) || (pxi =? u32 (len - 1)));
      cbn -[koiw__write1 written].
    - destruct (write1_written (enc_s st)
        (u8 (Z.lor (KOIW_UCHAR 192) (u8 (enc_run st + 1) - 1))) Hok)
        as [H1 H2].
      split; [exact H1|]. do 4 (split; [done|]). exact H2.
    - by rewrite !app_nil_r. }
  set (st1 := if enc_run st >? 0 then qoi_write_run st (enc_run st) else st).
  set (pre := if enc_run st >? 0 then [QOI_OP_RUN (enc_run st)] else []).
  assert (H1 : wctx_ok (enc_s st1)
               /\ enc_run st1 = (if enc_run st >? 0 then 0 else enc_run st)
               /\ enc_prev_px st1 = enc_prev_px st
               /\ enc_index st1 = enc_index st
               /\ enc_ops st1 = enc_ops st ++ pre
               /\ written (enc_s st1)
                  = written (enc_s st) ++ concat (op_bytes <$> pre)).
  { subst st1 pre. destruct (enc_run st >? 0).
    - destruct (write_run_written st (enc_run st) Hok) as [H1 H2].
      split; [exact H1|]. do 4 (split; [done|]).
      rewrite H2. done.
    - cbn. by rewrite !app_nil_r. }
  destruct H1 as (Hok1 & Hrun1 & Hprev1 & Hidx1 & Hops1 & Hw1).
  clearbody st1 pre. rewrite Hidx1.
  assert (Hcat : forall s' op tail,
            written s' = written (enc_s st1) ++ tail ->
            tail = op_bytes op ->
            written s'
            = written (enc_s st) ++ concat (op_bytes <$> pre ++ [op])).
  { intros s' op tail -> ->.
    rewrite Hw1, fmap_app, concat_app, <- app_assoc. cbn.
    by rewrite app_nil_r. }
  destruct (px_eqb _ px).
  { cbn -[koiw__write1 written].
    destruct (write1_written (enc_s st1)
      (KOIW_UCHAR (Z.land (KOI_QOI_COLOR_HASH px) (64 - 1))) Hok1) as [H2 H3].
    split; [exact H2|]. do 3 (split; [done|]).
    split; [by rewrite Hops1, <- app_assoc|].
    by eapply Hcat. }
  rewrite Hprev1. unfold pixel_op.
  destruct (a px =? a (enc_prev_px st)).
  - match goal with |- context [if ?c then _ else _] => destruct c end.
    + cbv zeta.
      change (koiw__write_pixel ?s 1 0 _ true (color px)) with s.
      match goal with |- context [koiw__write1 _ ?hd] =>
        destruct (write1_written (enc_s st1) hd Hok1) as [H2 H3] end.
      cbn -[koiw__write1 written].
      split; [exact H2|]. do 3 (split; [done|]).
      split; [by rewrite Hops1, <- app_assoc|].
      by eapply Hcat.
    + match goal with |- context [if ?c then _ else _] => destruct c end.
      * cbv zeta.
        change (koiw__write_pixel ?s 1 0 _ true (color px)) with s.
        match goal with
        | |- context [koiw__write1 (koiw__write1 _ ?f) ?hd] =>
          destruct (write1_written (enc_s st1) f Hok1) as [H2 H3];
          destruct (write1_written _ hd H2) as [H4 H5]
        end.
        cbn -[koiw__write1 written].
        split; [exact H4|]. do 3 (split; [done|]).
        split; [by rewrite Hops1, <- app_assoc|].
        eapply Hcat; [|reflexivity]. by rewrite H5, H3, <- app_assoc.
      * cbv zeta.
        destruct (write1_written (enc_s st1) (KOIW_UCHAR 254) Hok1)
          as [H2 H3].
        destruct (write_pixel_written _ 3 px H2) as [H4 H5]; [auto|].
        cbn -[koiw__write1 koiw__write_pixel written] in H4, H5.
        cbn -[koiw__write1 koiw__write_pixel written].
        split; [exact H4|]. do 3 (split; [done|]).
        split; [by rewrite Hops1, <- app_assoc|].
        eapply Hcat; [|reflexivity]. by rewrite H5, H3, <- app_assoc.
  - cbv zeta.
    destruct (write1_written (enc_s st1) (KOIW_UCHAR 255) Hok1) as [H2 H3].
    destruct (write_pixel_written _ 4 px H2) as [H4 H5]; [auto|].
    cbn -[koiw__write1 koiw__write_pixel written] in H4, H5.
    cbn -[koiw__write1 koiw__write_pixel written].
    split; [exact H4|]. do 3 (split; [done|]).
    split; [by rewrite Hops1, <- app_assoc|].
    eapply Hcat; [|reflexivity]. by rewrite H5, H3, <- app_assoc.
Qed.

(** ** The run counter *)

Lemma pixel_op_not_run prev_px px n : pixel_op prev_px px <> QOI_OP_RUN n.
Proof. unfold pixel_op. repeat case_match; discriminate. Qed.

Lemma step_ops_run len run prev_px index pxi px :
  0 <= run <= 61 ->
  let '(run', _, ops) := step_ops len run prev_px index pxi px in
  0 <= run' <= 61 /\ runs_capped ops.
Proof.
  intros Hrun. unfold step_ops, runs_capped.
  assert (Hu : u8 (run + 1) = run + 1)
    by (unfold u8; apply Z.mod_small; lia).
  destruct (px_eqb px prev_px).
  - rewrite Hu.
    destruct (Z.eqb_spec (run + 1) 62) as [E|E]; cbn [orb].
    + split; [lia|]. intros n Hn. apply list_elem_of_singleton in Hn.
      injection Hn as ->. lia.
    + destruct (pxi =? u32 (len - 1)).
      * split; [lia|]. intros n Hn. apply list_elem_of_singleton in Hn.
        injection Hn as ->. lia.
      * split; [lia|]. intros n Hn. by apply elem_of_nil in Hn.
  - assert (Hpre : forall n,
             QOI_OP_RUN n ∈ (if run >? 0 then [QOI_OP_RUN run] else []) ->
             1 <= n <= 62).
    { intros n Hn. destruct (Z.gtb_spec run 0).
      - apply list_elem_of_singleton in Hn. injection Hn as ->. lia.
      - by apply elem_of_nil in Hn. }
    assert (Hrun' : 0 <= (if run >? 0 then 0 else run) <= 61)
      by (destruct (run >? 0); lia).
    destruct (px_eqb _ px); (split; [exact Hrun'|]); intros n Hn;
      apply elem_of_app in Hn as [Hn|Hn]; try (by apply Hpre);
      apply list_elem_of_singleton in Hn; [discriminate|].
    symmetry in Hn. by apply pixel_op_not_run in Hn.
Qed.

Section EncoderLoop.

Variables (x comp : Z) (has_alpha : bool) (jstart jdir : Z) (data : list Z).
Variable len : Z.

(** The loop appends ops, writes their bytes, and keeps the run counter
    below 62. *)
Lemma encode_loop_appends n st pxi :
  wctx_ok (enc_s st) -> 0 <= enc_run st <= 61 ->
  let st' := qoi_encode_loop n x comp has_alpha jstart jdir data len st pxi in
  wctx_ok (enc_s st') /\ 0 <= enc_run st' <= 61
  /\ exists ops,
       enc_ops st' = enc_ops st ++ ops /\ runs_capped ops
       /\ written (enc_s st') = written (enc_s st) ++ ops_bytes ops.
Proof.
  revert st pxi. induction n as [|n IH]; intros st pxi Hok Hrun; cbn.
  { split; [done|]. split; [done|]. exists [].
    rewrite !app_nil_r. split; [done|]. split; [|done].
    intros k Hk. by apply elem_of_nil in Hk. }
  destruct (pxi <? len).
  2:{ split; [done|]. split; [done|]. exists [].
      rewrite !app_nil_r. split; [done|]. split; [|done].
      intros k Hk. by apply elem_of_nil in Hk. }
  set (px := qoi_source_pixel x comp has_alpha jstart jdir data pxi).
  pose proof (encode_pixel_step len st pxi px Hok) as Hstep.
  pose proof (step_ops_run len (enc_run st) (enc_prev_px st) (enc_index st)
                pxi px Hrun) as Hcap.
  cbv zeta in Hstep.
  destruct (step_ops len (enc_run st) (enc_prev_px st) (enc_index st) pxi px)
    as [[run' index'] ops1].
  destruct Hstep as (Hok1 & Hr1 & Hp1 & Hi1 & Ho1 & Hw1).
  destruct Hcap as [Hrun1 Hcap1].
  destruct (IH (qoi_encode_pixel len st pxi px) (u32 (pxi + 1)) Hok1)
    as (Hok2 & Hrun2 & ops2 & Ho2 & Hcap2 & Hw2); [by rewrite Hr1|].
  split; [done|]. split; [done|]. exists (ops1 ++ ops2).
  split; [by rewrite Ho2, Ho1, <- app_assoc|].
  split.
  - intros k Hk. apply elem_of_app in Hk as [Hk|Hk]; auto.
  - unfold ops_bytes in *.
    by rewrite Hw2, Hw1, fmap_app, concat_app, <- app_assoc.
Qed.

(** Within [len] pixels the loop writes the ops of [encode_ops]. *)
Lemma encode_loop_ops n st pxi :
  0 <= pxi -> pxi + Z.of_nat n <= len -> len < 2 ^ 32 ->
  wctx_ok (enc_s st) ->
  let st' := qoi_encode_loop n x comp has_alpha jstart jdir data len st pxi in
  enc_ops st'
  = enc_ops st
    ++ encode_ops len (enc_run st) (enc_prev_px st) (enc_index st) pxi
         (qoi_source_pixel x comp has_alpha jstart jdir data
          <$> seqZ pxi (Z.of_nat n)).
Proof.
  revert st pxi. induction n as [|n IH]; intros st pxi Hpxi Hn Hlen Hok.
  { cbn. by rewrite app_nil_r. }
  cbn [qoi_encode_loop].
  rewrite (proj2 (Z.ltb_lt pxi len)) by lia.
  rewrite seqZ_cons by lia. cbn [fmap list_fmap encode_ops].
  set (px := qoi_source_pixel x comp has_alpha jstart jdir data pxi).
  pose proof (encode_pixel_step len st pxi px Hok) as Hstep.
  cbv zeta in Hstep.
  destruct (step_ops len (enc_run st) (enc_prev_px st) (enc_index st) pxi px)
    as [[run' index'] ops1].
  destruct Hstep as (Hok1 & Hr1 & Hp1 & Hi1 & Ho1 & Hw1).
  assert (Hu : u32 (pxi + 1) = pxi + 1)
    by (unfold u32; apply Z.mod_small; lia).
  rewrite Hu. cbv zeta.
  rewrite (IH (qoi_encode_pixel len st pxi px) (pxi + 1)) by (done || lia).
  rewrite Ho1, Hr1, Hp1, Hi1, <- app_assoc.
  replace (Z.pred (Z.of_nat (S n))) with (Z.of_nat n) by lia.
  done.
Qed.

End EncoderLoop.

Lemma wctx_ok_zero : wctx_ok write_context_zero /\ buf_used write_context_zero = 0.
Proof. done. Qed.

(** The file [koi_write_qoi_to_func] produces: header, the bytes of the
    ops it logged, end marker. *)
Lemma write_qoi_file flip cs x y comp data :
  0 <= x -> 0 <= y ->
  exists s',
    koi_write_qoi_to_func flip cs x y comp data
    = (Ok 1, s', (koi_write_qoi_to_func flip cs x y comp data).2)
    /\ runs_capped (koi_write_qoi_to_func flip cs x y comp data).2
    /\ qoi_file flip cs x y comp data
       = qoi_header (u32 x) (u32 y)
           (if (comp =? 2) || (comp =? 4) then 4 else 3)
           (if negb (cs =? 0) then 1 else 0)
         ++ ops_bytes (koi_write_qoi_to_func flip cs x y comp data).2
         ++ qoi_trailer.
Proof.
  intros Hx Hy. unfold qoi_file, koi_write_qoi_to_func, koi_write_qoi_core.
  rewrite !(proj2 (Z.ltb_ge _ _)) by lia. cbn [orb].
  destruct wctx_ok_zero as [Hok0 Hz0].
  destruct (header_written write_context_zero x y
              (if (comp =? 2) || (comp =? 4) then 4 else 3)
              (if negb (cs =? 0) then 1 else 0) Hok0 Hz0)
    as (Hok1 & Hz1 & Hw1).
  set (s1 := koiw__writefv write_context_zero true "1111 44 11" _) in *.
  destruct (if flip then (y - 1, -1) else (0, 1)) as [jstart jdir].
  set (st0 := {| enc_s := s1; enc_run := 0; enc_prev_px := start_px;
                 enc_index := index_zero; enc_ops := [] |}).
  destruct (encode_loop_appends x comp ((comp =? 2) || (comp =? 4))
              jstart jdir data (u32 (x * y)) (Z.to_nat (u32 (x * y))) st0 0)
    as (Hok2 & _ & ops & Hops & Hcap & Hw2); [done|cbn; lia|].
  set (st := qoi_encode_loop _ _ _ _ _ _ _ _ _ _) in *.
  destruct (flush_written (enc_s st) Hok2) as (Hok3 & Hz3 & Hw3).
  destruct (trailer_written _ Hok3 Hz3) as [Hw4 Hz4].
  cbv zeta in Hw4, Hz4.
  set (s4 := koiw__writefv (koiw__write_flush (enc_s st)) true "11111111" _)
    in *.
  exists s4. cbn [fst snd]. cbn in Hops. rewrite Hops.
  split; [done|]. split; [done|].
  rewrite <- (written_flushed s4 Hz4), Hw4, Hw3, Hw2.
  cbn [enc_s st0]. rewrite Hw1. unfold written at 1. cbn.
  assert (Hc : forall c, c = 3 \/ c = 4 -> KOIW_UCHAR c = c)
    by (intros c [->| ->]; reflexivity).
  assert (Hb : forall c, c = 0 \/ c = 1 -> KOIW_UCHAR c = c)
    by (intros c [->| ->]; reflexivity).
  rewrite (Hc (if (comp =? 2) || (comp =? 4) then 4 else 3))
    by (destruct ((comp =? 2) || (comp =? 4)); auto).
  rewrite (Hb (if negb (cs =? 0) then 1 else 0))
    by (destruct (negb (cs =? 0)); auto).
  by rewrite <- !app_assoc.
Qed.

(** ** Claims about the ops the encoder chooses *)

Lemma run_byte n : 1 <= n <= 62 -> op_bytes (QOI_OP_RUN n) = [191 + n].
Proof.
  intros Hn. cbn. f_equal.
  pose proof (range_check
    (fun k => u8 (Z.lor (KOIW_UCHAR 192) (k - 1)) =? 191 + k) 1 62
    eq_refl n ltac:(lia)) as H.
  by apply Z.eqb_eq in H.
Qed.

(** C3.  Every RUN op [koi_write_qoi_core] writes, for any input,
    carries a run of 1 to 62 pixels, so its byte is at most 0xFD; the
    file is the header, the bytes of the ops and the end marker; and the
    64x1 image of (0,0,0,255) is written as header, 0xFD, 0xC1, end
    marker. *)
Theorem run_ops_capped (flip : bool) (cs x y comp : Z) (data : list Z)
    (n : Z) :
  QOI_OP_RUN n ∈ (koi_write_qoi_to_func flip cs x y comp data).2 ->
  (1 <= n <= 62
   /\ op_bytes (QOI_OP_RUN n) = [191 + n] /\ 191 + n <= 253)
  /\ (0 <= x -> 0 <= y ->
      qoi_file flip cs x y comp data
      = qoi_header (u32 x) (u32 y)
          (if (comp =? 2) || (comp =? 4) then 4 else 3)
          (if negb (cs =? 0) then 1 else 0)
        ++ ops_bytes (koi_write_qoi_to_func flip cs x y comp data).2
        ++ qoi_trailer)
  /\ qoi_file false 0 64 1 4 (concat (replicate 64 [0; 0; 0; 255]))
     = qoi_header 64 1 4 0 ++ [253; 193] ++ qoi_trailer.
Proof.
  intros Hin. split; [|split].
  - assert (Hn : 1 <= n <= 62).
    { destruct (Z.lt_ge_cases x 0) as [Hx|Hx];
        [|destruct (Z.lt_ge_cases y 0) as [Hy|Hy]].
      - unfold koi_write_qoi_to_func, koi_write_qoi_core in Hin.
        rewrite (proj2 (Z.ltb_lt x 0)), orb_true_r in Hin by done.
        by apply elem_of_nil in Hin.
      - unfold koi_write_qoi_to_func, koi_write_qoi_core in Hin.
        rewrite (proj2 (Z.ltb_lt y 0)) in Hin by done.
        by apply elem_of_nil in Hin.
      - destruct (write_qoi_file flip cs x y comp data Hx Hy)
          as (s' & _ & Hcap & _).
        by apply Hcap. }
    split; [done|]. split; [by apply run_byte|lia].
  - intros Hx Hy.
    by destruct (write_qoi_file flip cs x y comp data Hx Hy) as (s' & _ & _ & ?).
  - vm_compute. reflexivity.
Qed.

Lemma run_ops_capped_witness :
  (1 <= 62 <= 62
   /\ op_bytes (QOI_OP_RUN 62) = [191 + 62] /\ 191 + 62 <= 253)
  /\ (0 <= 64 -> 0 <= 1 ->
      qoi_file false 0 64 1 4 (concat (replicate 64 [0; 0; 0; 255]))
      = qoi_header (u32 64) (u32 1)
          (if (4 =? 2) || (4 =? 4) then 4 else 3)
          (if negb (0 =? 0) then 1 else 0)
        ++ ops_bytes (koi_write_qoi_to_func false 0 64 1 4
                        (concat (replicate 64 [0; 0; 0; 255]))).2
        ++ qoi_trailer)
  /\ qoi_file false 0 64 1 4 (concat (replicate 64 [0; 0; 0; 255]))
     = qoi_header 64 1 4 0 ++ [253; 193] ++ qoi_trailer.
Proof.
  apply (run_ops_capped false 0 64 1 4
           (concat (replicate 64 [0; 0; 0; 255])) 62).
  vm_compute. left.
Defined.

Lemma s8_delta (d : Z) v :
  -128 <= d < 128 -> is_byte v -> s8 (u8 (v + d) - v) = d.
Proof.
  unfold is_byte, s8, u8. intros Hd Hv.
  Z.div_mod_to_equations. lia.
Qed.

(** C4.  At a pixel that is neither a repeat of the previous one nor in
    the index, once a pending run has been written: a change of the
    colour by dr = 1, dg = 0, db = -1 with the alpha unchanged is written
    as the single DIFF byte 0x79; a change by dg = 10, dr = 11, db = 9
    with the alpha unchanged as the two LUMA bytes 0xAA 0x97; and any
    change of the alpha as the five bytes of an RGBA op. *)
Theorem op_preference (len : Z) (st : enc_state) (pxi : Z)
    (px : koi__qoi_pixel) :
  wctx_ok (enc_s st) ->
  byte_px (enc_prev_px st) ->
  px_eqb px (enc_prev_px st) = false ->
  px_eqb (enc_index st
          !!! Z.to_nat (Z.land (KOI_QOI_COLOR_HASH px) (64 - 1))) px = false ->
  let prev_px := enc_prev_px st in
  let st0 := if enc_run st >? 0 then qoi_write_run st (enc_run st) else st in
  let st' := qoi_encode_pixel len st pxi px in
  (r px = u8 (r prev_px + 1) -> g px = g prev_px ->
   b px = u8 (b prev_px - 1) -> a px = a prev_px ->
   enc_ops st' = enc_ops st0 ++ [QOI_OP_DIFF 121]
   /\ written (enc_s st') = written (enc_s st0) ++ [121])
  /\ (g px = u8 (g prev_px + 10) -> r px = u8 (r prev_px + 11) ->
      b px = u8 (b prev_px + 9) -> a px = a prev_px ->
      enc_ops st' = enc_ops st0 ++ [QOI_OP_LUMA 170 151]
      /\ written (enc_s st') = written (enc_s st0) ++ [170; 151])
  /\ (a px <> a prev_px ->
      enc_ops st' = enc_ops st0 ++ [QOI_OP_RGBA (r px) (g px) (b px) (a px)]
      /\ written (enc_s st')
         = written (enc_s st0) ++ [255; r px; g px; b px; a px]).
Proof.
  intros Hok (Hr & Hg & Hb & Ha) Hne Hmiss prev_px st0 st'.
  pose proof (encode_pixel_step len st pxi px Hok) as Hstep.
  cbv zeta in Hstep. unfold step_ops in Hstep.
  rewrite Hne, Hmiss in Hstep.
  destruct Hstep as (_ & _ & _ & _ & Hops & Hw).
  fold st' in Hops, Hw. fold prev_px in Hops, Hw.
  assert (H0 : enc_ops st0
               = enc_ops st
                 ++ (if enc_run st >? 0 then [QOI_OP_RUN (enc_run st)] else [])
               /\ written (enc_s st0)
                  = written (enc_s st)
                    ++ ops_bytes (if enc_run st >? 0
                                  then [QOI_OP_RUN (enc_run st)] else [])).
  { subst st0. destruct (enc_run st >? 0).
    - destruct (write_run_written st (enc_run st) Hok) as [_ H2].
      split; [done|]. rewrite H2. unfold ops_bytes. cbn. done.
    - unfold ops_bytes. cbn. by rewrite !app_nil_r. }
  destruct H0 as [Hops0 Hw0].
  assert (Hend : forall op,
            pixel_op prev_px px = op ->
            enc_ops st' = enc_ops st0 ++ [op]
            /\ written (enc_s st') = written (enc_s st0) ++ op_bytes op).
  { intros op Hop. rewrite Hops, Hw, Hops0, Hw0, Hop. unfold ops_bytes.
    rewrite fmap_app, concat_app, <- !app_assoc. cbn.
    by rewrite app_nil_r. }
  split; [|split].
  - intros Er Eg Eb Ea. apply (Hend (QOI_OP_DIFF 121)).
    unfold pixel_op. rewrite Ea, Z.eqb_refl, Er, Eg, Eb.
    rewrite (s8_delta 1) by (done || lia).
    replace (b prev_px - 1) with (b prev_px + -1) by lia.
    rewrite (s8_delta (-1)) by (done || lia).
    rewrite Z.sub_diag. reflexivity.
  - intros Eg Er Eb Ea. apply (Hend (QOI_OP_LUMA 170 151)).
    unfold pixel_op. rewrite Ea, Z.eqb_refl, Er, Eg, Eb.
    rewrite (s8_delta 11), (s8_delta 10), (s8_delta 9) by (done || lia).
    reflexivity.
  - intros Ea. apply (Hend (QOI_OP_RGBA (r px) (g px) (b px) (a px))).
    unfold pixel_op. by rewrite (proj2 (Z.eqb_neq _ _) Ea).
Qed.

Lemma op_preference_witness :
  let st := {| enc_s := write_context_zero; enc_run := 0;
               enc_prev_px := start_px; enc_index := index_zero;
               enc_ops := [] |} in
  let px := {| r := 1; g := 0; b := 255; a := 255 |} in
  let prev_px := enc_prev_px st in
  let st0 := if enc_run st >? 0 then qoi_write_run st (enc_run st) else st in
  let st' := qoi_encode_pixel 4 st 0 px in
  (r px = u8 (r prev_px + 1) -> g px = g prev_px ->
   b px = u8 (b prev_px - 1) -> a px = a prev_px ->
   enc_ops st' = enc_ops st0 ++ [QOI_OP_DIFF 121]
   /\ written (enc_s st') = written (enc_s st0) ++ [121])
  /\ (g px = u8 (g prev_px + 10) -> r px = u8 (r prev_px + 11) ->
      b px = u8 (b prev_px + 9) -> a px = a prev_px ->
      enc_ops st' = enc_ops st0 ++ [QOI_OP_LUMA 170 151]
      /\ written (enc_s st') = written (enc_s st0) ++ [170; 151])
  /\ (a px <> a prev_px ->
      enc_ops st' = enc_ops st0 ++ [QOI_OP_RGBA (r px) (g px) (b px) (a px)]
      /\ written (enc_s st')
         = written (enc_s st0) ++ [255; r px; g px; b px; a px]).
Proof.
  intros st px.
  apply (op_preference 4 st 0 px).
  - split; [cbn; lia|reflexivity].
  - repeat split; cbn; lia.
  - reflexivity.
  - reflexivity.
Defined.

(** ** Bytes of the ops, as the decoder takes them apart *)

Lemma run_tag n :
  1 <= n <= 62 ->
  let tag := u8 (Z.lor (KOIW_UCHAR 192) (n - 1)) in
  (tag =? 254) = false /\ (tag =? 255) = false
  /\ u8 (Z.land tag 192) = 192 /\ u8 (Z.lxor tag 192 + 1) = n.
Proof.
  intros Hn.
  pose proof (range_check
    (fun n => let tag := u8 (Z.lor (KOIW_UCHAR 192) (n - 1)) in
              negb (tag =? 254) && negb (tag =? 255)
              && (u8 (Z.land tag 192) =? 192)
              && (u8 (Z.lxor tag 192 + 1) =? n)) 1 62 eq_refl n ltac:(lia))
    as H.
  cbv zeta in H. repeat (apply andb_prop in H as [H ?]).
  repeat split; try (by apply negb_true_iff); by apply Z.eqb_eq.
Qed.

Lemma index_tag h :
  0 <= h < 64 ->
  let tag := KOIW_UCHAR h in
  tag = h /\ (tag =? 254) = false /\ (tag =? 255) = false
  /\ u8 (Z.land tag 192) = 0.
Proof.
  intros Hh.
  pose proof (range_check
    (fun h => let tag := KOIW_UCHAR h in
              (tag =? h) && negb (tag =? 254) && negb (tag =? 255)
              && (u8 (Z.land tag 192) =? 0)) 0 64 eq_refl h ltac:(lia))
    as H.
  cbv zeta in H. repeat (apply andb_prop in H as [H ?]).
  repeat split; try (by apply negb_true_iff); by apply Z.eqb_eq.
Qed.

Lemma diff_tag dr dg db :
  -2 <= dr < 2 -> -2 <= dg < 2 -> -2 <= db < 2 ->
  let tag := u8 (Z.lor (Z.lor (Z.lor (KOIW_UCHAR 64) (Z.shiftl (dr + 2) 4))
                              (Z.shiftl (dg + 2) 2)) (db + 2)) in
  (tag =? 254) = false /\ (tag =? 255) = false
  /\ u8 (Z.land tag 192) = 64
  /\ Z.land (Z.shiftr (u8 (Z.lxor tag 64)) 4) 3 - 2 = dr
  /\ Z.land (Z.shiftr (u8 (Z.lxor tag 64)) 2) 3 - 2 = dg
  /\ Z.land (u8 (Z.lxor tag 64)) 3 - 2 = db.
Proof.
  intros Hr Hg Hb.
  set (test := fun dr dg db =>
    let tag := u8 (Z.lor (Z.lor (Z.lor (KOIW_UCHAR 64) (Z.shiftl (dr + 2) 4))
                                (Z.shiftl (dg + 2) 2)) (db + 2)) in
    negb (tag =? 254) && negb (tag =? 255)
    && (u8 (Z.land tag 192) =? 64)
    && (Z.land (Z.shiftr (u8 (Z.lxor tag 64)) 4) 3 - 2 =? dr)
    && (Z.land (Z.shiftr (u8 (Z.lxor tag 64)) 2) 3 - 2 =? dg)
    && (Z.land (u8 (Z.lxor tag 64)) 3 - 2 =? db)).
  pose proof (range_check
    (fun dr => forallb (fun dg => forallb (test dr dg) (seqZ (-2) 4))
                       (seqZ (-2) 4)) (-2) 4 eq_refl dr ltac:(lia)) as H.
  cbv beta in H.
  pose proof (range_check _ (-2) 4 H dg ltac:(lia)) as H1. cbv beta in H1.
  pose proof (range_check _ (-2) 4 H1 db ltac:(lia)) as H2.
  unfold test in H2. cbv zeta in H2.
  repeat (apply andb_prop in H2 as [H2 ?]).
  repeat split; try (by apply negb_true_iff); by apply Z.eqb_eq.
Qed.

Lemma luma_tag dg :
  -32 <= dg < 32 ->
  let tag := u8 (Z.lor (KOIW_UCHAR 128) (dg + 32)) in
  (tag =? 254) = false /\ (tag =? 255) = false
  /\ u8 (Z.land tag 192) = 128 /\ u8 (Z.lxor tag 128 - 32) = u8 dg.
Proof.
  intros Hg.
  pose proof (range_check
    (fun dg => let tag := u8 (Z.lor (KOIW_UCHAR 128) (dg + 32)) in
               negb (tag =? 254) && negb (tag =? 255)
               && (u8 (Z.land tag 192) =? 128)
               && (u8 (Z.lxor tag 128 - 32) =? u8 dg)) (-32) 64 eq_refl dg
    ltac:(lia)) as H.
  cbv zeta in H. repeat (apply andb_prop in H as [H ?]).
  repeat split; try (by apply negb_true_iff); by apply Z.eqb_eq.
Qed.

Lemma luma_second p q :
  -8 <= p < 8 -> -8 <= q < 8 ->
  let d2 := u8 (Z.lor (Z.shiftl (p + 8) 4) (q + 8)) in
  Z.land (Z.shiftr d2 4) 15 = p + 8 /\ Z.land d2 15 = q + 8.
Proof.
  intros Hp Hq.
  set (test := fun p q =>
    let d2 := u8 (Z.lor (Z.shiftl (p + 8) 4) (q + 8)) in
    (Z.land (Z.shiftr d2 4) 15 =? p + 8) && (Z.land d2 15 =? q + 8)).
  pose proof (range_check
    (fun p => forallb (test p) (seqZ (-8) 16)) (-8) 16 eq_refl p ltac:(lia))
    as H.
  cbv beta in H.
  pose proof (range_check _ (-8) 16 H q ltac:(lia)) as H1.
  unfold test in H1. cbv zeta in H1. apply andb_prop in H1 as [H1 H2].
  split; by apply Z.eqb_eq.
Qed.

(** The deltas of the encoder, added back by the decoder. *)
Lemma diff_back x y : is_byte x -> is_byte y -> u8 (y + s8 (x - y)) = x.
Proof.
  unfold is_byte, u8, s8. intros Hx Hy. Z.div_mod_to_equations. lia.
Qed.

Lemma luma_green_back x y :
  is_byte x -> is_byte y -> u8 (y + u8 (s8 (x - y))) = x.
Proof.
  unfold is_byte, u8, s8. intros Hx Hy. Z.div_mod_to_equations. lia.
Qed.

Lemma luma_back x y dg :
  is_byte x -> is_byte y -> -128 <= dg < 128 ->
  u8 (y + (u8 dg - 8 + (s8 (s8 (x - y) - dg) + 8))) = x.
Proof.
  unfold is_byte, u8, s8. intros Hx Hy Hd. Z.div_mod_to_equations. lia.
Qed.

Lemma s8_range x : -128 <= s8 x < 128.
Proof. unfold s8. Z.div_mod_to_equations. lia. Qed.

(** ** One turn of the decoder loop *)

Lemma u32_small x : 0 <= x < 2 ^ 32 -> u32 x = x.
Proof. intros. unfold u32. by apply Z.mod_small. Qed.

Lemma px_bytes_length target px :
  target = 3 \/ target = 4 -> Z.of_nat (length (px_bytes target px)) = target.
Proof. by intros [->| ->]. Qed.

Lemma poke_app done junk v x :
  poke (done ++ x :: junk) (Z.of_nat (length done)) v
  = Some (done ++ v :: junk).
Proof.
  unfold poke. rewrite length_app. cbn [length].
  rewrite (proj2 (Z.leb_le _ _)), (proj2 (Z.ltb_lt _ _)) by lia.
  cbn [andb]. f_equal. rewrite Nat2Z.id.
  replace (length done) with (length done + 0)%nat at 1 by lia.
  by rewrite insert_app_r.
Qed.

(** Storing a pixel at the end of what has been decoded. *)
Lemma put_pixel_app target px done junk pos :
  target = 3 \/ target = 4 ->
  pos = Z.of_nat (length done) ->
  target <= Z.of_nat (length junk) ->
  Z.of_nat (length done) + target < 2 ^ 32 ->
  qoi_put_pixel target px (done ++ junk) pos
  = Some (done ++ px_bytes target px ++ drop (Z.to_nat target) junk,
          pos + target - 1).
Proof.
  intros Ht -> Hjunk Hlen. unfold qoi_put_pixel, px_bytes.
  destruct junk as [|j0 [|j1 [|j2 junk]]];
    try (cbn in Hjunk; destruct Ht as [->| ->]; lia).
  set (p := Z.of_nat (length done)) in *.
  assert (Hp : 0 <= p) by (subst p; lia).
  rewrite !(u32_small (p + 1)) by lia.
  rewrite !(u32_small (p + 1 + 1)) by lia.
  assert (E1 : p + 1 = Z.of_nat (length (done ++ [r px])))
    by (rewrite length_app; cbn; lia).
  assert (E2 : p + 1 + 1 = Z.of_nat (length (done ++ [r px; g px])))
    by (rewrite length_app; cbn; lia).
  assert (E3 : p + 1 + 1 + 1 = Z.of_nat (length (done ++ [r px; g px; b px])))
    by (rewrite length_app; cbn; lia).
  subst p. rewrite poke_app. cbn [mbind option_bind].
  replace (done ++ r px :: j1 :: j2 :: junk)
    with ((done ++ [r px]) ++ j1 :: j2 :: junk) by (by rewrite <- app_assoc).
  rewrite E1 at 1. rewrite poke_app. cbn [mbind option_bind].
  replace ((done ++ [r px]) ++ g px :: j2 :: junk)
    with ((done ++ [r px; g px]) ++ j2 :: junk)
    by (by rewrite <- !app_assoc).
  rewrite E2 at 1. rewrite poke_app. cbn [mbind option_bind].
  destruct Ht as [->| ->].
  - change (3 =? 4) with false. cbv iota.
    rewrite <- app_assoc. cbn [app]. do 2 f_equal. lia.
  - change (4 =? 4) with true. cbv iota.
    destruct junk as [|j3 junk]; [cbn in Hjunk; lia|].
    rewrite (u32_small (Z.of_nat (length done) + 1 + 1 + 1)) by lia.
    replace ((done ++ [r px; g px]) ++ b px :: j3 :: junk)
      with ((done ++ [r px; g px; b px]) ++ j3 :: junk)
      by (by rewrite <- !app_assoc).
    rewrite E3 at 1. rewrite poke_app. cbn [mbind option_bind].
    rewrite <- app_assoc. cbn [app]. do 2 f_equal. lia.
Qed.

(** A run of [n] pixels stored at the end of what has been decoded. *)
Lemma run_loop_app (n : nat) target px done junk i :
  target = 3 \/ target = 4 ->
  (1 <= n)%nat ->
  target * Z.of_nat n <= Z.of_nat (length junk) ->
  Z.of_nat (length done) + target * Z.of_nat n < 2 ^ 32 ->
  0 <= i -> i + Z.of_nat n < 2 ^ 32 ->
  qoi_run_loop n target px (done ++ junk) i (Z.of_nat (length done))
  = Some (done ++ concat (replicate n (px_bytes target px))
               ++ drop (Z.to_nat (target * Z.of_nat n)) junk,
          i + Z.of_nat n - 1).
Proof.
  intros Ht0.
  assert (Ht : target = 3 \/ target = 4) by done.
  assert (H34 : 3 <= target <= 4) by lia. clear Ht0.
  revert done junk i.
  induction n as [|n IH]; intros done junk i Hn Hjunk Hlen Hi Hin; [lia|].
  cbn [qoi_run_loop].
  rewrite (put_pixel_app target px done junk) by (done || nia).
  cbn [mbind option_bind].
  destruct n as [|n].
  { change (0 <? Z.of_nat 0) with false. cbv iota. cbn [qoi_run_loop].
    cbn [replicate concat]. rewrite app_nil_r.
    replace (target * Z.of_nat 1) with target by lia.
    replace (i + Z.of_nat 1 - 1) with i by lia. done. }
  rewrite (proj2 (Z.ltb_lt 0 (Z.of_nat (S n)))) by lia.
  rewrite (u32_small (i + 1)) by lia.
  pose proof (px_bytes_length target px Ht) as Hpl.
  rewrite u32_small by lia.
  rewrite app_assoc.
  replace (Z.of_nat (length done) + target - 1 + 1)
    with (Z.of_nat (length (done ++ px_bytes target px)))
    by (rewrite length_app; lia).
  rewrite IH.
  - f_equal. f_equal; [|lia].
    rewrite <- !app_assoc. f_equal. cbn [replicate concat].
    rewrite <- !app_assoc. do 3 f_equal.
    rewrite drop_drop. f_equal. nia.
  - lia.
  - rewrite length_drop. nia.
  - rewrite length_app. nia.
  - lia.
  - lia.
Qed.

Section DecoderSteps.

Context {U : Type}.
Implicit Types s : koi__context U.
Variables (target len : Z).
Hypothesis Htarget : target = 3 \/ target = 4.

(** A RUN op: the run is stored and the slot of the previous pixel set. *)
Lemma decode_run_step fuel s prev_px index done junk i n rest :
  1 <= n <= 62 ->
  reads s (op_bytes (QOI_OP_RUN n) ++ rest) ->
  0 <= i < len ->
  Z.of_nat (length done) = i * target ->
  target * n <= Z.of_nat (length junk) ->
  Z.of_nat (length done) + target * n < 2 ^ 32 ->
  i + n < 2 ^ 32 ->
  qoi_decode_loop (S fuel) target len s prev_px index (done ++ junk) i
  = qoi_decode_loop fuel target len (advance s) prev_px
      (<[index_slot prev_px := prev_px]> index)
      (done ++ concat (replicate (Z.to_nat n) (px_bytes target prev_px))
            ++ drop (Z.to_nat (target * n)) junk)
      (i + n)
  /\ reads (advance s) rest.
Proof.
  intros Hn H Hi Hdone Hjunk Hlen Hin.
  cbn [op_bytes app] in H.
  destruct (run_tag n Hn) as (T1 & T2 & T3 & T4). cbv zeta in T1, T2, T3, T4.
  destruct (get8_reads_cons _ _ _ H) as [E R]. split; [|exact R].
  cbn [qoi_decode_loop].
  rewrite (proj2 (Z.ltb_lt i len)) by lia.
  rewrite E. cbv beta iota zeta.
  rewrite T1, T2. cbv iota.
  rewrite T3. change (192 =? 0) with false. change (192 =? 64) with false.
  change (192 =? 128) with false. change (192 =? 192) with true.
  cbv iota. rewrite T4.
  rewrite (u32_small (i * target)) by lia.
  rewrite <- Hdone.
  rewrite (run_loop_app (Z.to_nat n) target prev_px done junk i)
    by (done || lia).
  rewrite Z2Nat.id by lia.
  rewrite (u32_small (i + n - 1 + 1)) by lia.
  replace (i + n - 1 + 1) with (i + n) by lia.
  done.
Qed.

(** The end of a turn that decoded [px]: the pixel enters the index and
    is stored. *)
Lemma decode_finish fuel s px index done junk i :
  0 <= i < len ->
  Z.of_nat (length done) = i * target ->
  target <= Z.of_nat (length junk) ->
  Z.of_nat (length done) + target < 2 ^ 32 ->
  match qoi_put_pixel target px (done ++ junk) (u32 (i * target)) with
  | None => Wild
  | Some (out, _) =>
    qoi_decode_loop fuel target len s px
      (<[Z.to_nat (KOI_QOI_COLOR_HASH px `mod` 64) := px]> index) out
      (u32 (i + 1))
  end
  = qoi_decode_loop fuel target len s px
      (<[Z.to_nat (KOI_QOI_COLOR_HASH px `mod` 64) := px]> index)
      (done ++ px_bytes target px ++ drop (Z.to_nat target) junk) (i + 1).
Proof.
  intros Hi Hdone Hjunk Hlen.
  rewrite (u32_small (i * target)) by lia.
  rewrite (put_pixel_app target px done junk) by (done || lia).
  rewrite (u32_small (i + 1)); [done|].
  destruct Htarget as [E|E]; rewrite E in *; lia.
Qed.

(** An INDEX op. *)
Lemma decode_index_step fuel s prev_px index done junk i h rest :
  0 <= h < 64 ->
  reads s (op_bytes (QOI_OP_INDEX (KOIW_UCHAR h)) ++ rest) ->
  0 <= i < len ->
  Z.of_nat (length done) = i * target ->
  target <= Z.of_nat (length junk) ->
  Z.of_nat (length done) + target < 2 ^ 32 ->
  let px := index !!! Z.to_nat h in
  qoi_decode_loop (S fuel) target len s prev_px index (done ++ junk) i
  = qoi_decode_loop fuel target len (advance s) px
      (<[Z.to_nat (KOI_QOI_COLOR_HASH px `mod` 64) := px]> index)
      (done ++ px_bytes target px ++ drop (Z.to_nat target) junk) (i + 1)
  /\ reads (advance s) rest.
Proof.
  intros Hh H Hi Hdone Hjunk Hlen px.
  cbn [op_bytes app] in H.
  destruct (index_tag h Hh) as (T0 & T1 & T2 & T3).
  cbv zeta in T0, T1, T2, T3.
  destruct (get8_reads_cons _ _ _ H) as [E R]. split; [|exact R].
  cbn [qoi_decode_loop].
  rewrite (proj2 (Z.ltb_lt i len)) by lia.
  rewrite E. cbv beta iota zeta.
  rewrite T1, T2. cbv iota.
  rewrite T3. change (0 =? 0) with true. cbv iota.
  rewrite T0. fold px. by apply decode_finish.
Qed.

(** A DIFF, LUMA, RGB or RGBA op, as [pixel_op] chose it. *)
Lemma decode_pixel_op_step fuel s prev_px px index done junk i rest :
  byte_px prev_px -> byte_px px ->
  reads s (op_bytes (pixel_op prev_px px) ++ rest) ->
  0 <= i < len ->
  Z.of_nat (length done) = i * target ->
  target <= Z.of_nat (length junk) ->
  Z.of_nat (length done) + target < 2 ^ 32 ->
  exists s1,
    qoi_decode_loop (S fuel) target len s prev_px index (done ++ junk) i
    = qoi_decode_loop fuel target len s1 px
        (<[Z.to_nat (KOI_QOI_COLOR_HASH px `mod` 64) := px]> index)
        (done ++ px_bytes target px ++ drop (Z.to_nat target) junk) (i + 1)
    /\ reads s1 rest /\ same_image s s1.
Proof.
  intros (Hpr & Hpg & Hpb & Hpa) (Hr & Hg & Hb & Ha) H Hi Hdone Hjunk Hlen.
  cbn [qoi_decode_loop].
  rewrite (proj2 (Z.ltb_lt i len)) by lia.
  unfold pixel_op in H.
  destruct (Z.eqb_spec (a px) (a prev_px)) as [Ea|Ea].
  - set (dr := s8 (r px - r prev_px)) in *.
    set (dg := s8 (g px - g prev_px)) in *.
    set (db := s8 (b px - b prev_px)) in *.
    destruct ((dr >? -3) && (dr <? 2) && (dg >? -3) && (dg <? 2)
              && (db >? -3) && (db <? 2)) eqn:Hdiff.
    + (* DIFF *)
      repeat (apply andb_prop in Hdiff as [Hdiff ?]).
      destruct (diff_tag dr dg db) as (T1 & T2 & T3 & T4 & T5 & T6);
        [lia..|].
      cbv zeta in T1, T2, T3, T4, T5, T6.
      cbn [op_bytes app] in H.
      destruct (get8_reads_cons _ _ _ H) as [E R].
      exists (advance s). split; [|split; [exact R|done]].
      rewrite E. cbv beta iota zeta.
      rewrite T1, T2. cbv iota.
      rewrite T3. change (64 =? 0) with false. change (64 =? 64) with true.
      cbv iota. rewrite T4, T5, T6.
      subst dr dg db. rewrite !diff_back by done. rewrite <- Ea.
      replace {| r := r px; g := g px; b := b px; a := a px |} with px
        by (by destruct px).
      by apply decode_finish.
    + set (dr_dg := s8 (dr - dg)) in *.
      set (db_dg := s8 (db - dg)) in *.
      destruct ((dr_dg >? -9) && (dr_dg <? 8) && (dg >? -33) && (dg <? 32)
                && (db_dg >? -9) && (db_dg <? 8)) eqn:Hluma.
      * (* LUMA *)
        repeat (apply andb_prop in Hluma as [Hluma ?]).
        destruct (luma_tag dg) as (T1 & T2 & T3 & T4); [lia|].
        destruct (luma_second dr_dg db_dg) as (T5 & T6); [lia..|].
        cbv zeta in T1, T2, T3, T4, T5, T6.
        cbn [op_bytes app] in H.
        destruct (get8_reads_cons _ _ _ H) as [E R].
        destruct (get8_reads_cons _ _ _ R) as [E1 R1].
        exists (advance (advance s)). split; [|split; [exact R1|done]].
        rewrite E. cbv beta iota zeta.
        rewrite T1, T2. cbv iota.
        rewrite T3. change (128 =? 0) with false.
        change (128 =? 64) with false. change (128 =? 128) with true.
        cbv iota. rewrite E1. cbv beta iota zeta.
        rewrite T4, T5, T6.
        subst dr_dg db_dg dr dg db.
        rewrite !luma_back by (done || apply s8_range).
        rewrite luma_green_back by done. rewrite <- Ea.
        replace {| r := r px; g := g px; b := b px; a := a px |} with px
          by (by destruct px).
        by apply decode_finish.
      * (* RGB *)
        cbn [op_bytes app] in H.
        destruct (get8_reads_cons _ _ _ H) as [E R].
        destruct (get8_reads_cons _ _ _ R) as [E1 R1].
        destruct (get8_reads_cons _ _ _ R1) as [E2 R2].
        destruct (get8_reads_cons _ _ _ R2) as [E3 R3].
        exists (advance (advance (advance (advance s)))).
        split; [|split; [exact R3|done]].
        rewrite E. cbv beta iota zeta.
        change (254 =? 254) with true. cbv iota.
        rewrite E1. cbv beta iota zeta. rewrite E2. cbv beta iota zeta.
        rewrite E3. cbv beta iota zeta. rewrite <- Ea.
        replace {| r := r px; g := g px; b := b px; a := a px |} with px
          by (by destruct px).
        by apply decode_finish.
  - (* RGBA *)
    cbn [op_bytes app] in H.
    destruct (get8_reads_cons _ _ _ H) as [E R].
    destruct (get8_reads_cons _ _ _ R) as [E1 R1].
    destruct (get8_reads_cons _ _ _ R1) as [E2 R2].
    destruct (get8_reads_cons _ _ _ R2) as [E3 R3].
    destruct (get8_reads_cons _ _ _ R3) as [E4 R4].
    exists (advance (advance (advance (advance (advance s))))).
    split; [|split; [exact R4|done]].
    rewrite E. cbv beta iota zeta.
    change (255 =? 254) with false. change (255 =? 255) with true. cbv iota.
    rewrite E1. cbv beta iota zeta. rewrite E2. cbv beta iota zeta.
    rewrite E3. cbv beta iota zeta. rewrite E4. cbv beta iota zeta.
    replace {| r := r px; g := g px; b := b px; a := a px |} with px
      by (by destruct px).
    by apply decode_finish.
Qed.

End DecoderSteps.

(** ** The two indexes *)

Lemma px_eqb_eq p q : px_eqb p q = true <-> p = q.
Proof.
  unfold px_eqb. split.
  - intros H. repeat (apply andb_prop in H as [H ?]).
    destruct p, q. cbn in *. f_equal; by apply Z.eqb_eq.
  - intros ->. by rewrite !Z.eqb_refl.
Qed.

Lemma hash_nonneg px : byte_px px -> 0 <= KOI_QOI_COLOR_HASH px.
Proof.
  unfold byte_px, is_byte, KOI_QOI_COLOR_HASH. lia.
Qed.

Lemma hash_land_mod px :
  Z.land (KOI_QOI_COLOR_HASH px) (64 - 1) = KOI_QOI_COLOR_HASH px `mod` 64.
Proof. change (64 - 1) with (Z.ones 6). by rewrite Z.land_ones by lia. Qed.

Lemma index_slot_mod px :
  Z.to_nat (KOI_QOI_COLOR_HASH px `mod` 64) = index_slot px.
Proof. unfold index_slot. by rewrite hash_land_mod. Qed.

Lemma index_slot_lt px : (index_slot px < 64)%nat.
Proof.
  unfold index_slot. rewrite hash_land_mod.
  pose proof (Z.mod_pos_bound (KOI_QOI_COLOR_HASH px) 64). lia.
Qed.

Lemma hash_slot_range px : 0 <= Z.land (KOI_QOI_COLOR_HASH px) (64 - 1) < 64.
Proof. rewrite hash_land_mod. apply Z.mod_pos_bound. lia. Qed.

Lemma sync_run enc dec prev_px :
  index_sync enc dec -> prev_indexed enc prev_px ->
  index_sync enc (<[index_slot prev_px := prev_px]> dec).
Proof.
  intros (Le & Ld & Hs) Hp. split; [done|]. split; [by rewrite length_insert|].
  intros k Hk. destruct (decide (k = index_slot prev_px)) as [->|Hne].
  - rewrite list_lookup_total_insert_eq by lia.
    destruct Hp as [Hp|[-> Hz]]; [left; by rewrite Hp|right; by rewrite Hz].
  - rewrite list_lookup_total_insert_ne by done. by apply Hs.
Qed.

Lemma sync_hit enc dec px :
  index_sync enc dec -> enc !!! index_slot px = px ->
  dec !!! index_slot px = px.
Proof.
  intros (Le & Ld & Hs) He.
  destruct (Hs (index_slot px) (index_slot_lt px)) as [->|(Hk & Hz & _)];
    [done|].
  rewrite Hz in He. subst px. vm_compute in Hk. discriminate.
Qed.

Lemma sync_keep enc dec k px :
  index_sync enc dec -> enc !!! k = px -> dec !!! k = px ->
  index_sync enc (<[k := px]> dec).
Proof.
  intros (Le & Ld & Hs) He Hd. split; [done|].
  split; [by rewrite length_insert|].
  intros j Hj. destruct (decide (j = k)) as [->|Hne].
  - rewrite list_lookup_total_insert_eq by lia. left. by rewrite He.
  - rewrite list_lookup_total_insert_ne by done. by apply Hs.
Qed.

Lemma sync_store enc dec k px :
  index_sync enc dec -> (k < 64)%nat ->
  index_sync (<[k := px]> enc) (<[k := px]> dec).
Proof.
  intros (Le & Ld & Hs) Hk.
  split; [by rewrite length_insert|]. split; [by rewrite length_insert|].
  intros j Hj. destruct (decide (j = k)) as [->|Hne].
  - left. by rewrite !list_lookup_total_insert_eq by lia.
  - rewrite !list_lookup_total_insert_ne by done. by apply Hs.
Qed.

Lemma sync_refl enc : length enc = 64%nat -> index_sync enc enc.
Proof. intros Le. split; [done|]. split; [done|]. by left. Qed.

(** ** Lists of pixel bytes *)

Lemma replicate_snoc_app {A} (n : nat) (x : A) l :
  replicate (S n) x ++ l = replicate n x ++ x :: l.
Proof.
  induction n as [|n IH]; [done|].
  cbn [replicate app] in *. by rewrite IH.
Qed.

Lemma concat_run_pixels target n px tl :
  concat (px_bytes target <$> (replicate n px ++ px :: tl))
  = concat (replicate (S n) (px_bytes target px))
    ++ concat (px_bytes target <$> tl).
Proof.
  rewrite <- replicate_snoc_app, fmap_app, concat_app, fmap_replicate.
  done.
Qed.

Lemma concat_run_then_pixel target n prev_px px tl :
  concat (px_bytes target <$> (replicate n prev_px ++ px :: tl))
  = concat (replicate n (px_bytes target prev_px))
    ++ px_bytes target px ++ concat (px_bytes target <$> tl).
Proof.
  rewrite fmap_app, concat_app, fmap_replicate. done.
Qed.

(** ** The decoder follows the encoder *)

Ltac image_chain :=
  unfold same_image in *;
  cbn [img_x img_y img_n advance set_cursor] in *;
  intuition congruence.

Section RoundTrip.

Context {U : Type}.
Implicit Types s : koi__context U.
Variables (target len : Z).
Hypothesis Htarget : target = 3 \/ target = 4.
Hypothesis Hlen : len * target < 2 ^ 31.

(** The decoder, fed the bytes of the ops the encoder writes for the
    pixels [pxs] with [run] pixels pending, stores the pending pixels
    and [pxs], and stops after them. *)
Lemma decode_encode_ops pxs :
  forall run prev_px enc pxi,
    Forall byte_px pxs -> byte_px prev_px ->
    0 <= run <= 61 -> (0 < run -> pxs <> []) ->
    length enc = 64%nat -> prev_indexed enc prev_px ->
    run <= pxi -> pxi + Z.of_nat (length pxs) = len ->
    forall fuel s rest dec done junk,
      reads s (ops_bytes (encode_ops len run prev_px enc pxi pxs) ++ rest) ->
      index_sync enc dec ->
      Z.of_nat (length done) = (pxi - run) * target ->
      Z.of_nat (length junk) = (run + Z.of_nat (length pxs)) * target ->
      len - (pxi - run) <= Z.of_nat fuel ->
      exists s',
        qoi_decode_loop fuel target len s prev_px dec (done ++ junk)
          (pxi - run)
        = Done (done ++ concat (px_bytes target
                                <$> (replicate (Z.to_nat run) prev_px ++ pxs)))
            s'
        /\ reads s' rest /\ same_image s s'.
Proof.
  assert (H34 : 3 <= target <= 4) by lia.
  induction pxs as [|px tl IH];
    intros run prev_px enc pxi Hpxs Hprev Hrun Hpend Henc Hpi Hrp Hcount
           fuel s rest dec done junk Hreads Hsync Hdone Hjunk Hfuel.
  { assert (run = 0) as -> by (destruct (decide (0 < run)); [by destruct Hpend|lia]).
    cbn [length] in *. cbn in Hreads. exists s. split; [|done].
    destruct junk; [|cbn in Hjunk; lia].
    assert (Hge : (pxi - 0 <? len) = false) by (apply Z.ltb_ge; lia).
    change (Z.to_nat 0) with 0%nat.
    cbn [replicate app fmap list_fmap concat]. rewrite !app_nil_r.
    destruct fuel; cbn [qoi_decode_loop]; by rewrite Hge. }
  apply Forall_cons in Hpxs as [Hpx Htl].
  cbn [length] in Hcount, Hjunk.
  assert (Hu : u8 (run + 1) = run + 1) by (apply u8_byte; unfold is_byte; lia).
  assert (Hl1 : u32 (len - 1) = len - 1) by (apply u32_small; lia).
  cbn [encode_ops] in Hreads. unfold step_ops in Hreads.
  destruct (px_eqb px prev_px) eqn:Heq.
  - (* the pixel repeats the previous one *)
    apply px_eqb_eq in Heq as ->. rewrite Hu, Hl1 in Hreads.
    destruct ((run + 1 =? 62) || (pxi =? len - 1)) eqn:Hflush.
    + (* the run is written *)
      unfold ops_bytes in Hreads.
      rewrite fmap_app, concat_app, <- app_assoc in Hreads.
      cbn [fmap list_fmap concat] in Hreads. rewrite app_nil_r in Hreads.
      destruct fuel as [|fuel]; [lia|].
      destruct (decode_run_step target len Htarget fuel s prev_px dec done junk
                  (pxi - run) (run + 1) _ ltac:(lia) Hreads)
        as [E R]; [lia|lia|lia|nia|lia|].
      rewrite E.
      replace (pxi - run + (run + 1)) with (pxi + 1 - 0) by lia.
      destruct (IH 0 prev_px enc (pxi + 1) Htl Hprev ltac:(lia) ltac:(lia)
                  Henc Hpi ltac:(lia) ltac:(lia) fuel (advance s) rest
                  (<[index_slot prev_px := prev_px]> dec)
                  (done ++ concat (replicate (Z.to_nat (run + 1))
                                     (px_bytes target prev_px)))
                  (drop (Z.to_nat (target * (run + 1))) junk))
        as (s' & E' & R' & F').
      * exact R.
      * by apply sync_run.
      * rewrite length_app, length_concat, fmap_replicate, sum_list_replicate.
        pose proof (px_bytes_length target prev_px Htarget). nia.
      * rewrite length_drop. nia.
      * lia.
      * exists s'. split; [|split; [exact R'|image_chain]].
        rewrite <- app_assoc in E'. rewrite E'. f_equal.
        rewrite <- app_assoc. f_equal.
        change (Z.to_nat 0) with 0%nat. cbn [replicate app].
        rewrite concat_run_pixels. do 3 f_equal. lia.
    + (* the run goes on *)
      apply orb_false_elim in Hflush as [H62 Hlast].
      apply Z.eqb_neq in H62, Hlast.
      cbn [app] in Hreads.
      destruct (IH (run + 1) prev_px enc (pxi + 1) Htl Hprev ltac:(lia)
                  ltac:(intros _; destruct tl; [cbn in Hcount; lia|done])
                  Henc Hpi ltac:(lia) ltac:(lia) fuel s rest dec done junk
                  Hreads Hsync ltac:(lia) ltac:(lia) ltac:(lia))
        as (s' & E' & R' & F').
      exists s'. split; [|split; [exact R'|image_chain]].
      replace (pxi + 1 - (run + 1)) with (pxi - run) in E' by lia.
      rewrite E'. do 3 f_equal.
      replace (Z.to_nat (run + 1)) with (S (Z.to_nat run)) by lia.
      f_equal. apply replicate_snoc_app.
  - (* a new pixel: a pending run is written first *)
    assert (Hne : px <> prev_px)
      by (intros ->; by rewrite (proj2 (px_eqb_eq _ _)) in Heq).
    assert (Hpre : forall ops,
      reads s (ops_bytes ((if run >? 0 then [QOI_OP_RUN run] else []) ++ ops)
               ++ rest) ->
      exists fuel0 s0 dec0 done0 junk0,
        qoi_decode_loop fuel target len s prev_px dec (done ++ junk)
          (pxi - run)
        = qoi_decode_loop (S fuel0) target len s0 prev_px dec0
            (done0 ++ junk0) pxi
        /\ done0 = done ++ concat (replicate (Z.to_nat run)
                                     (px_bytes target prev_px))
        /\ index_sync enc dec0
        /\ Z.of_nat (length done0) = pxi * target
        /\ Z.of_nat (length junk0) = (1 + Z.of_nat (length tl)) * target
        /\ len - pxi <= Z.of_nat (S fuel0)
        /\ reads s0 (ops_bytes ops ++ rest) /\ same_image s s0).
    { intros ops Hr. destruct (Z.gtb_spec run 0) as [Hpos|Hzero].
      - destruct fuel as [|[|fuel]]; [lia|lia|].
        exists fuel, (advance s), (<[index_slot prev_px := prev_px]> dec),
          (done ++ concat (replicate (Z.to_nat run) (px_bytes target prev_px))),
          (drop (Z.to_nat (target * run)) junk).
        unfold ops_bytes in Hr.
        rewrite fmap_app, concat_app in Hr. cbn [fmap list_fmap concat] in Hr.
        rewrite app_nil_r, <- app_assoc in Hr.
        destruct (decode_run_step target len Htarget (S fuel) s prev_px dec
                    done junk (pxi - run) run _ ltac:(lia) Hr)
          as [E R]; [lia|lia|nia|nia|lia|].
        rewrite E. replace (pxi - run + run) with pxi by lia.
        split; [by rewrite <- app_assoc|].
        split; [done|]. split; [by apply sync_run|].
        split.
        { rewrite length_app, length_concat, fmap_replicate,
            sum_list_replicate.
          pose proof (px_bytes_length target prev_px Htarget). nia. }
        split; [rewrite length_drop; nia|]. split; [lia|]. by split.
      - assert (run = 0) as -> by lia.
        destruct fuel as [|fuel]; [lia|].
        exists fuel, s, dec, done, junk.
        replace (pxi - 0) with pxi in * by lia.
        split; [done|]. split; [cbn; by rewrite app_nil_r|].
        split; [done|]. split; [lia|]. split; [lia|]. split; [lia|].
        by split. }
    assert (Hrun0 : (if run >? 0 then 0 else run) = 0)
      by (destruct (Z.gtb_spec run 0); lia).
    rewrite Hrun0 in Hreads.
    fold (index_slot px) in Hreads.
    destruct (px_eqb (enc !!! index_slot px) px) eqn:Hhit.
    + (* INDEX *)
      apply px_eqb_eq in Hhit.
      cbn [fst snd] in Hreads. rewrite <- app_assoc in Hreads.
      destruct (Hpre _ Hreads)
        as (fuel0 & s0 & dec0 & done0 & junk0
            & -> & Hdone0 & Hsync0 & Hld & Hlj & Hfuel0 & Hr0 & F0).
      unfold ops_bytes in Hr0.
      rewrite fmap_app, concat_app, <- app_assoc in Hr0.
      cbn [fmap list_fmap concat] in Hr0. rewrite app_nil_r in Hr0.
      destruct (decode_index_step target len Htarget fuel0 s0 prev_px dec0
                  done0 junk0 pxi _ _ (hash_slot_range px) Hr0)
        as [E R]; [lia|lia|nia|nia|].
      fold (index_slot px) in E. rewrite (sync_hit _ _ _ Hsync0 Hhit) in E.
      rewrite index_slot_mod in E. rewrite E.
      replace (pxi + 1) with (pxi + 1 - 0) by lia.
      destruct (IH 0 px enc (pxi + 1) Htl Hpx ltac:(lia) ltac:(lia) Henc
                  ltac:(by left) ltac:(lia) ltac:(lia) fuel0 (advance s0)
                  rest (<[index_slot px := px]> dec0)
                  (done0 ++ px_bytes target px)
                  (drop (Z.to_nat target) junk0))
        as (s' & E' & R' & F').
      * exact R.
      * apply sync_keep; [done|done|by apply (sync_hit enc)].
      * rewrite length_app.
        pose proof (px_bytes_length target px Htarget). lia.
      * rewrite length_drop. lia.
      * lia.
      * exists s'. split; [|split; [exact R'|image_chain]].
        rewrite <- app_assoc in E'. rewrite E'. f_equal.
        rewrite Hdone0, <- !app_assoc. f_equal.
        by rewrite concat_run_then_pixel.
    + (* DIFF, LUMA, RGB or RGBA *)
      cbn [fst snd] in Hreads. rewrite <- app_assoc in Hreads.
      destruct (Hpre _ Hreads)
        as (fuel0 & s0 & dec0 & done0 & junk0
            & -> & Hdone0 & Hsync0 & Hld & Hlj & Hfuel0 & Hr0 & F0).
      unfold ops_bytes in Hr0.
      rewrite fmap_app, concat_app, <- app_assoc in Hr0.
      cbn [fmap list_fmap concat] in Hr0. rewrite app_nil_r in Hr0.
      destruct (decode_pixel_op_step target len Htarget fuel0 s0 prev_px px
                  dec0 done0 junk0 pxi _ Hprev Hpx Hr0)
        as (s1 & E & R & F1); [lia|lia|nia|nia|].
      rewrite index_slot_mod in E. rewrite E.
      replace (pxi + 1) with (pxi + 1 - 0) by lia.
      destruct (IH 0 px (<[index_slot px := px]> enc) (pxi + 1) Htl Hpx
                  ltac:(lia) ltac:(lia) ltac:(by rewrite length_insert)
                  ltac:(left; apply list_lookup_total_insert_eq;
                        pose proof (index_slot_lt px); lia)
                  ltac:(lia) ltac:(lia) fuel0 s1
                  rest (<[index_slot px := px]> dec0)
                  (done0 ++ px_bytes target px)
                  (drop (Z.to_nat target) junk0))
        as (s' & E' & R' & F').
      * exact R.
      * apply sync_store; [done|apply index_slot_lt].
      * rewrite length_app.
        pose proof (px_bytes_length target px Htarget). lia.
      * rewrite length_drop. lia.
      * lia.
      * exists s'. split; [|split; [exact R'|image_chain]].
        rewrite <- app_assoc in E'. rewrite E'. f_equal.
        rewrite Hdone0, <- !app_assoc. f_equal.
        by rewrite concat_run_then_pixel.
Qed.

End RoundTrip.

(** ** The pixels of the caller's buffer *)

Section SourcePixels.

Variables (comp : Z) (data : list Z).
Hypothesis Hcomp : comp = 3 \/ comp = 4.
Hypothesis Hbytes : Forall is_byte data.

(** Without the flip, the loop reads the pixels in the order of the
    buffer. *)
Lemma source_pixel_unflipped x pxi :
  1 <= x < 2 ^ 31 -> 0 <= pxi < 2 ^ 31 ->
  qoi_source_pixel x comp ((comp =? 2) || (comp =? 4)) 0 1 data pxi
  = pixel_at comp data pxi.
Proof.
  intros Hx Hp. unfold qoi_source_pixel, pixel_at.
  rewrite (u32_small x), (u32_small 0), (u32_small 1) by lia.
  rewrite Z.mul_1_r, Z.add_0_l.
  assert (Hq : 0 <= pxi `div` x <= pxi).
  { split; [apply Z.div_pos; lia|]. apply Z.div_le_upper_bound; nia. }
  pose proof (Z.mod_pos_bound pxi x ltac:(lia)) as Hm.
  rewrite !(u32_small (pxi `div` x)) by lia.
  rewrite !i32_small by lia.
  replace (pxi `div` x * x * comp + pxi `mod` x * comp) with (pxi * comp); [done|].
  rewrite (Z.div_mod pxi x) at 1 by lia. lia.
Qed.

Lemma pixel_at_bytes pxi :
  0 <= pxi -> (pxi + 1) * comp <= Z.of_nat (length data) ->
  byte_px (pixel_at comp data pxi)
  /\ drop (Z.to_nat (pxi * comp)) data
     = px_bytes comp (pixel_at comp data pxi)
       ++ drop (Z.to_nat ((pxi + 1) * comp)) data.
Proof.
  intros Hp Hlen.
  assert (Hat : forall k, 0 <= k < comp ->
            data !! (Z.to_nat (pxi * comp) + Z.to_nat k)%nat
            = Some (data !!! Z.to_nat (pxi * comp + k))
            /\ is_byte (data !!! Z.to_nat (pxi * comp + k))).
  { intros k Hk.
    assert (Hin : (Z.to_nat (pxi * comp + k) < length data)%nat) by nia.
    replace (Z.to_nat (pxi * comp) + Z.to_nat k)%nat
      with (Z.to_nat (pxi * comp + k)) by nia.
    split; [by apply list_lookup_lookup_total_lt|].
    by apply Forall_lookup_total_1. }
  assert (Hd : forall k k' v, k' = k + 1 -> 0 <= k < comp ->
            data !! (Z.to_nat (pxi * comp) + Z.to_nat k)%nat = Some v ->
            drop (Z.to_nat (pxi * comp) + Z.to_nat k) data
            = v :: drop (Z.to_nat (pxi * comp) + Z.to_nat k') data).
  { intros k k' v -> Hk Hv. rewrite (drop_S _ v) by done. do 2 f_equal. lia. }
  unfold pixel_at, px_bytes, byte_px.
  destruct Hcomp as [E|E]; rewrite E in *; cbn [Z.eqb orb negb koi_read_qoi_pixel
                                               r g b a Pos.eqb].
  - destruct (Hat 0) as [L0 B0]; [lia|]. destruct (Hat 1) as [L1 B1]; [lia|].
    destruct (Hat 2) as [L2 B2]; [lia|].
    split; [unfold is_byte in *; repeat split; lia|].
    replace (Z.to_nat (pxi * 3)) with (Z.to_nat (pxi * 3) + Z.to_nat 0)%nat
      at 1 by lia.
    rewrite (Hd 0 1 _ eq_refl ltac:(lia) L0), (Hd 1 2 _ eq_refl ltac:(lia) L1),
      (Hd 2 3 _ eq_refl ltac:(lia) L2).
    cbn [app]. do 4 f_equal. lia.
  - destruct (Hat 0) as [L0 B0]; [lia|]. destruct (Hat 1) as [L1 B1]; [lia|].
    destruct (Hat 2) as [L2 B2]; [lia|]. destruct (Hat 3) as [L3 B3]; [lia|].
    change (4 - 1) with 3.
    split; [unfold is_byte in *; repeat split; lia|].
    replace (Z.to_nat (pxi * 4)) with (Z.to_nat (pxi * 4) + Z.to_nat 0)%nat
      at 1 by lia.
    rewrite (Hd 0 1 _ eq_refl ltac:(lia) L0), (Hd 1 2 _ eq_refl ltac:(lia) L1),
      (Hd 2 3 _ eq_refl ltac:(lia) L2), (Hd 3 4 _ eq_refl ltac:(lia) L3).
    cbn [app]. do 5 f_equal. lia.
Qed.

(** The pixels from [p0] on are byte pixels, and their bytes are the
    rest of the buffer. *)
Lemma pixels_of_buffer (n : nat) p0 :
  0 <= p0 -> Z.of_nat (length data) = (p0 + Z.of_nat n) * comp ->
  Forall byte_px (pixel_at comp data <$> seqZ p0 (Z.of_nat n))
  /\ concat (px_bytes comp <$> (pixel_at comp data <$> seqZ p0 (Z.of_nat n)))
     = drop (Z.to_nat (p0 * comp)) data.
Proof.
  revert p0. induction n as [|n IH]; intros p0 Hp Hlen.
  { cbn. split; [done|]. rewrite drop_ge; [done|]. lia. }
  rewrite seqZ_cons by lia.
  replace (Z.pred (Z.of_nat (S n))) with (Z.of_nat n) by lia.
  cbn [fmap list_fmap concat].
  destruct (pixel_at_bytes p0 Hp) as [Hb Hd]; [nia|].
  destruct (IH (Z.succ p0)) as [Hbs Hds]; [lia..|].
  split; [by constructor|].
  rewrite Hd, Hds. do 3 f_equal; lia.
Qed.

End SourcePixels.

(** ** Round trip *)

(** The ops written for an unflipped 3- or 4-channel image. *)
Lemma write_qoi_ops cs x y comp data :
  1 <= x -> 0 <= y -> x * y < 2 ^ 31 ->
  (koi_write_qoi_to_func false cs x y comp data).2
  = encode_ops (x * y) 0 start_px index_zero 0
      (pixel_at comp data <$> seqZ 0 (x * y)).
Proof.
  intros Hx Hy Hxy. unfold koi_write_qoi_to_func, koi_write_qoi_core.
  rewrite !(proj2 (Z.ltb_ge _ _)) by lia. cbn [orb snd].
  rewrite (u32_small (x * y)) by nia.
  destruct wctx_ok_zero as [Hok0 Hz0].
  destruct (header_written write_context_zero x y
              (if (comp =? 2) || (comp =? 4) then 4 else 3)
              (if negb (cs =? 0) then 1 else 0) Hok0 Hz0)
    as (Hok1 & _ & _).
  set (s1 := koiw__writefv write_context_zero true "1111 44 11" _) in *.
  set (st0 := {| enc_s := s1; enc_run := 0; enc_prev_px := start_px;
                 enc_index := index_zero; enc_ops := [] |}).
  rewrite (encode_loop_ops x comp ((comp =? 2) || (comp =? 4)) 0 1 data
             (x * y) (Z.to_nat (x * y)) st0 0) by (done || nia).
  cbn [st0 enc_ops enc_run enc_prev_px enc_index app].
  rewrite Z2Nat.id by nia. f_equal.
  apply Forall_fmap_ext_1, Forall_seqZ. intros p Hp.
  assert (1 <= y) by nia. assert (x <= x * y) by nia.
  apply source_pixel_unflipped; lia.
Qed.

Lemma qoi_header_length w h c cs : length (qoi_header w h c cs) = 14%nat.
Proof. done. Qed.

(** C1, as the code has it.  For an image of width and height between 1
    and 2^24 with 3 or 4 channels whose [channels * width * height]
    bytes fit a signed 32-bit integer, written without the vertical
    flip: if the file's length fits an [int] and [malloc] grants the
    pixel buffer, a load of the written file that asks for the same
    number of channels, without the vertical flip, returns the bytes of
    the image and reports its width, height and channels. *)
Theorem round_trip {U : Type} (alloc : Z -> bool) (s : koi__context U)
    (cs w h c : Z) (data : list Z) (x0 y0 c0 : Z) :
  1 <= w <= 2 ^ 24 -> 1 <= h <= 2 ^ 24 -> c = 3 \/ c = 4 ->
  c * w * h <= INT_MAX ->
  Z.of_nat (length data) = w * h * c -> Forall is_byte data ->
  alloc (c * w * h + 0) = true ->
  let file := qoi_file false cs w h c data in
  Z.of_nat (length file) <= INT_MAX ->
  let load :=
    koi_load_from_memory alloc false s file (Z.of_nat (length file))
      (locations x0 y0 c0) c in
  load.1 = Ok data /\ outs load.2 = locations w h c.
Proof.
  intros Hw Hh Hc Hfit Hdata Hbytes Halloc file Hflen load.
  unfold INT_MAX in Hfit. change (2 ^ 24) with 16777216 in *.
  change (2 ^ 31 - 1) with 2147483647 in Hfit.
  assert (Hwh : w * h < 2 ^ 31) by (change (2 ^ 31) with 2147483648; nia).
  destruct (write_qoi_file false cs w h c data) as (s' & _ & _ & Hfile);
    [lia|lia|].
  rewrite (write_qoi_ops cs w h c data) in Hfile by lia.
  rewrite !u32_small in Hfile by lia.
  assert (Hcc : (if (c =? 2) || (c =? 4) then 4 else 3) = c)
    by (by destruct Hc as [->| ->]).
  rewrite Hcc in Hfile.
  set (ccs := if negb (cs =? 0) then 1 else 0) in *.
  assert (Hccs : ccs = 0 \/ ccs = 1) by (subst ccs; destruct (negb _); auto).
  set (pxs := pixel_at c data <$> seqZ 0 (w * h)) in *.
  set (payload := ops_bytes (encode_ops (w * h) 0 start_px index_zero 0 pxs))
    in *.
  destruct (pixels_of_buffer c data Hc Hbytes (Z.to_nat (w * h)) 0)
    as [Hpxs Hcat]; [lia|rewrite Z2Nat.id by nia; lia|].
  rewrite Z2Nat.id in Hpxs, Hcat by nia. fold pxs in Hpxs, Hcat.
  change (Z.to_nat (0 * c)) with 0%nat in Hcat. rewrite drop_0 in Hcat.
  subst load file. rewrite Hfile.
  unfold koi_load_from_memory, koi__load_and_postprocess_8bit.
  destruct (load_main_on_header alloc s w h c ccs (payload ++ qoi_trailer)
              (locations x0 y0 c0) c) as (s1 & R1 & _ & ->).
  { rewrite !length_app, qoi_header_length. cbn. lia. }
  unfold koi__qoi_load. cbn [ctx].
  destruct (parse_header_reads s1 w h c ccs (payload ++ qoi_trailer))
    as (s2 & -> & Hx & Hy & Hn & _ & Hr2); [lia|lia|exact R1|].
  assert (Hv : header_verdict c ccs = Ok {| ch_n := c; cspace := ccs |}).
  { unfold header_verdict. by destruct Hc as [->| ->], Hccs as [->| ->]. }
  rewrite Hv in *. specialize (Hr2 _ eq_refl).
  rewrite Hx, Hy. unfold KOI_MAX_DIMENSIONS.
  change (Z.shiftl 1 24) with 16777216.
  rewrite !Z.gtb_ltb, !(proj2 (Z.ltb_ge _ _)) by lia.
  cbn [img_n set_img_n img_x img_y ch_n set_ctx ctx outs mallocs].
  rewrite Hx, Hy, !i32_small by lia.
  assert (Ht : qoi_target c c = c)
    by (unfold qoi_target; by destruct Hc as [->| ->]).
  rewrite Ht.
  assert (Hvalid : koi__mad3sizes_valid c w h 0 = true).
  { apply mad3sizes_fits; unfold INT_MAX;
      change (2 ^ 31 - 1) with 2147483647; nia. }
  unfold koi__malloc_mad3. rewrite Hvalid. cbn [negb].
  unfold koi__malloc. rewrite Halloc.
  cbn [ctx outs mallocs app].
  rewrite (u32_small (h * w)) by nia. rewrite (Z.mul_comm h w).
  destruct (decode_encode_ops c (w * h) Hc ltac:(nia) pxs 0 start_px
              index_zero 0 Hpxs ltac:(by repeat split) ltac:(lia) ltac:(lia)
              eq_refl ltac:(by right) ltac:(lia)
              ltac:(subst pxs; rewrite length_fmap, length_seqZ; lia)
              (Z.to_nat (w * h)) (set_img_n s2 c) qoi_trailer index_zero []
              (replicate (Z.to_nat (c * w * h + 0)) 0))
    as (s3 & E & _ & Fx & Fy & Fn).
  { exact Hr2. }
  { by apply sync_refl. }
  { cbn. lia. }
  { rewrite length_replicate. subst pxs.
    rewrite length_fmap, length_seqZ. nia. }
  { lia. }
  change (0 - 0) with 0 in E. cbn [app] in E. rewrite E.
  change (Z.to_nat 0) with 0%nat. cbn [replicate app]. rewrite Hcat.
  assert (Hnc : negb (c =? 0) && negb (c =? c) = false)
    by (rewrite Z.eqb_refl; apply andb_false_r).
  rewrite Hnc. cbn [set_ctx ctx outs mallocs locations x_loc y_loc comp_loc
                    store_if set_outs fst snd bits_per_channel].
  change (negb (8 =? 8)) with false. cbv iota. cbn [fst snd outs].
  cbn [img_x img_y img_n set_img_n] in Fx, Fy, Fn.
  rewrite Fx, Fy, Fn, Hx, Hy, !i32_small by lia. done.
Qed.

Lemma round_trip_witness :
  let data := [1; 2; 3; 1; 2; 3; 9; 8; 7; 1; 2; 3] in
  let file := qoi_file false 0 2 2 3 data in
  let load :=
    koi_load_from_memory (fun _ => true) false blank_context file
      (Z.of_nat (length file)) (locations 0 0 0) 3 in
  load.1 = Ok data /\ outs load.2 = locations 2 2 3.
Proof.
  intros data.
  apply (round_trip (fun _ => true) blank_context 0 2 2 3 data 0 0 0).
  - lia.
  - lia.
  - by left.
  - vm_compute. discriminate.
  - reflexivity.
  - unfold data, is_byte. repeat constructor; lia.
  - reflexivity.
  - vm_compute. discriminate.
Defined.

(** C1 as stated fails.  A 16777217x1 image of 3 channels is written,
    but its width exceeds [KOI_MAX_DIMENSIONS]: the load of the written
    file returns null. *)
Lemma round_trip_fails_on_wide_image :
  let data := replicate (Z.to_nat (16777217 * 1 * 3)) 0 in
  let file := qoi_file false 0 16777217 1 3 data in
  let load :=
    koi_load_from_memory (fun _ => true) false blank_context file
      (Z.of_nat (length file)) (locations 0 0 0) 3 in
  Z.of_nat (length data) = 16777217 * 1 * 3
  /\ Forall is_byte data
  /\ (exists reason, load.1 = Fail reason)
  /\ load.1 <> Ok data.
Proof.
  intros data file load.
  split; [unfold data; by rewrite length_replicate, Z2Nat.id|].
  split; [unfold data; apply Forall_replicate; unfold is_byte; lia|].
  assert (Hfail : exists reason, load.1 = Fail reason).
  { destruct (write_qoi_file false 0 16777217 1 3 data) as (s' & _ & _ & Hfile);
      [lia|lia|].
    change (u32 16777217) with 16777217 in Hfile.
    change (u32 1) with 1 in Hfile.
    change (if (3 =? 2) || (3 =? 4) then 4 else 3) with 3 in Hfile.
    change (if negb (0 =? 0) then 1 else 0) with 0 in Hfile.
    subst load file. rewrite Hfile.
    apply (load_header_rejected (fun _ => true) false blank_context
             16777217 1 3 0); [lia|lia|].
    right. right. left. lia. }
  split; [exact Hfail|]. destruct Hfail as [reason ->]. discriminate.
Qed.

(** ** The pixel loop ends *)

Section DecoderFuel.

Context {U : Type}.

Lemma run_loop_index (run : nat) target px out i pos out' i' :
  qoi_run_loop run target px out i pos = Some (out', i') ->
  0 <= i -> i + Z.of_nat run <= 2 ^ 32 ->
  i <= i' <= i + Z.of_nat run.
Proof.
  revert out i pos.
  induction run as [|n IH]; intros out i pos H Hi Hb.
  - cbn in H. injection H as _ <-. lia.
  - cbn [qoi_run_loop] in H.
    destruct (qoi_put_pixel target px out pos) as [[o p]|]; cbn in H; [|done].
    destruct (0 <? Z.of_nat n) eqn:E.
    + apply IH in H; rewrite ?u32_small by lia; try lia.
      rewrite u32_small in H by lia. lia.
    + apply IH in H; lia.
Qed.

(** The loop of [koi__qoi_load] is started with [len] turns of fuel and
    [i = 0]: it never runs out of them. *)
Lemma qoi_decode_loop_fuel (fuel : nat) target len (s : koi__context U)
    prev_px index out i :
  0 <= i -> len <= 2 ^ 31 -> len - i <= Z.of_nat fuel ->
  qoi_decode_loop fuel target len s prev_px index out i <> Starved.
Proof.
  revert s prev_px index out i.
  induction fuel as [|fuel IH]; intros s prev_px index out i Hi Hlen Hf.
  - cbn. destruct (Z.ltb_spec i len); [lia|done].
  - cbn [qoi_decode_loop]. destruct (Z.ltb_spec i len) as [Hlt|]; [|done].
    assert (Hfin : forall (s : koi__context U) px index,
      match qoi_put_pixel target px out (u32 (i * target)) with
      | Some (out, _) =>
        qoi_decode_loop fuel target len s px index out (u32 (i + 1))
      | None => Wild
      end <> Starved).
    { intros s0 px index0.
      destruct (qoi_put_pixel _ _ _ _) as [[o p]|]; [|done].
      apply IH; rewrite ?u32_small by lia; lia. }
    destruct (koi__get8 s) as [tag s1].
    repeat first
      [ apply Hfin
      | match goal with
        | |- context [koi__get8 ?s] => destruct (koi__get8 s) as [? ?]
        end
      | match goal with
        | |- context [if ?c then _ else _] => destruct c eqn:?
        end ].
    set (run := u8 (Z.lxor tag 192 + 1)).
    assert (0 <= run < 256) by (apply Z.mod_pos_bound; lia).
    destruct (qoi_run_loop _ _ _ _ _ _) as [[o i']|] eqn:Hrun; [|done].
    apply run_loop_index in Hrun; [|lia|rewrite Z2Nat.id; lia].
    rewrite Z2Nat.id in Hrun by lia.
    apply IH; rewrite ?u32_small by lia; lia.
Qed.

End DecoderFuel.

(** ** The shape of a decoded image *)

Lemma lookup_total_byte (l : list Z) (k : nat) :
  Forall is_byte l -> is_byte (l !!! k).
Proof.
  intros H. rewrite list_lookup_total_alt.
  destruct (l !! k) as [v|] eqn:E; cbn.
  - by eapply Forall_lookup_1.
  - unfold is_byte. cbv. split; congruence.
Qed.

Lemma poke_shape buf pos v buf' :
  poke buf pos v = Some buf' -> is_byte v -> Forall is_byte buf ->
  Forall is_byte buf' /\ length buf' = length buf.
Proof.
  unfold poke. destruct (_ && _); [|done]. intros [= <-] Hv Hb.
  split; [by apply Forall_insert|by rewrite length_insert].
Qed.

Lemma put_pixel_shape target px out pos out' pos' :
  qoi_put_pixel target px out pos = Some (out', pos') ->
  byte_px px -> Forall is_byte out ->
  Forall is_byte out' /\ length out' = length out.
Proof.
  intros H (Hr & Hg & Hb & Ha) Ho. unfold qoi_put_pixel in H.
  destruct (poke out pos (r px)) as [o1|] eqn:E1; cbn in H; [|done].
  apply poke_shape in E1 as [F1 L1]; [|done..].
  destruct (poke o1 _ (g px)) as [o2|] eqn:E2; cbn in H; [|done].
  apply poke_shape in E2 as [F2 L2]; [|done..].
  destruct (poke o2 _ (b px)) as [o3|] eqn:E3; cbn in H; [|done].
  apply poke_shape in E3 as [F3 L3]; [|done..].
  destruct (target =? 4).
  - destruct (poke o3 _ (a px)) as [o4|] eqn:E4; cbn in H; [|done].
    apply poke_shape in E4 as [F4 L4]; [|done..].
    injection H as <- <-. split; [done|congruence].
  - injection H as <- <-. split; [done|congruence].
Qed.

Lemma run_loop_shape (run : nat) target px out i pos out' i' :
  qoi_run_loop run target px out i pos = Some (out', i') ->
  byte_px px -> Forall is_byte out ->
  Forall is_byte out' /\ length out' = length out.
Proof.
  revert out i pos.
  induction run as [|n IH]; intros out i pos H Hpx Ho.
  - cbn in H. by injection H as <- <-.
  - cbn [qoi_run_loop] in H.
    destruct (qoi_put_pixel target px out pos) as [[o p]|] eqn:E;
      cbn in H; [|done].
    apply put_pixel_shape in E as [F L]; [|done..].
    destruct (0 <? Z.of_nat n); apply IH in H as [F' L']; try done;
      split; congruence.
Qed.

Section DecodedShape.

Context {U : Type}.
Implicit Types s : koi__context U.

Lemma get8_byte_stream s v s' :
  byte_stream s -> koi__get8 s = (v, s') ->
  is_byte v /\ byte_stream s' /\ same_image s s'.
Proof.
  intros (Hr & Hb & Ho & Hm) H. unfold koi__get8 in H. rewrite Hr in H.
  destruct (ptr_lt _ _); injection H as <- <-.
  - split; [unfold deref; rewrite Hb; by apply lookup_total_byte|].
    by split.
  - split; [unfold is_byte; lia|]. by split.
Qed.

Ltac next_byte H :=
  match type of H with
  | context [koi__get8 ?s] =>
    let E := fresh "E" in
    let v := fresh "v" in
    let s1 := fresh "s" in
    destruct (koi__get8 s) as [v s1] eqn:E;
    apply get8_byte_stream in E as (? & ? & ?); [|assumption]
  end.

Lemma get32be_byte_stream s v s' :
  byte_stream s -> koi__get32be s = (v, s') ->
  0 <= v < 2 ^ 32 /\ byte_stream s' /\ same_image s s'.
Proof.
  intros Hs H. unfold koi__get32be, koi__get16be in H.
  repeat next_byte H. injection H as <- <-.
  split; [apply Z.mod_pos_bound; lia|]. split; [done|image_chain].
Qed.

Lemma parse_header_shape s info s' :
  byte_stream s -> koi__qoi_parse_header s = (Ok info, s') ->
  byte_stream s' /\ 0 <= img_x s' < 2 ^ 32 /\ 0 <= img_y s' < 2 ^ 32
  /\ (ch_n info = 3 \/ ch_n info = 4).
Proof.
  intros Hs H. unfold koi__qoi_parse_header in H.
  do 4 (next_byte H; destruct (negb _); [done|]).
  destruct (koi__get32be _) as [w s4] eqn:E4.
  apply get32be_byte_stream in E4 as (Hw & Hs4 & _); [|done].
  destruct (koi__get32be _) as [h s5] eqn:E5.
  apply get32be_byte_stream in E5 as (Hh & Hs5 & I5); [|done].
  assert (Hs5' : byte_stream (set_img_y s5 h)) by done.
  next_byte H. destruct (negb (v3 =? 3) && negb (v3 =? 4)) eqn:En; [done|].
  next_byte H. destruct (negb (v4 =? 0) && _); [done|]. injection H as <- <-.
  split; [done|]. cbn [ch_n].
  assert (Ex : img_x s7 = w /\ img_y s7 = h).
  { unfold same_image, set_img_x, set_img_y in *.
    cbn [img_x img_y img_n] in *. intuition congruence. }
  destruct Ex as [Ex Ey].
  rewrite Ex, Ey. do 2 (split; [done|]).
  destruct (Z.eqb_spec v3 3), (Z.eqb_spec v3 4); cbn in En; try done; auto.
Qed.

Lemma u8_is_byte x : is_byte (u8 x).
Proof. apply Z.mod_pos_bound. lia. Qed.

Lemma lookup_total_byte_px (index : list koi__qoi_pixel) (k : nat) :
  Forall byte_px index -> byte_px (index !!! k).
Proof.
  intros H. rewrite list_lookup_total_alt.
  destruct (index !! k) as [px|] eqn:E; cbn.
  - by eapply Forall_lookup_1.
  - unfold byte_px, is_byte. cbn. lia.
Qed.

Ltac px_ok :=
  first
    [ by apply lookup_total_byte_px
    | unfold byte_px in *; cbn [r g b a]; split; [|split; [|split]];
      first [apply u8_is_byte | tauto] ].

(** The pixel loop writes bytes into the buffer it was given and leaves
    the image fields of the context alone. *)
Lemma decode_loop_shape (fuel : nat) target len s prev_px index out i
    out' s' :
  byte_stream s -> byte_px prev_px -> Forall byte_px index ->
  Forall is_byte out ->
  qoi_decode_loop fuel target len s prev_px index out i = Done out' s' ->
  Forall is_byte out' /\ length out' = length out
  /\ byte_stream s' /\ same_image s s'.
Proof.
  revert s prev_px index out i.
  induction fuel as [|fuel IH]; intros s prev_px index out i Hs Hp Hi Ho H.
  - cbn in H. destruct (i <? len); [done|]. by injection H as <- <-.
  - cbn [qoi_decode_loop] in H.
    destruct (i <? len); [|by injection H as <- <-].
    assert (Hfin : forall (s1 : koi__context U) px index1,
      match qoi_put_pixel target px out (u32 (i * target)) with
      | Some (out, _) =>
        qoi_decode_loop fuel target len s1 px index1 out (u32 (i + 1))
      | None => Wild
      end = Done out' s' ->
      byte_stream s1 -> same_image s s1 -> byte_px px ->
      Forall byte_px index1 ->
      Forall is_byte out' /\ length out' = length out
      /\ byte_stream s' /\ same_image s s').
    { intros s1 px index1 H1 Hs1 I1 Hpx Hi1.
      destruct (qoi_put_pixel target px out _) as [[o p]|] eqn:E; [|done].
      apply put_pixel_shape in E as [F L]; [|done..].
      apply IH in H1 as (F' & L' & Hs' & I'); try done.
      split; [done|]. split; [congruence|]. split; [done|image_chain]. }
    next_byte H.
    repeat first
      [ next_byte H
      | match type of H with
        | context [if ?c then _ else _] => destruct c eqn:?
        end ].
    1-5: apply Hfin in H;
      [exact H|assumption|image_chain|px_ok|apply Forall_insert; [done|px_ok]].
    + destruct (qoi_run_loop _ _ _ _ _ _) as [[o i']|] eqn:Hrun; [|done].
      apply run_loop_shape in Hrun as [F L]; [|done..].
      apply IH in H as (F' & L' & Hs' & I'); try done.
      * split; [done|]. split; [congruence|]. split; [done|image_chain].
      * by apply Forall_insert.
    + apply Hfin in H;
        [exact H|assumption|image_chain|px_ok|apply Forall_insert; [done|px_ok]].
Qed.

Lemma concat_length_uniform (ls : list (list Z)) (n : Z) :
  Forall (fun l => Z.of_nat (length l) = n) ls ->
  Z.of_nat (length (concat ls)) = Z.of_nat (length ls) * n.
Proof.
  induction 1 as [|l ls Hl _ IH]; [done|].
  cbn [concat length]. rewrite length_app. lia.
Qed.

Lemma convert_pixel_shape img_n req src l :
  convert_pixel img_n req src = Some l -> (forall c, is_byte (src c)) ->
  Z.of_nat (length l) = req /\ Forall is_byte l.
Proof.
  intros H Hsrc. unfold convert_pixel in H.
  repeat case_match; try done; injection H as <-;
    (split; [done|]);
    repeat constructor;
    first [apply Hsrc | unfold koi__compute_y; apply u8_is_byte | unfold is_byte; lia].
Qed.

Lemma convert_pixel_some img_n req src src' l :
  convert_pixel img_n req src = Some l ->
  exists l', convert_pixel img_n req src' = Some l'.
Proof.
  intros H. unfold convert_pixel in *.
  repeat case_match; try done; by eexists.
Qed.

Lemma convert_row_shape data img_n req x j row :
  convert_row data img_n req x j = Some row -> Forall is_byte data ->
  0 <= x ->
  Z.of_nat (length row) = x * req /\ Forall is_byte row.
Proof.
  intros H Hd Hx. unfold convert_row in H.
  destruct (convert_pixel img_n req (fun _ => 0)) as [l0|] eqn:E0; [|done].
  injection H as <-.
  set (f := fun k : Z => default [] (convert_pixel img_n req _)).
  assert (Hf : forall k, Z.of_nat (length (f k)) = req
                         /\ Forall is_byte (f k)).
  { intros k. unfold f.
    destruct (convert_pixel_some _ _ _
                (fun c => data !!! Z.to_nat (j * x * img_n + k * img_n + c))
                _ E0) as [l' El'].
    rewrite El'. cbn. apply convert_pixel_shape in El'; [done|].
    intros c. by apply lookup_total_byte. }
  split.
  - rewrite (concat_length_uniform _ req).
    + rewrite length_fmap, length_seqZ, Z2Nat.id by lia. done.
    + apply Forall_fmap, Forall_forall. intros k _. apply Hf.
  - apply Forall_concat, Forall_fmap, Forall_forall. intros k _. apply Hf.
Qed.

Variable alloc : Z -> bool.
Implicit Types m : machine U.

Lemma convert_format_shape m m' data img_n req x y out :
  koi__convert_format alloc m data img_n req x y = (Ok out, m') ->
  req <> img_n -> Forall is_byte data -> 0 <= x -> 0 <= y < 2 ^ 31 ->
  Z.of_nat (length out) = x * y * req /\ Forall is_byte out
  /\ outs m' = outs m.
Proof.
  intros H Hne Hd Hx Hy.
  pose proof (koi__convert_format_outs alloc m data img_n req x y) as Ho.
  rewrite H in Ho. cbn in Ho.
  unfold koi__convert_format in H.
  destruct (Z.eqb_spec req img_n); [done|].
  destruct (negb _); [done|].
  destruct (koi__malloc_mad3 alloc m req (i32 x) (i32 y) 0) as [good m1].
  destruct good; [|done].
  destruct (mapM _ _) as [rows|] eqn:Er; [|done]. injection H as <- <-.
  apply mapM_Some in Er. rewrite i32_small in Er by done.
  assert (Hrows : Forall (fun row => Z.of_nat (length row) = x * req
                                     /\ Forall is_byte row) rows).
  { clear -Er Hd Hx. induction Er as [|j row js rows Hj _ IH]; [done|].
    constructor; [|done]. by eapply convert_row_shape. }
  apply Forall2_length in Er. rewrite length_seqZ in Er.
  split; [|split; [|done]].
  - rewrite (concat_length_uniform _ (x * req)).
    + rewrite <- Er, Z2Nat.id by lia. lia.
    + eapply Forall_impl; [exact Hrows|]. by intros row [? _].
  - apply Forall_concat. eapply Forall_impl; [exact Hrows|].
    by intros row [_ ?].
Qed.

(** What [koi__qoi_load] hands back when it succeeds on a stream of
    bytes: the dimensions of the header in [*x] and [*y], the channels
    of the file in [*comp], and one byte per component. *)
Lemma qoi_load_shape m req out m' :
  byte_stream (ctx m) ->
  koi__qoi_load alloc m req = (Ok out, m') ->
  exists x y n,
    x_loc (outs m') = Some x /\ y_loc (outs m') = Some y
    /\ comp_loc (outs m') = store_if (comp_loc (outs m)) n
    /\ 0 <= x <= 2 ^ 24 /\ 0 <= y <= 2 ^ 24 /\ (n = 3 \/ n = 4)
    /\ Z.of_nat (length out) = x * y * (if req =? 0 then n else req)
    /\ Forall is_byte out.
Proof.
  intros Hs H. unfold koi__qoi_load in H.
  destruct (koi__qoi_parse_header (ctx m)) as [hdr s] eqn:Eh.
  destruct hdr as [info| |]; [|done|done].
  apply parse_header_shape in Eh as (Hs1 & Hx & Hy & Hn); [|done].
  unfold KOI_MAX_DIMENSIONS in H. change (Z.shiftl 1 24) with (2 ^ 24) in H.
  destruct (Z.gtb_spec (img_y s) (2 ^ 24)) as [|Hy']; [done|].
  destruct (Z.gtb_spec (img_x s) (2 ^ 24)) as [|Hx']; [done|].
  cbv zeta in H. cbn [ctx set_ctx img_x img_y img_n set_img_n outs] in H.
  rewrite !i32_small in H by lia.
  set (target := qoi_target req (ch_n info)) in *.
  assert (Ht : 0 <= target) by apply qoi_target_nonneg.
  destruct (negb (koi__mad3sizes_valid _ _ _ _)) eqn:Ev; [done|].
  unfold koi__malloc_mad3, koi__malloc in H. rewrite Ev in H.
  cbn [ctx set_ctx outs mallocs] in H.
  destruct (alloc _); [|done].
  destruct (qoi_decode_loop _ _ _ _ _ _ _ _) as [out1 s'| |] eqn:El;
    [|done|done].
  apply decode_loop_shape in El as (F1 & L1 & Hs' & I').
  2: done.
  2: unfold byte_px, start_px, is_byte; cbn; lia.
  2: apply Forall_replicate; unfold byte_px, zero_px, is_byte; cbn; lia.
  2: apply Forall_replicate; unfold is_byte; lia.
  rewrite length_replicate in L1.
  assert (Ex : img_x s' = img_x s) by image_chain.
  assert (Ey : img_y s' = img_y s) by image_chain.
  assert (En : img_n s' = ch_n info) by image_chain.
  rewrite Ex, Ey, En in H. cbn [ctx set_ctx outs] in H.
  assert (L : Z.of_nat (length out1) = img_x s * img_y s * target).
  { rewrite L1, Z2Nat.id by nia. lia. }
  exists (img_x s), (img_y s), (ch_n info).
  destruct (negb (req =? 0) && negb (req =? target)) eqn:Ec.
  - destruct (koi__convert_format _ _ _ _ _ _ _) as [conv m3] eqn:Ef.
    destruct conv as [out2| |]; [|done|done].
    apply convert_format_shape in Ef as (L2 & F2 & O2); try done; try lia.
    cbn [outs set_ctx] in O2. rewrite O2 in H.
    destruct (x_loc (outs m)), (y_loc (outs m)); try done.
    injection H as <- <-. cbn.
    destruct (Z.eqb_spec req 0); [done|].
    rewrite !i32_small by lia. by repeat split; try lia.
  - cbn [outs set_ctx] in H.
    destruct (x_loc (outs m)), (y_loc (outs m)); try done.
    injection H as <- <-. cbn.
    rewrite !i32_small by lia.
    repeat split; try done; try lia.
    rewrite L. f_equal.
    destruct (Z.eqb_spec req 0) as [->|]; cbn in Ec.
    + unfold target, qoi_target. cbn. unfold u8.
      destruct Hn as [-> | ->]; done.
    + destruct (Z.eqb_spec req target); [done|done].
Qed.

Lemma rewind_byte_stream s : byte_stream s -> byte_stream (koi__rewind s).
Proof. intros (Hr & Hb & Ho & Hm). by repeat split. Qed.

Lemma qoi_test_byte_stream s ok s' :
  byte_stream s -> koi__qoi_test s = (ok, s') -> byte_stream s'.
Proof.
  intros Hs H. unfold koi__qoi_test, koi__qoi_test_raw in H.
  destruct (_ <? 14 + 8).
  { injection H as <- <-. by apply rewind_byte_stream. }
  repeat (next_byte H;
          destruct (negb _);
          [injection H as <- <-; by apply rewind_byte_stream|]).
  injection H as <- <-. by apply rewind_byte_stream.
Qed.

Lemma load_main_shape m req out ri m' :
  byte_stream (ctx m) ->
  koi__load_main alloc m req = (Ok (out, ri), m') ->
  bits_per_channel ri = 8
  /\ exists x y n,
      x_loc (outs m') = Some x /\ y_loc (outs m') = Some y
      /\ comp_loc (outs m') = store_if (comp_loc (outs m)) n
      /\ 0 <= x <= 2 ^ 24 /\ 0 <= y <= 2 ^ 24 /\ (n = 3 \/ n = 4)
      /\ Z.of_nat (length out) = x * y * (if req =? 0 then n else req)
      /\ Forall is_byte out.
Proof.
  intros Hs H. unfold koi__load_main in H.
  destruct (koi__qoi_test (ctx m)) as [is_qoi s1] eqn:Et.
  apply qoi_test_byte_stream in Et; [|done].
  destruct is_qoi; [|done].
  destruct (koi__qoi_load alloc (set_ctx m s1) req) as [res m1] eqn:El.
  destruct res as [out1| |]; [|done|done].
  injection H as <- <- <-. split; [done|].
  by apply qoi_load_shape in El.
Qed.

End DecodedShape.

(** ** The 16-bit load *)

Lemma promote_byte v :
  is_byte v ->
  (Z.shiftl v 8 + v) `mod` 2 ^ 16 = Z.lor (Z.shiftl v 8) v
  /\ Z.lor (Z.shiftl v 8) v = 257 * v.
Proof.
  intros Hv.
  pose proof (range_check
    (fun v => ((Z.shiftl v 8 + v) `mod` 2 ^ 16 =? Z.lor (Z.shiftl v 8) v)
              && (Z.lor (Z.shiftl v 8) v =? 257 * v)) 0 256
    eq_refl v Hv) as H.
  apply andb_prop in H as [H1 H2]. split; by apply Z.eqb_eq.
Qed.

Lemma fmap_by_index (f g : Z -> Z) (l : list Z) :
  (forall v, v ∈ l -> f v = g v) ->
  (fun i => f (l !!! Z.to_nat i)) <$> seqZ 0 (Z.of_nat (length l))
  = g <$> l.
Proof.
  intros Hfg. apply list_eq. intros k. rewrite !list_lookup_fmap.
  destruct (l !! k) as [v|] eqn:E.
  - pose proof (lookup_lt_Some _ _ _ E) as Hk.
    rewrite lookup_seqZ_lt by lia. cbn [fmap option_fmap option_map].
    f_equal.
    rewrite Z.add_0_l, Nat2Z.id, (list_lookup_total_correct _ _ _ E).
    apply Hfg. by eapply list_elem_of_lookup_2.
  - pose proof (lookup_ge_None_1 _ _ E) as Hk.
    by rewrite lookup_seqZ_ge by lia.
Qed.

Lemma convert_8_to_16_bytes {U : Type} (alloc : Z -> bool) (m : machine U)
    (orig : list Z) (w h channels : Z) :
  Forall is_byte orig -> Z.of_nat (length orig) = w * h * channels ->
  alloc (w * h * channels * 2) = true ->
  (koi__convert_8_to_16 alloc m orig w h channels).1
  = Ok ((fun v => Z.lor (Z.shiftl v 8) v) <$> orig).
Proof.
  intros Hb Hl Ha. unfold koi__convert_8_to_16, koi__malloc.
  rewrite Ha. cbn. f_equal. rewrite <- Hl.
  apply (fmap_by_index (fun v => (Z.shiftl v 8 + v) `mod` 2 ^ 16)).
  intros v Hv. apply promote_byte. by eapply Forall_forall in Hb.
Qed.

(** C8.  Take a memory span of bytes on which the 8-bit load succeeds
    with the components [out8], a request the allocator grants for the
    promoted image, and a location for [comp] when no channel count is
    requested.  Then the 16-bit load of the same span answers, component
    by component, [(v << 8) | v] of the 8-bit component [v] (rows swapped
    afterwards when the flip is set); that value is [257 * v], so 0 gives
    0 and 255 gives 0xFFFF. *)
Theorem promotion_8_to_16 {U : Type} (alloc : Z -> bool) (flip : bool)
    (s : koi__context U) (buffer : list Z) (len : Z) (xyc : out_ptrs)
    (req_comp : Z) (out8 : list Z) :
  Forall is_byte buffer ->
  (koi_load_from_memory alloc false s buffer len xyc req_comp).1 = Ok out8 ->
  req_comp <> 0 \/ comp_loc xyc <> None ->
  Z.of_nat (length out8) * 2 <= INT_MAX ->
  alloc (Z.of_nat (length out8) * 2) = true ->
  let out16 := (fun v => Z.lor (Z.shiftl v 8) v) <$> out8 in
  (exists x y channels,
     Z.of_nat (length out8) = x * y * channels
     /\ (koi_load_16_from_memory alloc flip s buffer len xyc req_comp).1
        = Ok (if flip then koi__vertical_flip 1024 out16 x y channels
              else out16))
  /\ out16 = (fun v => 257 * v) <$> out8
  /\ Z.lor (Z.shiftl 0 8) 0 = 0 /\ Z.lor (Z.shiftl 255 8) 255 = 65535.
Proof.
  intros Hb H8 Hc _ Ha out16.
  unfold koi_load_from_memory, koi__load_and_postprocess_8bit in H8.
  unfold koi_load_16_from_memory, koi__load_and_postprocess_16bit.
  set (m := {| ctx := koi__start_mem s buffer len; outs := xyc;
               mallocs := [] |}) in *.
  destruct (koi__load_main alloc m req_comp) as [res m1] eqn:Em.
  destruct res as [[result ri]| |]; [|done|done].
  apply load_main_shape in Em
    as (Hbits & x & y & n & Hx & Hy & Hcl & _ & _ & _ & Hl & Hf);
    [|by repeat split].
  rewrite Hbits in *. cbn in H8. injection H8 as ->.
  split; [|split; [|done]].
  - exists x, y, (if req_comp =? 0 then n else req_comp).
    split; [done|]. cbn [Z.eqb Pos.eqb negb orb].
    assert (Hch : result_channels m1 req_comp
                  = Some (if req_comp =? 0 then n else req_comp)).
    { unfold result_channels.
      destruct (Z.eqb_spec req_comp 0); [|done]. cbn.
      destruct Hc as [|Hc]; [done|]. rewrite Hcl. cbn in *.
      by destruct (comp_loc xyc). }
    rewrite Hch, Hx, Hy. rewrite Hl in Ha.
    pose proof (convert_8_to_16_bytes alloc m1 out8 x y _ Hf Hl Ha) as H16.
    destruct (koi__convert_8_to_16 _ _ _ _ _ _) as [r16 m2].
    cbn in H16. subst r16. by destruct flip.
  - apply list_fmap_ext. intros i v Hv. apply promote_byte.
    by eapply Forall_lookup_1 in Hf.
Qed.

Lemma promotion_8_to_16_witness :
  let file := qoi_file false 0 2 1 3 [0; 255; 7; 0; 255; 7] in
  let out16 := (fun v => Z.lor (Z.shiftl v 8) v) <$> [0; 255; 7; 0; 255; 7] in
  (exists x y channels,
     Z.of_nat (length [0; 255; 7; 0; 255; 7]) = x * y * channels
     /\ (koi_load_16_from_memory (fun _ => true) false blank_context file
           (Z.of_nat (length file)) (locations 0 0 0) 0).1
        = Ok (if false then koi__vertical_flip 1024 out16 x y channels
              else out16))
  /\ out16 = (fun v => 257 * v) <$> [0; 255; 7; 0; 255; 7]
  /\ Z.lor (Z.shiftl 0 8) 0 = 0 /\ Z.lor (Z.shiftl 255 8) 255 = 65535.
Proof.
  intros file.
  apply (promotion_8_to_16 (fun _ => true) false blank_context file
           (Z.of_nat (length file)) (locations 0 0 0) 0
           [0; 255; 7; 0; 255; 7]).
  - vm_compute. repeat constructor; discriminate.
  - vm_compute. reflexivity.
  - right. discriminate.
  - vm_compute. discriminate.
  - reflexivity.
Defined.

(** * More of the two libraries *)

(** ** Size checks *)

Lemma addsizes_valid_iff a b :
  koi__addsizes_valid a b = true <-> 0 <= b /\ a + b <= INT_MAX.
Proof.
  unfold koi__addsizes_valid.
  destruct (Z.ltb_spec b 0); [split; [done|lia]|].
  rewrite Z.leb_le. lia.
Qed.

Lemma mul2sizes_valid_iff a b :
  koi__mul2sizes_valid a b = true <-> 0 <= a /\ 0 <= b /\ a * b <= INT_MAX.
Proof.
  unfold koi__mul2sizes_valid.
  destruct (Z.ltb_spec a 0); [split; [done|lia]|].
  destruct (Z.ltb_spec b 0); [split; [done|lia]|]. cbn [orb].
  destruct (Z.eqb_spec b 0) as [->|Hb].
  { unfold INT_MAX. split; [lia|done]. }
  rewrite Z.leb_le, Z.quot_div_nonneg by (unfold INT_MAX; lia).
  split.
  - intros Hq. split; [done|]. split; [done|].
    pose proof (Z.mul_div_le INT_MAX b ltac:(lia)). nia.
  - intros (_ & _ & Hm). apply Z.div_le_lower_bound; lia.
Qed.

(** The size checks accept exactly the non-negative terms whose products
    and sum stay within [INT_MAX]; a product that overflows is refused
    even when a later factor is zero. *)
Theorem sizes_valid_exact (a b c d add : Z) :
  (koi__mad3sizes_valid a b c add = true <->
   0 <= a /\ 0 <= b /\ 0 <= c /\ 0 <= add
   /\ a * b <= INT_MAX /\ a * b * c + add <= INT_MAX)
  /\ (koi__mad4sizes_valid a b c d add = true <->
      0 <= a /\ 0 <= b /\ 0 <= c /\ 0 <= d /\ 0 <= add
      /\ a * b <= INT_MAX /\ a * b * c <= INT_MAX
      /\ a * b * c * d + add <= INT_MAX).
Proof.
  unfold koi__mad3sizes_valid, koi__mad4sizes_valid.
  rewrite !andb_true_iff, !mul2sizes_valid_iff, !addsizes_valid_iff.
  split; split.
  - intros [[(Ha & Hb & Hab) (_ & Hc & Habc)] [Hadd Hs]]. lia.
  - intros (Ha & Hb & Hc & Hadd & Hab & Hs).
    assert (0 <= a * b * c) by nia. repeat split; try lia; nia.
  - intros [[[(Ha & Hb & Hab) (_ & Hc & Habc)] (_ & Hd & Habcd)] [Hadd Hs]].
    lia.
  - intros (Ha & Hb & Hc & Hd & Hadd & Hab & Habc & Hs).
    assert (0 <= a * b * c) by nia. assert (0 <= a * b * c * d) by nia.
    repeat split; try lia; nia.
Qed.

(** ** Conversion to grey *)

Lemma compute_y_range (vr vg vb : Z) :
  is_byte vr -> is_byte vg -> is_byte vb ->
  Z.min vr (Z.min vg vb) <= koi__compute_y vr vg vb
    <= Z.max vr (Z.max vg vb).
Proof.
  unfold is_byte, koi__compute_y, u8. intros Hr Hg Hb.
  rewrite Z.shiftr_div_pow2 by lia. change (2 ^ 8) with 256.
  assert (H : Z.min vr (Z.min vg vb) <= (vr * 77 + vg * 150 + 29 * vb) / 256
              <= Z.max vr (Z.max vg vb)).
  { split.
    - apply Z.div_le_lower_bound; lia.
    - apply Z.div_le_upper_bound; lia. }
  by rewrite Z.mod_small by lia.
Qed.

Lemma compute_y_grey (v : Z) : is_byte v -> koi__compute_y v v v = v.
Proof. intros Hv. pose proof (compute_y_range v v v Hv Hv Hv). lia. Qed.

(** The grey value [koi__compute_y] gives a pixel lies between its
    darkest and its brightest colour component, so a grey pixel keeps its
    value. *)
Theorem compute_y_between (vr vg vb : Z) :
  is_byte vr -> is_byte vg -> is_byte vb ->
  Z.min vr (Z.min vg vb) <= koi__compute_y vr vg vb
    <= Z.max vr (Z.max vg vb)
  /\ (vr = vg -> vg = vb -> koi__compute_y vr vg vb = vr).
Proof.
  intros Hr Hg Hb. split; [by apply compute_y_range|].
  intros -> ->. by apply compute_y_grey.
Qed.

Lemma compute_y_between_witness :
  Z.min 200 (Z.min 100 50) <= koi__compute_y 200 100 50
    <= Z.max 200 (Z.max 100 50)
  /\ (200 = 100 -> 100 = 50 -> koi__compute_y 200 100 50 = 200).
Proof.
  apply (compute_y_between 200 100 50); unfold is_byte; lia.
Defined.

(** ** Loading what the encoder wrote, in general *)

Section LoadEncoded.

Context {U : Type}.
Variable alloc : Z -> bool.
Implicit Types s : koi__context U.

(** A file that holds a header, the ops the encoder writes for the
    pixels [pxs] and at least eight more bytes is decoded to the bytes
    of [pxs]; what follows the loop of [koi__qoi_load] (the conversion
    and the stores) runs on that buffer. *)
Lemma load_main_encoded s w h c ccs pxs rest xyc req :
  0 <= w <= 2 ^ 24 -> 0 <= h <= 2 ^ 24 ->
  c = 3 \/ c = 4 -> ccs = 0 \/ ccs = 1 ->
  Forall byte_px pxs -> Z.of_nat (length pxs) = w * h ->
  let target := qoi_target req c in
  target = 3 \/ target = 4 ->
  target * w * h <= INT_MAX ->
  alloc (target * w * h + 0) = true ->
  let file :=
    qoi_header w h c ccs
    ++ ops_bytes (encode_ops (w * h) 0 start_px index_zero 0 pxs) ++ rest in
  8 <= Z.of_nat (length rest) ->
  exists s3,
    img_x s3 = w /\ img_y s3 = h /\ img_n s3 = c /\ reads s3 rest
    /\ koi__load_main alloc
         {| ctx := koi__start_mem s file (Z.of_nat (length file));
            outs := xyc; mallocs := [] |} req
       = let m := {| ctx := s3; outs := xyc;
                     mallocs := [target * w * h + 0] |} in
         let '(conv, m) :=
           if negb (req =? 0) && negb (req =? target)
           then koi__convert_format alloc m
                  (concat (px_bytes target <$> pxs)) target req w h
           else (Ok (concat (px_bytes target <$> pxs)), m) in
         match conv with
         | Fail e => (Fail e, m)
         | Undef => (Undef, m)
         | Ok out =>
           match x_loc (outs m), y_loc (outs m) with
           | Some _, Some _ =>
             (Ok (out, {| bits_per_channel := 8; num_channels := 0 |}),
              set_outs m
                {| x_loc := Some w; y_loc := Some h;
                   comp_loc := store_if (comp_loc (outs m)) c |})
           | _, _ => (Undef, m)
           end
         end.
Proof.
  intros Hw Hh Hc Hccs Hpxs Hlen target Ht Hfit Halloc file Hrest.
  unfold INT_MAX in Hfit. change (2 ^ 24) with 16777216 in *.
  change (2 ^ 31 - 1) with 2147483647 in Hfit.
  assert (Hwh : w * h * target < 2 ^ 31)
    by (change (2 ^ 31) with 2147483648; nia).
  set (payload := ops_bytes (encode_ops (w * h) 0 start_px index_zero 0 pxs))
    in *.
  destruct (load_main_on_header alloc s w h c ccs (payload ++ rest) xyc req)
    as (s1 & R1 & _ & E0).
  { rewrite !length_app, qoi_header_length. lia. }
  destruct (parse_header_reads s1 w h c ccs (payload ++ rest))
    as (s2 & E1 & Hx & Hy & Hn & _ & Hr2); [lia|lia|exact R1|].
  assert (Hv : header_verdict c ccs = Ok {| ch_n := c; cspace := ccs |}).
  { unfold header_verdict. by destruct Hc as [->| ->], Hccs as [->| ->]. }
  rewrite Hv in *. specialize (Hr2 _ eq_refl).
  destruct (decode_encode_ops target (w * h) Ht Hwh pxs 0 start_px
              index_zero 0 Hpxs ltac:(by repeat split) ltac:(lia) ltac:(lia)
              eq_refl ltac:(by right) ltac:(lia) ltac:(lia)
              (Z.to_nat (w * h)) (set_img_n s2 c) rest index_zero []
              (replicate (Z.to_nat (target * w * h + 0)) 0))
    as (s3 & E & R3 & Fx & Fy & Fn).
  { exact Hr2. }
  { by apply sync_refl. }
  { cbn. lia. }
  { rewrite length_replicate. destruct Ht as [->| ->]; nia. }
  { lia. }
  change (0 - 0) with 0 in E. cbn [app] in E.
  change (Z.to_nat 0) with 0%nat in E. cbn [replicate app] in E.
  cbn [img_x img_y img_n set_img_n] in Fx, Fy, Fn.
  exists s3. rewrite Fx, Fy, Fn, Hx, Hy.
  do 4 (split; [done|]).
  fold file in E0. rewrite E0.
  unfold koi__qoi_load. cbn [ctx]. rewrite E1.
  rewrite Hx, Hy. unfold KOI_MAX_DIMENSIONS.
  change (Z.shiftl 1 24) with 16777216.
  rewrite !Z.gtb_ltb, !(proj2 (Z.ltb_ge _ _)) by lia.
  cbn [img_n set_img_n img_x img_y ch_n set_ctx ctx outs mallocs].
  rewrite Hx, Hy, !i32_small by lia.
  fold target.
  assert (Hvalid : koi__mad3sizes_valid target w h 0 = true).
  { apply mad3sizes_fits; unfold INT_MAX;
      change (2 ^ 31 - 1) with 2147483647; destruct Ht as [->| ->]; nia. }
  unfold koi__malloc_mad3. rewrite Hvalid. cbn [negb].
  unfold koi__malloc. rewrite Halloc.
  cbn [ctx outs mallocs app].
  rewrite (u32_small (h * w)) by nia. rewrite (Z.mul_comm h w).
  rewrite E. cbn [set_ctx ctx outs mallocs].
  destruct (negb (req =? 0) && negb (req =? target)).
  - rewrite Fx, Fy, Fn, Hx, Hy, !i32_small by lia.
    destruct (koi__convert_format _ _ _ _ _ _ _) as [conv m3].
    destruct conv as [out| |]; [|done|done].
    by destruct (x_loc (outs m3)), (y_loc (outs m3)).
  - rewrite Fx, Fy, Fn, Hx, Hy, !i32_small by lia.
    unfold set_ctx. cbn [ctx outs mallocs app].
    by destruct (x_loc xyc), (y_loc xyc).
Qed.

End LoadEncoded.

(** ** The file written for an image, in general *)

Lemma pixel_at_byte_px comp data pxi :
  Forall is_byte data -> byte_px (pixel_at comp data pxi).
Proof.
  intros Hd. unfold pixel_at, koi_read_qoi_pixel.
  assert (Hb : forall k, is_byte (data !!! k)) by (intros; by apply lookup_total_byte).
  assert (H255 : is_byte 255) by (unfold is_byte; lia).
  assert (H0 : is_byte 0) by (unfold is_byte; lia).
  destruct ((comp =? 2) || (comp =? 4)) eqn:Ha;
    repeat case_match; try done; cbn [negb] in *; try done;
    unfold byte_px; cbn [r g b a]; auto.
Qed.

(** The ops written for an image are those of its pixels in the order
    the loop reads them. *)
Lemma write_qoi_ops_source flip cs x y comp data :
  0 <= x -> 0 <= y -> x * y < 2 ^ 31 ->
  (koi_write_qoi_to_func flip cs x y comp data).2
  = encode_ops (x * y) 0 start_px index_zero 0
      (qoi_source_pixel x comp ((comp =? 2) || (comp =? 4))
         (if flip then y - 1 else 0) (if flip then -1 else 1) data
       <$> seqZ 0 (x * y)).
Proof.
  intros Hx Hy Hxy. unfold koi_write_qoi_to_func, koi_write_qoi_core.
  rewrite !(proj2 (Z.ltb_ge _ _)) by lia. cbn [orb snd].
  rewrite (u32_small (x * y)) by nia.
  destruct wctx_ok_zero as [Hok0 Hz0].
  destruct (header_written write_context_zero x y
              (if (comp =? 2) || (comp =? 4) then 4 else 3)
              (if negb (cs =? 0) then 1 else 0) Hok0 Hz0)
    as (Hok1 & _ & _).
  set (s1 := koiw__writefv write_context_zero true "1111 44 11" _) in *.
  set (st0 := {| enc_s := s1; enc_run := 0; enc_prev_px := start_px;
                 enc_index := index_zero; enc_ops := [] |}).
  destruct flip.
  - rewrite (encode_loop_ops x comp ((comp =? 2) || (comp =? 4)) (y - 1) (-1)
               data (x * y) (Z.to_nat (x * y)) st0 0) by (done || nia).
    cbn [st0 enc_ops enc_run enc_prev_px enc_index app].
    by rewrite Z2Nat.id by nia.
  - rewrite (encode_loop_ops x comp ((comp =? 2) || (comp =? 4)) 0 1 data
               (x * y) (Z.to_nat (x * y)) st0 0) by (done || nia).
    cbn [st0 enc_ops enc_run enc_prev_px enc_index app].
    by rewrite Z2Nat.id by nia.
Qed.

Lemma write_file_pixels cs x y comp data :
  1 <= x -> 1 <= y -> x * y < 2 ^ 31 ->
  qoi_file false cs x y comp data
  = qoi_header x y (if (comp =? 2) || (comp =? 4) then 4 else 3)
      (if negb (cs =? 0) then 1 else 0)
    ++ ops_bytes (encode_ops (x * y) 0 start_px index_zero 0
                    (pixel_at comp data <$> seqZ 0 (x * y)))
    ++ qoi_trailer.
Proof.
  intros Hx Hy Hxy.
  destruct (write_qoi_file false cs x y comp data) as (s' & _ & _ & ->);
    [lia|lia|].
  rewrite write_qoi_ops_source by lia.
  rewrite !u32_small by nia. do 4 f_equal.
  apply Forall_fmap_ext_1, Forall_seqZ. intros p Hp.
  apply source_pixel_unflipped; nia.
Qed.

(** ** Loading with another number of channels *)

(** A written image loaded with [desired_channels] 0, 3 or 4, in terms
    of the pixels of the encoder's model ([pixel_at]). *)
Lemma load_written_pixels {U : Type} (alloc : Z -> bool)
    (s : koi__context U) (cs w h comp : Z) (data : list Z) (req : Z)
    (x0 y0 c0 : Z) :
  1 <= w <= 2 ^ 24 -> 1 <= h <= 2 ^ 24 -> 1 <= comp <= 4 ->
  Z.of_nat (length data) = w * h * comp -> Forall is_byte data ->
  req = 0 \/ req = 3 \/ req = 4 ->
  let channels := if (comp =? 2) || (comp =? 4) then 4 else 3 in
  let target := if req =? 0 then channels else req in
  target * w * h <= INT_MAX ->
  alloc (target * w * h + 0) = true ->
  let file := qoi_file false cs w h comp data in
  Z.of_nat (length file) <= INT_MAX ->
  let load :=
    koi_load_from_memory alloc false s file (Z.of_nat (length file))
      (locations x0 y0 c0) req in
  load.1 = Ok (concat (px_bytes target
                       <$> (pixel_at comp data <$> seqZ 0 (w * h))))
  /\ outs load.2 = locations w h channels
  /\ (target = comp -> load.1 = Ok data).
Proof.
  intros Hw Hh Hcomp Hdata Hbytes Hreq channels target Hfit Halloc file _ load.
  assert (Hch : channels = 3 \/ channels = 4)
    by (subst channels; destruct (_ || _); auto).
  assert (Ht : qoi_target req channels = target).
  { unfold qoi_target. subst target.
    destruct Hreq as [->|[->| ->]]; [|done|done]. cbn.
    by destruct Hch as [->| ->]. }
  assert (Ht34 : target = 3 \/ target = 4).
  { subst target. destruct Hreq as [->|[->| ->]]; cbn; auto. }
  assert (Hxy : w * h < 2 ^ 31).
  { unfold INT_MAX in Hfit. change (2 ^ 31) with 2147483648 in *.
    change (2 ^ 24) with 16777216 in *. destruct Ht34 as [E|E]; rewrite E in Hfit; nia. }
  set (pxs := pixel_at comp data <$> seqZ 0 (w * h)).
  assert (Hpxs : Forall byte_px pxs).
  { apply Forall_fmap, Forall_forall. intros p _. by apply pixel_at_byte_px. }
  assert (Hlen : Z.of_nat (length pxs) = w * h).
  { subst pxs. rewrite length_fmap, length_seqZ. nia. }
  destruct (load_main_encoded alloc s w h channels
              (if negb (cs =? 0) then 1 else 0) pxs qoi_trailer
              (locations x0 y0 c0) req)
    as (s3 & _ & _ & _ & _ & E);
    try done; try lia; try (rewrite Ht; (done || lia)).
  { destruct (negb _); auto. }
  rewrite Ht in E.
  assert (Hnc : negb (req =? 0) && negb (req =? target) = false).
  { subst target. destruct Hreq as [->|[->| ->]]; done. }
  rewrite Hnc in E.
  cbn [locations x_loc y_loc comp_loc outs set_outs store_if] in E.
  assert (Hload : load.1 = Ok (concat (px_bytes target <$> pxs))
                  /\ outs load.2 = locations w h channels).
  { subst load file. rewrite write_file_pixels by lia.
    unfold koi_load_from_memory, koi__load_and_postprocess_8bit.
    fold pxs. fold channels. rewrite E. done. }
  destruct Hload as [H1 H2]. split; [done|]. split; [done|].
  intros Etc. rewrite H1. f_equal.
  assert (Hc34 : comp = 3 \/ comp = 4) by lia.
  destruct (pixels_of_buffer comp data Hc34 Hbytes (Z.to_nat (w * h)) 0)
    as [_ Hcat]; [lia|rewrite Z2Nat.id by nia; lia|].
  rewrite Z2Nat.id in Hcat by nia. fold pxs in Hcat.
  change (Z.to_nat (0 * comp)) with 0%nat in Hcat. rewrite drop_0 in Hcat.
  by rewrite Etc.
Qed.

(** ** The conversion of [koi__convert_format], pixel by pixel *)

Lemma concat_uniform_lookup (ls : list (list Z)) (n p c : nat) :
  Forall (fun l => length l = n) ls ->
  (p < length ls)%nat -> (c < n)%nat ->
  concat ls !!! (p * n + c)%nat = (ls !!! p) !!! c.
Proof.
  intros Hall. revert p.
  induction Hall as [|l ls Hl _ IH]; intros p Hp Hc; [cbn in Hp; lia|].
  cbn [concat]. destruct p as [|p].
  - cbn. rewrite lookup_total_app_l by lia. done.
  - cbn [length] in Hp.
    rewrite lookup_total_app_r by lia.
    replace (S p * n + c - length l)%nat with (p * n + c)%nat by lia.
    rewrite IH by lia. done.
Qed.

Lemma fmap_lookup_total_seqZ {A} `{Inhabited A} (l : list A) :
  (fun p => l !!! Z.to_nat p) <$> seqZ 0 (Z.of_nat (length l)) = l.
Proof.
  apply list_eq. intros k. rewrite list_lookup_fmap.
  destruct (l !! k) as [v|] eqn:E.
  - pose proof (lookup_lt_Some _ _ _ E) as Hk.
    rewrite lookup_seqZ_lt by lia. cbn [fmap option_fmap option_map].
    f_equal. rewrite Z.add_0_l, Nat2Z.id.
    by apply list_lookup_total_correct.
  - pose proof (lookup_ge_None_1 _ _ E) as Hk.
    by rewrite lookup_seqZ_ge by lia.
Qed.

(** Rows of [x] items one after the other are the items in order. *)
Lemma concat_rows {A} (f : Z -> list A) (x : Z) (y : nat) :
  0 <= x ->
  concat ((fun j => concat ((fun k => f (j * x + k)) <$> seqZ 0 x))
          <$> seqZ 0 (Z.of_nat y))
  = concat (f <$> seqZ 0 (Z.of_nat y * x)).
Proof.
  intros Hx. induction y as [|y IH]; [done|].
  rewrite Nat2Z.inj_succ, <- Z.add_1_r.
  rewrite seqZ_app by lia. rewrite fmap_app, concat_app, IH.
  replace ((Z.of_nat y + 1) * x) with (Z.of_nat y * x + x) by lia.
  rewrite (seqZ_app 0) by lia. rewrite fmap_app, concat_app. f_equal.
  change (seqZ (0 + Z.of_nat y) 1) with [0 + Z.of_nat y].
  cbn [fmap list_fmap concat]. rewrite app_nil_r, !Z.add_0_l.
  f_equal.
  replace (seqZ (Z.of_nat y * x) x) with (seqZ (Z.of_nat y * x + 0) x)
    by (by rewrite Z.add_0_r).
  rewrite <- (fmap_add_seqZ (Z.of_nat y * x) 0 x).
  by rewrite <- list_fmap_compose.
Qed.

Lemma convert_pixel_colors n req src px :
  n = 3 \/ n = 4 -> (forall c, 0 <= c < n -> src c = color px c) ->
  convert_pixel n req src = convert_pixel n req (color px).
Proof.
  intros [->| ->] H; unfold convert_pixel;
    repeat case_match; try done; rewrite ?H by lia; done.
Qed.

Lemma px_bytes_lookup n px c :
  n = 3 \/ n = 4 -> 0 <= c < n ->
  px_bytes n px !!! Z.to_nat c = color px c.
Proof.
  intros Hn Hc.
  assert (Hcase : c = 0 \/ c = 1 \/ c = 2 \/ c = 3) by lia.
  destruct Hn as [->| ->], Hcase as [->|[->|[->| ->]]]; by (done || lia).
Qed.

Section ConvertPixels.

Context {U : Type}.
Variable alloc : Z -> bool.

(** [koi__convert_format] on the bytes of 3- or 4-channel pixels gives,
    pixel after pixel, what its [KOI__CASE] label stores. *)
Lemma convert_format_pixels (m : machine U) n req x y pxs :
  n = 3 \/ n = 4 -> req = 1 \/ req = 2 ->
  0 <= x < 2 ^ 31 -> 0 <= y < 2 ^ 31 -> Z.of_nat (length pxs) = x * y ->
  koi__mad3sizes_valid req x y 0 = true ->
  alloc (req * x * y + 0) = true ->
  (koi__convert_format alloc m (concat (px_bytes n <$> pxs)) n req x y).1
  = Ok (concat ((fun px => default [] (convert_pixel n req (color px)))
                <$> pxs)).
Proof.
  intros Hn Hreq Hx Hy Hlen Hvalid Halloc.
  unfold koi__convert_format.
  destruct (Z.eqb_spec req n) as [E|_]; [lia|].
  assert (Hrange : negb ((1 <=? req) && (req <=? 4)) = false)
    by (by destruct Hreq as [->| ->]).
  rewrite Hrange, !i32_small by lia.
  unfold koi__malloc_mad3, koi__malloc. rewrite Hvalid, Halloc. cbn [negb].
  set (data := concat (px_bytes n <$> pxs)).
  set (h := fun p : Z =>
         default [] (convert_pixel n req (color (pxs !!! Z.to_nat p)))).
  assert (Hsome : exists l0, convert_pixel n req (fun _ => 0) = Some l0).
  { destruct Hn as [->| ->], Hreq as [->| ->]; by eexists. }
  destruct Hsome as [l0 Hl0].
  assert (Hrow : forall j, 0 <= j < y ->
            convert_row data n req x j
            = Some (concat ((fun k => h (j * x + k)) <$> seqZ 0 x))).
  { intros j Hj. unfold convert_row. rewrite Hl0. do 2 f_equal.
    apply Forall_fmap_ext_1, Forall_seqZ. intros k Hk. unfold h. f_equal.
    apply convert_pixel_colors; [done|]. intros c Hc.
    replace (Z.to_nat (j * x * n + k * n + c))
      with (Z.to_nat (j * x + k) * Z.to_nat n + Z.to_nat c)%nat by nia.
    unfold data. rewrite (concat_uniform_lookup _ (Z.to_nat n)).
    - rewrite (list_lookup_total_fmap (px_bytes n) pxs) by nia.
      by apply px_bytes_lookup.
    - apply Forall_fmap, Forall_forall. intros px _.
      by destruct Hn as [->| ->].
    - rewrite length_fmap. nia.
    - lia. }
  assert (Hrows : mapM (convert_row data n req x) (seqZ 0 y)
                  = Some ((fun j => concat ((fun k => h (j * x + k))
                                            <$> seqZ 0 x)) <$> seqZ 0 y)).
  { apply mapM_Some, Forall2_fmap_r, Forall_Forall2_diag, Forall_seqZ.
    intros j Hj. apply Hrow. lia. }
  rewrite Hrows. cbn [fst]. f_equal.
  rewrite <- (Z2Nat.id y) at 1 by lia. rewrite concat_rows by lia.
  rewrite Z2Nat.id by lia. rewrite (Z.mul_comm y x), <- Hlen.
  change h with ((fun px => default [] (convert_pixel n req (color px)))
                 ∘ (fun p : Z => pxs !!! Z.to_nat p)).
  by rewrite list_fmap_compose, fmap_lookup_total_seqZ.
Qed.

End ConvertPixels.

Lemma concat_singletons (l : list Z) (n : Z) :
  n = Z.of_nat (length l) ->
  concat ((fun p => [l !!! Z.to_nat p]) <$> seqZ 0 n) = l.
Proof.
  intros ->.
  transitivity ((fun p => l !!! Z.to_nat p) <$> seqZ 0 (Z.of_nat (length l)));
    [|apply fmap_lookup_total_seqZ].
  generalize (seqZ 0 (Z.of_nat (length l))). intros ps.
  induction ps as [|p ps IH]; [done|]. cbn. by rewrite IH.
Qed.

Lemma pixel_at_opaque comp data pxi :
  (comp =? 2) || (comp =? 4) = false -> a (pixel_at comp data pxi) = 255.
Proof.
  intros Ha. unfold pixel_at, koi_read_qoi_pixel. rewrite Ha.
  by repeat case_match.
Qed.

(** An image loaded with [desired_channels] 1 or 2: the load stores for
    each pixel the grey value [koi__compute_y] of the colour the encoder
    read, followed by the alpha when 2 is asked (255 where the image has
    none).  A 1- or 2-component image loaded with its own number of
    components is returned as it is. *)
Theorem load_as_grey {U : Type} (alloc : Z -> bool)
    (s : koi__context U) (cs w h comp : Z) (data : list Z) (req : Z)
    (x0 y0 c0 : Z) :
  1 <= w <= 2 ^ 24 -> 1 <= h <= 2 ^ 24 -> 1 <= comp <= 4 ->
  Z.of_nat (length data) = w * h * comp -> Forall is_byte data ->
  req = 1 \/ req = 2 ->
  let channels := if (comp =? 2) || (comp =? 4) then 4 else 3 in
  channels * w * h <= INT_MAX ->
  alloc (channels * w * h + 0) = true ->
  alloc (req * w * h + 0) = true ->
  let file := qoi_file false cs w h comp data in
  Z.of_nat (length file) <= INT_MAX ->
  let load :=
    koi_load_from_memory alloc false s file (Z.of_nat (length file))
      (locations x0 y0 c0) req in
  load.1
  = Ok (concat ((fun px =>
                   if req =? 1
                   then [koi__compute_y (r px) (g px) (b px)]
                   else [koi__compute_y (r px) (g px) (b px); a px])
                <$> (pixel_at comp data <$> seqZ 0 (w * h))))
  /\ outs load.2 = locations w h channels
  /\ (comp = req -> load.1 = Ok data).
Proof.
  intros Hw Hh Hcomp Hdata Hbytes Hreq channels Hfit Halloc1 Halloc2 file _
    load.
  assert (Hch : channels = 3 \/ channels = 4)
    by (subst channels; destruct (_ || _); auto).
  assert (Ht : qoi_target req channels = channels).
  { unfold qoi_target. destruct Hreq as [->| ->], Hch as [->| ->]; done. }
  assert (Hxy : w * h < 2 ^ 31).
  { unfold INT_MAX in Hfit. change (2 ^ 31) with 2147483648 in *.
    change (2 ^ 24) with 16777216 in *.
    destruct Hch as [E|E]; rewrite E in Hfit; nia. }
  set (pxs := pixel_at comp data <$> seqZ 0 (w * h)).
  assert (Hpxs : Forall byte_px pxs).
  { apply Forall_fmap, Forall_forall. intros p _. by apply pixel_at_byte_px. }
  assert (Hlen : Z.of_nat (length pxs) = w * h).
  { subst pxs. rewrite length_fmap, length_seqZ. nia. }
  destruct (load_main_encoded alloc s w h channels
              (if negb (cs =? 0) then 1 else 0) pxs qoi_trailer
              (locations x0 y0 c0) req)
    as (s3 & _ & _ & _ & _ & E);
    try done; try lia; try (rewrite Ht; (done || lia)).
  { destruct (negb _); auto. }
  rewrite Ht in E.
  assert (Hnc : negb (req =? 0) && negb (req =? channels) = true).
  { destruct Hreq as [->| ->], Hch as [->| ->]; done. }
  rewrite Hnc in E. cbv zeta in E.
  assert (Hvalid : koi__mad3sizes_valid req w h 0 = true).
  { apply mad3sizes_fits; unfold INT_MAX in *;
      change (2 ^ 31 - 1) with 2147483647 in *;
      change (2 ^ 24) with 16777216 in *;
      destruct Hreq as [->| ->], Hch as [Ec|Ec]; rewrite Ec in Hfit; nia. }
  pose proof (convert_format_pixels alloc
                {| ctx := s3; outs := locations x0 y0 c0;
                   mallocs := [channels * w * h + 0] |}
                channels req w h pxs Hch Hreq ltac:(lia) ltac:(lia) Hlen
                Hvalid Halloc2) as Hconv.
  pose proof (koi__convert_format_outs alloc
                {| ctx := s3; outs := locations x0 y0 c0;
                   mallocs := [channels * w * h + 0] |}
                (concat (px_bytes channels <$> pxs)) channels req w h)
    as Houts.
  destruct (koi__convert_format _ _ _ _ _ _ _) as [conv m3].
  cbn [fst snd] in Hconv, Houts. subst conv.
  rewrite Houts in E.
  cbn [locations x_loc y_loc comp_loc outs set_outs store_if] in E.
  set (grey := fun px : koi__qoi_pixel =>
         if req =? 1 then [koi__compute_y (r px) (g px) (b px)]
         else [koi__compute_y (r px) (g px) (b px); a px]).
  assert (Hgrey : (fun px => default [] (convert_pixel channels req (color px)))
                  <$> pxs = grey <$> pxs).
  { subst pxs. rewrite <- !list_fmap_compose.
    apply Forall_fmap_ext_1, Forall_seqZ. intros p Hp. cbn [compose].
    unfold grey.
    destruct Hreq as [->| ->]; subst channels;
      destruct ((comp =? 2) || (comp =? 4)) eqn:Ha; cbn; try done.
    by rewrite (pixel_at_opaque comp data p Ha). }
  rewrite Hgrey in E.
  assert (Hload : load.1 = Ok (concat (grey <$> pxs))
                  /\ outs load.2 = locations w h channels).
  { subst load file. rewrite write_file_pixels by lia.
    unfold koi_load_from_memory, koi__load_and_postprocess_8bit.
    fold pxs. fold channels. rewrite E. done. }
  destruct Hload as [H1 H2]. split; [done|]. split; [done|].
  intros Ecomp. rewrite H1. f_equal.
  assert (Hd : forall k, is_byte (data !!! k))
    by (intros; by apply lookup_total_byte).
  subst pxs. rewrite <- list_fmap_compose.
  destruct Hreq as [->| ->]; subst comp.
  - erewrite (Forall_fmap_ext_1 _ (fun p => [data !!! Z.to_nat p])).
    + apply concat_singletons. lia.
    + apply Forall_seqZ. intros p Hp. cbn.
      rewrite compute_y_grey by apply Hd. do 2 f_equal. lia.
  - erewrite (Forall_fmap_ext_1 _
               (fun j => concat ((fun k => [data !!! Z.to_nat (j * 2 + k)])
                                 <$> seqZ 0 2))).
    + rewrite <- (Z2Nat.id (w * h)) by nia.
      rewrite (concat_rows (fun p => [data !!! Z.to_nat p])) by lia.
      apply concat_singletons. lia.
    + apply Forall_seqZ. intros p Hp. cbn.
      rewrite compute_y_grey by apply Hd. reflexivity.
Qed.

(** The bytes stored for one pixel of a written image: the grey value
    three times for 1 or 2 components, red, green and blue otherwise,
    then, in 4 channels, the alpha of the image or 255. *)
Lemma px_bytes_pixel_at comp target data p :
  1 <= comp <= 4 -> target = 3 \/ target = 4 ->
  px_bytes target (pixel_at comp data p)
  = (let d := fun k => data !!! Z.to_nat (p * comp + k) in
     (if comp <=? 2 then [d 0; d 0; d 0] else [d 0; d 1; d 2])
     ++ (if target =? 4
         then [if (comp =? 2) || (comp =? 4) then d (comp - 1) else 255]
         else [])).
Proof.
  intros Hc Ht. unfold px_bytes, pixel_at, koi_read_qoi_pixel.
  assert (E : comp = 1 \/ comp = 2 \/ comp = 3 \/ comp = 4) by lia.
  destruct E as [->|[->|[->| ->]]], Ht as [->| ->]; reflexivity.
Qed.

(** An image of 1 to 4 components per pixel whose [comp * w * h] bytes
    fit an [int], written without the flip and loaded with
    [desired_channels] 0, 3 or 4.  The load stores for each pixel three
    colour bytes, the grey value three times for an image of 1 or 2
    components and its red, green and blue otherwise, followed, when 4
    channels are stored, by the alpha of the image or by 255 where the
    image has none (1 or 3 components).  It stores the file's channels
    when 0 is asked, 3 or 4 otherwise, and reports the size of the image
    and 3 or 4 as the channels of the file.  When the channels stored
    are those of the image, the bytes are the image. *)
Theorem load_with_other_channels {U : Type} (alloc : Z -> bool)
    (s : koi__context U) (cs w h comp : Z) (data : list Z) (req : Z)
    (x0 y0 c0 : Z) :
  1 <= w <= 2 ^ 24 -> 1 <= h <= 2 ^ 24 -> 1 <= comp <= 4 ->
  comp * w * h <= INT_MAX ->
  Z.of_nat (length data) = w * h * comp -> Forall is_byte data ->
  req = 0 \/ req = 3 \/ req = 4 ->
  let channels := if (comp =? 2) || (comp =? 4) then 4 else 3 in
  let target := if req =? 0 then channels else req in
  target * w * h <= INT_MAX ->
  alloc (target * w * h + 0) = true ->
  let file := qoi_file false cs w h comp data in
  Z.of_nat (length file) <= INT_MAX ->
  let load :=
    koi_load_from_memory alloc false s file (Z.of_nat (length file))
      (locations x0 y0 c0) req in
  load.1
  = Ok (concat
          ((fun p =>
              let d := fun k => data !!! Z.to_nat (p * comp + k) in
              (if comp <=? 2 then [d 0; d 0; d 0] else [d 0; d 1; d 2])
              ++ (if target =? 4
                  then [if (comp =? 2) || (comp =? 4)
                        then d (comp - 1) else 255]
                  else []))
           <$> seqZ 0 (w * h)))
  /\ outs load.2 = locations w h channels
  /\ (target = comp -> load.1 = Ok data).
Proof.
  intros Hw Hh Hcomp _ Hdata Hbytes Hreq channels target Hfit Halloc file
    Hflen load.
  destruct (load_written_pixels alloc s cs w h comp data req x0 y0 c0)
    as (H1 & H2 & H3); try done.
  split; [|by split].
  fold file in H1. fold load in H1. rewrite H1. do 2 f_equal.
  rewrite <- list_fmap_compose.
  apply list_fmap_ext. intros i p _. cbn [compose].
  apply px_bytes_pixel_at; [done|].
  subst target channels.
  destruct Hreq as [->|[->| ->]]; cbn; [|by left|by right].
  destruct (_ || _); auto.
Qed.

Lemma load_with_other_channels_witness :
  let file := qoi_file false 0 2 1 2 [7; 200; 9; 100] in
  let load :=
    koi_load_from_memory (fun _ => true) false blank_context file
      (Z.of_nat (length file)) (locations 0 0 0) 0 in
  load.1 = Ok [7; 7; 7; 200; 9; 9; 9; 100]
  /\ outs load.2 = locations 2 1 4
  /\ (4 = 2 -> load.1 = Ok [7; 200; 9; 100]).
Proof.
  apply (load_with_other_channels (fun _ => true) blank_context 0 2 1 2
           [7; 200; 9; 100] 0 0 0 0).
  - lia.
  - lia.
  - lia.
  - vm_compute. discriminate.
  - reflexivity.
  - unfold is_byte. repeat constructor; lia.
  - by left.
  - vm_compute. discriminate.
  - reflexivity.
  - vm_compute. discriminate.
Defined.

Lemma load_as_grey_witness :
  let file := qoi_file false 0 2 1 2 [7; 200; 9; 100] in
  let load :=
    koi_load_from_memory (fun _ => true) false blank_context file
      (Z.of_nat (length file)) (locations 0 0 0) 2 in
  load.1
  = Ok (concat ((fun px =>
                   if 2 =? 1
                   then [koi__compute_y (r px) (g px) (b px)]
                   else [koi__compute_y (r px) (g px) (b px); a px])
                <$> (pixel_at 2 [7; 200; 9; 100] <$> seqZ 0 (2 * 1))))
  /\ outs load.2 = locations 2 1 4
  /\ (2 = 2 -> load.1 = Ok [7; 200; 9; 100]).
Proof.
  apply (load_as_grey (fun _ => true) blank_context 0 2 1 2
           [7; 200; 9; 100] 2 0 0 0).
  - lia.
  - lia.
  - lia.
  - reflexivity.
  - unfold is_byte. repeat constructor; lia.
  - by right.
  - vm_compute. discriminate.
  - reflexivity.
  - reflexivity.
  - vm_compute. discriminate.
Defined.

(** ** What the decoder does not check *)

(** The load never looks at the end marker: with the eight bytes of the
    marker replaced by any eight bytes or more, the written file loads
    to the same image. *)
Theorem load_ignores_end_marker {U : Type} (alloc : Z -> bool)
    (s : koi__context U) (cs w h c : Z) (data tail : list Z)
    (x0 y0 c0 : Z) :
  1 <= w <= 2 ^ 24 -> 1 <= h <= 2 ^ 24 -> c = 3 \/ c = 4 ->
  c * w * h <= INT_MAX ->
  Z.of_nat (length data) = w * h * c -> Forall is_byte data ->
  alloc (c * w * h + 0) = true ->
  (8 <= length tail)%nat ->
  let written := qoi_file false cs w h c data in
  let file := take (length written - 8) written ++ tail in
  Z.of_nat (length file) <= INT_MAX ->
  let load :=
    koi_load_from_memory alloc false s file (Z.of_nat (length file))
      (locations x0 y0 c0) c in
  load.1 = Ok data /\ outs load.2 = locations w h c.
Proof.
  intros Hw Hh Hc Hfit Hdata Hbytes Halloc Htail written file _ load.
  assert (Hxy : w * h < 2 ^ 31).
  { unfold INT_MAX in Hfit. change (2 ^ 31) with 2147483648 in *.
    change (2 ^ 24) with 16777216 in *. destruct Hc as [E|E]; rewrite E in Hfit; nia. }
  assert (Hcc : (if (c =? 2) || (c =? 4) then 4 else 3) = c)
    by (by destruct Hc as [->| ->]).
  set (pxs := pixel_at c data <$> seqZ 0 (w * h)).
  set (ccs := if negb (cs =? 0) then 1 else 0).
  set (payload := ops_bytes (encode_ops (w * h) 0 start_px index_zero 0 pxs)).
  assert (Hfile : file = qoi_header w h c ccs ++ payload ++ tail).
  { subst file written. rewrite write_file_pixels by lia.
    rewrite Hcc. fold pxs ccs payload.
    rewrite !app_assoc, length_app.
    change (length qoi_trailer) with 8%nat.
    rewrite Nat.add_sub, take_app_length. done. }
  destruct (pixels_of_buffer c data Hc Hbytes (Z.to_nat (w * h)) 0)
    as [Hpxs Hcat]; [lia|rewrite Z2Nat.id by nia; lia|].
  rewrite Z2Nat.id in Hpxs, Hcat by nia. fold pxs in Hpxs, Hcat.
  change (Z.to_nat (0 * c)) with 0%nat in Hcat. rewrite drop_0 in Hcat.
  assert (Ht : qoi_target c c = c)
    by (unfold qoi_target; by destruct Hc as [->| ->]).
  destruct (load_main_encoded alloc s w h c ccs pxs tail
              (locations x0 y0 c0) c)
    as (s3 & _ & _ & _ & _ & E);
    try done; try lia; try (rewrite Ht; (done || lia)).
  { subst ccs. destruct (negb _); auto. }
  { subst pxs. rewrite length_fmap, length_seqZ. nia. }
  rewrite Ht in E.
  assert (Hnc : negb (c =? 0) && negb (c =? c) = false)
    by (rewrite Z.eqb_refl; apply andb_false_r).
  rewrite Hnc, Hcat in E.
  cbn [locations x_loc y_loc comp_loc outs set_outs store_if] in E.
  subst load. rewrite Hfile.
  unfold koi_load_from_memory, koi__load_and_postprocess_8bit.
  unfold payload. rewrite E. done.
Qed.

Lemma load_ignores_end_marker_witness :
  let written := qoi_file false 0 2 1 3 [1; 2; 3; 4; 5; 6] in
  let file := take (length written - 8) written
              ++ [9; 9; 9; 9; 9; 9; 9; 9; 9] in
  let load :=
    koi_load_from_memory (fun _ => true) false blank_context file
      (Z.of_nat (length file)) (locations 0 0 0) 3 in
  load.1 = Ok [1; 2; 3; 4; 5; 6] /\ outs load.2 = locations 2 1 3.
Proof.
  apply (load_ignores_end_marker (fun _ => true) blank_context 0 2 1 3
           [1; 2; 3; 4; 5; 6] [9; 9; 9; 9; 9; 9; 9; 9; 9] 0 0 0).
  - lia.
  - lia.
  - by left.
  - vm_compute. discriminate.
  - reflexivity.
  - unfold is_byte. repeat constructor; lia.
  - reflexivity.
  - cbn. lia.
  - vm_compute. discriminate.
Defined.

Section LoadLoop.

Context {U : Type}.
Variable alloc : Z -> bool.
Implicit Types s : koi__context U.

(** A load of a file that opens with a good header whose sizes pass the
    checks reaches the pixel loop, started on the bytes after the
    header; what the load answers is decided by the end of that loop. *)
Lemma load_main_to_loop s w h c ccs body xyc req :
  0 <= w <= 2 ^ 24 -> 0 <= h <= 2 ^ 24 ->
  c = 3 \/ c = 4 -> ccs = 0 \/ ccs = 1 ->
  let target := qoi_target req c in
  target = 3 \/ target = 4 ->
  target * w * h <= INT_MAX ->
  alloc (target * w * h + 0) = true ->
  let file := qoi_header w h c ccs ++ body in
  8 <= Z.of_nat (length body) ->
  exists s2,
    reads s2 body /\ img_x s2 = w /\ img_y s2 = h /\ img_n s2 = c
    /\ koi__load_main alloc
         {| ctx := koi__start_mem s file (Z.of_nat (length file));
            outs := xyc; mallocs := [] |} req
       = let m2 := {| ctx := s2; outs := xyc;
                      mallocs := [target * w * h + 0] |} in
         match qoi_decode_loop (Z.to_nat (w * h)) target (w * h) s2
                 start_px index_zero
                 (replicate (Z.to_nat (target * w * h + 0)) 0) 0 with
         | Wild => (Undef, m2)
         | Starved => (Undef, m2)
         | Done out s3 =>
           let m := {| ctx := s3; outs := xyc;
                       mallocs := [target * w * h + 0] |} in
           let '(conv, m) :=
             if negb (req =? 0) && negb (req =? target)
             then koi__convert_format alloc m out target req
                    (img_x s3) (img_y s3)
             else (Ok out, m) in
           match conv with
           | Fail e => (Fail e, m)
           | Undef => (Undef, m)
           | Ok out =>
             match x_loc (outs m), y_loc (outs m) with
             | Some _, Some _ =>
               (Ok (out, {| bits_per_channel := 8; num_channels := 0 |}),
                set_outs m
                  {| x_loc := Some (i32 (img_x s3));
                     y_loc := Some (i32 (img_y s3));
                     comp_loc := store_if (comp_loc (outs m)) (img_n s3) |})
             | _, _ => (Undef, m)
             end
           end
         end.
Proof.
  intros Hw Hh Hc Hccs target Ht Hfit Halloc file Hbody.
  unfold INT_MAX in Hfit. change (2 ^ 24) with 16777216 in *.
  change (2 ^ 31 - 1) with 2147483647 in Hfit.
  destruct (load_main_on_header alloc s w h c ccs body xyc req)
    as (s1 & R1 & _ & E0).
  { rewrite !length_app, qoi_header_length. lia. }
  destruct (parse_header_reads s1 w h c ccs body)
    as (s2 & E1 & Hx & Hy & Hn & _ & Hr2); [lia|lia|exact R1|].
  assert (Hv : header_verdict c ccs = Ok {| ch_n := c; cspace := ccs |}).
  { unfold header_verdict. by destruct Hc as [->| ->], Hccs as [->| ->]. }
  rewrite Hv in *. specialize (Hr2 _ eq_refl).
  exists (set_img_n s2 c).
  split; [by apply reads_set_img_n|]. do 3 (split; [done|]).
  fold file in E0. rewrite E0.
  unfold koi__qoi_load. cbn [ctx]. rewrite E1.
  rewrite Hx, Hy. unfold KOI_MAX_DIMENSIONS.
  change (Z.shiftl 1 24) with 16777216.
  rewrite !Z.gtb_ltb, !(proj2 (Z.ltb_ge _ _)) by lia.
  cbn [img_n set_img_n img_x img_y ch_n set_ctx ctx outs mallocs].
  rewrite Hx, Hy, !i32_small by lia.
  fold target.
  assert (Hvalid : koi__mad3sizes_valid target w h 0 = true).
  { apply mad3sizes_fits; unfold INT_MAX;
      change (2 ^ 31 - 1) with 2147483647; destruct Ht as [->| ->]; nia. }
  unfold koi__malloc_mad3. rewrite Hvalid. cbn [negb].
  unfold koi__malloc. rewrite Halloc.
  cbn [ctx outs mallocs app].
  rewrite (u32_small (h * w)) by nia. rewrite (Z.mul_comm h w).
  destruct (qoi_decode_loop _ _ _ _ _ _ _ _) as [out s3| |]; [|done|done].
  unfold set_ctx. cbn [ctx outs mallocs app].
  destruct (negb (req =? 0) && negb (req =? target)).
  - destruct (koi__convert_format _ _ _ _ _ _ _) as [conv m3].
    destruct conv as [out1| |]; [|done|done].
    by destruct (x_loc (outs m3)), (y_loc (outs m3)).
  - cbn [outs]. by destruct (x_loc xyc), (y_loc xyc).
Qed.

End LoadLoop.

Section IndexOnly.

Context {U : Type}.
Implicit Types s : koi__context U.
Variables (target len : Z).
Hypothesis Htarget : target = 3 \/ target = 4.
Hypothesis Hlen : len * target < 2 ^ 31.

Lemma decode_index_got fuel s s1 tag prev_px index done junk i :
  koi__get8 s = (tag, s1) -> 0 <= tag < 64 ->
  0 <= i < len ->
  Z.of_nat (length done) = i * target ->
  target <= Z.of_nat (length junk) ->
  let px := index !!! Z.to_nat tag in
  qoi_decode_loop (S fuel) target len s prev_px index (done ++ junk) i
  = qoi_decode_loop fuel target len s1 px
      (<[Z.to_nat (KOI_QOI_COLOR_HASH px `mod` 64) := px]> index)
      (done ++ px_bytes target px ++ drop (Z.to_nat target) junk) (i + 1).
Proof.
  intros E Hh Hi Hdone Hjunk px.
  destruct (index_tag tag Hh) as (T0 & T1 & T2 & T3).
  cbv zeta in T0, T1, T2, T3. rewrite T0 in T1, T2, T3.
  cbn [qoi_decode_loop].
  rewrite (proj2 (Z.ltb_lt i len)) by lia.
  rewrite E. cbv beta iota zeta.
  rewrite T1, T2. cbv iota.
  rewrite T3. change (0 =? 0) with true. cbv iota.
  fold px. apply decode_finish; (done || nia).
Qed.

Lemma zero_px_bytes : px_bytes target zero_px = replicate (Z.to_nat target) 0.
Proof. by destruct Htarget as [->| ->]. Qed.

(** A payload of bytes below 64, however short, is a sequence of INDEX
    ops into an index that holds nothing but zero: every pixel stored is
    zero. *)
Lemma decode_index_only (n : nat) :
  forall fuel s tail prev_px done junk i,
    reads s tail -> Forall (fun v => 0 <= v < 64) tail ->
    0 <= i -> i + Z.of_nat n = len ->
    Z.of_nat (length done) = i * target ->
    Z.of_nat (length junk) = Z.of_nat n * target ->
    (n <= fuel)%nat ->
    exists s',
      qoi_decode_loop fuel target len s prev_px index_zero (done ++ junk) i
      = Done (done ++ replicate (Z.to_nat (Z.of_nat n * target)) 0) s'
      /\ same_image s s'.
Proof.
  induction n as [|n IH];
    intros fuel s tail prev_px done junk i R Htail Hi Hn Hdone Hjunk Hfuel.
  - exists s. split; [|done].
    destruct junk; [|cbn in Hjunk; lia].
    destruct fuel; cbn [qoi_decode_loop];
      rewrite (proj2 (Z.ltb_ge i len)) by lia; done.
  - destruct fuel as [|fuel]; [lia|].
    assert (Hget : exists tag s1 tl,
              koi__get8 s = (tag, s1) /\ 0 <= tag < 64 /\ reads s1 tl
              /\ Forall (fun v => 0 <= v < 64) tl /\ same_image s s1).
    { destruct tail as [|c tl].
      - exists 0, s, []. rewrite (get8_reads_nil s R).
        split; [done|]. split; [lia|]. by split.
      - destruct (get8_reads_cons s c tl R) as [E R1].
        exists c, (advance s), tl. rewrite E.
        apply Forall_cons in Htail as [Hc Htl].
        split; [done|]. split; [done|]. by split. }
    destruct Hget as (tag & s1 & tl & E & Htag & R1 & Htl & I1).
    rewrite (decode_index_got fuel s s1 tag prev_px index_zero done junk i E)
      by (done || nia).
    assert (Hz : index_zero !!! Z.to_nat tag = zero_px).
    { unfold index_zero. apply lookup_total_replicate_2. lia. }
    rewrite Hz.
    change (<[Z.to_nat (KOI_QOI_COLOR_HASH zero_px `mod` 64) := zero_px]>
              index_zero) with index_zero.
    rewrite zero_px_bytes, app_assoc.
    destruct (IH fuel s1 tl zero_px (done ++ replicate (Z.to_nat target) 0)
                (drop (Z.to_nat target) junk) (i + 1))
      as (s' & E' & I'); try done; try lia.
    { rewrite length_app, length_replicate. destruct Htarget; nia. }
    { rewrite length_drop. destruct Htarget; nia. }
    exists s'. rewrite E'. split; [|image_chain].
    rewrite <- app_assoc, <- replicate_add. do 3 f_equal.
    destruct Htarget; nia.
Qed.

End IndexOnly.

Lemma load_index_only_payload {U : Type} (alloc : Z -> bool)
    (s : koi__context U) (w h c cs : Z) (tail : list Z) (req : Z)
    (x0 y0 c0 : Z) :
  0 <= w <= 2 ^ 24 -> 0 <= h <= 2 ^ 24 ->
  c = 3 \/ c = 4 -> cs = 0 \/ cs = 1 ->
  Forall (fun v => 0 <= v < 64) tail -> (8 <= length tail)%nat ->
  req = 0 \/ req = 3 \/ req = 4 ->
  let target := if req =? 0 then c else req in
  target * w * h <= INT_MAX ->
  alloc (target * w * h + 0) = true ->
  let file := qoi_header w h c cs ++ tail in
  Z.of_nat (length file) <= INT_MAX ->
  let load :=
    koi_load_from_memory alloc false s file (Z.of_nat (length file))
      (locations x0 y0 c0) req in
  load.1 = Ok (replicate (Z.to_nat (target * w * h)) 0)
  /\ outs load.2 = locations w h c.
Proof.
  intros Hw Hh Hc Hcs Htail Hlen Hreq target Hfit Halloc file _ load.
  assert (Ht : qoi_target req c = target).
  { unfold qoi_target. subst target.
    destruct Hreq as [->|[->| ->]]; [|done|done]. cbn.
    by destruct Hc as [->| ->]. }
  assert (Ht34 : target = 3 \/ target = 4).
  { subst target. destruct Hreq as [->|[->| ->]]; cbn; auto. }
  assert (Hxy : w * h * target < 2 ^ 31).
  { unfold INT_MAX in Hfit. change (2 ^ 31) with 2147483648 in *. lia. }
  destruct (load_main_to_loop alloc s w h c cs tail (locations x0 y0 c0) req)
    as (s2 & R2 & Hx & Hy & Hn & E);
    try done; try lia; try (rewrite Ht; (done || lia)).
  rewrite Ht in E.
  destruct (decode_index_only target (w * h) Ht34 Hxy (Z.to_nat (w * h))
              (Z.to_nat (w * h)) s2 tail start_px []
              (replicate (Z.to_nat (target * w * h + 0)) 0) 0)
    as (s3 & E3 & Fx & Fy & Fn); try done; try lia.
  { rewrite length_replicate. nia. }
  cbn [app] in E3. rewrite E3 in E.
  assert (Hnc : negb (req =? 0) && negb (req =? target) = false).
  { subst target. destruct Hreq as [->|[->| ->]]; done. }
  rewrite Hnc in E.
  cbn [locations x_loc y_loc comp_loc outs set_outs store_if] in E.
  rewrite Fx, Fy, Fn, Hx, Hy, Hn, !i32_small in E
    by (change (2 ^ 24) with 16777216 in *; lia).
  subst load file.
  unfold koi_load_from_memory, koi__load_and_postprocess_8bit.
  rewrite E. cbn. split; [|done]. do 3 f_equal. nia.
Qed.

(** Missing pixel data is not an error.  A file that holds, after a good
    header, only bytes below 64 (the end marker alone, or zero padding;
    at least eight of them) loads to an image of the size the header
    announces in which every byte is 0: the bytes are taken for INDEX
    ops, and past the end of the input every read gives 0. *)
Theorem load_without_pixel_data {U : Type} (alloc : Z -> bool)
    (s : koi__context U) (w h c cs : Z) (tail : list Z) (req : Z)
    (x0 y0 c0 : Z) :
  0 <= w <= 2 ^ 24 -> 0 <= h <= 2 ^ 24 ->
  c = 3 \/ c = 4 -> cs = 0 \/ cs = 1 ->
  Forall (fun v => 0 <= v < 64) tail -> (8 <= length tail)%nat ->
  req = 0 \/ req = 3 \/ req = 4 ->
  let target := if req =? 0 then c else req in
  target * w * h <= INT_MAX ->
  alloc (target * w * h + 0) = true ->
  let file := qoi_header w h c cs ++ tail in
  Z.of_nat (length file) <= INT_MAX ->
  let load :=
    koi_load_from_memory alloc false s file (Z.of_nat (length file))
      (locations x0 y0 c0) req in
  load.1 = Ok (replicate (Z.to_nat (target * w * h)) 0)
  /\ outs load.2 = locations w h c.
Proof. apply load_index_only_payload. Qed.

Lemma load_without_pixel_data_witness :
  let file := qoi_header 3 2 4 0 ++ qoi_trailer in
  let load :=
    koi_load_from_memory (fun _ => true) false blank_context file
      (Z.of_nat (length file)) (locations 0 0 0) 0 in
  load.1 = Ok (replicate (Z.to_nat (4 * 3 * 2)) 0)
  /\ outs load.2 = locations 3 2 4.
Proof.
  apply (load_without_pixel_data (fun _ => true) blank_context 3 2 4 0
           qoi_trailer 0 0 0 0).
  - lia.
  - lia.
  - by right.
  - by left.
  - unfold qoi_trailer. repeat constructor; lia.
  - cbn. lia.
  - by left.
  - vm_compute. discriminate.
  - reflexivity.
  - vm_compute. discriminate.
Defined.

Lemma poke_inside buf pos v buf' :
  poke buf pos v = Some buf' ->
  0 <= pos < Z.of_nat (length buf) /\ length buf' = length buf.
Proof.
  unfold poke. destruct (Z.leb_spec 0 pos), (Z.ltb_spec pos (Z.of_nat (length buf)));
    cbn; try done.
  intros [= <-]. by rewrite length_insert.
Qed.

Lemma put_pixel_inside target px out pos out' pos' :
  target = 3 \/ target = 4 -> 0 <= pos -> pos + target < 2 ^ 32 ->
  qoi_put_pixel target px out pos = Some (out', pos') ->
  pos + target <= Z.of_nat (length out)
  /\ pos' = pos + target - 1 /\ length out' = length out.
Proof.
  intros Ht Hpos Hb H. unfold qoi_put_pixel in H.
  destruct (poke out pos (r px)) as [o1|] eqn:E1; cbn in H; [|done].
  apply poke_inside in E1 as [P1 L1].
  rewrite (u32_small (pos + 1)) in H by lia.
  destruct (poke o1 _ (g px)) as [o2|] eqn:E2; cbn in H; [|done].
  apply poke_inside in E2 as [P2 L2].
  rewrite (u32_small (pos + 1 + 1)) in H by lia.
  destruct (poke o2 _ (b px)) as [o3|] eqn:E3; cbn in H; [|done].
  apply poke_inside in E3 as [P3 L3].
  destruct Ht as [->| ->]; cbn in H.
  - injection H as <- <-. lia.
  - rewrite (u32_small (pos + 1 + 1 + 1)) in H by lia.
    destruct (poke o3 _ (a px)) as [o4|] eqn:E4; cbn in H; [|done].
    apply poke_inside in E4 as [P4 L4].
    injection H as <- <-. lia.
Qed.

(** A run that needs more room than the buffer has left stores outside
    of it. *)
Lemma run_loop_overflow (n : nat) target px :
  target = 3 \/ target = 4 ->
  forall out i pos,
    (1 <= n)%nat -> 0 <= pos ->
    Z.of_nat (length out) < pos + Z.of_nat n * target ->
    pos + Z.of_nat n * target < 2 ^ 32 ->
    qoi_run_loop n target px out i pos = None.
Proof.
  intros Ht. induction n as [|n IH]; intros out i pos Hn Hpos Hover Hb; [lia|].
  cbn [qoi_run_loop].
  destruct (qoi_put_pixel target px out pos) as [[o1 p1]|] eqn:E; [|done].
  apply put_pixel_inside in E as (Hin & -> & L1); [|done|done|nia].
  cbn.
  destruct (Z.ltb_spec 0 (Z.of_nat n)) as [Hpos'|Hz]; [|nia].
  rewrite (u32_small (pos + target - 1 + 1)) by nia.
  apply IH; try lia; nia.
Qed.

(** A run is not checked against the size of the image.  When the first
    op of a file is a run of more pixels than the header announces, the
    loop of [koi__qoi_load] stores past the end of the pixel buffer it
    allocated: the behaviour of the load is not defined. *)
Theorem load_overlong_run {U : Type} (alloc : Z -> bool)
    (s : koi__context U) (w h c cs run : Z) (tail : list Z) (req : Z)
    (x0 y0 c0 : Z) :
  1 <= w <= 2 ^ 24 -> 1 <= h <= 2 ^ 24 ->
  c = 3 \/ c = 4 -> cs = 0 \/ cs = 1 ->
  w * h < run <= 62 -> (7 <= length tail)%nat ->
  req = 0 \/ req = 3 \/ req = 4 ->
  let target := if req =? 0 then c else req in
  alloc (target * w * h + 0) = true ->
  let file := qoi_header w h c cs ++ [191 + run] ++ tail in
  let load :=
    koi_load_from_memory alloc false s file (Z.of_nat (length file))
      (locations x0 y0 c0) req in
  load.1 = Undef
  /\ mallocs load.2 = [target * w * h + 0]
  /\ qoi_run_loop (Z.to_nat run) target start_px
       (replicate (Z.to_nat (target * w * h + 0)) 0) 0 0 = None.
Proof.
  intros Hw Hh Hc Hcs Hrun Hlen Hreq target Halloc file load.
  assert (Ht : qoi_target req c = target).
  { unfold qoi_target. subst target.
    destruct Hreq as [->|[->| ->]]; [|done|done]. cbn.
    by destruct Hc as [->| ->]. }
  assert (Ht34 : target = 3 \/ target = 4).
  { subst target. destruct Hreq as [->|[->| ->]]; cbn; auto. }
  assert (Hover : qoi_run_loop (Z.to_nat run) target start_px
            (replicate (Z.to_nat (target * w * h + 0)) 0) 0 0 = None).
  { apply run_loop_overflow; [done|lia|lia| |].
    - rewrite length_replicate, Z2Nat.id by lia.
      destruct Ht34 as [->| ->]; nia.
    - rewrite Z2Nat.id by lia. destruct Ht34 as [->| ->]; lia. }
  destruct (load_main_to_loop alloc s w h c cs ([191 + run] ++ tail)
              (locations x0 y0 c0) req)
    as (s2 & R2 & _ & _ & _ & E);
    try done; try lia; try (rewrite Ht; (done || lia)).
  { rewrite Ht. unfold INT_MAX. destruct Ht34 as [->| ->]; lia. }
  { rewrite length_app. cbn [length]. lia. }
  rewrite Ht in E.
  assert (Hloop : qoi_decode_loop (Z.to_nat (w * h)) target (w * h) s2
            start_px index_zero
            (replicate (Z.to_nat (target * w * h + 0)) 0) 0 = Wild).
  { destruct (Z.to_nat (w * h)) as [|fuel] eqn:Ef; [lia|].
    assert (Hr : 1 <= run <= 62) by lia.
    destruct (run_tag run Hr) as (T1 & T2 & T3 & T4).
    cbv zeta in T1, T2, T3, T4.
    rewrite <- (run_byte run Hr) in R2. cbn [op_bytes app] in R2.
    destruct (get8_reads_cons _ _ _ R2) as [E8 _].
    cbn [qoi_decode_loop].
    rewrite (proj2 (Z.ltb_lt 0 (w * h))) by lia.
    rewrite E8. cbv beta iota zeta.
    rewrite T1, T2. cbv iota.
    rewrite T3. change (192 =? 0) with false. change (192 =? 64) with false.
    change (192 =? 128) with false. change (192 =? 192) with true.
    cbv iota. rewrite T4.
    change (u32 (0 * target)) with 0. by rewrite Hover. }
  rewrite Hloop in E.
  subst load file.
  unfold koi_load_from_memory, koi__load_and_postprocess_8bit.
  rewrite E. done.
Qed.

Lemma load_overlong_run_witness :
  let file := qoi_header 2 1 4 0 ++ [191 + 3] ++ [0; 0; 0; 0; 0; 0; 0; 1] in
  let load :=
    koi_load_from_memory (fun _ => true) false blank_context file
      (Z.of_nat (length file)) (locations 0 0 0) 0 in
  load.1 = Undef
  /\ mallocs load.2 = [4 * 2 * 1 + 0]
  /\ qoi_run_loop (Z.to_nat 3) 4 start_px
       (replicate (Z.to_nat (4 * 2 * 1 + 0)) 0) 0 0 = None.
Proof.
  apply (load_overlong_run (fun _ => true) blank_context 2 1 4 0 3
           [0; 0; 0; 0; 0; 0; 0; 1] 0 0 0 0).
  - lia.
  - lia.
  - by right.
  - by left.
  - lia.
  - cbn. lia.
  - by left.
  - reflexivity.
Defined.

(** ** The size of a written file *)

Lemma pixel_op_length prev_px px :
  (length (op_bytes (pixel_op prev_px px)) <= 5)%nat
  /\ (a px = a prev_px ->
      (length (op_bytes (pixel_op prev_px px)) <= 4)%nat).
Proof.
  unfold pixel_op. destruct (Z.eqb_spec (a px) (a prev_px)) as [E|E].
  - repeat case_match; cbn; lia.
  - cbn. split; [lia|done].
Qed.

(** Each pixel adds at most [k] bytes to the file, a pending run
    counting for one byte: [k] is 5, or 4 when the alpha never changes. *)
Lemma encode_ops_length (k : Z) (alpha : Z) pxs :
  forall len run prev_px index pxi,
    0 <= run <= 61 ->
    k = 5 \/ (k = 4 /\ a prev_px = alpha
              /\ Forall (fun px => a px = alpha) pxs) ->
    Z.of_nat (length (ops_bytes (encode_ops len run prev_px index pxi pxs)))
    <= k * Z.of_nat (length pxs) + (if run >? 0 then 1 else 0).
Proof.
  induction pxs as [|px pxs IH]; intros len run prev_px index pxi Hrun Hk.
  { cbn. destruct (run >? 0); lia. }
  cbn [encode_ops].
  pose proof (step_ops_run len run prev_px index pxi px Hrun) as Hstep.
  assert (Hk' : forall prev',
            a prev' = a px \/ k = 5 ->
            k = 5 \/ (k = 4 /\ a prev' = alpha
                      /\ Forall (fun px => a px = alpha) pxs)).
  { intros prev' Hp. destruct Hk as [->|(-> & Ea & Hall)]; [by left|right].
    apply Forall_cons in Hall as [Epx Hall]. split; [done|].
    split; [|done]. destruct Hp as [->|]; [done|lia]. }
  assert (Hop : Z.of_nat (length (op_bytes (pixel_op prev_px px))) <= k).
  { destruct (pixel_op_length prev_px px) as [H5 H4].
    destruct Hk as [->|(-> & Ea & Hall)]; [lia|].
    apply Forall_cons in Hall as [Epx _]. rewrite Epx, Ea in H4.
    specialize (H4 eq_refl). lia. }
  assert (Hk4 : 4 <= k) by (destruct Hk as [->|[-> _]]; lia).
  unfold step_ops in *.
  assert (Hu : u8 (run + 1) = run + 1)
    by (unfold u8; apply Z.mod_small; lia).
  destruct (px_eqb px prev_px).
  - rewrite Hu in *.
    destruct ((run + 1 =? 62) || (pxi =? u32 (len - 1))).
    + unfold ops_bytes in *. rewrite fmap_app, concat_app, length_app.
      specialize (IH len 0 px index (pxi + 1) ltac:(lia)
                    (Hk' px ltac:(by left))).
      cbn [length] in *. change (0 >? 0) with false in IH.
      cbn. destruct (run >? 0); lia.
    + cbn [app].
      specialize (IH len (run + 1) px index (pxi + 1) ltac:(lia)
                    (Hk' px ltac:(by left))).
      rewrite (proj2 (Z.gtb_gt (run + 1) 0)) in IH by lia.
      cbn [length]. destruct (run >? 0); lia.
  - assert (Hrun' : 0 <= (if run >? 0 then 0 else run) <= 61)
      by (destruct (run >? 0); lia).
    assert (Hz : ((if run >? 0 then 0 else run) >? 0) = false).
    { destruct (Z.gtb_spec run 0); [done|].
      rewrite Z.gtb_ltb. apply Z.ltb_ge. lia. }
    assert (Hpre : Z.of_nat (length (ops_bytes
                     (if run >? 0 then [QOI_OP_RUN run] else [])))
                   = if run >? 0 then 1 else 0)
      by (by destruct (run >? 0)).
    destruct (px_eqb _ px).
    + specialize (IH len (if run >? 0 then 0 else run) px index (pxi + 1)
                    Hrun' (Hk' px ltac:(by left))).
      rewrite Hz in IH.
      unfold ops_bytes in *. rewrite fmap_app, concat_app, length_app.
      rewrite fmap_app, concat_app, length_app.
      cbn [fmap list_fmap concat length op_bytes app]. lia.
    + specialize (IH len (if run >? 0 then 0 else run) px
                    (<[Z.to_nat (Z.land (KOI_QOI_COLOR_HASH px) (64 - 1))
                       := px]> index) (pxi + 1)
                    Hrun' (Hk' px ltac:(by left))).
      rewrite Hz in IH.
      unfold ops_bytes in *. rewrite fmap_app, concat_app, length_app.
      rewrite fmap_app, concat_app, length_app.
      cbn [fmap list_fmap concat length]. rewrite app_nil_r. lia.
Qed.

Lemma source_pixel_opaque x comp jstart jdir data pxi :
  a (qoi_source_pixel x comp false jstart jdir data pxi) = 255.
Proof.
  unfold qoi_source_pixel, koi_read_qoi_pixel. by repeat case_match.
Qed.

(** A written file has the 14 bytes of the header, at most 5 bytes for
    each pixel (at most 4 when the image has no alpha) and the 8 bytes
    of the end marker. *)
Theorem written_file_size (flip : bool) (cs x y comp : Z) (data : list Z) :
  0 <= x -> 0 <= y -> x * y < 2 ^ 31 -> 1 <= comp <= 4 ->
  Z.of_nat (length data) = x * y * comp ->
  let n := Z.of_nat (length (qoi_file flip cs x y comp data)) in
  22 <= n <= 22 + 5 * (x * y)
  /\ (comp = 1 \/ comp = 3 -> n <= 22 + 4 * (x * y)).
Proof.
  intros Hx Hy Hxy Hcomp _ n. subst n.
  destruct (write_qoi_file flip cs x y comp data) as (s' & _ & _ & ->);
    [lia|lia|].
  rewrite write_qoi_ops_source by lia.
  rewrite !length_app, qoi_header_length.
  change (length qoi_trailer) with 8%nat.
  set (pxs := _ <$> seqZ 0 (x * y)).
  assert (Hlen : Z.of_nat (length pxs) = x * y).
  { subst pxs. rewrite length_fmap, length_seqZ. nia. }
  split.
  - pose proof (encode_ops_length 5 0 pxs (x * y) 0 start_px index_zero 0
                  ltac:(lia) ltac:(by left)) as H.
    change (0 >? 0) with false in H. lia.
  - intros Hc.
    assert (Ha : (comp =? 2) || (comp =? 4) = false)
      by (by destruct Hc as [->| ->]).
    pose proof (encode_ops_length 4 255 pxs (x * y) 0 start_px index_zero 0
                  ltac:(lia)) as H.
    change (0 >? 0) with false in H.
    assert (4 * Z.of_nat (length pxs) + 0 >=
            Z.of_nat (length (ops_bytes
              (encode_ops (x * y) 0 start_px index_zero 0 pxs)))); [|lia].
    apply Z.le_ge, H. right. split; [done|]. split; [done|].
    subst pxs. rewrite Ha. apply Forall_fmap, Forall_forall. intros p _.
    apply source_pixel_opaque.
Qed.

Lemma written_file_size_witness :
  let n := Z.of_nat (length (qoi_file false 0 2 2 3
                               [1; 2; 3; 200; 2; 3; 9; 8; 7; 1; 2; 3])) in
  22 <= n <= 22 + 5 * (2 * 2)
  /\ (3 = 1 \/ 3 = 3 -> n <= 22 + 4 * (2 * 2)).
Proof.
  apply (written_file_size false 0 2 2 3
           [1; 2; 3; 200; 2; 3; 9; 8; 7; 1; 2; 3]); (lia || reflexivity).
Defined.

(** ** The blocks handed to the sink *)

Lemma sink_ok_call_func s data :
  sink_ok s -> (1 <= length data <= 64)%nat -> sink_ok (call_func s data).
Proof.
  intros [Hok Hc] Hd. split; [exact Hok|].
  cbn. apply Forall_app. split; [done|]. by constructor.
Qed.

Lemma sink_ok_writefv fmt : forall s be v,
  sink_ok s -> sink_ok (koiw__writefv s be fmt v).
Proof.
  induction fmt as [|ch fmt IH]; intros s be v Hs; [done|].
  cbn [koiw__writefv].
  repeat case_match; try done; apply IH;
    unfold koiw__put8, koiw__put16be, koiw__put16le, koiw__put32be,
      koiw__put32le;
    try done; apply sink_ok_call_func; try done; cbn; lia.
Qed.

Lemma sink_ok_flush s : sink_ok s -> sink_ok (koiw__write_flush s).
Proof.
  intros [Hok Hc]. split; [by apply flush_written|].
  unfold koiw__write_flush. destruct (Z.eqb_spec (buf_used s) 0); [done|].
  cbn. apply Forall_app. split; [done|]. constructor; [|done].
  destruct Hok as [Hu Hl]. rewrite length_take. lia.
Qed.

Lemma sink_ok_write1 s v : sink_ok s -> sink_ok (koiw__write1 s v).
Proof.
  intros Hs. split; [apply write1_written, Hs|].
  unfold koiw__write1. cbn [func_calls].
  destruct (_ >? 64); [apply sink_ok_flush, Hs|apply Hs].
Qed.

Lemma sink_ok_write3 s v1 v2 v3 :
  sink_ok s -> sink_ok (koiw__write3 s v1 v2 v3).
Proof.
  intros Hs. split; [apply write3_written, Hs|].
  unfold koiw__write3. cbn [func_calls].
  destruct (_ >? 64); [apply sink_ok_flush, Hs|apply Hs].
Qed.

Lemma sink_ok_encode_pixel len st pxi px :
  sink_ok (enc_s st) -> sink_ok (enc_s (qoi_encode_pixel len st pxi px)).
Proof.
  intros Hs. unfold qoi_encode_pixel, qoi_write_run.
  repeat (case_match; cbn [enc_s enc_run enc_prev_px enc_index enc_ops]);
    simplify_eq; cbn [enc_s];
    try done;
    try (change (koiw__write_pixel ?s 1 0 _ true ?d) with s);
    repeat first
      [ assumption
      | apply sink_ok_write1
      | apply sink_ok_write3 ].
Qed.

Lemma sink_ok_encode_loop (n : nat) x comp has_alpha jstart jdir data len :
  forall st pxi,
    sink_ok (enc_s st) ->
    sink_ok (enc_s (qoi_encode_loop n x comp has_alpha jstart jdir data len
                      st pxi)).
Proof.
  induction n as [|n IH]; intros st pxi Hs; [done|].
  cbn [qoi_encode_loop]. destruct (pxi <? len); [|done].
  by apply IH, sink_ok_encode_pixel.
Qed.

(** The sink is never called without data and never with more than the
    64 bytes of the staging buffer; when [koi_write_qoi_to_func] returns,
    nothing is left in that buffer. *)
Theorem sink_blocks (flip : bool) (cs x y comp : Z) (data : list Z) :
  0 <= x -> 0 <= y -> x * y < 2 ^ 31 -> 1 <= comp <= 4 ->
  Z.of_nat (length data) = x * y * comp ->
  let s' := (koi_write_qoi_to_func flip cs x y comp data).1.2 in
  Forall (fun blk => (1 <= length blk <= 64)%nat) (func_calls s')
  /\ buf_used s' = 0
  /\ concat (func_calls s') = qoi_file flip cs x y comp data.
Proof.
  intros Hx Hy _ _ _ s'. subst s'.
  unfold qoi_file, koi_write_qoi_to_func, koi_write_qoi_core.
  rewrite !(proj2 (Z.ltb_ge _ _)) by lia. cbn [orb fst snd].
  assert (H0 : sink_ok write_context_zero) by (split; [apply wctx_ok_zero|done]).
  set (s1 := koiw__writefv write_context_zero true "1111 44 11" _).
  assert (H1 : sink_ok s1) by (by apply sink_ok_writefv).
  destruct (if flip then (y - 1, -1) else (0, 1)) as [jstart jdir].
  set (st := qoi_encode_loop _ _ _ _ _ _ _ _ _ _).
  assert (H2 : sink_ok (enc_s st)) by (by apply sink_ok_encode_loop).
  pose proof (sink_ok_flush _ H2) as H3.
  destruct (flush_written (enc_s st) (proj1 H2)) as (Hok3 & Hu3 & _).
  destruct (trailer_written _ Hok3 Hu3) as [_ Hu4].
  split; [|by split].
  by apply sink_ok_writefv.
Qed.

Lemma sink_blocks_witness :
  let s' := (koi_write_qoi_to_func false 0 2 1 3 [1; 2; 3; 4; 5; 6]).1.2 in
  Forall (fun blk => (1 <= length blk <= 64)%nat) (func_calls s')
  /\ buf_used s' = 0
  /\ concat (func_calls s') = qoi_file false 0 2 1 3 [1; 2; 3; 4; 5; 6].
Proof.
  apply (sink_blocks false 0 2 1 3 [1; 2; 3; 4; 5; 6]); (lia || reflexivity).
Defined.

(** ** An image without pixels *)

Lemma load_main_outofmem {U : Type} (alloc : Z -> bool) (s : koi__context U)
    w h c ccs body xyc req :
  0 <= w <= 2 ^ 24 -> 0 <= h <= 2 ^ 24 ->
  c = 3 \/ c = 4 -> ccs = 0 \/ ccs = 1 ->
  let target := qoi_target req c in
  target = 3 \/ target = 4 ->
  target * w * h <= INT_MAX ->
  alloc (target * w * h + 0) = false ->
  let file := qoi_header w h c ccs ++ body in
  8 <= Z.of_nat (length body) ->
  exists s2,
    koi__load_main alloc
      {| ctx := koi__start_mem s file (Z.of_nat (length file));
         outs := xyc; mallocs := [] |} req
    = (Fail "outofmem",
       {| ctx := s2; outs := xyc; mallocs := [target * w * h + 0] |}).
Proof.
  intros Hw Hh Hc Hccs target Ht Hfit Halloc file Hbody.
  unfold INT_MAX in Hfit. change (2 ^ 24) with 16777216 in *.
  change (2 ^ 31 - 1) with 2147483647 in Hfit.
  destruct (load_main_on_header alloc s w h c ccs body xyc req)
    as (s1 & R1 & _ & E0).
  { rewrite !length_app, qoi_header_length. lia. }
  destruct (parse_header_reads s1 w h c ccs body)
    as (s2 & E1 & Hx & Hy & Hn & _ & Hr2); [lia|lia|exact R1|].
  assert (Hv : header_verdict c ccs = Ok {| ch_n := c; cspace := ccs |}).
  { unfold header_verdict. by destruct Hc as [->| ->], Hccs as [->| ->]. }
  rewrite Hv in *.
  exists (set_img_n s2 c).
  fold file in E0. rewrite E0.
  unfold koi__qoi_load. cbn [ctx]. rewrite E1.
  rewrite Hx, Hy. unfold KOI_MAX_DIMENSIONS.
  change (Z.shiftl 1 24) with 16777216.
  rewrite !Z.gtb_ltb, !(proj2 (Z.ltb_ge _ _)) by lia.
  cbn [img_n set_img_n img_x img_y ch_n set_ctx ctx outs mallocs].
  rewrite Hx, Hy, !i32_small by lia.
  fold target.
  assert (Hvalid : koi__mad3sizes_valid target w h 0 = true).
  { apply mad3sizes_fits; unfold INT_MAX;
      change (2 ^ 31 - 1) with 2147483647; destruct Ht as [->| ->]; nia. }
  unfold koi__malloc_mad3. rewrite Hvalid. cbn [negb].
  unfold koi__malloc. rewrite Halloc. done.
Qed.

(** An image of width or height 0 is written as the header and the end
    marker alone.  A load of those 22 bytes asks [malloc] for a block of
    0 bytes: it returns an image of no bytes with the size of the header
    when the block is granted, and fails for lack of memory, leaving the
    caller's locations alone, when it is not. *)
Theorem empty_image {U : Type} (alloc : Z -> bool) (s : koi__context U)
    (flip : bool) (cs w h c : Z) (x0 y0 c0 : Z) :
  0 <= w <= 2 ^ 24 -> 0 <= h <= 2 ^ 24 -> w * h = 0 -> c = 3 \/ c = 4 ->
  let file := qoi_file flip cs w h c [] in
  let load :=
    koi_load_from_memory alloc false s file (Z.of_nat (length file))
      (locations x0 y0 c0) c in
  file = qoi_header w h c (if negb (cs =? 0) then 1 else 0) ++ qoi_trailer
  /\ (alloc 0 = true -> load.1 = Ok [] /\ outs load.2 = locations w h c)
  /\ (alloc 0 = false ->
      load.1 = Fail "outofmem" /\ outs load.2 = locations x0 y0 c0).
Proof.
  intros Hw Hh Hwh Hc file load.
  change (2 ^ 24) with 16777216 in *.
  assert (Hfile : qoi_file flip cs w h c []
                  = qoi_header w h c (if negb (cs =? 0) then 1 else 0)
                    ++ qoi_trailer).
  { destruct (write_qoi_file flip cs w h c []) as (s' & _ & _ & ->);
      [lia|lia|].
    rewrite write_qoi_ops_source by lia. rewrite Hwh, !u32_small by lia.
    change (seqZ 0 0) with (@nil Z). cbn [fmap list_fmap encode_ops].
    change (ops_bytes []) with (@nil Z). cbn [app].
    by destruct Hc as [->| ->]. }
  subst file. split; [exact Hfile|].
  assert (Ht : qoi_target c c = c)
    by (unfold qoi_target; by destruct Hc as [->| ->]).
  assert (Hsz : c * w * h + 0 = 0) by nia.
  assert (Hccs : (if negb (cs =? 0) then 1 else 0) = 0
                 \/ (if negb (cs =? 0) then 1 else 0) = 1)
    by (destruct (negb _); auto).
  subst load. rewrite Hfile.
  split; intros Halloc.
  - assert (Hreq : (if c =? 0 then c else c) = c) by (by destruct (c =? 0)).
    destruct (load_index_only_payload alloc s w h c
                (if negb (cs =? 0) then 1 else 0) qoi_trailer c x0 y0 c0)
      as [H1 H2].
    + lia.
    + lia.
    + exact Hc.
    + exact Hccs.
    + unfold qoi_trailer. repeat constructor; lia.
    + cbn [qoi_trailer length]. lia.
    + destruct Hc as [->| ->]; auto.
    + rewrite Hreq. unfold INT_MAX. lia.
    + rewrite Hreq, Hsz. exact Halloc.
    + rewrite length_app, qoi_header_length. cbn [qoi_trailer length].
      unfold INT_MAX. lia.
    + split; [|exact H2]. rewrite H1, Hreq.
      replace (c * w * h) with 0 by lia. done.
  - unfold koi_load_from_memory, koi__load_and_postprocess_8bit.
    destruct (load_main_outofmem alloc s w h c
                (if negb (cs =? 0) then 1 else 0) qoi_trailer
                (locations x0 y0 c0) c) as (s2 & E).
    + lia.
    + lia.
    + exact Hc.
    + exact Hccs.
    + by rewrite Ht.
    + rewrite Ht. unfold INT_MAX. lia.
    + rewrite Ht, Hsz. exact Halloc.
    + cbn [qoi_trailer length]. lia.
    + rewrite E. done.
Qed.

Lemma empty_image_witness :
  let file := qoi_file false 0 0 5 3 [] in
  let load :=
    koi_load_from_memory (fun _ => true) false blank_context file
      (Z.of_nat (length file)) (locations 7 8 9) 3 in
  file = qoi_header 0 5 3 (if negb (0 =? 0) then 1 else 0) ++ qoi_trailer
  /\ ((fun _ : Z => true) 0 = true ->
      load.1 = Ok [] /\ outs load.2 = locations 0 5 3)
  /\ ((fun _ : Z => true) 0 = false ->
      load.1 = Fail "outofmem" /\ outs load.2 = locations 7 8 9).
Proof.
  apply (empty_image (fun _ => true) blank_context false 0 0 5 3 7 8 9);
    (lia || by left).
Defined.

(** ** What a load and a header query agree on *)

Section ImageFields.

Context {U : Type}.
Implicit Types s : koi__context U.

Lemma get8_same_image s : same_image s (koi__get8 s).2.
Proof.
  unfold koi__get8, koi__refill_buffer.
  repeat case_match; simplify_eq; done.
Qed.

Lemma get32be_same_image s : same_image s (koi__get32be s).2.
Proof.
  unfold koi__get32be, koi__get16be.
  pose proof (get8_same_image s) as H1.
  destruct (koi__get8 s) as [v1 s1].
  pose proof (get8_same_image s1) as H2.
  destruct (koi__get8 s1) as [v2 s2].
  pose proof (get8_same_image s2) as H3.
  destruct (koi__get8 s2) as [v3 s3].
  pose proof (get8_same_image s3) as H4.
  destruct (koi__get8 s3) as [v4 s4].
  cbn in *. image_chain.
Qed.

Ltac step_get8 H :=
  match type of H with
  | context [koi__get8 ?s] =>
    let I := fresh "I" in
    let v := fresh "v" in
    let s1 := fresh "s" in
    pose proof (get8_same_image s) as I;
    destruct (koi__get8 s) as [v s1]; cbn [snd] in I
  end.

(** The pixel loop leaves the image fields of the context alone, on any
    stream. *)
Lemma decode_loop_same_image (fuel : nat) target len :
  forall s prev_px index out i out' s',
    qoi_decode_loop fuel target len s prev_px index out i = Done out' s' ->
    same_image s s'.
Proof.
  induction fuel as [|fuel IH]; intros s prev_px index out i out' s' H.
  - cbn in H. destruct (i <? len); [done|]. by injection H as <- <-.
  - cbn [qoi_decode_loop] in H.
    destruct (i <? len); [|by injection H as <- <-].
    assert (Hfin : forall (s1 : koi__context U) px index1,
      match qoi_put_pixel target px out (u32 (i * target)) with
      | Some (out, _) =>
        qoi_decode_loop fuel target len s1 px index1 out (u32 (i + 1))
      | None => Wild
      end = Done out' s' ->
      same_image s s1 -> same_image s s').
    { intros s1 px index1 H1 I1.
      destruct (qoi_put_pixel target px out _) as [[o p]|]; [|done].
      apply IH in H1. image_chain. }
    step_get8 H.
    repeat first
      [ step_get8 H
      | match type of H with
        | context [if ?c then _ else _] => destruct c eqn:?
        end ].
    1-5: apply Hfin in H; [exact H|image_chain].
    + destruct (qoi_run_loop _ _ _ _ _ _) as [[o i']|]; [|done].
      apply IH in H. image_chain.
    + apply Hfin in H; [exact H|image_chain].
Qed.

End ImageFields.

Section InfoAndLoad.

Context {U : Type}.
Variable alloc : Z -> bool.
Implicit Types (s : koi__context U) (m : machine U).

Lemma rewind_get8_mem s :
  read_from_callbacks s = false ->
  koi__rewind (koi__get8 s).2 = koi__rewind s
  /\ read_from_callbacks (koi__get8 s).2 = false.
Proof.
  intros Hr. unfold koi__get8. rewrite Hr. by destruct (ptr_lt _ _).
Qed.

(** After the format test a memory stream is where it started. *)
Lemma qoi_test_start_mem s buffer len :
  (koi__qoi_test (koi__start_mem s buffer len)).2
  = koi__start_mem s buffer len.
Proof.
  set (s0 := koi__start_mem s buffer len).
  assert (H0 : read_from_callbacks s0 = false) by done.
  assert (Hrw : koi__rewind s0 = s0) by done.
  unfold koi__qoi_test, koi__qoi_test_raw.
  destruct (_ <? 14 + 8); [done|].
  destruct (rewind_get8_mem s0 H0) as [R1 H1].
  destruct (koi__get8 s0) as [c0 s1]. cbn [snd] in R1, H1.
  destruct (negb _); [cbn; congruence|].
  destruct (rewind_get8_mem s1 H1) as [R2 H2].
  destruct (koi__get8 s1) as [c1 s2]. cbn [snd] in R2, H2.
  destruct (negb _); [cbn; congruence|].
  destruct (rewind_get8_mem s2 H2) as [R3 H3].
  destruct (koi__get8 s2) as [c2 s3]. cbn [snd] in R3, H3.
  destruct (negb _); [cbn; congruence|].
  destruct (rewind_get8_mem s3 H3) as [R4 H4].
  destruct (koi__get8 s3) as [c3 s4]. cbn [snd] in R4, H4.
  destruct (negb _); cbn; congruence.
Qed.

(** What a successful [koi__qoi_load] has stored: the width and height
    of the header it parsed, as [int], and the channels of the file. *)
Lemma qoi_load_ok_outs m req out m' :
  koi__qoi_load alloc m req = (Ok out, m') ->
  exists info s' vx vy,
    koi__qoi_parse_header (ctx m) = (Ok info, s')
    /\ x_loc (outs m) = Some vx /\ y_loc (outs m) = Some vy
    /\ outs m'
       = {| x_loc := Some (i32 (img_x s')); y_loc := Some (i32 (img_y s'));
            comp_loc := store_if (comp_loc (outs m)) (ch_n info) |}.
Proof.
  intros H. unfold koi__qoi_load in H.
  destruct (koi__qoi_parse_header (ctx m)) as [hdr s1] eqn:Eh.
  destruct hdr as [info| |]; [|done|done].
  destruct (img_y s1 >? KOI_MAX_DIMENSIONS); [done|].
  destruct (img_x s1 >? KOI_MAX_DIMENSIONS); [done|].
  cbv zeta in H.
  destruct (negb (koi__mad3sizes_valid _ _ _ _)); [done|].
  unfold koi__malloc_mad3 in H.
  destruct (negb (koi__mad3sizes_valid _ _ _ _)); [done|].
  unfold koi__malloc in H. cbn [ctx outs mallocs set_ctx] in H.
  destruct (alloc _); [|done].
  destruct (qoi_decode_loop _ _ _ _ _ _ _ _) as [out1 s3| |] eqn:El;
    [|done|done].
  apply decode_loop_same_image in El as (Fx & Fy & Fn).
  cbn [img_x img_y img_n set_img_n] in Fx, Fy, Fn.
  exists info, s1.
  match type of H with
  | context [if ?c then koi__convert_format alloc ?m1 ?d ?a ?b ?x ?y else ?e] =>
    pose proof (koi__convert_format_outs alloc m1 d a b x y) as Hc;
    destruct c;
      [destruct (koi__convert_format alloc m1 d a b x y) as [conv m3]|]
  end.
  - cbn [snd outs set_ctx] in Hc. destruct conv as [out2| |]; [|done|done].
    rewrite Hc in H.
    destruct (x_loc (outs m)) as [vx|], (y_loc (outs m)) as [vy|];
      try done.
    injection H as <- <-. exists vx, vy. cbn [outs set_outs].
    rewrite ?Hc, Fx, Fy, Fn. done.
  - cbn [outs set_ctx] in H.
    destruct (x_loc (outs m)) as [vx|], (y_loc (outs m)) as [vy|];
      try done.
    injection H as <- <-. exists vx, vy. cbn [outs set_outs set_ctx].
    rewrite Fx, Fy, Fn. done.
Qed.

End InfoAndLoad.

(** Whenever [koi_load_from_memory] returns an image,
    [koi_info_from_memory] on the same bytes returns 1 and reports the
    width, height and channels the load has reported. *)
Theorem info_agrees_with_load {U : Type} (alloc : Z -> bool) (flip : bool)
    (s : koi__context U) (buffer : list Z) (len : Z) (xyc : out_ptrs)
    (req : Z) (out : list Z) :
  (koi_load_from_memory alloc flip s buffer len xyc req).1 = Ok out ->
  (koi_info_from_memory s buffer len xyc).1 = Ok 1
  /\ outs (koi_info_from_memory s buffer len xyc).2
     = outs (koi_load_from_memory alloc flip s buffer len xyc req).2.
Proof.
  unfold koi_load_from_memory, koi__load_and_postprocess_8bit,
    koi__load_main, koi_info_from_memory, koi__info_main, koi__qoi_info.
  cbn [ctx outs mallocs].
  pose proof (qoi_test_start_mem s buffer len) as Ht.
  destruct (koi__qoi_test (koi__start_mem s buffer len)) as [is_qoi s1].
  cbn [snd] in Ht. subst s1.
  destruct is_qoi; [|done].
  set (m0 := set_ctx _ _).
  pose proof (qoi_load_ok_outs alloc m0 req) as Hl.
  destruct (koi__qoi_load alloc m0 req) as [res m1].
  destruct res as [out1| |]; [|done|done].
  destruct (Hl out1 m1 eq_refl) as (info & s' & vx & vy & Eh & Hx & Hy & Ho).
  cbn [ctx outs set_ctx m0] in Eh, Hx, Hy, Ho.
  rewrite Eh. cbn [fst snd outs].
  rewrite Hx, Hy. cbn [store_if].
  intros H. split; [done|].
  cbn [bits_per_channel] in *. change (negb (8 =? 8)) with false in *.
  cbv iota in *.
  destruct flip.
  - destruct (result_channels m1 req), (x_loc (outs m1)), (y_loc (outs m1));
      try done; cbn [snd]; by rewrite Ho.
  - cbn [snd]. by rewrite Ho.
Qed.

Lemma info_agrees_with_load_witness :
  (koi_info_from_memory blank_context
     (qoi_file false 0 2 1 3 [1; 2; 3; 4; 5; 6]) 32 (locations 0 0 0)).1
  = Ok 1
  /\ outs (koi_info_from_memory blank_context
             (qoi_file false 0 2 1 3 [1; 2; 3; 4; 5; 6]) 32
             (locations 0 0 0)).2
     = outs (koi_load_from_memory (fun _ => true) false blank_context
               (qoi_file false 0 2 1 3 [1; 2; 3; 4; 5; 6]) 32
               (locations 0 0 0) 4).2.
Proof.
  apply (info_agrees_with_load (fun _ => true) false blank_context
           (qoi_file false 0 2 1 3 [1; 2; 3; 4; 5; 6]) 32 (locations 0 0 0)
           4 [1; 2; 3; 255; 4; 5; 6; 255]).
  vm_compute. reflexivity.
Defined.

(** ** Streams that deliver the same bytes *)

Section Twins.

Context {U V : Type}.

Lemma get8_set_img_x {W} (s : koi__context W) v :
  koi__get8 (set_img_x s v)
  = ((koi__get8 s).1, set_img_x (koi__get8 s).2 v).
Proof.
  unfold koi__get8, koi__refill_buffer. cbn.
  repeat case_match; simplify_eq; done.
Qed.

Lemma get8_set_img_y {W} (s : koi__context W) v :
  koi__get8 (set_img_y s v)
  = ((koi__get8 s).1, set_img_y (koi__get8 s).2 v).
Proof.
  unfold koi__get8, koi__refill_buffer. cbn.
  repeat case_match; simplify_eq; done.
Qed.

Lemma get8_set_img_n {W} (s : koi__context W) v :
  koi__get8 (set_img_n s v)
  = ((koi__get8 s).1, set_img_n (koi__get8 s).2 v).
Proof.
  unfold koi__get8, koi__refill_buffer. cbn.
  repeat case_match; simplify_eq; done.
Qed.

Lemma get8_times_set_img_x {W} (n : nat) : forall (s : koi__context W) v,
  (get8_times n (set_img_x s v)).1 = (get8_times n s).1.
Proof.
  induction n as [|n IH]; intros s v; [done|].
  cbn [get8_times]. rewrite get8_set_img_x.
  destruct (koi__get8 s) as [c s1]. cbn [fst snd].
  specialize (IH s1 v).
  destruct (get8_times n (set_img_x s1 v)), (get8_times n s1).
  cbn in *. by rewrite IH.
Qed.

Lemma get8_times_set_img_y {W} (n : nat) : forall (s : koi__context W) v,
  (get8_times n (set_img_y s v)).1 = (get8_times n s).1.
Proof.
  induction n as [|n IH]; intros s v; [done|].
  cbn [get8_times]. rewrite get8_set_img_y.
  destruct (koi__get8 s) as [c s1]. cbn [fst snd].
  specialize (IH s1 v).
  destruct (get8_times n (set_img_y s1 v)), (get8_times n s1).
  cbn in *. by rewrite IH.
Qed.

Lemma get8_times_set_img_n {W} (n : nat) : forall (s : koi__context W) v,
  (get8_times n (set_img_n s v)).1 = (get8_times n s).1.
Proof.
  induction n as [|n IH]; intros s v; [done|].
  cbn [get8_times]. rewrite get8_set_img_n.
  destruct (koi__get8 s) as [c s1]. cbn [fst snd].
  specialize (IH s1 v).
  destruct (get8_times n (set_img_n s1 v)), (get8_times n s1).
  cbn in *. by rewrite IH.
Qed.

Lemma twin_set_img_x (s1 : koi__context U) (s2 : koi__context V) v :
  twin s1 s2 -> twin (set_img_x s1 v) (set_img_x s2 v).
Proof.
  intros (Hf & Hx & Hy & Hn). split; [|done].
  intros n. by rewrite !get8_times_set_img_x.
Qed.

Lemma twin_set_img_y (s1 : koi__context U) (s2 : koi__context V) v :
  twin s1 s2 -> twin (set_img_y s1 v) (set_img_y s2 v).
Proof.
  intros (Hf & Hx & Hy & Hn). split; [|done].
  intros n. by rewrite !get8_times_set_img_y.
Qed.

Lemma twin_set_img_n (s1 : koi__context U) (s2 : koi__context V) v :
  twin s1 s2 -> twin (set_img_n s1 v) (set_img_n s2 v).
Proof.
  intros (Hf & Hx & Hy & Hn). split; [|done].
  intros n. by rewrite !get8_times_set_img_n.
Qed.

(** Twins answer [koi__get8] with the same byte and stay twins. *)
Lemma twin_get8 (s1 : koi__context U) (s2 : koi__context V) :
  twin s1 s2 ->
  (koi__get8 s1).1 = (koi__get8 s2).1
  /\ twin (koi__get8 s1).2 (koi__get8 s2).2.
Proof.
  intros (Hf & Hx & Hy & Hn).
  pose proof (get8_same_image s1) as I1.
  pose proof (get8_same_image s2) as I2.
  assert (Hstep : forall n,
            (koi__get8 s1).1 :: (get8_times n (koi__get8 s1).2).1
            = (koi__get8 s2).1 :: (get8_times n (koi__get8 s2).2).1).
  { intros n. specialize (Hf (S n)). cbn [get8_times] in Hf.
    destruct (koi__get8 s1) as [c1 t1], (koi__get8 s2) as [c2 t2].
    cbn [fst snd].
    destruct (get8_times n t1), (get8_times n t2). exact Hf. }
  split; [by injection (Hstep 0%nat)|].
  split; [intros n; by injection (Hstep n)|].
  unfold same_image in *. intuition congruence.
Qed.

Ltac twin_step :=
  match goal with
  | H : twin ?s1 ?s2 |- _ =>
    let E := fresh "E" in
    let T := fresh "T" in
    destruct (twin_get8 _ _ H) as [E T];
    destruct (koi__get8 s1) as [? ?], (koi__get8 s2) as [? ?];
    cbn [fst snd] in E, T; subst; clear H
  end.

Lemma twin_get32be (s1 : koi__context U) (s2 : koi__context V) :
  twin s1 s2 ->
  (koi__get32be s1).1 = (koi__get32be s2).1
  /\ twin (koi__get32be s1).2 (koi__get32be s2).2.
Proof.
  intros H. unfold koi__get32be, koi__get16be.
  do 4 twin_step. done.
Qed.

Ltac twin_word :=
  match goal with
  | H : twin ?s1 ?s2 |- _ =>
    let E := fresh "E" in
    let T := fresh "T" in
    destruct (twin_get32be _ _ H) as [E T];
    destruct (koi__get32be s1) as [? ?], (koi__get32be s2) as [? ?];
    cbn [fst snd] in E, T; subst; clear H
  end.

Lemma twin_parse_header (s1 : koi__context U) (s2 : koi__context V) :
  twin s1 s2 ->
  (koi__qoi_parse_header s1).1 = (koi__qoi_parse_header s2).1
  /\ twin (koi__qoi_parse_header s1).2 (koi__qoi_parse_header s2).2.
Proof.
  intros H. unfold koi__qoi_parse_header.
  twin_step. destruct (negb _); [done|].
  twin_step. destruct (negb _); [done|].
  twin_step. destruct (negb _); [done|].
  twin_step. destruct (negb _); [done|].
  twin_word.
  match goal with
  | H : twin ?a _ |- context [set_img_x ?a ?w] =>
    apply (twin_set_img_x _ _ w) in H
  end.
  twin_word.
  match goal with
  | H : twin ?a _ |- context [set_img_y ?a ?w] =>
    apply (twin_set_img_y _ _ w) in H
  end.
  twin_step. destruct (_ && _); [done|].
  twin_step. destruct (_ && _); done.
Qed.

Lemma twin_decode_loop (fuel : nat) target len :
  forall (s1 : koi__context U) (s2 : koi__context V) prev index out i,
    twin s1 s2 ->
    same_end (qoi_decode_loop fuel target len s1 prev index out i)
             (qoi_decode_loop fuel target len s2 prev index out i).
Proof.
  induction fuel as [|fuel IH]; intros s1 s2 prev index out i H;
    cbn [qoi_decode_loop]; destruct (i <? len); try done.
  twin_step.
  destruct (_ =? 254).
  { do 3 twin_step.
    destruct (qoi_put_pixel _ _ _ _) as [[? ?]|]; [by apply IH|done]. }
  destruct (_ =? 255).
  { do 4 twin_step.
    destruct (qoi_put_pixel _ _ _ _) as [[? ?]|]; [by apply IH|done]. }
  cbn zeta.
  destruct (_ =? 0).
  { destruct (qoi_put_pixel _ _ _ _) as [[? ?]|]; [by apply IH|done]. }
  destruct (_ =? 64).
  { destruct (qoi_put_pixel _ _ _ _) as [[? ?]|]; [by apply IH|done]. }
  destruct (_ =? 128).
  { twin_step.
    destruct (qoi_put_pixel _ _ _ _) as [[? ?]|]; [by apply IH|done]. }
  destruct (_ =? 192).
  { destruct (qoi_run_loop _ _ _ _ _ _) as [[? ?]|]; [by apply IH|done]. }
  destruct (qoi_put_pixel _ _ _ _) as [[? ?]|]; [by apply IH|done].
Qed.

(** [koi__convert_format] does not look at the stream. *)
Lemma alike_convert_format alloc (m1 : machine U) (m2 : machine V)
    data n req x y :
  alike m1 m2 ->
  (koi__convert_format alloc m1 data n req x y).1
  = (koi__convert_format alloc m2 data n req x y).1
  /\ alike (koi__convert_format alloc m1 data n req x y).2
           (koi__convert_format alloc m2 data n req x y).2.
Proof.
  intros [Ho Hm]. unfold koi__convert_format, koi__malloc_mad3, koi__malloc.
  destruct (req =? n); [done|].
  destruct (negb (_ && _)); [done|].
  destruct (negb _); [done|].
  destruct (alloc _); cbn; [|split; [done|split; cbn; congruence]].
  destruct (mapM _ _); (split; [done|split; cbn; congruence]).
Qed.

(** [koi__qoi_load] on twins: the same result, the same stores, the same
    requests to [malloc]. *)
Lemma twin_qoi_load alloc (s1 : koi__context U) (s2 : koi__context V)
    o l req :
  twin s1 s2 ->
  (koi__qoi_load alloc {| ctx := s1; outs := o; mallocs := l |} req).1
  = (koi__qoi_load alloc {| ctx := s2; outs := o; mallocs := l |} req).1
  /\ alike (koi__qoi_load alloc {| ctx := s1; outs := o; mallocs := l |} req).2
           (koi__qoi_load alloc {| ctx := s2; outs := o; mallocs := l |} req).2.
Proof.
  intros H. unfold koi__qoi_load. cbn [ctx].
  destruct (twin_parse_header _ _ H) as [Eh Th].
  destruct (koi__qoi_parse_header s1) as [h1 t1],
           (koi__qoi_parse_header s2) as [h2 t2].
  cbn [fst snd] in Eh, Th. subst h2.
  destruct h1 as [info| |]; [|done|done].
  destruct Th as (Hf & Hx & Hy & Hn).
  cbn [img_x img_y img_n set_img_n].
  rewrite Hx, Hy.
  destruct (_ >? _); [done|]. destruct (_ >? _); [done|].
  destruct (negb _); [done|].
  unfold koi__malloc_mad3, koi__malloc, set_ctx.
  destruct (negb _); [done|]. cbn [ctx outs mallocs].
  destruct (alloc _); [|done].
  assert (T : twin (set_img_n t1 (ch_n info)) (set_img_n t2 (ch_n info))).
  { by apply twin_set_img_n. }
  pose proof (twin_decode_loop
    (Z.to_nat (u32 (img_y t2 * img_x t2)))
    (qoi_target req (ch_n info)) (u32 (img_y t2 * img_x t2))
    _ _ start_px index_zero
    (replicate (Z.to_nat (qoi_target req (ch_n info) * i32 (img_x t2)
                          * i32 (img_y t2) + 0)) 0) 0 T) as L.
  destruct (qoi_decode_loop _ _ _ (set_img_n t1 _) _ _ _ _) as [o1 u1| |],
           (qoi_decode_loop _ _ _ (set_img_n t2 _) _ _ _ _) as [o2 u2| |];
    try done.
  destruct L as [-> (_ & Ux & Uy & Un)].
  rewrite Ux, Uy, Un. cbn [ctx outs mallocs].
  destruct (negb _ && negb _).
  - match goal with
    | |- context [koi__convert_format alloc ?m1 ?d ?n ?r ?x ?y] =>
      match goal with
      | |- context [koi__convert_format alloc ?m2 d n r x y] =>
        lazymatch m1 with
        | m2 => fail
        | _ =>
          destruct (alike_convert_format alloc m1 m2 d n r x y) as [Ec Ac];
          [done|];
          destruct (koi__convert_format alloc m1 d n r x y) as [c1 n1],
                   (koi__convert_format alloc m2 d n r x y) as [c2 n2]
        end
      end
    end.
    cbn [fst snd] in Ec, Ac. subst c2. destruct Ac as [Ao Am].
    destruct c1; [|done|done].
    rewrite Ao. destruct (x_loc (outs n2)), (y_loc (outs n2));
      (split; [done|split; cbn; congruence]).
  - cbn [outs]. by destruct (x_loc o), (y_loc o).
Qed.

Lemma twin_qoi_test_raw (s1 : koi__context U) (s2 : koi__context V) :
  twin s1 s2 ->
  (ptr_diff (img_buffer_original_end s1) (img_buffer_original s1) <? 14 + 8)
  = (ptr_diff (img_buffer_original_end s2) (img_buffer_original s2)
     <? 14 + 8) ->
  (koi__qoi_test_raw s1).1 = (koi__qoi_test_raw s2).1.
Proof.
  intros H Hsize. unfold koi__qoi_test_raw. rewrite Hsize. clear Hsize.
  destruct (_ <? 14 + 8); [done|].
  twin_step. destruct (negb _); [done|].
  twin_step. destruct (negb _); [done|].
  twin_step. destruct (negb _); [done|].
  twin_step. by destruct (negb _).
Qed.

End Twins.

Section TwinLoads.

Context {U V : Type} (alloc : Z -> bool) (flip : bool).

Lemma qoi_test_fst {W} (s : koi__context W) :
  (koi__qoi_test s).1 = (koi__qoi_test_raw s).1.
Proof. unfold koi__qoi_test. by destruct (koi__qoi_test_raw s). Qed.

(** [koi__load_main] on twins that the test leaves as they are. *)
Lemma twin_load_main (s1 : koi__context U) (s2 : koi__context V) o l req :
  twin s1 s2 ->
  (koi__qoi_test s1).2 = s1 -> (koi__qoi_test s2).2 = s2 ->
  (ptr_diff (img_buffer_original_end s1) (img_buffer_original s1) <? 14 + 8)
  = (ptr_diff (img_buffer_original_end s2) (img_buffer_original s2)
     <? 14 + 8) ->
  (koi__load_main alloc {| ctx := s1; outs := o; mallocs := l |} req).1
  = (koi__load_main alloc {| ctx := s2; outs := o; mallocs := l |} req).1
  /\ alike
       (koi__load_main alloc {| ctx := s1; outs := o; mallocs := l |} req).2
       (koi__load_main alloc {| ctx := s2; outs := o; mallocs := l |} req).2.
Proof.
  intros T K1 K2 Hsize. unfold koi__load_main. cbn [ctx].
  pose proof (twin_qoi_test_raw s1 s2 T Hsize) as Eb.
  rewrite <- !qoi_test_fst in Eb.
  destruct (koi__qoi_test s1) as [b1 t1], (koi__qoi_test s2) as [b2 t2].
  cbn [fst snd] in K1, K2, Eb. subst t1 t2 b2.
  destruct b1; [|done]. unfold set_ctx. cbn [ctx outs mallocs].
  destruct (twin_qoi_load alloc s1 s2 o l req T) as [Er Ar].
  destruct (koi__qoi_load alloc {| ctx := s1; outs := o; mallocs := l |} req)
    as [r1 m1],
    (koi__qoi_load alloc {| ctx := s2; outs := o; mallocs := l |} req)
    as [r2 m2].
  cbn [fst snd] in Er, Ar. subst r2. by destruct r1.
Qed.

Lemma twin_load_8bit (s1 : koi__context U) (s2 : koi__context V) o l req :
  twin s1 s2 ->
  (koi__qoi_test s1).2 = s1 -> (koi__qoi_test s2).2 = s2 ->
  (ptr_diff (img_buffer_original_end s1) (img_buffer_original s1) <? 14 + 8)
  = (ptr_diff (img_buffer_original_end s2) (img_buffer_original s2)
     <? 14 + 8) ->
  (koi__load_and_postprocess_8bit alloc flip
     {| ctx := s1; outs := o; mallocs := l |} req).1
  = (koi__load_and_postprocess_8bit alloc flip
       {| ctx := s2; outs := o; mallocs := l |} req).1
  /\ alike
       (koi__load_and_postprocess_8bit alloc flip
          {| ctx := s1; outs := o; mallocs := l |} req).2
       (koi__load_and_postprocess_8bit alloc flip
          {| ctx := s2; outs := o; mallocs := l |} req).2.
Proof.
  intros T K1 K2 Hsize. unfold koi__load_and_postprocess_8bit.
  destruct (twin_load_main s1 s2 o l req T K1 K2 Hsize) as [Er Ar].
  destruct (koi__load_main alloc {| ctx := s1; outs := o; mallocs := l |} req)
    as [r1 m1],
    (koi__load_main alloc {| ctx := s2; outs := o; mallocs := l |} req)
    as [r2 m2].
  cbn [fst snd] in Er, Ar. subst r2.
  destruct r1 as [[result ri]| |]; [|done|done].
  destruct (negb _); [done|].
  destruct flip; [|done].
  destruct Ar as [Ao Am]. unfold result_channels. rewrite Ao.
  destruct (if negb (req =? 0) then Some req else comp_loc (outs m2));
    [|done].
  destruct (x_loc (outs m2)); [|done].
  destruct (y_loc (outs m2)); done.
Qed.

End TwinLoads.

(** ** What the two kinds of stream deliver *)

Lemma take_app_zeros (l : list Z) (n m : nat) :
  (n <= m)%nat -> take n (l ++ replicate m 0) = take n (l ++ replicate n 0).
Proof.
  intros H. rewrite !take_app, !take_replicate. do 2 f_equal. lia.
Qed.

Lemma feed_nil n : feed [] n = replicate n 0.
Proof.
  unfold feed. cbn. rewrite take_replicate. f_equal. lia.
Qed.

Lemma feed_cons b l n : feed (b :: l) (S n) = b :: feed l n.
Proof.
  unfold feed. cbn [app take]. f_equal. apply take_app_zeros. lia.
Qed.

Lemma feed_zero n : feed [0] n = feed [] n.
Proof.
  destruct n as [|n]; [done|]. by rewrite feed_cons, !feed_nil.
Qed.

Section Feeds.

Context {U : Type}.
Implicit Types s : koi__context U.

(** A memory stream answers its unread bytes, then zeros. *)
Lemma reads_feed (n : nat) : forall s bytes,
  reads s bytes -> (get8_times n s).1 = feed bytes n.
Proof.
  induction n as [|n IH]; intros s bytes H; [done|].
  cbn [get8_times]. destruct bytes as [|c tl].
  - rewrite (get8_reads_nil s H). specialize (IH s [] H).
    destruct (get8_times n s) as [cs s2]. cbn [fst] in *.
    rewrite IH, !feed_nil. done.
  - destruct (get8_reads_cons s c tl H) as [-> H'].
    specialize (IH _ _ H').
    destruct (get8_times n (advance s)) as [cs s2]. cbn [fst] in *.
    by rewrite IH, feed_cons.
Qed.

Lemma pulls_get8 cb s pending rest :
  pulls cb s pending rest ->
  exists pending' rest',
    pulls cb (koi__get8 s).2 pending' rest'
    /\ (koi__get8 s).1 = hd 0 (pending ++ rest)
    /\ pending' ++ rest' = tail (pending ++ rest).
Proof.
  intros (Hlen & Hoff & Hend & Hbase & Htake & Hmode).
  unfold koi__get8, ptr_lt.
  destruct pending as [|b p].
  - cbn [length] in Hend.
    rewrite (proj2 (Z.ltb_ge _ _)) by lia.
    destruct (read_from_callbacks s) eqn:Hr.
    + destruct Hmode as (Hio & Hbl & Hs).
      unfold koi__refill_buffer. rewrite Hio, Hbl.
      inversion Hs as [u Hnil Hu Hrest|u chunk rest0 Hchunk Hne Hle Hs' Hu Hrest].
      * destruct (read cb (io_user_data s) 128) as [data user].
        cbn [fst] in Hnil. subst data. cbn [length].
        change (Z.of_nat 0 =? 0) with true. cbn iota.
        exists [], []. cbn [fst snd app hd tail].
        split; [|split; [|done]].
        -- unfold pulls. cbn.
           rewrite length_insert, drop_0.
           repeat (split; [done|]). done.
        -- unfold deref. cbn. rewrite drop_0.
           destruct (buffer_start s); [done|]. done.
      * destruct (read cb (io_user_data s) 128) as [data user].
        cbn [fst snd] in Hchunk, Hs'. subst data.
        destruct chunk as [|c chunk]; [done|].
        cbn [length]. rewrite Nat2Z.inj_succ.
        rewrite (proj2 (Z.eqb_neq _ _)) by lia.
        exists chunk, rest0. cbn [fst snd app hd tail].
        split; [|split; [done|done]].
        unfold pulls. cbn. rewrite Hr.
        split.
        { rewrite length_app, length_drop. cbn in Hle. lia. }
        split; [lia|]. split; [lia|]. split; [done|].
        split; [|done].
        change (Z.to_nat (0 + 1)) with 1%nat. cbn [drop].
        rewrite drop_0. by rewrite take_app_length.
    + subst rest. exists [], []. cbn [fst snd app hd tail].
      split; [|done].
      unfold pulls. rewrite Hr. cbn [length]. done.
  - cbn [length] in Hend, Htake.
    rewrite (proj2 (Z.ltb_lt _ _)) by lia.
    exists p, rest. cbn [fst snd app hd tail].
    destruct (drop (Z.to_nat (off (img_buffer s))) (buffer_start s))
      as [|b' tl'] eqn:Hd; [done|].
    cbn [take] in Htake. injection Htake as -> Htl.
    split; [|split; [|done]].
    + unfold pulls. cbn.
      split; [done|]. split; [lia|]. split; [lia|]. split; [done|].
      split; [|done].
      replace (Z.to_nat (off (img_buffer s) + 1))
        with (Z.to_nat (off (img_buffer s)) + 1)%nat by lia.
      rewrite <- drop_drop, Hd. cbn [drop]. by rewrite drop_0.
    + unfold deref. rewrite Hbase.
      apply list_lookup_total_correct.
      rewrite <- (Nat.add_0_r (Z.to_nat _)), <- lookup_drop, Hd. done.
Qed.

(** A callback stream answers the bytes left in its buffer, then those
    of its reader, then zeros. *)
Lemma pulls_feed cb (n : nat) : forall s pending rest,
  pulls cb s pending rest -> (get8_times n s).1 = feed (pending ++ rest) n.
Proof.
  induction n as [|n IH]; intros s pending rest H; [done|].
  cbn [get8_times].
  destruct (pulls_get8 cb s pending rest H) as (p' & r' & H' & Hc & Ht).
  destruct (koi__get8 s) as [c s1]. cbn [fst snd] in H', Hc.
  specialize (IH _ _ _ H').
  destruct (get8_times n s1) as [cs s2]. cbn [fst] in *.
  rewrite IH, Ht, Hc.
  destruct (pending ++ rest) as [|x l]; cbn [hd tail].
  - by rewrite !feed_nil.
  - by rewrite feed_cons.
Qed.

Lemma start_callbacks_image s cb u :
  img_x (koi__start_callbacks s cb u) = img_x s
  /\ img_y (koi__start_callbacks s cb u) = img_y s
  /\ img_n (koi__start_callbacks s cb u) = img_n s.
Proof.
  unfold koi__start_callbacks, koi__refill_buffer. cbn.
  destruct (read cb u 128) as [data user]. by destruct (_ =? 0).
Qed.

(** The stream [koi__start_callbacks] builds over a reader that delivers
    [bytes]. *)
Lemma pulls_start_callbacks s cb u bytes :
  length (buffer_start s) = 128%nat ->
  serves cb u bytes ->
  exists pending rest,
    pulls cb (koi__start_callbacks s cb u) pending rest
    /\ forall n, feed (pending ++ rest) n = feed bytes n.
Proof.
  intros Hlen Hs.
  unfold koi__start_callbacks, koi__refill_buffer. cbn.
  inversion Hs as [u0 Hnil Hu Hrest|u0 chunk rest0 Hchunk Hne Hle Hs' Hu Hrest].
  - destruct (read cb u 128) as [data user]. cbn [fst] in Hnil. subst data. cbn [length].
    change (Z.of_nat 0 =? 0) with true. cbn iota.
    exists [0], []. split; [|intros n; apply feed_zero].
    unfold pulls. cbn. rewrite length_insert, drop_0.
    repeat (split; [done|]).
    split; [|done]. destruct (buffer_start s); [done|]. done.
  - destruct (read cb u 128) as [data user].
    cbn [fst snd] in Hchunk, Hs'. subst data.
    destruct chunk as [|c chunk]; [done|].
    cbn [length]. rewrite Nat2Z.inj_succ.
    rewrite (proj2 (Z.eqb_neq _ _)) by lia.
    exists (c :: chunk), rest0. split; [|done].
    unfold pulls. cbn.
    split.
    { rewrite length_app, length_drop. cbn in Hle. lia. }
    split; [lia|]. split; [lia|]. split; [done|].
    split; [|done].
    change (Z.to_nat 0) with 0%nat. rewrite drop_0. cbn [take].
    f_equal. by rewrite take_app_length.
Qed.

(** A callback stream and a memory stream over the bytes its reader
    delivers answer the same. *)
Lemma twin_start s cb u bytes :
  length (buffer_start s) = 128%nat ->
  serves cb u bytes ->
  twin (koi__start_callbacks s cb u)
       (koi__start_mem s bytes (Z.of_nat (length bytes))).
Proof.
  intros Hlen Hs.
  destruct (pulls_start_callbacks s cb u bytes Hlen Hs)
    as (pending & rest & Hp & Hfeed).
  split; [|exact (start_callbacks_image s cb u)].
  intros n.
  rewrite (pulls_feed cb n _ _ _ Hp), Hfeed.
  symmetry. apply reads_feed, reads_start_mem.
Qed.

Lemma rewind_fresh s :
  img_buffer s = img_buffer_original s ->
  img_buffer_end s = img_buffer_original_end s ->
  koi__rewind s = s.
Proof. destruct s. cbn. by intros -> ->. Qed.

(** A test at the start of a stream leaves the stream as it was. *)
Lemma qoi_test_keeps s :
  img_buffer s = img_buffer_original s ->
  img_buffer_end s = img_buffer_original_end s ->
  (koi__qoi_test s).2 = s.
Proof.
  intros H1 H2. pose proof (rewind_fresh s H1 H2) as Hrw.
  unfold koi__qoi_test, koi__qoi_test_raw.
  rewrite <- H1, <- H2. unfold ptr_diff.
  destruct (_ <? 14 + 8) eqn:Hsize; [done|].
  apply Z.ltb_ge in Hsize.
  assert (G : forall k t, 0 <= k < 4 ->
            koi__rewind t = s -> img_buffer_end t = img_buffer_end s ->
            off (img_buffer t) = off (img_buffer s) + k ->
            koi__get8 t = (deref t (img_buffer t), advance t)
            /\ koi__rewind (advance t) = s
            /\ img_buffer_end (advance t) = img_buffer_end s
            /\ off (img_buffer (advance t)) = off (img_buffer s) + (k + 1)).
  { intros k t Hk Ht He Ho. unfold koi__get8, ptr_lt. rewrite He.
    rewrite (proj2 (Z.ltb_lt _ _)) by lia.
    split; [done|]. split; [exact Ht|]. split; [exact He|]. cbn. lia. }
  destruct (G 0 s) as (-> & R1 & E1 & O1); [lia|done|done|lia|].
  destruct (negb _); [done|].
  destruct (G 1 (advance s)) as (-> & R2 & E2 & O2); [lia|done|done|done|].
  destruct (negb _); [done|].
  destruct (G 2 (advance (advance s))) as (-> & R3 & E3 & O3);
    [lia|done|done|done|].
  destruct (negb _); [done|].
  destruct (G 3 (advance (advance (advance s)))) as (-> & R4 & E4 & O4);
    [lia|done|done|done|].
  by destruct (negb _).
Qed.

Lemma start_callbacks_fresh s cb u :
  img_buffer (koi__start_callbacks s cb u)
  = img_buffer_original (koi__start_callbacks s cb u)
  /\ img_buffer_end (koi__start_callbacks s cb u)
     = img_buffer_original_end (koi__start_callbacks s cb u).
Proof.
  unfold koi__start_callbacks, koi__refill_buffer. cbn.
  destruct (read cb u 128) as [data user]. by destruct (_ =? 0).
Qed.

(** The size [koi__qoi_test_raw] looks at is what the first call of the
    reader delivered, or 1 when it delivered nothing. *)
Lemma start_callbacks_size s cb u :
  ptr_diff (img_buffer_original_end (koi__start_callbacks s cb u))
           (img_buffer_original (koi__start_callbacks s cb u))
  = if decide ((read cb u 128).1 = []) then 1
    else Z.of_nat (length (read cb u 128).1).
Proof.
  unfold koi__start_callbacks, koi__refill_buffer, ptr_diff. cbn.
  destruct (read cb u 128) as [data user]. cbn [fst].
  destruct data as [|c data]; [done|].
  cbn [length]. rewrite Nat2Z.inj_succ.
  rewrite (proj2 (Z.eqb_neq _ _)) by lia. cbn.
  destruct (decide _); [done|lia].
Qed.

End Feeds.

(** ** Loading through a reader *)

(** The list reader delivers its list, whatever its chunk size. *)
Lemma list_reader_serves (k : nat) (u : list Z) :
  (0 < k)%nat -> serves (list_reader k) u u.
Proof.
  intros Hk.
  induction u as [u IH] using (well_founded_induction
    (well_founded_ltof _ (@length Z))).
  destruct u as [|c u].
  - apply serves_end. cbn. by rewrite take_nil.
  - set (n := (k `min` Z.to_nat 128)%nat).
    assert (Hn : (0 < n)%nat) by (unfold n; lia).
    assert (E : serves (list_reader k) (c :: u)
                  (take n (c :: u) ++ drop n (c :: u))).
    { apply serves_chunk.
      - done.
      - destruct n; [lia|done].
      - rewrite length_take. unfold n. lia.
      - cbn [read list_reader snd]. fold n.
        apply IH. unfold ltof. rewrite length_drop. cbn [length]. lia. }
    by rewrite take_drop in E.
Qed.

(** Loading through a reader whose first call stores at least 22 bytes
    is loading from the memory that holds all the bytes the reader
    delivers: the same result, the same width, height and channels
    stored, the same requests to [malloc]. *)
Theorem callbacks_load_as_memory {U : Type} (alloc : Z -> bool) (flip : bool)
    (s : koi__context U) (cb : koi_io_callbacks U) (u : U)
    (chunk rest : list Z) (xyc : out_ptrs) (req : Z) :
  length (buffer_start s) = 128%nat ->
  (read cb u 128).1 = chunk ->
  (22 <= length chunk <= 128)%nat ->
  serves cb (read cb u 128).2 rest ->
  (koi_load_from_callbacks alloc flip s cb u xyc req).1
  = (koi_load_from_memory alloc flip s (chunk ++ rest)
       (Z.of_nat (length (chunk ++ rest))) xyc req).1
  /\ outs (koi_load_from_callbacks alloc flip s cb u xyc req).2
     = outs (koi_load_from_memory alloc flip s (chunk ++ rest)
               (Z.of_nat (length (chunk ++ rest))) xyc req).2
  /\ mallocs (koi_load_from_callbacks alloc flip s cb u xyc req).2
     = mallocs (koi_load_from_memory alloc flip s (chunk ++ rest)
                  (Z.of_nat (length (chunk ++ rest))) xyc req).2.
Proof.
  intros Hlen Hchunk Hsz Hrest.
  assert (Hs : serves cb u (chunk ++ rest)).
  { apply serves_chunk; [done| |lia|done].
    intros ->. cbn in Hsz. lia. }
  pose proof (twin_start s cb u _ Hlen Hs) as T.
  destruct (start_callbacks_fresh s cb u) as [F1 F2].
  unfold koi_load_from_callbacks, koi_load_from_memory.
  apply (twin_load_8bit alloc flip _ _ xyc [] req T).
  - by apply qoi_test_keeps.
  - apply qoi_test_start_mem.
  - rewrite start_callbacks_size, Hchunk.
    destruct (decide (chunk = [])) as [->|_]; [cbn in Hsz; lia|].
    rewrite (proj2 (Z.ltb_ge _ _)) by lia.
    symmetry. apply Z.ltb_ge. unfold ptr_diff. cbn.
    rewrite length_app. lia.
Qed.

Lemma callbacks_load_as_memory_witness :
  (koi_load_from_callbacks (fun _ => true) false blank_reader_context
     (list_reader 24) (qoi_file false 0 2 1 3 [1; 2; 3; 4; 5; 6])
     (locations 0 0 0) 0).1
  = (koi_load_from_memory (fun _ => true) false blank_reader_context
       (take 24 (qoi_file false 0 2 1 3 [1; 2; 3; 4; 5; 6])
        ++ drop 24 (qoi_file false 0 2 1 3 [1; 2; 3; 4; 5; 6]))
       (Z.of_nat (length
          (take 24 (qoi_file false 0 2 1 3 [1; 2; 3; 4; 5; 6])
           ++ drop 24 (qoi_file false 0 2 1 3 [1; 2; 3; 4; 5; 6]))))
       (locations 0 0 0) 0).1
  /\ outs (koi_load_from_callbacks (fun _ => true) false blank_reader_context
             (list_reader 24) (qoi_file false 0 2 1 3 [1; 2; 3; 4; 5; 6])
             (locations 0 0 0) 0).2
     = outs (koi_load_from_memory (fun _ => true) false blank_reader_context
               (take 24 (qoi_file false 0 2 1 3 [1; 2; 3; 4; 5; 6])
                ++ drop 24 (qoi_file false 0 2 1 3 [1; 2; 3; 4; 5; 6]))
               (Z.of_nat (length
                  (take 24 (qoi_file false 0 2 1 3 [1; 2; 3; 4; 5; 6])
                   ++ drop 24 (qoi_file false 0 2 1 3 [1; 2; 3; 4; 5; 6]))))
               (locations 0 0 0) 0).2
  /\ mallocs (koi_load_from_callbacks (fun _ => true) false
                blank_reader_context (list_reader 24)
                (qoi_file false 0 2 1 3 [1; 2; 3; 4; 5; 6])
                (locations 0 0 0) 0).2
     = mallocs (koi_load_from_memory (fun _ => true) false
                  blank_reader_context
                  (take 24 (qoi_file false 0 2 1 3 [1; 2; 3; 4; 5; 6])
                   ++ drop 24 (qoi_file false 0 2 1 3 [1; 2; 3; 4; 5; 6]))
                  (Z.of_nat (length
                     (take 24 (qoi_file false 0 2 1 3 [1; 2; 3; 4; 5; 6])
                      ++ drop 24
                           (qoi_file false 0 2 1 3 [1; 2; 3; 4; 5; 6]))))
                  (locations 0 0 0) 0).2.
Proof.
  apply (callbacks_load_as_memory (fun _ => true) false blank_reader_context
           (list_reader 24) (qoi_file false 0 2 1 3 [1; 2; 3; 4; 5; 6])
           (take 24 (qoi_file false 0 2 1 3 [1; 2; 3; 4; 5; 6]))
           (drop 24 (qoi_file false 0 2 1 3 [1; 2; 3; 4; 5; 6]))
           (locations 0 0 0) 0).
  - reflexivity.
  - reflexivity.
  - vm_compute. lia.
  - apply list_reader_serves. lia.
Defined.

(** A reader whose first call stores fewer than 22 bytes: the load fails
    with "unknown image type" whatever the reader would deliver next,
    stores nothing and requests no memory. *)
Theorem callbacks_short_first_read {U : Type} (alloc : Z -> bool)
    (flip : bool) (s : koi__context U) (cb : koi_io_callbacks U) (u : U)
    (xyc : out_ptrs) (req : Z) :
  (length (read cb u 128).1 < 22)%nat ->
  (koi_load_from_callbacks alloc flip s cb u xyc req).1
  = Fail "unknown image type"
  /\ outs (koi_load_from_callbacks alloc flip s cb u xyc req).2 = xyc
  /\ mallocs (koi_load_from_callbacks alloc flip s cb u xyc req).2 = [].
Proof.
  intros Hshort.
  pose proof (start_callbacks_size s cb u) as Hsize.
  unfold koi_load_from_callbacks, koi__load_and_postprocess_8bit,
    koi__load_main, koi__qoi_test, koi__qoi_test_raw. cbn [ctx].
  rewrite Hsize.
  destruct (decide _) as [_|_]; [done|].
  by rewrite (proj2 (Z.ltb_lt _ _)) by lia.
Qed.

Lemma callbacks_short_first_read_witness :
  (koi_load_from_callbacks (fun _ => true) false blank_reader_context
     (list_reader 16) (qoi_file false 0 2 1 3 [1; 2; 3; 4; 5; 6])
     (locations 7 8 9) 0).1
  = Fail "unknown image type"
  /\ outs (koi_load_from_callbacks (fun _ => true) false blank_reader_context
             (list_reader 16) (qoi_file false 0 2 1 3 [1; 2; 3; 4; 5; 6])
             (locations 7 8 9) 0).2
     = locations 7 8 9
  /\ mallocs (koi_load_from_callbacks (fun _ => true) false
                blank_reader_context (list_reader 16)
                (qoi_file false 0 2 1 3 [1; 2; 3; 4; 5; 6])
                (locations 7 8 9) 0).2
     = [].
Proof.
  apply (callbacks_short_first_read (fun _ => true) false
           blank_reader_context (list_reader 16)
           (qoi_file false 0 2 1 3 [1; 2; 3; 4; 5; 6]) (locations 7 8 9) 0).
  vm_compute. lia.
Defined.

(** A header query through a reader answers as the query on the memory
    that holds the bytes the reader delivers, however the reader cuts
    them into calls. *)
Theorem info_callbacks_as_memory {U : Type} (s : koi__context U)
    (cb : koi_io_callbacks U) (u : U) (bytes : list Z) (xyc : out_ptrs) :
  length (buffer_start s) = 128%nat ->
  serves cb u bytes ->
  (koi_info_from_callbacks s cb u xyc).1
  = (koi_info_from_memory s bytes (Z.of_nat (length bytes)) xyc).1
  /\ outs (koi_info_from_callbacks s cb u xyc).2
     = outs (koi_info_from_memory s bytes (Z.of_nat (length bytes)) xyc).2.
Proof.
  intros Hlen Hs.
  pose proof (twin_start s cb u _ Hlen Hs) as T.
  unfold koi_info_from_callbacks, koi_info_from_memory, koi__info_main,
    koi__qoi_info. cbn [ctx outs mallocs].
  destruct (twin_parse_header _ _ T) as [Eh Th].
  destruct (koi__qoi_parse_header (koi__start_callbacks s cb u)) as [h1 t1],
    (koi__qoi_parse_header
       (koi__start_mem s bytes (Z.of_nat (length bytes)))) as [h2 t2].
  cbn [fst snd] in Eh, Th. subst h2.
  destruct Th as (_ & Hx & Hy & _).
  destruct h1; cbn; [|done|done].
  by rewrite Hx, Hy.
Qed.

Lemma info_callbacks_as_memory_witness :
  (koi_info_from_callbacks blank_reader_context (list_reader 5)
     (qoi_header 640 480 4 0) (locations 0 0 0)).1
  = (koi_info_from_memory blank_reader_context (qoi_header 640 480 4 0)
       (Z.of_nat (length (qoi_header 640 480 4 0))) (locations 0 0 0)).1
  /\ outs (koi_info_from_callbacks blank_reader_context (list_reader 5)
             (qoi_header 640 480 4 0) (locations 0 0 0)).2
     = outs (koi_info_from_memory blank_reader_context
               (qoi_header 640 480 4 0)
               (Z.of_nat (length (qoi_header 640 480 4 0)))
               (locations 0 0 0)).2.
Proof.
  apply (info_callbacks_as_memory blank_reader_context (list_reader 5)
           (qoi_header 640 480 4 0) (qoi_header 640 480 4 0)
           (locations 0 0 0)).
  - reflexivity.
  - apply list_reader_serves. lia.
Defined.

(** ** The vertical flip *)

Section VerticalFlip.

Context {A : Type}.
Implicit Types P M Q X Y B : list A.

Lemma slice_app P M Q :
  slice (P ++ M ++ Q) (Z.of_nat (length P)) (Z.of_nat (length M)) = M.
Proof.
  unfold slice. rewrite !Nat2Z.id, drop_app_length. apply take_app_length.
Qed.

Lemma memcpy_at_app P M Q M' :
  length M' = length M ->
  memcpy_at (P ++ M ++ Q) (Z.of_nat (length P)) M' = P ++ M' ++ Q.
Proof.
  intros H. unfold memcpy_at. rewrite Nat2Z.id, take_app_length.
  do 2 f_equal. rewrite H, drop_app_add. apply drop_app_length.
Qed.

(** One pass of the chunk loop swaps two rows that do not overlap. *)
Lemma flip_chunks_swap (chunk : Z) (fuel : nat) : forall P X B Y Q,
  0 < chunk -> length X = length Y -> (length X <= fuel)%nat ->
  flip_chunks fuel chunk (P ++ X ++ B ++ Y ++ Q)
    (Z.of_nat (length P)) (Z.of_nat (length P + length X + length B))
    (Z.of_nat (length X))
  = P ++ Y ++ B ++ X ++ Q.
Proof.
  induction fuel as [|fuel IH]; intros P X B Y Q Hc Hxy Hf.
  - destruct X; [|cbn in Hf; lia]. destruct Y; [|done]. done.
  - cbn [flip_chunks]. destruct (Z.of_nat (length X) =? 0) eqn:Hz.
    { apply Z.eqb_eq in Hz. destruct X; [|cbn in Hz; lia].
      destruct Y; [|done]. done. }
    apply Z.eqb_neq in Hz.
    set (c := if Z.of_nat (length X) <? chunk
              then Z.of_nat (length X) else chunk).
    assert (Hn : 1 <= c <= Z.of_nat (length X)).
    { subst c. destruct (Z.ltb_spec (Z.of_nat (length X)) chunk); lia. }
    assert (HX : exists X1 X2, X = X1 ++ X2 /\ Z.of_nat (length X1) = c).
    { exists (take (Z.to_nat c) X), (drop (Z.to_nat c) X).
      rewrite take_drop, length_take. split; [done|lia]. }
    assert (HY : exists Y1 Y2, Y = Y1 ++ Y2 /\ Z.of_nat (length Y1) = c).
    { exists (take (Z.to_nat c) Y), (drop (Z.to_nat c) Y).
      rewrite take_drop, length_take. split; [done|lia]. }
    destruct HX as (X1 & X2 & EX & LX), HY as (Y1 & Y2 & EY & LY).
    clearbody c. subst c. clear Hz.
    assert (L1 : length Y1 = length X1) by lia.
    assert (L2 : length Y2 = length X2).
    { rewrite EX, EY, !length_app in Hxy. lia. }
    set (img := P ++ X ++ B ++ Y ++ Q).
    assert (E1 : slice img (Z.of_nat (length P)) (Z.of_nat (length X1)) = X1).
    { unfold img. rewrite EX, <- (app_assoc X1). apply slice_app. }
    assert (E2 : slice img (Z.of_nat (length P + length X + length B))
                   (Z.of_nat (length X1)) = Y1).
    { unfold img. rewrite EY, <- (app_assoc Y1), <- L1.
      rewrite (app_assoc P), (app_assoc (P ++ X)).
      replace (length P + length X + length B)%nat
        with (length ((P ++ X) ++ B)) by (rewrite !length_app; lia).
      apply slice_app. }
    rewrite E1, E2.
    assert (E3 : memcpy_at img (Z.of_nat (length P)) Y1
                 = (P ++ Y1 ++ X2 ++ B) ++ Y1 ++ Y2 ++ Q).
    { unfold img. rewrite EX, <- (app_assoc X1).
      rewrite (memcpy_at_app P X1 _ Y1 L1), EY.
      by rewrite <- !app_assoc. }
    rewrite E3.
    assert (E4 : memcpy_at ((P ++ Y1 ++ X2 ++ B) ++ Y1 ++ Y2 ++ Q)
                   (Z.of_nat (length P + length X + length B)) X1
                 = (P ++ Y1) ++ X2 ++ (B ++ X1) ++ Y2 ++ Q).
    { replace (length P + length X + length B)%nat
        with (length (P ++ Y1 ++ X2 ++ B)).
      2:{ rewrite EX, !length_app. lia. }
      rewrite (memcpy_at_app _ Y1 _ X1) by lia.
      by rewrite <- !app_assoc. }
    rewrite E4.
    replace (Z.of_nat (length P) + Z.of_nat (length X1))
      with (Z.of_nat (length (P ++ Y1))) by (rewrite length_app; lia).
    replace (Z.of_nat (length P + length X + length B)
             + Z.of_nat (length X1))
      with (Z.of_nat (length (P ++ Y1) + length X2 + length (B ++ X1))).
    2:{ rewrite EX, !length_app. lia. }
    replace (Z.of_nat (length X) - Z.of_nat (length X1))
      with (Z.of_nat (length X2)) by (rewrite EX, length_app; lia).
    rewrite IH; [|done|done|].
    2:{ rewrite EX, length_app in Hf. lia. }
    rewrite EX, EY. by rewrite <- !app_assoc.
Qed.

Lemma length_concat_rows (rows : list (list A)) (bpr : Z) :
  Forall (fun row => Z.of_nat (length row) = bpr) rows ->
  Z.of_nat (length (concat rows)) = Z.of_nat (length rows) * bpr.
Proof.
  induction 1 as [|row rows Hrow _ IH]; [done|].
  cbn [concat length]. rewrite length_app. lia.
Qed.

(** The loop over the rows from row [k] on, the rows before [k] and
    after [h - k] being in place. *)
Lemma vertical_flip_from (chunk bpr h : Z) (n : nat) :
  forall (k : Z) P (mid : list (list A)) Q,
    0 < chunk -> 0 <= bpr -> 0 <= k ->
    Z.of_nat (length P) = k * bpr ->
    Forall (fun row => Z.of_nat (length row) = bpr) mid ->
    Z.of_nat (length mid) = h - 2 * k ->
    (length mid = 2 * n \/ length mid = 2 * n + 1)%nat ->
    foldl (fun image row =>
             flip_chunks (Z.to_nat bpr) chunk image (row * bpr)
               ((h - row - 1) * bpr) bpr)
          (P ++ concat mid ++ Q) (seqZ k (Z.of_nat n))
    = P ++ concat (reverse mid) ++ Q.
Proof.
  induction n as [|n IH]; intros k P mid Q Hc Hb Hk HP Hall Hh Hlen.
  - cbn [Z.of_nat seqZ foldl].
    destruct mid as [|row [|row' mid]]; [done|done|cbn in Hlen; lia].
  - destruct mid as [|first mid0]; [cbn in Hlen; lia|].
    destruct mid0 as [|last mid' _] using rev_ind; [cbn in Hlen; lia|].
    rewrite seqZ_cons by lia. cbn [foldl].
    replace (Z.pred (Z.of_nat (S n))) with (Z.of_nat n) by lia.
    apply Forall_cons in Hall as [Hfirst Hall].
    apply Forall_app in Hall as [Hmid Hlast].
    rewrite Forall_singleton in Hlast.
    pose proof (length_concat_rows mid' bpr Hmid) as Hcat.
    cbn [length] in Hh, Hlen. rewrite length_app in Hh, Hlen.
    cbn [length] in Hh, Hlen.
    replace (P ++ concat (first :: mid' ++ [last]) ++ Q)
      with (P ++ first ++ concat mid' ++ last ++ Q).
    2:{ cbn [concat]. rewrite concat_app. cbn [concat].
        by rewrite app_nil_r, <- !app_assoc. }
    replace (k * bpr) with (Z.of_nat (length P)) by lia.
    replace ((h - k - 1) * bpr)
      with (Z.of_nat (length P + length first + length (concat mid')))
      by nia.
    replace bpr with (Z.of_nat (length first)) at 2 by lia.
    rewrite flip_chunks_swap by (done || lia).
    rewrite reverse_cons, reverse_snoc.
    replace (P ++ last ++ concat mid' ++ first ++ Q)
      with ((P ++ last) ++ concat mid' ++ first ++ Q)
      by (by rewrite <- !app_assoc).
    rewrite (IH (Z.succ k) (P ++ last) mid' (first ++ Q));
      [|done|done|lia| |done|lia|lia].
    2:{ rewrite length_app. lia. }
    cbn [concat app]. rewrite concat_app. cbn [concat].
    by rewrite app_nil_r, <- !app_assoc.
Qed.

End VerticalFlip.

(** The flip of an image of [h] rows of [w * n] items. *)
Lemma vertical_flip_rows {A : Type} (chunk : Z) (rows : list (list A))
    (w h n : Z) :
  0 < chunk -> 0 <= w * n ->
  Z.of_nat (length rows) = h ->
  Forall (fun row => Z.of_nat (length row) = w * n) rows ->
  koi__vertical_flip chunk (concat rows) w h n = concat (reverse rows).
Proof.
  intros Hc Hb Hl Hf. unfold koi__vertical_flip.
  rewrite Z.shiftr_div_pow2 by lia. change (2 ^ 1) with 2.
  pose proof (vertical_flip_from chunk (w * n) h (Z.to_nat (h `div` 2))
                0 [] rows []) as F.
  cbn [app length] in F. rewrite !app_nil_r in F.
  rewrite Z2Nat.id in F by (apply Z.div_pos; lia).
  apply F; try done; try lia.
  assert (Hdiv : h = 2 * (h `div` 2) + h `mod` 2) by (apply Z.div_mod; lia).
  pose proof (Z.mod_pos_bound h 2 ltac:(lia)) as Hmod.
  assert (0 <= h `div` 2) by (apply Z.div_pos; lia).
  lia.
Qed.

(** [koi__vertical_flip] on an image of [h] rows of [w] pixels of [n]
    items each: the rows come out in the opposite order, each row as it
    was, and a second flip gives the image back. *)
Theorem vertical_flip_reverses_rows {A : Type} (chunk : Z)
    (rows : list (list A)) (w h n : Z) :
  0 < chunk -> 0 <= w * n ->
  Z.of_nat (length rows) = h ->
  Forall (fun row => Z.of_nat (length row) = w * n) rows ->
  koi__vertical_flip chunk (concat rows) w h n = concat (reverse rows)
  /\ koi__vertical_flip chunk
       (koi__vertical_flip chunk (concat rows) w h n) w h n
     = concat rows.
Proof.
  intros Hc Hb Hh Hall.
  rewrite (vertical_flip_rows chunk rows) by done. split; [done|].
  rewrite vertical_flip_rows; [by rewrite reverse_involutive|done|done| |].
  - by rewrite length_reverse.
  - by apply Forall_reverse.
Qed.

Lemma vertical_flip_reverses_rows_witness :
  koi__vertical_flip 2048 (concat [[1; 2; 3; 4]; [5; 6; 7; 8]; [9; 10; 11; 12]])
    2 3 2
  = concat (reverse [[1; 2; 3; 4]; [5; 6; 7; 8]; [9; 10; 11; 12]])
  /\ koi__vertical_flip 2048
       (koi__vertical_flip 2048
          (concat [[1; 2; 3; 4]; [5; 6; 7; 8]; [9; 10; 11; 12]]) 2 3 2) 2 3 2
     = concat [[1; 2; 3; 4]; [5; 6; 7; 8]; [9; 10; 11; 12]].
Proof.
  apply (vertical_flip_reverses_rows 2048
           [[1; 2; 3; 4]; [5; 6; 7; 8]; [9; 10; 11; 12]] 2 3 2).
  - lia.
  - lia.
  - reflexivity.
  - repeat constructor.
Defined.

(** ** The flip of the encoder *)

Lemma read_qoi_pixel_ext comp alpha (d1 d2 : Z -> Z) :
  1 <= comp <= 4 ->
  (forall k, 0 <= k < comp -> d1 k = d2 k) ->
  koi_read_qoi_pixel comp alpha d1 = koi_read_qoi_pixel comp alpha d2.
Proof.
  intros Hc H. unfold koi_read_qoi_pixel.
  assert (E : comp = 1 \/ comp = 2 \/ comp = 3 \/ comp = 4) by lia.
  destruct E as [->|[->|[->| ->]]]; cbn;
    change (1 - 1) with 0; change (2 - 1) with 1;
    change (3 - 1) with 2; change (4 - 1) with 3;
    rewrite ?(H 0), ?(H 1), ?(H 2), ?(H 3) by lia; done.
Qed.

(** With the flip on, the encoder reads pixel [pxi] where the image
    with its rows in the opposite order has it. *)
Lemma source_pixel_flipped (rows : list (list Z)) w h comp pxi :
  1 <= w -> 1 <= h -> w * h < 2 ^ 31 -> 1 <= comp <= 4 ->
  Z.of_nat (length rows) = h ->
  Forall (fun row => Z.of_nat (length row) = w * comp) rows ->
  0 <= pxi < w * h ->
  qoi_source_pixel w comp ((comp =? 2) || (comp =? 4)) (h - 1) (-1)
    (concat rows) pxi
  = pixel_at comp (concat (reverse rows)) pxi.
Proof.
  intros Hw Hh Hwh Hc Hlen Hall Hp.
  change (2 ^ 31) with 2147483648 in Hwh.
  unfold qoi_source_pixel, pixel_at.
  assert (Hq : 0 <= pxi `div` w < h).
  { split; [apply Z.div_pos; lia|]. apply Z.div_lt_upper_bound; lia. }
  pose proof (Z.mod_pos_bound pxi w ltac:(lia)) as Hm.
  pose proof (Z.div_mod pxi w ltac:(lia)) as Hdm.
  rewrite (u32_small w) by (change (2 ^ 32) with 4294967296; nia).
  rewrite (u32_small (h - 1)) by (change (2 ^ 32) with 4294967296; nia).
  assert (Hj : u32 (h - 1 + u32 (pxi `div` w * u32 (-1)))
               = h - 1 - pxi `div` w).
  { change (u32 (-1)) with 4294967295. unfold u32.
    rewrite Zplus_mod_idemp_r.
    replace (h - 1 + pxi `div` w * 4294967295)
      with (h - 1 - pxi `div` w + pxi `div` w * 2 ^ 32)
      by (change (2 ^ 32) with 4294967296; lia).
    rewrite Z_mod_plus_full. apply Z.mod_small.
    change (2 ^ 32) with 4294967296. nia. }
  rewrite Hj.
  rewrite !i32_small by (change (2 ^ 31) with 2147483648; nia).
  apply read_qoi_pixel_ext; [done|]. intros k Hk.
  set (n := Z.to_nat (w * comp)).
  assert (Hn : Forall (fun row : list Z => length row = n) rows).
  { eapply Forall_impl; [exact Hall|]. intros row Hr. cbn in Hr. lia. }
  assert (Hn' : Forall (fun row : list Z => length row = n) (reverse rows))
    by (by apply Forall_reverse).
  replace (Z.to_nat ((h - 1 - pxi `div` w) * w * comp
                     + pxi `mod` w * comp + k))
    with (Z.to_nat (h - 1 - pxi `div` w) * n
          + Z.to_nat (pxi `mod` w * comp + k))%nat by nia.
  replace (Z.to_nat (pxi * comp + k))
    with (Z.to_nat (pxi `div` w) * n
          + Z.to_nat (pxi `mod` w * comp + k))%nat by nia.
  rewrite (concat_uniform_lookup rows n) by (done || nia).
  rewrite (concat_uniform_lookup (reverse rows) n);
    [|done|rewrite length_reverse; lia|nia].
  f_equal. rewrite !list_lookup_total_alt, reverse_lookup by lia.
  do 2 f_equal. lia.
Qed.

(** The file written with the flip on, row structure made explicit. *)
Lemma qoi_file_flip_rows cs w h comp (rows : list (list Z)) :
  1 <= w -> 1 <= h -> w * h < 2 ^ 31 -> 1 <= comp <= 4 ->
  Z.of_nat (length rows) = h ->
  Forall (fun row => Z.of_nat (length row) = w * comp) rows ->
  qoi_file true cs w h comp (concat rows)
  = qoi_file false cs w h comp (concat (reverse rows)).
Proof.
  intros Hw Hh Hwh Hc Hlen Hall.
  rewrite write_file_pixels by lia.
  destruct (write_qoi_file true cs w h comp (concat rows))
    as (s' & _ & _ & ->); [lia|lia|].
  rewrite write_qoi_ops_source by lia.
  rewrite !u32_small by (change (2 ^ 32) with 4294967296;
                         change (2 ^ 31) with 2147483648 in Hwh; nia).
  do 4 f_equal.
  apply Forall_fmap_ext_1, Forall_seqZ. intros p Hp.
  apply (source_pixel_flipped rows w h comp p); (done || lia).
Qed.

(** Where the encoder reads: with [comp * x * y] within [int], every
    offset [j * x * comp + i * comp] the loop forms, with or without the
    flip, and the [comp] bytes read from it lie inside the image, so the
    [int] arithmetic of the C code does not overflow. *)
Lemma source_offset_fits (flip : bool) x y comp pxi :
  1 <= x -> 1 <= y -> 1 <= comp -> comp * x * y <= INT_MAX ->
  0 <= pxi < x * y ->
  0 <= qoi_source_offset x comp (if flip then y - 1 else 0)
         (if flip then -1 else 1) pxi
  /\ qoi_source_offset x comp (if flip then y - 1 else 0)
       (if flip then -1 else 1) pxi + comp <= comp * x * y.
Proof.
  intros Hx Hy Hc Hfit Hp. unfold INT_MAX in Hfit.
  change (2 ^ 31 - 1) with 2147483647 in Hfit.
  unfold qoi_source_offset.
  assert (Hq : 0 <= pxi `div` x < y).
  { split; [apply Z.div_pos; lia|]. apply Z.div_lt_upper_bound; lia. }
  pose proof (Z.mod_pos_bound pxi x ltac:(lia)) as Hm.
  assert (Hxy : x * y <= 2147483647) by nia.
  assert (Hxb : x <= 2147483647) by nia.
  assert (Hyb : y <= 2147483647) by nia.
  rewrite (u32_small x) by (change (2 ^ 32) with 4294967296; lia).
  assert (Hj : i32 (u32 (u32 (if flip then y - 1 else 0)
                         + u32 (pxi `div` x * u32 (if flip then -1 else 1))))
               = if flip then y - 1 - pxi `div` x else pxi `div` x).
  { destruct flip.
    - rewrite (u32_small (y - 1)) by (change (2 ^ 32) with 4294967296; lia).
      change (u32 (-1)) with 4294967295. unfold u32 at 1 2.
      rewrite Zplus_mod_idemp_r.
      replace (y - 1 + pxi `div` x * 4294967295)
        with (y - 1 - pxi `div` x + pxi `div` x * 2 ^ 32)
        by (change (2 ^ 32) with 4294967296; lia).
      rewrite Z_mod_plus_full, Z.mod_small
        by (change (2 ^ 32) with 4294967296; lia).
      apply i32_small. change (2 ^ 31) with 2147483648. lia.
    - rewrite (u32_small 0), (u32_small 1), Z.mul_1_r, Z.add_0_l
        by (change (2 ^ 32) with 4294967296; lia).
      rewrite !(u32_small (pxi `div` x))
        by (change (2 ^ 32) with 4294967296; lia).
      apply i32_small. change (2 ^ 31) with 2147483648. lia. }
  rewrite Hj.
  rewrite (i32_small (pxi `mod` x))
    by (change (2 ^ 31) with 2147483648; lia).
  set (q := pxi `div` x) in *. set (i := pxi `mod` x) in *.
  set (j := if flip then y - 1 - q else q).
  assert (Hjr : 0 <= j <= y - 1) by (subst j; destruct flip; lia).
  assert (Hrow : 0 <= j * x + i /\ j * x + i + 1 <= x * y) by nia.
  replace (j * x * comp + i * comp) with ((j * x + i) * comp) by lia.
  replace (comp * x * y) with (x * y * comp) by lia.
  split; [apply Z.mul_nonneg_nonneg; lia|].
  replace ((j * x + i) * comp + comp) with ((j * x + i + 1) * comp) by lia.
  apply Z.mul_le_mono_nonneg_r; lia.
Qed.

(** Writing with [koi__flip_vertically_on_write] set, an image whose
    [comp * w * h] bytes fit an [int]: the file is the file of the image
    whose rows are in the opposite order, and every offset the loop
    forms to read a pixel, with the [comp] bytes read there, stays
    within [int]. *)
Theorem write_flipped (cs w h comp : Z) (rows : list (list Z)) :
  1 <= w -> 1 <= h -> 1 <= comp <= 4 -> comp * w * h <= INT_MAX ->
  Z.of_nat (length rows) = h ->
  Forall (fun row => Z.of_nat (length row) = w * comp) rows ->
  qoi_file true cs w h comp (concat rows)
  = qoi_file false cs w h comp (concat (reverse rows))
  /\ forall pxi, 0 <= pxi < w * h ->
       0 <= qoi_source_offset w comp (h - 1) (-1) pxi
       /\ qoi_source_offset w comp (h - 1) (-1) pxi + comp <= INT_MAX.
Proof.
  intros Hw Hh Hc Hfit Hlen Hall.
  assert (Hwh : w * h < 2 ^ 31).
  { unfold INT_MAX in Hfit. change (2 ^ 31) with 2147483648 in *. nia. }
  split; [by apply qoi_file_flip_rows|].
  intros pxi Hp.
  destruct (source_offset_fits true w h comp pxi) as [H0 H1];
    [lia|lia|lia|done|done|].
  split; [exact H0|lia].
Qed.

Lemma write_flipped_witness :
  qoi_file true 0 2 2 3 (concat [[1; 2; 3; 4; 5; 6]; [7; 8; 9; 10; 11; 12]])
  = qoi_file false 0 2 2 3
      (concat (reverse [[1; 2; 3; 4; 5; 6]; [7; 8; 9; 10; 11; 12]]))
  /\ forall pxi, 0 <= pxi < 2 * 2 ->
       0 <= qoi_source_offset 2 3 (2 - 1) (-1) pxi
       /\ qoi_source_offset 2 3 (2 - 1) (-1) pxi + 3 <= INT_MAX.
Proof.
  apply (write_flipped 0 2 2 3 [[1; 2; 3; 4; 5; 6]; [7; 8; 9; 10; 11; 12]]).
  - lia.
  - lia.
  - lia.
  - vm_compute. discriminate.
  - reflexivity.
  - repeat constructor.
Defined.

(** ** The two flips together *)

Section FlippedLoad.

Context {U : Type} (alloc : Z -> bool).

(** [koi__load_main] on the file of an image of 3 or 4 channels, asked
    for the channels of the image. *)
Lemma load_main_written (s : koi__context U) cs w h c (data : list Z)
    x0 y0 c0 :
  1 <= w <= 2 ^ 24 -> 1 <= h <= 2 ^ 24 -> c = 3 \/ c = 4 ->
  c * w * h <= INT_MAX ->
  Z.of_nat (length data) = w * h * c -> Forall is_byte data ->
  alloc (c * w * h + 0) = true ->
  exists m,
    koi__load_main alloc
      {| ctx := koi__start_mem s (qoi_file false cs w h c data)
                  (Z.of_nat (length (qoi_file false cs w h c data)));
         outs := locations x0 y0 c0; mallocs := [] |} c
    = (Ok (data, {| bits_per_channel := 8; num_channels := 0 |}), m)
    /\ outs m = locations w h c.
Proof.
  intros Hw Hh Hc Hfit Hdata Hbytes Halloc.
  assert (Hch : (if (c =? 2) || (c =? 4) then 4 else 3) = c)
    by (by destruct Hc as [->| ->]).
  assert (Ht : qoi_target c c = c) by (by destruct Hc as [->| ->]).
  assert (Hxy : w * h < 2 ^ 31).
  { unfold INT_MAX in Hfit. change (2 ^ 31) with 2147483648 in *.
    change (2 ^ 24) with 16777216 in *. nia. }
  set (pxs := pixel_at c data <$> seqZ 0 (w * h)).
  assert (Hpxs : Forall byte_px pxs).
  { apply Forall_fmap, Forall_forall. intros p _. by apply pixel_at_byte_px. }
  assert (Hlen : Z.of_nat (length pxs) = w * h).
  { subst pxs. rewrite length_fmap, length_seqZ. nia. }
  destruct (load_main_encoded alloc s w h c
              (if negb (cs =? 0) then 1 else 0) pxs qoi_trailer
              (locations x0 y0 c0) c)
    as (s3 & _ & _ & _ & _ & E);
    try done; try lia; try (rewrite Ht; (done || lia)).
  { destruct (negb _); auto. }
  rewrite Ht in E.
  assert (Hnc : negb (c =? 0) && negb (c =? c) = false).
  { rewrite Z.eqb_refl. by destruct (negb (c =? 0)). }
  rewrite Hnc in E.
  cbn [locations x_loc y_loc comp_loc outs set_outs store_if] in E.
  rewrite write_file_pixels by lia. rewrite Hch. fold pxs.
  destruct (pixels_of_buffer c data Hc Hbytes (Z.to_nat (w * h)) 0)
    as [_ Hcat]; [lia|rewrite Z2Nat.id by nia; lia|].
  rewrite Z2Nat.id in Hcat by nia. fold pxs in Hcat.
  change (Z.to_nat (0 * c)) with 0%nat in Hcat. rewrite drop_0 in Hcat.
  rewrite Hcat in E.
  eexists. split; [exact E|done].
Qed.

End FlippedLoad.

(** An image of 3 or 4 channels written with or without the flip and
    loaded with or without it: flipping once, on either side, gives the
    image with its rows in the opposite order; flipping on both sides
    or on none gives the image. *)
Theorem flips_compose {U : Type} (alloc : Z -> bool) (on_write on_load : bool)
    (s : koi__context U) (cs w h c : Z) (rows : list (list Z))
    (x0 y0 c0 : Z) :
  1 <= w <= 2 ^ 24 -> 1 <= h <= 2 ^ 24 -> c = 3 \/ c = 4 ->
  c * w * h <= INT_MAX ->
  Z.of_nat (length rows) = h ->
  Forall (fun row => Z.of_nat (length row) = w * c) rows ->
  Forall (Forall is_byte) rows ->
  alloc (c * w * h + 0) = true ->
  (koi_load_from_memory alloc on_load s
     (qoi_file on_write cs w h c (concat rows))
     (Z.of_nat (length (qoi_file on_write cs w h c (concat rows))))
     (locations x0 y0 c0) c).1
  = Ok (concat (if xorb on_write on_load then reverse rows else rows))
  /\ outs (koi_load_from_memory alloc on_load s
             (qoi_file on_write cs w h c (concat rows))
             (Z.of_nat (length (qoi_file on_write cs w h c (concat rows))))
             (locations x0 y0 c0) c).2
     = locations w h c.
Proof.
  intros Hw Hh Hc Hfit Hlen Hall Hbytes Halloc.
  assert (Hxy : w * h < 2 ^ 31).
  { unfold INT_MAX in Hfit. change (2 ^ 31) with 2147483648 in *.
    change (2 ^ 24) with 16777216 in *. nia. }
  set (rows' := if on_write then reverse rows else rows).
  assert (Hfile : qoi_file on_write cs w h c (concat rows)
                  = qoi_file false cs w h c (concat rows')).
  { subst rows'. destruct on_write; [|done].
    apply qoi_file_flip_rows; (done || lia). }
  assert (Hlen' : Z.of_nat (length rows') = h).
  { subst rows'. destruct on_write; [|done]. by rewrite length_reverse. }
  assert (Hall' : Forall (fun row => Z.of_nat (length row) = w * c) rows').
  { subst rows'. destruct on_write; [|done]. by apply Forall_reverse. }
  assert (Hbytes' : Forall is_byte (concat rows')).
  { apply Forall_concat. subst rows'. destruct on_write; [|done].
    by apply Forall_reverse. }
  assert (Hdata : Z.of_nat (length (concat rows')) = w * h * c).
  { rewrite (length_concat_rows rows' (w * c)) by done. lia. }
  rewrite Hfile.
  destruct (load_main_written alloc s cs w h c (concat rows') x0 y0 c0)
    as (m & E & Ho); try done.
  unfold koi_load_from_memory, koi__load_and_postprocess_8bit.
  rewrite E. cbn [bits_per_channel Z.eqb negb Pos.eqb].
  destruct on_load.
  - unfold result_channels. rewrite Ho.
    cbn [locations x_loc y_loc comp_loc].
    assert (Hnz : negb (c =? 0) = true) by (by destruct Hc as [->| ->]).
    rewrite Hnz. cbn [fst snd].
    rewrite (vertical_flip_rows 2048 rows' w h c) by (done || lia).
    split; [|done]. do 2 f_equal. subst rows'.
    destruct on_write; [|done]. apply reverse_involutive.
  - cbn [fst snd]. split; [|done]. do 2 f_equal. subst rows'.
    by destruct on_write.
Qed.

Lemma flips_compose_witness :
  (koi_load_from_memory (fun _ => true) true blank_context
     (qoi_file true 0 1 2 3 (concat [[1; 2; 3]; [4; 5; 6]]))
     (Z.of_nat (length (qoi_file true 0 1 2 3
                          (concat [[1; 2; 3]; [4; 5; 6]]))))
     (locations 0 0 0) 3).1
  = Ok (concat (if xorb true true then reverse [[1; 2; 3]; [4; 5; 6]]
                else [[1; 2; 3]; [4; 5; 6]]))
  /\ outs (koi_load_from_memory (fun _ => true) true blank_context
             (qoi_file true 0 1 2 3 (concat [[1; 2; 3]; [4; 5; 6]]))
             (Z.of_nat (length (qoi_file true 0 1 2 3
                                  (concat [[1; 2; 3]; [4; 5; 6]]))))
             (locations 0 0 0) 3).2
     = locations 1 2 3.
Proof.
  apply (flips_compose (fun _ => true) true true blank_context 0 1 2 3
           [[1; 2; 3]; [4; 5; 6]] 0 0 0).
  - lia.
  - lia.
  - by left.
  - vm_compute. discriminate.
  - reflexivity.
  - repeat constructor.
  - repeat constructor; unfold is_byte; lia.
  - reflexivity.
Defined.

(** ** Input that ends early *)

Lemma feed_app_zeros (bytes : list Z) (k n : nat) :
  feed (bytes ++ replicate k 0) n = feed bytes n.
Proof.
  unfold feed. rewrite <- app_assoc, <- replicate_add.
  apply take_app_zeros. lia.
Qed.

(** A memory stream and the stream over the same bytes followed by
    zeros answer the same. *)
Lemma twin_padded {U : Type} (s : koi__context U) (buffer : list Z) (k : nat) :
  twin (koi__start_mem s buffer (Z.of_nat (length buffer)))
       (koi__start_mem s (buffer ++ replicate k 0)
          (Z.of_nat (length (buffer ++ replicate k 0)))).
Proof.
  split; [|done]. intros n.
  rewrite (reads_feed n _ buffer) by apply reads_start_mem.
  rewrite (reads_feed n _ (buffer ++ replicate k 0))
    by apply reads_start_mem.
  by rewrite feed_app_zeros.
Qed.

(** Bytes missing at the end of the input are read as zeros: a buffer of
    at least 22 bytes loads as the same buffer followed by any number of
    zero bytes does: the same result, the same width, height and
    channels stored, the same requests to [malloc]. *)
Theorem missing_bytes_read_as_zero {U : Type} (alloc : Z -> bool)
    (flip : bool) (s : koi__context U) (buffer : list Z) (k : nat)
    (xyc : out_ptrs) (req : Z) :
  (22 <= length buffer)%nat ->
  (koi_load_from_memory alloc flip s buffer (Z.of_nat (length buffer))
     xyc req).1
  = (koi_load_from_memory alloc flip s (buffer ++ replicate k 0)
       (Z.of_nat (length (buffer ++ replicate k 0))) xyc req).1
  /\ outs (koi_load_from_memory alloc flip s buffer
             (Z.of_nat (length buffer)) xyc req).2
     = outs (koi_load_from_memory alloc flip s (buffer ++ replicate k 0)
               (Z.of_nat (length (buffer ++ replicate k 0))) xyc req).2
  /\ mallocs (koi_load_from_memory alloc flip s buffer
                (Z.of_nat (length buffer)) xyc req).2
     = mallocs (koi_load_from_memory alloc flip s (buffer ++ replicate k 0)
                  (Z.of_nat (length (buffer ++ replicate k 0))) xyc req).2.
Proof.
  intros Hlen. unfold koi_load_from_memory.
  apply (twin_load_8bit alloc flip _ _ xyc [] req (twin_padded s buffer k)).
  - apply qoi_test_start_mem.
  - apply qoi_test_start_mem.
  - unfold ptr_diff. cbn. rewrite length_app.
    rewrite !(proj2 (Z.ltb_ge _ _)) by lia. done.
Qed.

Lemma missing_bytes_read_as_zero_witness :
  (koi_load_from_memory (fun _ => true) false blank_context
     (take 24 (qoi_file false 0 2 1 3 [1; 2; 3; 4; 5; 6]))
     (Z.of_nat (length (take 24 (qoi_file false 0 2 1 3 [1; 2; 3; 4; 5; 6]))))
     (locations 0 0 0) 3).1
  = (koi_load_from_memory (fun _ => true) false blank_context
       (take 24 (qoi_file false 0 2 1 3 [1; 2; 3; 4; 5; 6])
        ++ replicate 8 0)
       (Z.of_nat (length (take 24 (qoi_file false 0 2 1 3 [1; 2; 3; 4; 5; 6])
                          ++ replicate 8 0)))
       (locations 0 0 0) 3).1
  /\ outs (koi_load_from_memory (fun _ => true) false blank_context
             (take 24 (qoi_file false 0 2 1 3 [1; 2; 3; 4; 5; 6]))
             (Z.of_nat (length
                (take 24 (qoi_file false 0 2 1 3 [1; 2; 3; 4; 5; 6]))))
             (locations 0 0 0) 3).2
     = outs (koi_load_from_memory (fun _ => true) false blank_context
               (take 24 (qoi_file false 0 2 1 3 [1; 2; 3; 4; 5; 6])
                ++ replicate 8 0)
               (Z.of_nat (length
                  (take 24 (qoi_file false 0 2 1 3 [1; 2; 3; 4; 5; 6])
                   ++ replicate 8 0)))
               (locations 0 0 0) 3).2
  /\ mallocs (koi_load_from_memory (fun _ => true) false blank_context
                (take 24 (qoi_file false 0 2 1 3 [1; 2; 3; 4; 5; 6]))
                (Z.of_nat (length
                   (take 24 (qoi_file false 0 2 1 3 [1; 2; 3; 4; 5; 6]))))
                (locations 0 0 0) 3).2
     = mallocs (koi_load_from_memory (fun _ => true) false blank_context
                  (take 24 (qoi_file false 0 2 1 3 [1; 2; 3; 4; 5; 6])
                   ++ replicate 8 0)
                  (Z.of_nat (length
                     (take 24 (qoi_file false 0 2 1 3 [1; 2; 3; 4; 5; 6])
                      ++ replicate 8 0)))
                  (locations 0 0 0) 3).2.
Proof.
  apply (missing_bytes_read_as_zero (fun _ => true) false blank_context
           (take 24 (qoi_file false 0 2 1 3 [1; 2; 3; 4; 5; 6])) 8
           (locations 0 0 0) 3).
  vm_compute. lia.
Defined.

(** A header query reads the bytes missing at the end of its input as
    zeros, whatever the length of the input: it answers on a buffer as
    on the buffer followed by zero bytes. *)
Theorem info_reads_missing_bytes_as_zero {U : Type} (s : koi__context U)
    (buffer : list Z) (k : nat) (xyc : out_ptrs) :
  (koi_info_from_memory s buffer (Z.of_nat (length buffer)) xyc).1
  = (koi_info_from_memory s (buffer ++ replicate k 0)
       (Z.of_nat (length (buffer ++ replicate k 0))) xyc).1
  /\ outs (koi_info_from_memory s buffer (Z.of_nat (length buffer)) xyc).2
     = outs (koi_info_from_memory s (buffer ++ replicate k 0)
               (Z.of_nat (length (buffer ++ replicate k 0))) xyc).2.
Proof.
  pose proof (twin_padded s buffer k) as T.
  unfold koi_info_from_memory, koi__info_main, koi__qoi_info.
  cbn [ctx outs mallocs].
  destruct (twin_parse_header _ _ T) as [Eh Th].
  destruct (koi__qoi_parse_header
              (koi__start_mem s buffer (Z.of_nat (length buffer))))
    as [h1 t1],
    (koi__qoi_parse_header
       (koi__start_mem s (buffer ++ replicate k 0)
          (Z.of_nat (length (buffer ++ replicate k 0))))) as [h2 t2].
  cbn [fst snd] in Eh, Th. subst h2.
  destruct Th as (_ & Hx & Hy & _).
  destruct h1; cbn; [|done|done].
  by rewrite Hx, Hy.
Qed.

(** ** The reasons of a failed load *)

Section FailureReasons.

Context {U : Type} (alloc : Z -> bool) (flip : bool).
Implicit Types (s : koi__context U) (m : machine U).

Lemma parse_header_fail_reasons s e :
  (koi__qoi_parse_header s).1 = Fail e ->
  e = "not QOI"%string \/ e = "QOI CHANNELS"%string
  \/ e = "QOI COLORSPACE"%string.
Proof.
  unfold koi__qoi_parse_header.
  repeat case_match; cbn [fst]; intros; simplify_eq; auto.
Qed.

(** Once the test has seen the magic, the header parser sees it too. *)
Lemma test_passed_magic s :
  (koi__qoi_test_raw s).1 = true ->
  (koi__qoi_parse_header s).1 <> Fail "not QOI".
Proof.
  unfold koi__qoi_test_raw, koi__qoi_parse_header.
  destruct (_ <? 14 + 8); [done|].
  destruct (koi__get8 s) as [c0 s0].
  destruct (negb (c0 =? ch_q)); [done|].
  destruct (koi__get8 s0) as [c1 s1].
  destruct (negb (c1 =? ch_o)); [done|].
  destruct (koi__get8 s1) as [c2 s2].
  destruct (negb (c2 =? ch_i)); [done|].
  destruct (koi__get8 s2) as [c3 s3].
  destruct (negb (c3 =? ch_f)); [done|].
  intros _. repeat case_match; cbn [fst]; done.
Qed.

Lemma convert_format_fail_reason m data n req x y e :
  (koi__convert_format alloc m data n req x y).1 = Fail e ->
  e = "outofmem"%string.
Proof.
  unfold koi__convert_format, koi__malloc_mad3, koi__malloc.
  repeat case_match; cbn [fst]; intros; simplify_eq; done.
Qed.

Lemma qoi_load_fail_reasons m req e :
  (koi__qoi_load alloc m req).1 = Fail e ->
  (koi__qoi_parse_header (ctx m)).1 = Fail e
  \/ e = "too large"%string \/ e = "outofmem"%string.
Proof.
  unfold koi__qoi_load.
  destruct (koi__qoi_parse_header (ctx m)) as [hdr s1].
  destruct hdr as [info|e'|]; cbn [fst]; [|by intros [= ->]; left|done].
  destruct (_ >? _); [intros [= <-]; auto|].
  destruct (_ >? _); [intros [= <-]; auto|].
  destruct (negb _); [intros [= <-]; auto|].
  destruct (koi__malloc_mad3 _ _ _ _ _ _) as [[out|] m1];
    [|intros [= <-]; auto].
  destruct (qoi_decode_loop _ _ _ _ _ _ _ _) as [out' s2| |]; [|done|done].
  destruct (negb (req =? 0) && _).
  - destruct (koi__convert_format _ _ _ _ _ _ _) as [conv m2] eqn:Ec.
    destruct conv as [out2|e2|]; cbn [fst]; [|intros [= <-]|done].
    + repeat case_match; done.
    + right. right.
      eapply convert_format_fail_reason. by rewrite Ec.
  - repeat case_match; done.
Qed.

Lemma load_main_fail_reasons m req e :
  (koi__qoi_test (ctx m)).2 = ctx m ->
  (koi__load_main alloc m req).1 = Fail e ->
  e ∈ ["unknown image type"; "QOI CHANNELS"; "QOI COLORSPACE"; "too large";
       "outofmem"]%string.
Proof.
  intros Hk. unfold koi__load_main.
  pose proof (qoi_test_fst (ctx m)) as Hb.
  destruct (koi__qoi_test (ctx m)) as [b s1].
  cbn [fst snd] in Hk, Hb. subst s1.
  destruct b; [|intros [= <-]; by repeat constructor].
  replace (set_ctx m (ctx m)) with m by (by destruct m).
  pose proof (qoi_load_fail_reasons m req) as Hl.
  destruct (koi__qoi_load alloc m req) as [res m1].
  destruct res as [out|e'|]; cbn [fst] in *; [done| |done].
  intros [= ->].
  destruct (Hl e eq_refl) as [Hp|[->| ->]]; [|by repeat constructor|by repeat constructor].
  destruct (parse_header_fail_reasons _ _ Hp) as [->|[->| ->]];
    [|by repeat constructor|by repeat constructor].
  by destruct (test_passed_magic (ctx m)).
Qed.

Lemma load_8bit_fail m req e :
  (koi__load_and_postprocess_8bit alloc flip m req).1 = Fail e ->
  (koi__load_main alloc m req).1 = Fail e.
Proof.
  unfold koi__load_and_postprocess_8bit.
  destruct (koi__load_main alloc m req) as [res m1].
  destruct res as [[result ri]|e'|]; cbn [fst];
    [|by intros [= ->]|done].
  repeat case_match; cbn [fst]; done.
Qed.

End FailureReasons.

(** A conversion from the 3 or 4 components [koi__qoi_load] decodes to
    1..4 components passes [KOI_ASSERT(req_comp >= 1 && req_comp <= 4)]
    and finds its [KOI__CASE]: it never reaches the [default] label, so
    it ends the same way whether assertions are compiled in or not. *)
Lemma convert_format_in_range {U : Type} (alloc : Z -> bool)
    (m : machine U) (data : list Z) (n req x y : Z) :
  n = 3 \/ n = 4 -> 1 <= req <= 4 ->
  (forall src, req <> n -> convert_pixel n req src <> None)
  /\ (koi__convert_format alloc m data n req x y).1 <> Undef.
Proof.
  intros Hn Hreq.
  assert (E : req = 1 \/ req = 2 \/ req = 3 \/ req = 4) by lia.
  assert (Hcase : forall src, req <> n -> convert_pixel n req src <> None).
  { intros src Hne.
    destruct Hn as [->| ->], E as [->|[->|[->| ->]]]; done. }
  split; [exact Hcase|].
  unfold koi__convert_format, koi__malloc_mad3, koi__malloc.
  destruct (Z.eqb_spec req n) as [->|Hne]; [done|].
  rewrite (proj2 (Z.leb_le 1 req)), (proj2 (Z.leb_le req 4)) by lia.
  cbn [andb negb].
  destruct (negb _); [done|].
  destruct (alloc _); cbn [fst snd]; [|done].
  assert (Hrows : forall js, mapM (convert_row data n req x) js <> None).
  { assert (Hrow : forall j, exists row,
                convert_row data n req x j = Some row).
    { intros j. unfold convert_row.
      destruct (convert_pixel n req (fun _ => 0)) eqn:Ep;
        [by eexists|by destruct (Hcase (fun _ => 0) Hne)]. }
    induction js as [|j js IH]; [done|].
    cbn [mapM]. destruct (Hrow j) as [row ->]. cbn.
    destruct (mapM _ js); [done|by destruct IH]. }
  specialize (Hrows (seqZ 0 (i32 y))).
  by destruct (mapM _ _).
Qed.

(** A load asked for 0 to 4 channels that fails, from memory or through
    a reader, gives one of five reasons.  ["not QOI"] is never among
    them, since the header is parsed only after the test has seen its
    magic, and neither is ["unsupported"]: in this range the load
    converts only from 3 or 4 components to 1 or 2, which reaches no
    assertion of [koi__convert_format] and not its [default] label. *)
Theorem load_failure_reasons {U : Type} (alloc : Z -> bool) (flip : bool)
    (s : koi__context U) (buffer : list Z) (len : Z)
    (cb : koi_io_callbacks U) (u : U) (xyc : out_ptrs) (req : Z)
    (e : string) :
  0 <= req <= 4 ->
  (koi_load_from_memory alloc flip s buffer len xyc req).1 = Fail e
  \/ (koi_load_from_callbacks alloc flip s cb u xyc req).1 = Fail e ->
  e ∈ ["unknown image type"; "QOI CHANNELS"; "QOI COLORSPACE"; "too large";
       "outofmem"]%string.
Proof.
  intros _. unfold koi_load_from_memory, koi_load_from_callbacks.
  intros [H|H]; apply load_8bit_fail in H;
    apply load_main_fail_reasons in H; try done.
  - apply qoi_test_start_mem.
  - cbn [ctx]. destruct (start_callbacks_fresh s cb u).
    by apply qoi_test_keeps.
Qed.

Lemma load_failure_reasons_witness :
  (koi_load_from_memory (fun _ => true) false blank_reader_context
     (qoi_header 1 1 5 0 ++ qoi_trailer) 22 (locations 0 0 0) 0).1
  = Fail "QOI CHANNELS"
  /\ ("QOI CHANNELS" : string)
     ∈ ["unknown image type"; "QOI CHANNELS"; "QOI COLORSPACE"; "too large";
        "outofmem"]%string.
Proof.
  split; [vm_compute; reflexivity|].
  apply (load_failure_reasons (fun _ => true) false blank_reader_context
           (qoi_header 1 1 5 0 ++ qoi_trailer) 22
           (list_reader 128) [] (locations 0 0 0) 0 "QOI CHANNELS").
  - lia.
  - left. vm_compute. reflexivity.
Defined.

(** ** The size of what a load returns *)

Lemma concat_reshape {A : Type} (h k : nat) : forall data : list A,
  length data = (h * k)%nat ->
  concat (reshape (replicate h k) data) = data
  /\ Forall (fun row => length row = k) (reshape (replicate h k) data).
Proof.
  induction h as [|h IH]; intros data Hlen.
  - destruct data; [done|cbn in Hlen; lia].
  - cbn [replicate reshape concat].
    destruct (IH (drop k data)) as [Hc Hf].
    { rewrite length_drop. lia. }
    rewrite Hc, take_drop. split; [done|].
    constructor; [|done]. rewrite length_take. lia.
Qed.

Lemma flip_chunks_nil {A : Type} (fuel : nat) : forall chunk row0 row1 left,
  flip_chunks (A:=A) fuel chunk [] row0 row1 left = [].
Proof.
  induction fuel as [|fuel IH]; intros chunk row0 row1 left;
    cbn [flip_chunks]; destruct (left =? 0); try done.
  unfold memcpy_at, slice. rewrite !take_nil, !drop_nil, !take_nil.
  cbn [app]. rewrite !take_nil, !drop_nil. cbn [app]. apply IH.
Qed.

Lemma vertical_flip_nil {A : Type} chunk w h n :
  koi__vertical_flip (A:=A) chunk [] w h n = [].
Proof.
  unfold koi__vertical_flip.
  induction (seqZ 0 (Z.shiftr h 1)) as [|row rows IH]; [done|].
  cbn [foldl]. by rewrite flip_chunks_nil.
Qed.

(** The flip keeps the size of an image and what holds of each of its
    items. *)
Lemma vertical_flip_shape {A : Type} (P : A -> Prop) chunk
    (data : list A) w h n :
  0 < chunk -> 0 <= w -> 0 <= h -> 0 <= n ->
  Z.of_nat (length data) = w * h * n ->
  length (koi__vertical_flip chunk data w h n) = length data
  /\ (Forall P data -> Forall P (koi__vertical_flip chunk data w h n)).
Proof.
  intros Hc Hw Hh Hn Hlen.
  destruct (concat_reshape (Z.to_nat h) (Z.to_nat (w * n)) data)
    as [Hcat Hrows]; [nia|].
  set (rows := reshape (replicate (Z.to_nat h) (Z.to_nat (w * n))) data) in *.
  assert (Hl : Z.of_nat (length rows) = h).
  { subst rows. rewrite length_reshape, length_replicate. lia. }
  assert (Hall : Forall (fun row => Z.of_nat (length row) = w * n) rows).
  { eapply Forall_impl; [exact Hrows|]. intros row Hr. cbn in Hr. nia. }
  assert (HPr : Forall P data -> Forall (Forall P) rows).
  { intros HP. subst rows. by apply Forall_reshape. }
  clearbody rows. subst data.
  rewrite (vertical_flip_rows chunk rows w h n) by (done || nia).
  split.
  - apply Nat2Z.inj.
    rewrite (length_concat_rows (reverse rows) (w * n))
      by (by apply Forall_reverse).
    rewrite length_reverse. lia.
  - intros HP. apply Forall_concat, Forall_reverse. by apply HPr.
Qed.

(** A load from a memory of bytes that succeeds returns exactly
    [x * y * channels] bytes, where [x] and [y] are the width and height
    it stored, both at most 2^24, and [channels] is the number asked for
    or, when 0 was asked, the 3 or 4 of the file, which it stored where
    the caller gave a place for it. *)
Theorem load_result_shape {U : Type} (alloc : Z -> bool) (flip : bool)
    (s : koi__context U) (buffer : list Z) (len : Z) (xyc : out_ptrs)
    (req : Z) (out : list Z) :
  Forall is_byte buffer ->
  (koi_load_from_memory alloc flip s buffer len xyc req).1 = Ok out ->
  exists x y n,
    x_loc (outs (koi_load_from_memory alloc flip s buffer len xyc req).2)
    = Some x
    /\ y_loc (outs (koi_load_from_memory alloc flip s buffer len xyc req).2)
       = Some y
    /\ comp_loc (outs (koi_load_from_memory alloc flip s buffer len xyc req).2)
       = store_if (comp_loc xyc) n
    /\ 0 <= x <= 2 ^ 24 /\ 0 <= y <= 2 ^ 24 /\ (n = 3 \/ n = 4)
    /\ Z.of_nat (length out) = x * y * (if req =? 0 then n else req)
    /\ Forall is_byte out.
Proof.
  intros Hb. unfold koi_load_from_memory, koi__load_and_postprocess_8bit.
  set (m := {| ctx := koi__start_mem s buffer len; outs := xyc;
               mallocs := [] |}).
  destruct (koi__load_main alloc m req) as [res m1] eqn:Em.
  destruct res as [[result ri]| |]; [|done|done].
  apply load_main_shape in Em
    as (Hbits & x & y & n & Hx & Hy & Hcl & Hxr & Hyr & Hn & Hl & Hf);
    [|by repeat split].
  change (outs m) with xyc in Hcl.
  rewrite Hbits. cbn [Z.eqb Pos.eqb negb].
  destruct flip.
  - unfold result_channels. rewrite Hx, Hy, Hcl.
    destruct (negb (req =? 0)) eqn:Hreq.
    + apply negb_true_iff in Hreq. rewrite Hreq in Hl.
      cbn [fst snd]. intros [= <-].
      exists x, y, n. rewrite Hx, Hy, Hcl, Hreq.
      do 6 (split; [done|]).
      destruct (decide (0 <= req)) as [Hr|Hr].
      * destruct (vertical_flip_shape is_byte 2048 result x y req)
          as [Hlen HP]; [lia|lia|lia|lia|lia|].
        rewrite Hlen. split; [lia|by apply HP].
      * assert (Hnil : result = []).
        { destruct result; [done|]. cbn [length] in Hl. nia. }
        rewrite Hnil in *. rewrite vertical_flip_nil. split; [exact Hl|done].
    + apply negb_false_iff in Hreq. rewrite Hreq in Hl.
      destruct (comp_loc xyc) as [c0|] eqn:Hc0; cbn [store_if fst snd];
        [|done].
      intros [= <-].
      exists x, y, n. rewrite Hx, Hy, Hcl, Hreq. cbn [store_if].
      do 6 (split; [done|]).
      destruct (vertical_flip_shape is_byte 2048 result x y n)
        as [Hlen HP]; [lia|lia|lia|lia|lia|].
      rewrite Hlen. split; [lia|by apply HP].
  - cbn [fst snd]. intros [= <-].
    exists x, y, n. by rewrite Hx, Hy, Hcl.
Qed.

Lemma load_result_shape_witness :
  exists x y n,
    x_loc (outs (koi_load_from_memory (fun _ => true) true blank_context
                   (qoi_file false 0 2 1 3 [1; 2; 3; 4; 5; 6]) 32
                   (locations 0 0 0) 4).2)
    = Some x
    /\ y_loc (outs (koi_load_from_memory (fun _ => true) true blank_context
                      (qoi_file false 0 2 1 3 [1; 2; 3; 4; 5; 6]) 32
                      (locations 0 0 0) 4).2)
       = Some y
    /\ comp_loc (outs (koi_load_from_memory (fun _ => true) true blank_context
                         (qoi_file false 0 2 1 3 [1; 2; 3; 4; 5; 6]) 32
                         (locations 0 0 0) 4).2)
       = store_if (comp_loc (locations 0 0 0)) n
    /\ 0 <= x <= 2 ^ 24 /\ 0 <= y <= 2 ^ 24 /\ (n = 3 \/ n = 4)
    /\ Z.of_nat (length [1; 2; 3; 255; 4; 5; 6; 255])
       = x * y * (if 4 =? 0 then n else 4)
    /\ Forall is_byte [1; 2; 3; 255; 4; 5; 6; 255].
Proof.
  apply (load_result_shape (fun _ => true) true blank_context
           (qoi_file false 0 2 1 3 [1; 2; 3; 4; 5; 6]) 32 (locations 0 0 0)
           4 [1; 2; 3; 255; 4; 5; 6; 255]).
  - vm_compute. repeat constructor; discriminate.
  - vm_compute. reflexivity.
Defined.

(** ** The bytes a stream answers *)

(** [koi__get8], called again and again on the stream over a reader,
    answers the bytes the reader delivers, in their order and across
    the refills, and zeros once the reader has reported its end; the
    stream over a memory that holds the same bytes answers the same. *)
Theorem stream_delivers_bytes {U : Type} (s : koi__context U)
    (cb : koi_io_callbacks U) (u : U) (bytes : list Z) (n : nat) :
  length (buffer_start s) = 128%nat ->
  serves cb u bytes ->
  (get8_times n (koi__start_callbacks s cb u)).1
  = take n (bytes ++ replicate n 0)
  /\ (get8_times n (koi__start_mem s bytes (Z.of_nat (length bytes)))).1
     = take n (bytes ++ replicate n 0).
Proof.
  intros Hlen Hs. split.
  - destruct (pulls_start_callbacks s cb u bytes Hlen Hs)
      as (pending & rest & Hp & Hfeed).
    rewrite (pulls_feed cb n _ _ _ Hp). apply Hfeed.
  - apply (reads_feed n), reads_start_mem.
Qed.

Lemma stream_delivers_bytes_witness :
  (get8_times 10
     (koi__start_callbacks blank_reader_context (list_reader 3)
        [1; 2; 3; 4; 5; 6; 7])).1
  = take 10 ([1; 2; 3; 4; 5; 6; 7] ++ replicate 10 0)
  /\ (get8_times 10
        (koi__start_mem blank_reader_context [1; 2; 3; 4; 5; 6; 7]
           (Z.of_nat (length [1; 2; 3; 4; 5; 6; 7])))).1
     = take 10 ([1; 2; 3; 4; 5; 6; 7] ++ replicate 10 0).
Proof.
  apply (stream_delivers_bytes blank_reader_context (list_reader 3)
           [1; 2; 3; 4; 5; 6; 7] [1; 2; 3; 4; 5; 6; 7] 10).
  - reflexivity.
  - apply list_reader_serves. lia.
Defined.
